(* ===== verification/_CoqProject ===== *)
-Q . S2P
Prelude.v
MpQueue.v
Double.v
Messages.v
Text.v
Exact.v
Strategy.v
OrderState.v
OrderHandler.v
OrderFrame.v
OrderInvariant.v
OrderSend.v
Shutdown.v
Report.v
Signals.v
TradingSession.v
Calendar.v
Pricer.v
PriceLink.v
Framing.v
TcpServer.v
TcpNode.v
TcpClient.v
OrderBook.v
Reconnect.v
WsClient.v
GatewayClient.v
WsTransport.v
Json.v
ListenerEvents.v
Config.v
Cli.v
HttpClient.v
BinanceRest.v
Timers.v
KisConfig.v
BinanceListener.v
Gateway.v
GatewayLink.v
MarketListener.v
Mains.v
FeedLink.v
TraderView.v
Loggers.v
Records.v
KisLayouts.v
KisProduct.v
KisListener.v
TaskRunner.v
Teardown.v
Startup.v
KisGateway.v
