(* ===== verification/Prelude.v ===== *)
(** * OmniTrader: a verification library

    OmniTrader is three programs.  A listener ([listener_main.cpp]) reads one exchange, a
    pricer ([pricer_main.cpp]) turns the listener's feed into fair prices, a trader
    ([trader_main.cpp]) quotes around them.  They talk over TCP, one JSON text per line.
    This library models them in Rocq, one file per component, and proves what makes each
    correct.  Paths below are under [src/src/].

    ** Parts

    Foundations.  [Prelude]: machine integers and their wrap-around, ordered iteration of
    maps, the state monad and its lemmas, shared tactics and hints.  [MpQueue]: the queues
    between threads, which keep the order of each thread that feeds them and no other.  [Double]: [double] as
    IEEE binary64 on [spec_float], with [<cmath>]'s rounding and the narrowing casts.
    [Text] and [Exact]: the standard library's number printing and reading, and when they
    lose nothing.  [Messages]: [common/], [trader/price_dtypes.hpp], the gateway structs.
    [Json]: what the code asks of a parsed document, as a class.

    The trader ([trader/]).  [Strategy]: unit conversions and [GeuantStrategy].
    [OrderState], [OrderHandler]: the members of [OrderHandler], and one definition per
    handler of [order_handler.cpp], in a state monad over the handler, the clock, the task
    queue and the trace of what was sent.  [OrderFrame]: what no handler touches;
    [OrderInvariant]: the reachable states; [OrderSend]: what leaves for the venue.
    [Shutdown]: [shutdown()] and the phases it runs; [Report]: what it says it leaves.
    [Timers]: the decision tick, and its like in the pricer and the listener.  [Signals]: [utils/shutdown.cpp], one
    atomic operation at a time, and the loop conditions of the programs.
    [TradingSession]: the trader's [main] from its handler to its exit; [Mains]: the other
    two.  [Startup] and [Teardown]: every constructor that starts a thread and every destructor
    that ends one, in all three.  [Gateway]: the order
    gateway interface with its laws, and Binance's; [KisGateway]: KIS's, over the
    serial worker of [TaskRunner] ([utils/task_runner.cpp]).  [GatewayLink]: handler,
    gateway and the venue's streams together.  [GatewayClient]: the slot of the gateway's
    websocket client, between the constructor and the redials.  [TraderView]: what the trader
    knows of the market, at the end of its link.

    The pricer ([pricer/]).  [Pricer]: market state, the factor interface and the
    microprice factor, the calculator, the service.  [PriceLink]: its messages as the trader
    uses them.

    The listener ([market_listener/]).  [OrderBook]: the book kept from a snapshot and
    differences.  [BinanceListener]: the Binance adapter, over [BinanceRest] and [HttpClient]
    ([connection_handlers/rest/]).  [KisLayouts], [KisProduct], [KisListener]: the
    KIS adapter.  [ListenerEvents]: the adapter interface; [MarketListener]: the process
    around any adapter.

    Links ([connection_handlers/]).  [Framing]: lines out of chunks, and a session's writer
    as a step relation.  [TcpServer]: the subscription registry, one definition per task.
    [TcpNode]: the server whole -- sessions, task queue, worker and the threads that
    interleave.  [TcpClient]: the reconnecting client.  [FeedLink]: listener, server, client
    and consumer composed.  [WsClient]: the websocket client, its handlers and ping timer;
    [Reconnect]: its connection flags and the three supervisors that redial it;
    [WsTransport]: its host and trust lookups, and KIS decryption.

    Launch and files.  [Config]: [config_handlers/] and every [parse_json]; [Cli]: the
    flags, and the two launch forms against each other.  [KisConfig]: the session tokens.
    [Calendar]: the date of a time stamp; [Records]: the csv trails; [Loggers]: [loggers/].

    ** What is proved

    - The trader: the bookkeeping invariant of every reachable state, through the stop
      sequence to the end ([OrderInvariant.reachable_inv]), a picture of the market that is
      the one published, whatever else its queue carried ([TraderView]), every request sendable ([OrderSend]), quotes inside
      their caps and limits and resting orders paired soundly ([Strategy]), a stop sequence
      that ends and only ever cancels or reduces ([Shutdown]) and
      reports what is left ([Report]), signals that are forgiven during it ([Signals]), whole
      sessions that end that way -- with nothing outstanding, or a last cancel phase run to its
      own deadline ([TradingSession]), and decision ticks that keep their grid ([Timers]).
    - The listener: a synced book has missed nothing, and what goes out is its top
      ([OrderBook]), the books published are those of a reference that keeps snapshots and
      updates and no book ([BinanceListener]), the feed is broadcast whole, in the order of
      each thread that makes it ([MarketListener]), frames of every KIS layout are read in
      full ([KisListener]), a new subscriber's account snapshot is served
      ([MarketListener.snapshots_are_served]), the csv files are the feed as far as quill
      keeps it ([Records]), under the calendar's date ([Calendar]).
    - The links: messages arrive whole, in each sending thread's order ([Framing]), the registry is its
      history ([TcpServer]), the running server serves each client what it asked for in
      every interleaving ([TcpNode]), what the listener publishes is what the consumer's
      queue gets ([FeedLink]), a dropped link is dialled again ([TcpClient], [Reconnect]),
      a websocket peer that falls silent is dropped in two ping intervals ([WsClient]), and an HTTP exchange says and returns what it was given ([HttpClient]).
    - The gateways: requests in order, signed, each answered once ([Gateway],
      [KisGateway], [TaskRunner]); an order session that is redialled in every interleaving
      ([GatewayClient]); what reaches the wire is what was decided, and what comes
      back is recognized ([GatewayLink]).
    - The launches: both forms agree ([Cli]), unknown keys are refused and documents read
      back ([Config]), tokens live as long as they say ([KisConfig]).
    - The processes: the pricer and the listener handle the events of their turns and end
      ([Mains]); all three come up without using what is not made yet
      ([Startup.constructors_are_ready]) and come down without using what they destroyed, but
      for two classes that [Teardown.destructors_spare_the_rest] names.
    - Where the code falls short, a theorem says so: among others a KIS order loses its side
      ([KisGateway.kis_side_is_lost]), a connect that throws is never redialled
      ([Reconnect.failed_init_is_never_redialled]), a short KIS record ends the process
      ([KisListener.short_record_ends_the_process]), and so does a KIS connection that closes
      before it is seen open ([KisListener.stale_open_ends_the_process]), a VWAP price is never used
      ([PriceLink.vwap_price_is_ignored]), no snapshot is fetched with the product refresh off
      ([MarketListener.startup_only_starves_subscribers]), a quiet process misses its close
      ([Mains.close_missed_when_quiet]), a websocket client is stopped after its overrides are
      gone ([Teardown.websocket_hooks_outlive_their_class]), a constructor held up too long
      keeps a dead order session ([GatewayClient.slow_constructor_keeps_the_dead_client]).

    ** Choices

    State is explicit: a record per component, handlers in the state monad where they
    thread much of it, plain functions elsewhere, and a step relation where threads
    interleave.  A clock is a function from the number of the reading to its value
    ([OrderState.Env]) or an argument.  Loops that the code ends by a deadline run on fuel
    and report whether they ended by themselves; [Shutdown.shutdown_terminates] gives a fuel
    that is always enough from a clock that advances.  [TradingSession.trading_loop] has one
    unit per turn, and ends within any fuel above the poll that says stop; so does
    [Mains.main_loop].  A destructor in [Teardown], and a constructor in [Startup], is a
    program of its own: what it stops, waits for and destroys, or makes and starts, in the
    order of the source, with what each thread may use.  [Framing.take_lines] uses the length
    of the buffer, which [take_lines_fuel] shows is enough.  Integers keep their width
    where a sum can leave it ([wrap_s], [wrap_u]).  A [std::map] is a [gmap] iterated in key
    order by [kvs]; the order book, keyed by doubles, is a sorted list.

    Parameters stand for code that is not in the repository: glaze and nlohmann (JSON in and
    out), Boost.Asio, websocketpp and curl (their completions are events or a function
    [net]), OpenSSL (HMAC, AES), argparse, [std::pow], quill (what it documents of its
    rotating files, [Loggers.QuillFiles]).  The laws assumed of them are named hypotheses,
    and every theorem with one has a witness that instantiates it.  Of moodycamel's
    multi-producer queue only the documented order is kept, one stream per producer
    ([MpQueue]); which stream a dequeue comes to first is an argument of the dequeue.

    ** Not modelled

    Log lines: output only.  The construction of sockets, handles, TLS contexts and
    threads: calls with no decisions of the program's own.  Signal delivery, thread
    scheduling and memory order below one atomic operation.  Python tools, build files and
    scripts. *)
From stdpp Require Export base tactics option list gmap strings sorting.
From Stdlib Require Export ZArith Lia.

#[export] Set Default Goal Selector "!".
Open Scope Z_scope.

(** ** Machine integers
    The program carries prices as [int64_t], quantities as [int32_t], client order
    ids as [uint64_t].  A value is a [Z]; [wrap_s]/[wrap_u] write the wrap-around. *)
Definition wrap_u (w z : Z) : Z := z mod 2 ^ w.
Definition wrap_s (w z : Z) : Z := (z + 2 ^ (w - 1)) mod 2 ^ w - 2 ^ (w - 1).

Definition int32_min : Z := - 2 ^ 31.
Definition int32_max : Z := 2 ^ 31 - 1.
Definition int64_min : Z := - 2 ^ 63.
Definition int64_max : Z := 2 ^ 63 - 1.
Definition in_int32 (z : Z) : Prop := int32_min <= z <= int32_max.
Definition in_int64 (z : Z) : Prop := int64_min <= z <= int64_max.

(** [std::min]/[std::max] on integers, with the C++ tie rule (irrelevant on [Z]). *)
Definition std_min (a b : Z) : Z := if b <? a then b else a.
Definition std_max (a b : Z) : Z := if a <? b then b else a.

(** ** Ordered iteration of a finite map
    [std::map] is a [gmap] for lookup; loops over it go through [kvs], the bindings
    in ascending key order. *)
Section kvs.
Context {K : Type} `{Countable K} (R : relation K) `{!RelDecision R}.

Definition key_le {V : Type} (a b : K * V) : Prop := R a.1 b.1.

#[global] Instance key_le_dec {V} (a b : K * V) : Decision (key_le a b).
Proof. unfold key_le. apply _. Defined.

Definition kvs_by {V : Type} (m : gmap K V) : list (K * V) :=
  merge_sort key_le (map_to_list m).
End kvs.

Definition string_le (s t : string) : Prop := String.leb s t = true.
#[export] Instance string_le_dec : RelDecision string_le.
Proof. intros s t. unfold string_le. apply _. Defined.

(** Integer-keyed and string-keyed maps, in their iteration order. *)
Abbreviation kvs := (kvs_by Z.le).
Abbreviation skvs := (kvs_by string_le).

(** A [std::set<uint64_t>] in its iteration order. *)
Definition set_seq_asc (s : gset Z) : list Z := merge_sort Z.le (elements s).

(** ** A state monad, with stdpp's notation *)
Definition st (S A : Type) : Type := S -> A * S.

#[export] Instance st_ret {S} : MRet (st S) := fun A a s => (a, s).
#[export] Instance st_bind {S} : MBind (st S) := fun A B f m s =>
  let r := m s in f r.1 r.2.

Section st_ops.
Context {S : Type}.

Definition gets {A} (f : S -> A) : st S A := fun s => (f s, s).
Definition modify (f : S -> S) : st S unit := fun s => (tt, f s).
Definition when (b : bool) (m : st S unit) : st S unit := if b then m else mret tt.
Definition skip : st S unit := mret tt.

Fixpoint for_each {A} (l : list A) (f : A -> st S unit) : st S unit :=
  match l with
  | [] => mret tt
  | a :: l => f a ;; for_each l f
  end.

(** [m] keeps the state predicate [P]. *)
Definition preserves {A} (P : S -> Prop) (m : st S A) : Prop :=
  forall s, P s -> P (m s).2.

(** [m] moves the state along [R]. *)
Definition follows {A} (R : S -> S -> Prop) (m : st S A) : Prop :=
  forall s, R s (m s).2.
End st_ops.
#[global] Typeclasses Opaque preserves follows.

Create HintDb omni.

(** ** Tactics *)

(** Case split on the outermost [match]/[if] of the goal, then simplify. *)
Ltac split_match :=
  match goal with
  | |- context [ match ?x with _ => _ end ] =>
      lazymatch x with context [ match _ with _ => _ end ] => fail | _ => idtac end;
      destruct x eqn:?
  end.

Ltac split_match_in H :=
  match type of H with
  | context [ match ?x with _ => _ end ] =>
      lazymatch x with context [ match _ with _ => _ end ] => fail | _ => idtac end;
      destruct x eqn:?
  end.

(** Turn boolean integer tests into propositions and finish with [lia]. *)
Ltac zify_bools :=
  repeat match goal with
  | H : (_ <? _) = true |- _ => apply Z.ltb_lt in H
  | H : (_ <? _) = false |- _ => apply Z.ltb_ge in H
  | H : (_ <=? _) = true |- _ => apply Z.leb_le in H
  | H : (_ <=? _) = false |- _ => apply Z.leb_gt in H
  | H : (_ =? _) = true |- _ => apply Z.eqb_eq in H
  | H : (_ =? _) = false |- _ => apply Z.eqb_neq in H
  | H : (_ && _)%bool = true |- _ => apply andb_true_iff in H; destruct H
  | H : (_ || _)%bool = false |- _ => apply orb_false_iff in H; destruct H
  | H : negb _ = true |- _ => apply negb_true_iff in H
  | H : negb _ = false |- _ => apply negb_false_iff in H
  | H : bool_decide _ = true |- _ => apply bool_decide_eq_true in H
  | H : bool_decide _ = false |- _ => apply bool_decide_eq_false in H
  end.
Ltac zbool := zify_bools; try lia.

(** ** Integer lemmas *)
Lemma std_min_spec a b : std_min a b = Z.min a b.
Proof. unfold std_min. destruct (b <? a) eqn:E; zbool. Qed.

Lemma std_max_spec a b : std_max a b = Z.max a b.
Proof. unfold std_max. destruct (a <? b) eqn:E; zbool. Qed.

Lemma wrap_u_range w z : 0 <= w -> 0 <= wrap_u w z < 2 ^ w.
Proof. intros. unfold wrap_u. apply Z.mod_pos_bound. lia. Qed.

Lemma wrap_u_id w z : 0 <= z < 2 ^ w -> wrap_u w z = z.
Proof. intros. unfold wrap_u. by apply Z.mod_small. Qed.

Lemma wrap_s_id w z :
  1 <= w -> - 2 ^ (w - 1) <= z < 2 ^ (w - 1) -> wrap_s w z = z.
Proof.
  intros Hw Hz. unfold wrap_s.
  assert (2 ^ w = 2 * 2 ^ (w - 1)) as E.
  { replace w with (Z.succ (w - 1)) at 1 by lia. by rewrite Z.pow_succ_r by lia. }
  rewrite Z.mod_small by lia. lia.
Qed.

Lemma wrap_s_range w z : 1 <= w -> - 2 ^ (w - 1) <= wrap_s w z < 2 ^ (w - 1).
Proof.
  intros Hw. unfold wrap_s.
  assert (2 ^ w = 2 * 2 ^ (w - 1)) as E.
  { replace w with (Z.succ (w - 1)) at 1 by lia. by rewrite Z.pow_succ_r by lia. }
  pose proof (Z.mod_pos_bound (z + 2 ^ (w - 1)) (2 ^ w)). lia.
Qed.

Lemma wrap32_id z : in_int32 z -> wrap_s 32 z = z.
Proof. unfold in_int32, int32_min, int32_max. intros. apply wrap_s_id; lia. Qed.

Lemma wrap64_id z : in_int64 z -> wrap_s 64 z = z.
Proof. unfold in_int64, int64_min, int64_max. intros. apply wrap_s_id; lia. Qed.

(** ** Ordered-iteration lemmas *)
Section kvs_lemmas.
Context {K : Type} `{Countable K} (R : relation K) `{!RelDecision R}.

Lemma kvs_by_perm {V} (m : gmap K V) : kvs_by R m ≡ₚ map_to_list m.
Proof. apply merge_sort_Permutation. Qed.

Lemma elem_of_kvs_by {V} (m : gmap K V) k v :
  (k, v) ∈ kvs_by R m <-> m !! k = Some v.
Proof. rewrite kvs_by_perm. apply elem_of_map_to_list. Qed.

Lemma elem_of_keys {V} (m : gmap K V) k : k ∈ (kvs_by R m).*1 <-> is_Some (m !! k).
Proof.
  split.
  - intros ((k'&v)&->&Hk)%list_elem_of_fmap. apply elem_of_kvs_by in Hk. naive_solver.
  - intros [v Hv]. apply list_elem_of_fmap. exists (k, v).
    split; [done|]. by apply elem_of_kvs_by.
Qed.

Lemma kvs_by_empty {V} : kvs_by R (∅ : gmap K V) = [].
Proof. unfold kvs_by. by rewrite map_to_list_empty. Qed.

Lemma kvs_by_nil_inv {V} (m : gmap K V) : kvs_by R m = [] -> m = ∅.
Proof.
  intros E. apply map_to_list_empty_iff, Permutation_nil_r.
  by rewrite <- E, kvs_by_perm.
Qed.

Lemma NoDup_keys_kvs_by {V} (m : gmap K V) : NoDup (kvs_by R m).*1.
Proof. rewrite kvs_by_perm. apply NoDup_fst_map_to_list. Qed.

Lemma length_kvs_by {V} (m : gmap K V) : length (kvs_by R m) = size m.
Proof. by rewrite kvs_by_perm, length_map_to_list. Qed.

Lemma kvs_by_sorted {V} (m : gmap K V) `{!Transitive R, !Total R} :
  StronglySorted (key_le R) (kvs_by R m).
Proof.
  apply StronglySorted_merge_sort.
  - intros a b c. unfold key_le. apply transitivity.
  - intros a b. unfold key_le. apply total. apply _.
Qed.
End kvs_lemmas.

Lemma elem_of_set_seq_asc x s : x ∈ set_seq_asc s <-> x ∈ s.
Proof. unfold set_seq_asc. by rewrite merge_sort_Permutation, elem_of_elements. Qed.

(** ** Interleavings: [c] is [a] and [b] shuffled together *)
Inductive merges {A} : list A -> list A -> list A -> Prop :=
  | merges_nil : merges [] [] []
  | merges_l x a b c : merges a b c -> merges (a ++ [x]) b (c ++ [x])
  | merges_r x a b c : merges a b c -> merges a (b ++ [x]) (c ++ [x]).

Lemma merges_r_app {A} (l a b c : list A) : merges a b c -> merges a (b ++ l) (c ++ l).
Proof.
  intros H. induction l as [|x l IH] using rev_ind; [by rewrite !app_nil_r|].
  rewrite !app_assoc. by constructor.
Qed.
Lemma merges_sublist {A} (a b c : list A) : merges a b c -> a `sublist_of` c /\ b `sublist_of` c.
Proof.
  induction 1 as [|x a b c _ [IH1 IH2]|x a b c _ [IH1 IH2]]; [done|..]; split;
    first [by apply sublist_app|by apply sublist_inserts_r].
Qed.
Lemma merges_length {A} (a b c : list A) : merges a b c -> length c = (length a + length b)%nat.
Proof. induction 1; rewrite ?length_app; simpl; lia. Qed.

(** ** Program-logic lemmas of the state monad *)
Section logic.
Context {S : Type}.
Implicit Types P : S -> Prop.
Implicit Types R : S -> S -> Prop.

Lemma preserves_ret {A} P (a : A) : preserves P (mret a).
Proof. by intros s Hs. Qed.

Lemma preserves_bind {A B} P (m : st S A) (f : A -> st S B) :
  preserves P m -> (forall a, preserves P (f a)) -> preserves P (m ≫= f).
Proof. intros Hm Hf s Hs. apply Hf, Hm, Hs. Qed.

Lemma preserves_gets {A} P (f : S -> A) : preserves P (gets f).
Proof. by intros s Hs. Qed.

Lemma preserves_modify P f : (forall s, P s -> P (f s)) -> preserves P (modify f).
Proof. intros Hf s Hs. by apply Hf. Qed.

Lemma preserves_when P b m : (b = true -> preserves P m) -> preserves P (when b m).
Proof. destruct b; simpl; intros Hm; [by apply Hm | apply preserves_ret]. Qed.

Lemma preserves_for_each {A} P (l : list A) f :
  (forall a, a ∈ l -> preserves P (f a)) -> preserves P (for_each l f).
Proof.
  induction l as [|a l IH]; intros Hf; simpl.
  - apply preserves_ret.
  - apply preserves_bind; [apply Hf; set_solver|].
    intros _. apply IH. intros b Hb. apply Hf. set_solver.
Qed.

Lemma follows_ret {A} R `{!Reflexive R} (a : A) : follows R (mret a).
Proof. by intros s. Qed.

Lemma follows_bind {A B} R `{!Transitive R} (m : st S A) (f : A -> st S B) :
  follows R m -> (forall a, follows R (f a)) -> follows R (m ≫= f).
Proof. intros Hm Hf s. etrans; [apply Hm | apply Hf]. Qed.

Lemma follows_gets {A} R `{!Reflexive R} (f : S -> A) : follows R (gets f).
Proof. by intros s. Qed.

Lemma follows_modify R f : (forall s, R s (f s)) -> follows R (modify f).
Proof. by intros Hf s. Qed.

Lemma follows_when R `{!Reflexive R} b m : follows R m -> follows R (when b m).
Proof. destruct b; simpl; intros Hm; [done | by apply follows_ret]. Qed.

Lemma follows_for_each {A} R `{!PreOrder R} (l : list A) f :
  (forall a, a ∈ l -> follows R (f a)) -> follows R (for_each l f).
Proof.
  induction l as [|a l IH]; intros Hf; simpl.
  - apply follows_ret, _.
  - apply follows_bind; [apply _| |].
    + apply Hf. set_solver.
    + intros _. apply IH. intros b Hb. apply Hf. set_solver.
Qed.

(** A loop achieves for each element what its body does, when nothing after undoes it. *)
Lemma for_each_achieves {A} R `{!PreOrder R} (Q : A -> S -> Prop) (l : list A) f :
  (forall a, follows R (f a)) -> (forall a s s', R s s' -> Q a s -> Q a s') ->
  (forall a s, Q a (f a s).2) -> forall s a, a ∈ l -> Q a (for_each l f s).2.
Proof.
  intros Hf HQ Ha. induction l as [|b l IH]; intros s a; [by intros ?%elem_of_nil|].
  change ((for_each (b :: l) f s).2) with ((for_each l f (f b s).2).2).
  intros [->|Hl]%elem_of_cons; [|by apply IH].
  apply (HQ _ (f b s).2); [by apply follows_for_each|apply Ha].
Qed.
End logic.

#[export] Hint Resolve preserves_ret preserves_gets follows_ret follows_gets : omni.
