(* ===== verification/MpQueue.v ===== *)
(** * MpQueue: the program's multi-producer queues

    The [moodycamel::BlockingConcurrentQueue] between the program's threads keeps one
    stream per producing thread: it promises that what one thread enqueued comes out in the
    order that thread enqueued it, and nothing about the order of two threads.  A queue is
    the list of its items in the order they went in, each with the thread that put it there;
    a dequeue is told which thread's stream it comes to first, and takes that stream's
    oldest item, or any other stream's when that one is empty.  Which stream comes first is
    left open wherever the queue is used.  (The library is not part of the repository; what
    is said here is what it documents.) *)
From S2P Require Import Prelude.

#[local] Open Scope list_scope.

Section queue.
Context {K A : Type} `{!EqDecision K}.
Implicit Types q : list (K * A).

(** The items of thread [k], oldest first. *)
Definition from (k : K) q : list A :=
  omap (fun kx => if decide (kx.1 = k) then Some kx.2 else None) q.

(** Take the oldest item of thread [k]. *)
Fixpoint take_from (k : K) q : option (A * list (K * A)) :=
  match q with
  | [] => None
  | (k', x) :: q =>
      if decide (k' = k) then Some (x, q)
      else '(y, q) ← take_from k q; Some (y, (k', x) :: q)
  end.

(** [enqueue] by thread [k]; [try_dequeue], which comes to the stream of [first] first. *)
Definition mp_enqueue (k : K) (x : A) q : list (K * A) := q ++ [(k, x)].
Definition try_dequeue (first : K) q : option (K * A * list (K * A)) :=
  match take_from first q with
  | Some (x, q) => Some (first, x, q)
  | None => match q with [] => None | kx :: q => Some (kx, q) end
  end.

(** ** Streams *)
Lemma from_app k q q' : from k (q ++ q') = from k q ++ from k q'.
Proof. apply omap_app. Qed.
Lemma from_cons k j x q : from k ((j, x) :: q) = if decide (j = k) then x :: from k q else from k q.
Proof. unfold from. simpl. by case_decide. Qed.
Lemma from_one k j x : from k [(j, x)] = if decide (j = k) then [x] else [].
Proof. unfold from. simpl. by case_decide. Qed.
Lemma from_pairs k j (l : list A) : from k (pair j <$> l) = if decide (j = k) then l else [].
Proof.
  induction l as [|x l IH]; [by case_decide|].
  change (pair j <$> x :: l) with ((j, x) :: (pair j <$> l)). rewrite from_cons, IH. by case_decide.
Qed.
Lemma elem_of_from k x q : x ∈ from k q <-> (k, x) ∈ q.
Proof.
  unfold from. rewrite list_elem_of_omap. split.
  - intros ([j y]&Hin&Hy). simpl in Hy. case_decide; [|done]. simplify_eq. done.
  - intros Hin. exists (k, x). split; [done|]. simpl. by rewrite decide_True.
Qed.

(** Two queues with the same streams: what the library keeps of a queue's order. *)
Definition same_streams q q' : Prop := forall k, from k q = from k q'.
#[export] Instance same_streams_equivalence : Equivalence same_streams.
Proof. split; [by intros q k|by intros q q' H k|by intros q1 q2 q3 H1 H2 k; rewrite H1]. Qed.
#[export] Instance same_streams_app : Proper (same_streams ==> same_streams ==> same_streams) (++).
Proof. intros q1 q1' H1 q2 q2' H2 k. by rewrite !from_app, H1, H2. Qed.

Lemma same_streams_elem q q' kx : same_streams q q' -> kx ∈ q <-> kx ∈ q'.
Proof. intros H. destruct kx as [k x]. rewrite <- !elem_of_from. by rewrite (H k). Qed.
Lemma same_streams_Forall (P : K * A -> Prop) q q' : same_streams q q' -> Forall P q -> Forall P q'.
Proof. intros H. rewrite !Forall_forall. intros HP kx Hkx. apply HP. by rewrite (same_streams_elem _ _ _ H). Qed.

(** ** Dequeueing *)
Lemma take_from_split k q x q' :
  take_from k q = Some (x, q') -> exists q1 q2, q = q1 ++ (k, x) :: q2 /\ q' = q1 ++ q2 /\ from k q1 = [].
Proof.
  revert q'. induction q as [|[j y] q IH]; intros q'; simpl; [done|]. case_decide as E.
  - intros [= -> ->]. subst j. by exists [], q'.
  - intros H. destruct (take_from k q) as [[z qz]|] eqn:Ez; simplify_eq/=.
    destruct (IH _ eq_refl) as (q1&q2&->&->&Hn). exists ((j, y) :: q1), q2.
    by rewrite from_cons, decide_False.
Qed.

Lemma try_dequeue_split first q k x q' :
  try_dequeue first q = Some (k, x, q') ->
  exists q1 q2, q = q1 ++ (k, x) :: q2 /\ q' = q1 ++ q2 /\ from k q1 = [].
Proof.
  unfold try_dequeue. destruct (take_from first q) as [[y qy]|] eqn:E.
  - intros [= <- <- <-]. by apply take_from_split.
  - destruct q as [|ky q]; [done|]. intros [= -> ->]. by exists [], q'.
Qed.

(** It fails on an empty queue only. *)
Lemma try_dequeue_none first q : try_dequeue first q = None <-> q = [].
Proof.
  split; [|by intros ->]. unfold try_dequeue. destruct (take_from first q) as [[]|]; [done|].
  by destruct q.
Qed.

(** Any stream may be the one it takes from. *)
Lemma try_dequeue_any k q x l : from k q = x :: l -> exists q', try_dequeue k q = Some (k, x, q').
Proof.
  intros H. assert (exists q', take_from k q = Some (x, q')) as [q' E].
  { induction q as [|[j y] q IH]; [done|]. rewrite from_cons in H. simpl.
    destruct (decide (j = k)) as [->|Hne]; [injection H as ->; by eexists|].
    destruct (IH H) as [q' E]. exists ((j, y) :: q'). by rewrite E. }
  exists q'. unfold try_dequeue. by rewrite E.
Qed.

(** What is taken was the head of its stream, and the other streams are as they were. *)
Lemma try_dequeue_streams first q k x q' :
  try_dequeue first q = Some (k, x, q') -> same_streams ((k, x) :: q') q.
Proof.
  intros (q1&q2&->&->&Hn)%try_dequeue_split j.
  rewrite from_cons, !from_app, from_cons. case_decide; [subst; by rewrite Hn|done].
Qed.

(** A queue of two threads shuffles their streams. *)
Lemma from_merges a b q :
  a <> b -> Forall (fun kx => kx.1 = a \/ kx.1 = b) q -> merges (from a q) (from b q) q.*2.
Proof.
  intros Hne. induction q as [|[k x] q IH] using rev_ind; [constructor|].
  rewrite Forall_app, Forall_singleton, fmap_app, !from_app, !from_one. intros [Hq Hk]. simpl in *.
  destruct Hk as [->| ->];
    [rewrite (decide_True (P := a = a)), (decide_False (P := a = b)) by done
    |rewrite (decide_True (P := b = b)), (decide_False (P := b = a)) by done];
    rewrite app_nil_r; constructor; by apply IH.
Qed.
Lemma same_streams_merges a b q q' :
  a <> b -> same_streams q q' -> Forall (fun kx => kx.1 = a \/ kx.1 = b) q' ->
  merges (from a q') (from b q') q.*2.
Proof.
  intros Hne H Hq. rewrite <- (H a), <- (H b). apply from_merges; [done|].
  symmetry in H. by apply (same_streams_Forall _ q').
Qed.
End queue.

(** The threads of a process that serves a link: the network's io thread, the server's
    broadcast worker, and its owners' (the main thread, an adapter's, a timer's). *)
Inductive Thread := IoThread | Worker | Owner (n : nat).
#[export] Instance thread_eq_dec : EqDecision Thread.
Proof. solve_decision. Defined.
