(* ===== verification/Double.v ===== *)
(** * Double: the C++ [double]

    IEEE-754 binary64 on the standard library's executable [spec_float] (round to
    nearest even), with the [<cmath>] functions, [std::min]/[std::max] and the
    narrowing casts the program applies to doubles.  The second half is the order,
    sign and exactness theory the components use. *)
From Stdlib Require Export SpecFloat.
From S2P Require Import Prelude.

(** ** Arithmetic *)
Definition prec : Z := 53.
Definition emax : Z := 1024.
Abbreviation double := spec_float.

#[export] Instance double_eq_dec : EqDecision double.
Proof. solve_decision. Defined.

Definition fnan : double := S754_nan.
Definition fzero : double := S754_zero false.
(** [static_cast<double>(z)] of an integer. *)
Definition of_Z (z : Z) : double := binary_normalize prec emax z 0 false.
Definition fadd (x y : double) : double := SFadd prec emax x y.
Definition fsub (x y : double) : double := SFsub prec emax x y.
Definition fmul (x y : double) : double := SFmul prec emax x y.
Definition fdiv (x y : double) : double := SFdiv prec emax x y.
Definition fopp (x : double) : double := SFopp x.
Definition fabs (x : double) : double := SFabs x.

Definition flt (x y : double) : bool := SFltb x y.
Definition fle (x y : double) : bool := SFleb x y.
Definition feq (x y : double) : bool := SFeqb x y.

Definition is_nan (x : double) : bool := match x with S754_nan => true | _ => false end.
Definition is_finite (x : double) : bool :=
  match x with S754_zero _ | S754_finite _ _ _ => true | _ => false end.

(** [std::min(a, b)] is [(b < a) ? b : a], [std::max(a, b)] is [(a < b) ? b : a]. *)
Definition fmin (a b : double) : double := if flt b a then b else a.
Definition fmax (a b : double) : double := if flt a b then b else a.

(** An integral magnitude back to a double, keeping the sign of a zero result. *)
Definition of_signed (s : bool) (q : Z) : double :=
  binary_normalize prec emax (cond_Zopp s q) 0 s.

(** [std::round] (halves away from zero), [std::floor], [std::ceil], [std::trunc]. *)
Definition fround (x : double) : double :=
  match x with
  | S754_finite s m e =>
      if 0 <=? e then x
      else let d := 2 ^ (- e) in of_signed s ((2 * Zpos m + d) / (2 * d))
  | _ => x
  end.

Definition ffloor (x : double) : double :=
  match x with
  | S754_finite s m e =>
      if 0 <=? e then x
      else
        let d := 2 ^ (- e) in
        let up := if s then (if Zpos m mod d =? 0 then 0 else 1) else 0 in
        of_signed s (Zpos m / d + up)
  | _ => x
  end.

Definition fceil (x : double) : double :=
  match x with
  | S754_finite s m e =>
      if 0 <=? e then x
      else
        let d := 2 ^ (- e) in
        let up := if s then 0 else (if Zpos m mod d =? 0 then 0 else 1) in
        of_signed s (Zpos m / d + up)
  | _ => x
  end.

(** The integer part of a finite double. *)
Definition trunc_Z (x : double) : option Z :=
  match x with
  | S754_zero _ => Some 0
  | S754_finite s m e =>
      Some (cond_Zopp s (if 0 <=? e then Zpos m * 2 ^ e else Zpos m / 2 ^ (- e)))
  | _ => None
  end.

(** [static_cast] of a double to a [w]-bit signed integer.  A value that does not fit
    is undefined in C++; x86-64's conversion instruction, which the compiler emits,
    yields the most negative integer, and that is the value taken here. *)
Definition to_sint (w : Z) (x : double) : Z :=
  match trunc_Z x with
  | Some z => if (- 2 ^ (w - 1) <=? z) && (z <? 2 ^ (w - 1)) then z else - 2 ^ (w - 1)
  | None => - 2 ^ (w - 1)
  end.

Definition to_int32 (x : double) : Z := to_sint 32 x.
Definition to_int64 (x : double) : Z := to_sint 64 x.

(** Literals of the sources: [1e-8] and [10000.0] (correctly rounded). *)
Definition fone : double := of_Z 1.
Definition f10000 : double := of_Z 10000.
Definition f1em8 : double := fdiv (of_Z 1) (of_Z 100000000).

(** [value_or] on an optional double, and [x > 0.0]. *)
Definition value_or (d : double) (o : option double) : double := default d o.
Definition fpos (x : double) : bool := flt fzero x.

(** ** Order *)
Lemma SFcompare_swap x y : SFcompare y x = CompOpp <$> SFcompare x y.
Proof.
  destruct x as [sx|sx| |sx mx ex], y as [sy|sy| |sy my ey]; simpl;
    try (destruct sx); try (destruct sy); try reflexivity.
  all: rewrite (Z.compare_antisym ex ey); destruct (ex ?= ey); simpl; try reflexivity.
  all: change (Pos.compare_cont Eq ?a ?b) with (Pos.compare a b);
    by rewrite (Pos.compare_antisym mx my).
Qed.

Lemma SFcompare_None x y : SFcompare x y = None <-> is_nan x || is_nan y = true.
Proof.
  destruct x as [sx|sx| |sx mx ex], y as [sy|sy| |sy my ey]; simpl;
    repeat case_match; naive_solver.
Qed.

Lemma flt_irrefl x : flt x x = false.
Proof.
  unfold flt, SFltb. destruct (SFcompare x x) as [c|] eqn:E; [|done].
  pose proof (SFcompare_swap x x) as S. rewrite E in S. simpl in S.
  by destruct c.
Qed.

Lemma flt_nan_l y : flt fnan y = false.
Proof. done. Qed.

Lemma flt_nan_r x : flt x fnan = false.
Proof. by destruct x. Qed.

Lemma flt_asym x y : flt x y = true -> flt y x = false.
Proof.
  unfold flt, SFltb. rewrite (SFcompare_swap x y).
  destruct (SFcompare x y) as [[]|]; done.
Qed.

(** On non-NaN operands the order is total. *)
Lemma flt_false_fle x y :
  is_nan x = false -> is_nan y = false -> flt x y = false -> fle y x = true.
Proof.
  intros Hx Hy. unfold flt, fle, SFltb, SFleb. rewrite (SFcompare_swap x y).
  destruct (SFcompare x y) as [[]|] eqn:E; simpl; try done.
  apply SFcompare_None in E. by rewrite Hx, Hy in E.
Qed.

Lemma flt_fle x y : flt x y = true -> fle x y = true.
Proof. unfold flt, fle, SFltb, SFleb. by destruct (SFcompare x y) as [[]|]. Qed.

Lemma fle_refl x : is_nan x = false -> fle x x = true.
Proof. intros H. apply flt_false_fle; [done..|]. apply flt_irrefl. Qed.

Lemma flt_not_nan x y : flt x y = true -> is_nan x = false /\ is_nan y = false.
Proof. destruct x, y; done. Qed.

Lemma fle_not_nan x y : fle x y = true -> is_nan x = false /\ is_nan y = false.
Proof. destruct x, y; done. Qed.

Lemma fmax_nan_r a : fmax a fnan = a.
Proof. unfold fmax. by rewrite flt_nan_r. Qed.

Lemma fmax_ge_l a b : is_nan a = false -> fle a (fmax a b) = true.
Proof.
  intros Ha. unfold fmax. destruct (flt a b) eqn:E.
  - by apply flt_fle.
  - by apply fle_refl.
Qed.

Lemma fmin_le_r a b :
  is_nan a = false -> is_nan b = false -> fle (fmin a b) b = true.
Proof.
  intros Ha Hb. unfold fmin. destruct (flt b a) eqn:E.
  - by apply fle_refl.
  - by apply flt_false_fle.
Qed.

Lemma fmin_cases a b : fmin a b = a \/ fmin a b = b.
Proof. unfold fmin. destruct (flt b a); auto. Qed.

Lemma fmax_not_nan a b : is_nan a = false -> is_nan (fmax a b) = false.
Proof.
  intros Ha. unfold fmax. destruct (flt a b) eqn:E; [|done].
  by apply flt_not_nan in E as [_ ?].
Qed.

(** ** Signs *)

(** Not NaN, and the sign bit is clear. *)
Definition nonneg (x : double) : bool :=
  match x with
  | S754_zero s | S754_infinity s | S754_finite s _ _ => negb s
  | S754_nan => false
  end.
(** NaN allowed: what an operation on non-negative operands can return. *)
Definition no_neg (x : double) : bool := nonneg x || is_nan x.

Lemma fpos_nonneg x : fpos x = true -> nonneg x = true.
Proof. destruct x as [s|s| |s m e]; try destruct s; done. Qed.

Lemma nonneg_no_neg x : nonneg x = true -> no_neg x = true.
Proof. unfold no_neg. by intros ->. Qed.

Lemma binary_round_aux_sign sx mx ex lx :
  let r := binary_round_aux prec emax sx mx ex lx in
  is_nan r = true \/ r = S754_zero sx \/ r = S754_infinity sx \/
  exists m e, r = S754_finite sx m e.
Proof.
  cbv zeta. unfold binary_round_aux. destruct (shr_fexp _ _ mx ex lx) as [mrs e1].
  destruct (shr_fexp _ _ _ e1 loc_Exact) as [mrs2 e2].
  destruct (shr_m mrs2) as [|p|p]; [naive_solver| |naive_solver].
  destruct (e2 <=? emax - prec); naive_solver.
Qed.

Lemma binary_round_aux_no_neg mx ex lx :
  no_neg (binary_round_aux prec emax false mx ex lx) = true.
Proof.
  destruct (binary_round_aux_sign false mx ex lx) as [H|[->|[->|(?&?&->)]]]; try done.
  unfold no_neg. by rewrite H, orb_true_r.
Qed.

Lemma fdiv_no_neg x y :
  no_neg x = true -> no_neg y = true -> no_neg (fdiv x y) = true.
Proof.
  destruct x as [[]|[]| |[] mx ex], y as [[]|[]| |[] my ey]; try done.
  intros _ _. unfold fdiv, SFdiv.
  destruct (SFdiv_core_binary _ _ _ _ _ _) as [[mz ez] lz].
  apply binary_round_aux_no_neg.
Qed.

Lemma fmul_no_neg x y :
  no_neg x = true -> no_neg y = true -> no_neg (fmul x y) = true.
Proof.
  destruct x as [[]|[]| |[] mx ex], y as [[]|[]| |[] my ey]; try done.
  intros _ _. apply binary_round_aux_no_neg.
Qed.

Lemma of_Z_no_neg z : 0 <= z -> no_neg (of_Z z) = true.
Proof.
  intros Hz. unfold of_Z, binary_normalize. destruct z as [|p|p]; [done| |lia].
  unfold binary_round. destruct (shl_align _ _ _) as [mz ez].
  apply binary_round_aux_no_neg.
Qed.

Lemma of_signed_no_neg q : 0 <= q -> no_neg (of_signed false q) = true.
Proof.
  intros Hq. unfold of_signed. simpl. destruct q as [|p|p]; [done| |lia].
  apply (of_Z_no_neg (Zpos p)). lia.
Qed.

Lemma fround_no_neg x : no_neg x = true -> no_neg (fround x) = true.
Proof.
  destruct x as [s|s| |s m e]; try done. intros H. simpl.
  destruct (0 <=? e) eqn:E; [done|].
  destruct s; [done|]. apply of_signed_no_neg.
  pose proof (Z.pow_pos_nonneg 2 (- e)). apply Z.div_pos; zbool.
Qed.

Lemma to_sint_no_neg w x :
  no_neg x = true -> 0 <= to_sint w x \/ to_sint w x = - 2 ^ (w - 1).
Proof.
  intros H. unfold to_sint. destruct (trunc_Z x) as [z|] eqn:E; [|by right].
  destruct (_ && _); [|by right]. left.
  destruct x as [s|s| |s m e]; simpl in E; simplify_eq; try done.
  destruct s; [done|]. simpl. destruct (0 <=? e) eqn:Ee.
  - apply Z.mul_nonneg_nonneg; [lia|]. apply Z.pow_nonneg. lia.
  - pose proof (Z.pow_pos_nonneg 2 (- e)). apply Z.div_pos; zbool.
Qed.

Lemma to_sint_range w x : 1 <= w -> - 2 ^ (w - 1) <= to_sint w x < 2 ^ (w - 1).
Proof.
  intros Hw. assert (0 < 2 ^ (w - 1)) by (apply Z.pow_pos_nonneg; lia).
  unfold to_sint. destruct (trunc_Z x) as [z|]; [|lia].
  destruct (_ && _) eqn:E; [|lia]. zbool.
Qed.

(** ** Where NaN cannot come from *)

Lemma shr_1_nonneg r : 0 <= shr_m r -> 0 <= shr_m (shr_1 r).
Proof. destruct r as [[|[]|[]] ? ?]; simpl; lia. Qed.

Lemma iter_pos_shr_1_nonneg n r : 0 <= shr_m r -> 0 <= shr_m (SpecFloat.iter_pos shr_1 n r).
Proof. revert r. induction n; simpl; auto using shr_1_nonneg. Qed.

Lemma shr_fexp_nonneg m e l : 0 <= m -> 0 <= shr_m (shr_fexp prec emax m e l).1.
Proof.
  intros Hm. unfold shr_fexp, shr.
  assert (0 <= shr_m (shr_record_of_loc m l)) by (destruct l as [|[]]; done).
  case_match; simpl; auto using iter_pos_shr_1_nonneg.
Qed.

Lemma round_nearest_even_nonneg m l : 0 <= m -> 0 <= round_nearest_even m l.
Proof. intros. unfold round_nearest_even. repeat case_match; lia. Qed.

Lemma binary_round_aux_not_nan s m e l :
  0 <= m -> is_nan (binary_round_aux prec emax s m e l) = false.
Proof.
  intros Hm. unfold binary_round_aux.
  pose proof (shr_fexp_nonneg m e l Hm) as H1.
  destruct (shr_fexp _ _ m e l) as [r1 e1]. cbn [fst] in H1.
  pose proof (shr_fexp_nonneg _ e1 loc_Exact
    (round_nearest_even_nonneg _ (loc_of_shr_record r1) H1)) as H2.
  destruct (shr_fexp _ _ _ e1 loc_Exact) as [r2 e2]. cbn [fst] in H2.
  destruct (shr_m r2); [done|by case_match|lia].
Qed.

Lemma binary_normalize_not_nan m e s : is_nan (binary_normalize prec emax m e s) = false.
Proof.
  destruct m as [|m|m]; simpl; [done|..]; unfold binary_round;
    destruct (shl_align _ _ _); by apply binary_round_aux_not_nan.
Qed.

Lemma of_Z_not_nan z : is_nan (of_Z z) = false.
Proof. apply binary_normalize_not_nan. Qed.

Lemma fadd_nonneg_not_nan x y :
  nonneg x = true -> nonneg y = true -> is_nan (fadd x y) = false.
Proof.
  destruct x as [[]|[]| |[] mx ex], y as [[]|[]| |[] my ey]; try done.
  intros _ _. apply binary_normalize_not_nan.
Qed.

Lemma fmul_finite_not_nan x y :
  is_finite x = true -> is_finite y = true -> is_nan (fmul x y) = false.
Proof. destruct x, y; try done. intros _ _. by apply binary_round_aux_not_nan. Qed.

(** Dividing by an ordinary number does not make a NaN. *)
Lemma fdiv_not_nan x y :
  is_nan x = false -> is_finite y = true -> feq y fzero = false -> is_nan (fdiv x y) = false.
Proof.
  destruct x as [sx|sx| |sx mx ex], y as [sy|sy| |sy my ey]; try done.
  intros _ _ _. unfold fdiv, SFdiv, SFdiv_core_binary.
  set (m' := match _ with Zpos _ => _ | _ => _ end).
  assert (0 <= m') as Hm.
  { subst m'. case_match; [lia| |lia]. apply Z.shiftl_nonneg. lia. }
  pose proof (Z_div_mod m' (Zpos my)) as Hq. destruct (Z.div_eucl m' (Zpos my)) as [q r].
  destruct Hq as [E Hr]; [lia|]. apply binary_round_aux_not_nan. nia.
Qed.

Lemma fadd_nan_r x : fadd x fnan = fnan.
Proof. by destruct x. Qed.
Lemma fmul_nan_r x : fmul x fnan = fnan.
Proof. by destruct x. Qed.
Lemma is_nan_true x : is_nan x = true -> x = fnan.
Proof. by destruct x. Qed.
Lemma is_finite_not_nan x : is_finite x = true -> is_nan x = false.
Proof. by destruct x. Qed.

#[export] Hint Resolve fpos_nonneg nonneg_no_neg fdiv_no_neg fmul_no_neg of_Z_no_neg
  fround_no_neg : omni.
