(* ===== verification/Messages.v ===== *)
(** * Messages: the normalized message model and the trader's data types

    [common/market_msg_types.hpp], [common/feed_msg_types.hpp],
    [trader/price_dtypes.hpp], [trader/order_gateway/order_gateway_dtypes.hpp] and
    the product-token parser.  Pure data, shared by the listener, the pricer and the
    trader; a [std::optional] is an [option], a NaN default is [fnan]. *)
From Stdlib Require Import Ascii.
From S2P Require Import Prelude Double.

(** ** market_msg_types.hpp *)
Inductive Category := futures | spot | asset.
#[export] Instance category_eq_dec : EqDecision Category.
Proof. solve_decision. Defined.

Definition category_from_string (s : string) : Category :=
  if decide (s = "spot"%string) then spot
  else if decide (s = "asset"%string) then asset
  else futures.

(** The glaze enum encoding of a [Category]: its enumerator's name. *)
Definition category_name (c : Category) : string :=
  match c with futures => "futures" | spot => "spot" | asset => "asset" end.

Record ProductSpec := { spec_product : string; spec_category : Category }.
#[export] Instance product_spec_eq_dec : EqDecision ProductSpec.
Proof. solve_decision. Defined.

(** [token.find(c)] with the two [substr]s around the hit. *)
Fixpoint split_at (c : Ascii.ascii) (s : string) : option (string * string) :=
  match s with
  | EmptyString => None
  | String a s' =>
      if Ascii.eqb a c then Some (EmptyString, s')
      else match split_at c s' with
           | Some (l, r) => Some (String a l, r)
           | None => None
           end
  end.

Definition product_spec_from_token (token : string) : ProductSpec :=
  match split_at ":"%char token with
  | None => {| spec_product := token; spec_category := futures |}
  | Some (l, r) => {| spec_product := l; spec_category := category_from_string r |}
  end.

Record SubscribeRequestMsg := {
  sreq_subscribe : bool; sreq_product : string; sreq_category : Category }.
Record SubscribeResponseMsg := {
  sres_subscribe : bool; sres_success : bool;
  sres_product : string; sres_category : Category }.

Record OrderbookLevel := { lvl_price : option double; lvl_qty : option double }.
Record OrderbookData := {
  bid_book : list OrderbookLevel; ask_book : list OrderbookLevel;
  ob_server_tstamp_ms : option Z }.

Record TradeData := {
  trade_price : option double; cum_trade_qty : option double;
  cum_buy_trade_qty : option double; td_server_tstamp_ms : option Z }.

Record ExecutionData := {
  account_no : string; ex_order_no : string; original_order_no : string;
  client_order_id : string; short_product : string; full_product : string;
  is_accept_data : bool; is_place : bool; is_cancel : bool; ex_is_bid : bool;
  is_accepted : bool; is_rejected : bool; is_executed : bool;
  update_position_on_fill : bool;
  order_price : option double; order_qty : option double;
  execute_price : option double; execute_qty : option double }.

Definition ExecutionData_default : ExecutionData := {|
  account_no := ""; ex_order_no := ""; original_order_no := ""; client_order_id := "";
  short_product := ""; full_product := ""; is_accept_data := false; is_place := false;
  is_cancel := false; ex_is_bid := false; is_accepted := false; is_rejected := false;
  is_executed := false; update_position_on_fill := true;
  order_price := None; order_qty := None; execute_price := None; execute_qty := None |}.

Record PositionData := { balance : option double; available_balance : option double }.
Record ProductInfoData := { tick_size : option double; lot_size : option double }.
Record FairPriceData := {
  fpd_ts : Z; fpd_fair_price : option double; fpd_factor : option double;
  fpd_forward_vol_bp : double }.

Definition PositionData_default : PositionData :=
  {| balance := None; available_balance := None |}.
Definition ProductInfoData_default : ProductInfoData :=
  {| tick_size := None; lot_size := None |}.

(** ** feed_msg_types.hpp *)
Record ListenerStatusUpdate := { ls_connecting : bool; ls_connected : bool }.
Record ListenerSubscribeUpdate := {
  lsu_subscribe : bool; lsu_success : bool; lsu_product : string }.

(** [MarketDataResponse]: the feed tag and its variant payload are one sum. *)
Inductive MarketFeed :=
  | Orderbook (d : OrderbookData)
  | Trade (d : TradeData)
  | Execution (d : ExecutionData)
  | Position (d : PositionData)
  | ProductInfo (d : ProductInfoData)
  | Error.
Record MarketDataResponse := { md_product : string; md_data : MarketFeed }.

Record PricerStatusUpdate := { ps_connecting : bool; ps_connected : bool }.
Record PricerSubscribeUpdate := {
  psu_subscribe : bool; psu_success : bool; psu_product : string }.
Record FairPriceResponse := { fpr_product : string; fpr_data : FairPriceData }.

(** ** price_dtypes.hpp *)
Record PriceInfo := {
  bbid_price : Z;            (* bbid_price_in_min_ticks *)
  bask_price : Z;            (* bask_price_in_min_ticks *)
  mid_price : double;
  fair_price : double;
  applied_factor : double;
  forward_vol_bp : double;
  pi_tick_size : double }.

Record L1 := {
  l1_bbid_price : Z; l1_bask_price : Z; l1_bbid_qty : Z; l1_bask_qty : Z }.
Definition L1_default : L1 :=
  {| l1_bbid_price := -1; l1_bask_price := -1; l1_bbid_qty := 0; l1_bask_qty := 0 |}.

Record FairPriceState := {
  fps_ts : Z; fps_fair_price : double; fps_factor : double; fps_forward_vol_bp : double }.
Definition FairPriceState_default : FairPriceState :=
  {| fps_ts := 0; fps_fair_price := fnan; fps_factor := fnan; fps_forward_vol_bp := fone |}.

(** ** order_gateway_dtypes.hpp *)
Record OrderPlaceInfo := {
  opi_is_limit : bool; opi_is_bid : bool; opi_price : double; opi_qty : double;
  opi_product : string; opi_cid : Z; opi_reduce_only : bool }.
Record OrderAmendInfo := {
  oai_order_no : string; oai_amend_all : bool; oai_is_limit : bool;
  oai_price : double; oai_qty : double; oai_product : string; oai_cid : Z }.
Record OrderCancelInfo := {
  oci_order_no : string; oci_cancel_all : bool; oci_is_limit : bool;
  oci_qty : double; oci_product : string; oci_cid : Z }.
(** A cancel request built by designated initialisers: the rest are defaults. *)
Definition cancel_info (order_no product : string) (cid : Z) : OrderCancelInfo :=
  {| oci_order_no := order_no; oci_cancel_all := true; oci_is_limit := true;
     oci_qty := fzero; oci_product := product; oci_cid := cid |}.
Record OrderResponse := {
  or_success : bool; or_code : string; or_msg : string; or_order_no : string;
  or_cid : Z; or_server_tstamp_ms : option Z; or_order_gone : bool }.

(** [OutstandingOrder] of [base_strategy.hpp]. *)
Record OutstandingOrder := { oo_price : Z; oo_qty : Z; oo_is_bid : bool }.
Definition OutstandingOrder_default : OutstandingOrder :=
  {| oo_price := 0; oo_qty := 0; oo_is_bid := false |}.

(** ** Lemmas *)
Lemma category_round_trip c : category_from_string (category_name c) = c.
Proof. by destruct c. Qed.

Lemma split_at_app c l r :
  (forall a, In a (String.list_ascii_of_string l) -> a <> c) ->
  split_at c (l ++ String c r)%string = Some (l, r).
Proof.
  induction l as [|a l IH]; simpl; intros Hl.
  - by rewrite Ascii.eqb_refl.
  - destruct (Ascii.eqb_spec a c) as [->|_].
    + exfalso. by apply (Hl c); [left|].
    + rewrite IH; [done|]. intros b Hb. apply Hl. by right.
Qed.

Lemma split_at_None c s :
  (forall a, In a (String.list_ascii_of_string s) -> a <> c) -> split_at c s = None.
Proof.
  induction s as [|a s IH]; simpl; intros Hs; [done|].
  destruct (Ascii.eqb_spec a c) as [->|_].
  - exfalso. by apply (Hs c); [left|].
  - rewrite IH; [done|]. intros b Hb. apply Hs. by right.
Qed.
