(* ===== verification/Text.v ===== *)
(** * Text: numbers as text

    The standard library's conversions the program puts on the wire and reads back:
    [std::to_string], [std::stoull], [std::stod], and [std::fixed] output with a
    precision.  [stod] and the fixed output are exact: a decimal is rounded once, to the
    nearest double (ties to even), and a double is rounded once, to the nearest decimal of
    the given length (ties to even).  Hexadecimal floats, which [stod] also accepts, are
    not modelled. *)
From Stdlib Require Import Ascii.
From S2P Require Import Prelude Double.

#[local] Arguments String.append !s1 s2 / : simpl nomatch.

(** ** Characters *)
Definition is_space (a : ascii) : bool :=
  let n := N_of_ascii a in (n =? 32)%N || ((9 <=? n)%N && (n <=? 13)%N).
Definition digit_of (a : ascii) : option Z :=
  let n := Z.of_N (N_of_ascii a) in
  if (48 <=? n) && (n <=? 57) then Some (n - 48) else None.
Definition digit_char (d : Z) : ascii := ascii_of_N (Z.to_N (48 + d)).

Fixpoint drop_spaces (s : string) : string :=
  match s with
  | String a s' => if is_space a then drop_spaces s' else s
  | EmptyString => EmptyString
  end.

Fixpoint string_map (f : ascii -> ascii) (s : string) : string :=
  match s with
  | EmptyString => EmptyString
  | String a s' => String (f a) (string_map f s')
  end.

(** [std::tolower] over a string. *)
Definition lower_char (a : ascii) : ascii :=
  let n := N_of_ascii a in if (65 <=? n)%N && (n <=? 90)%N then ascii_of_N (n + 32) else a.
Definition to_lower : string -> string := string_map lower_char.

(** ** Integers *)

(** The decimal digits of [n], most significant first, in front of [acc]. *)
Fixpoint digits (fuel : nat) (n : Z) (acc : string) : string :=
  match fuel with
  | O => acc
  | S fuel =>
      let acc := String (digit_char (n mod 10)) acc in
      if n <? 10 then acc else digits fuel (n / 10) acc
  end.
Definition digits_fuel (n : Z) : nat := S (Z.to_nat (Z.log2 n)).
Definition dec (n : Z) : string := digits (digits_fuel n) n "".

(** [std::to_string] of an integer. *)
Definition to_string (z : Z) : string := if z <? 0 then String "-"%char (dec (- z)) else dec z.

(** The longest run of digits; [None] when there is none. *)
Fixpoint parse_digits (s : string) (acc : option Z) : option Z :=
  match s with
  | String a s' =>
      match digit_of a with
      | Some d => parse_digits s' (Some (10 * default 0 acc + d))
      | None => acc
      end
  | EmptyString => acc
  end.

(** An optional sign. *)
Definition split_sign (s : string) : bool * string :=
  match s with
  | String a s' =>
      if Ascii.eqb a "-"%char then (true, s')
      else if Ascii.eqb a "+"%char then (false, s') else (false, s)
  | EmptyString => (false, EmptyString)
  end.

(** [std::stoull]: white space, an optional sign, digits; [None] is the exception
    ([invalid_argument] or [out_of_range]). *)
Definition stoull (s : string) : option Z :=
  let '(negative, body) := split_sign (drop_spaces s) in
  match parse_digits body None with
  | None => None
  | Some n =>
      if 2 ^ 64 <=? n then None
      else Some (if (negative : bool) then wrap_u 64 (- n) else n)
  end.

(** ** Decimals *)

(** [n * 10 ^ x] as the nearest double, the sign given apart. *)
Definition of_decimal (s : bool) (n x : Z) : double :=
  if n =? 0 then S754_zero s
  else if 0 <=? x then binary_normalize prec emax (cond_Zopp s (n * 10 ^ x)) 0 s
  else
    let '(q, e, l) := SFdiv_core_binary prec emax n 0 (10 ^ (- x)) 0 in
    binary_round_aux prec emax s q e l.

(** Digits with at most one point: the digits as one number, how many of them follow the
    point, how many there are, and the rest of the text. *)
Fixpoint scan_decimal (s : string) (point : bool) (n k cnt : Z) : Z * Z * Z * string :=
  match s with
  | String a s' =>
      match digit_of a with
      | Some d => scan_decimal s' point (10 * n + d) (if point then k + 1 else k) (cnt + 1)
      | None =>
          if Ascii.eqb a "."%char && negb point then scan_decimal s' true n k cnt
          else (n, k, cnt, s)
      end
  | EmptyString => (n, k, cnt, s)
  end.

(** The exponent after a mantissa: [e] or [E], a sign, digits; 0 if it is not all there. *)
Definition scan_exponent (s : string) : Z :=
  match s with
  | String a s' =>
      if Ascii.eqb (lower_char a) "e"%char then
        let '(neg, body) := split_sign s' in
        match parse_digits body None with
        | Some e => if (neg : bool) then - e else e
        | None => 0
        end
      else 0
  | EmptyString => 0
  end.

Definition starts_with (p s : string) : bool := String.prefix p (to_lower s).

(** A result the C library reports as out of range: an infinity or an inexact tiny. *)
Definition out_of_range (n x : Z) (r : double) : bool :=
  match r with
  | S754_infinity _ => true
  | S754_zero _ => negb (n =? 0)
  | S754_finite _ m e =>
      negb (Zpos (digits2_pos m) =? prec) && negb (n * 2 ^ (- e) =? Zpos m * 10 ^ (- x))
  | S754_nan => false
  end.

(** [std::stod]; [None] is the exception. *)
Definition stod (s : string) : option double :=
  let '(neg, body) := split_sign (drop_spaces s) in
  if starts_with "inf" body then Some (S754_infinity neg)
  else if starts_with "nan" body then Some fnan
  else
    let '(n, k, cnt, rest) := scan_decimal body false 0 0 0 in
    if cnt =? 0 then None
    else
      let x := scan_exponent rest - k in
      let r := of_decimal neg n x in
      if out_of_range n x r then None else Some r.

(** ** Fixed output *)

(** [n / d] to the nearest integer, ties to even. *)
Definition round_div_even (n d : Z) : Z :=
  let q := n / d in let r := n mod d in
  if 2 * r <? d then q
  else if d <? 2 * r then q + 1
  else if Z.even q then q else q + 1.

(** A finite magnitude scaled by [10 ^ p], as an integer. *)
Definition scaled (p m e : Z) : Z :=
  if 0 <=? e then m * 2 ^ e * 10 ^ p else round_div_even (m * 10 ^ p) (2 ^ (- e)).

(** [n] in exactly [p] digits. *)
Fixpoint padded (p : nat) (n : Z) (acc : string) : string :=
  match p with
  | O => acc
  | S p => padded p (n / 10) (String (digit_char (n mod 10)) acc)
  end.

Definition decimal_text (p q : Z) : string :=
  let frac := if p <=? 0 then ""%string
              else String "."%char (padded (Z.to_nat p) (q mod 10 ^ p) "") in
  (dec (q / 10 ^ p)%Z +:+ frac)%string.

(** [oss << std::fixed << std::setprecision(p) << x]. *)
Definition fixed (p : Z) (x : double) : string :=
  match x with
  | S754_nan => "nan"
  | S754_infinity s => if s then "-inf" else "inf"
  | S754_zero s => ((if s then "-" else "") +:+ decimal_text p 0)%string
  | S754_finite s m e =>
      ((if s then "-" else "") +:+ decimal_text p (scaled p (Zpos m) e))%string
  end.

(** ** Lemmas *)
Lemma N_ascii n : (n < 256)%N -> N_of_ascii (ascii_of_N n) = n.
Proof. apply N_ascii_embedding. Qed.

Lemma digit_char_spec d : 0 <= d < 10 -> digit_of (digit_char d) = Some d.
Proof.
  intros Hd. unfold digit_of, digit_char. rewrite N_ascii by lia.
  rewrite Z2N.id by lia.
  assert ((48 <=? 48 + d) && (48 + d <=? 57) = true) as -> by (apply andb_true_iff; lia).
  f_equal. lia.
Qed.

(** Writing the digits of [n] and reading on is reading [n] first. *)
Lemma parse_digits_digits fuel n acc o :
  0 <= n < 10 ^ Z.of_nat fuel ->
  exists k, 0 <= k /\ n < 10 ^ k /\
    parse_digits (digits fuel n acc) o =
      (if decide (fuel = 0%nat) then parse_digits acc o
       else parse_digits acc (Some (default 0 o * 10 ^ k + n))).
Proof.
  revert n acc o. induction fuel as [|fuel IH]; intros n acc o Hn.
  { exists 0. simpl in *. split_and!; [lia|lia|done]. }
  pose proof (Z.mod_pos_bound n 10 ltac:(lia)) as Hm. pose proof (Z.div_mod n 10 ltac:(lia)) as Hdm.
  simpl. destruct (n <? 10) eqn:E; zify_bools.
  - exists 1. simpl. rewrite digit_char_spec by done. split_and!; [lia|lia|].
    rewrite Z.mod_small by lia. f_equal. f_equal. lia.
  - destruct (IH (n / 10) (String (digit_char (n mod 10)) acc) o) as (k&Hk&Hlt&->).
    { rewrite Nat2Z.inj_succ, Z.pow_succ_r in Hn by lia. split; [lia|]. apply Z.div_lt_upper_bound; lia. }
    exists (k + 1). rewrite Z.pow_add_r, Z.pow_1_r by lia. split_and!; [lia|lia|].
    destruct (decide (fuel = 0%nat)) as [->|_]; simpl; rewrite digit_char_spec by done.
    + exfalso. simpl in Hn. lia.
    + f_equal. f_equal. cbn [default]. lia.
Qed.

Lemma digits_fuel_enough n : 0 <= n -> n < 10 ^ Z.of_nat (digits_fuel n).
Proof.
  intros Hn. unfold digits_fuel. rewrite Nat2Z.inj_succ, Z2Nat.id by apply Z.log2_nonneg.
  destruct (decide (n = 0)) as [->|]; [done|].
  destruct (Z.log2_spec n ltac:(lia)) as [_ Hlt].
  pose proof (Z.log2_nonneg n). pose proof (Z.pow_le_mono_l 2 10 (Z.succ (Z.log2 n)) ltac:(lia)). lia.
Qed.

(** Reading back what [dec] wrote, with more text behind it. *)
Lemma parse_digits_dec n s :
  0 <= n -> parse_digits (digits (digits_fuel n) n s) None = parse_digits s (Some n).
Proof.
  intros Hn. destruct (parse_digits_digits (digits_fuel n) n s None) as (k&_&_&->).
  - split; [done | by apply digits_fuel_enough].
  - done.
Qed.

(** The first character [dec] writes is a digit. *)
Lemma digits_head fuel n acc :
  0 <= n -> exists d s, 0 <= d < 10 /\ digits (S fuel) n acc = String (digit_char d) s.
Proof.
  revert n acc. induction fuel as [|fuel IH]; intros n acc Hn.
  - exists (n mod 10). eexists. split; [apply Z.mod_pos_bound; lia|]. simpl. by destruct (n <? 10).
  - change (digits (S (S fuel)) n acc) with
      (let acc := String (digit_char (n mod 10)) acc in
       if n <? 10 then acc else digits (S fuel) (n / 10) acc).
    cbv zeta. destruct (n <? 10).
    + exists (n mod 10). eexists. split; [apply Z.mod_pos_bound; lia | done].
    + apply IH. by apply Z.div_pos.
Qed.

Lemma digit_char_class d :
  0 <= d < 10 ->
  is_space (digit_char d) = false /\ Ascii.eqb (digit_char d) "-"%char = false /\
  Ascii.eqb (digit_char d) "+"%char = false /\ Ascii.eqb (digit_char d) "."%char = false.
Proof.
  intros Hd.
  assert (d = 0 \/ d = 1 \/ d = 2 \/ d = 3 \/ d = 4 \/ d = 5 \/ d = 6 \/ d = 7 \/ d = 8 \/ d = 9)
    as Hcases by lia.
  destruct_or! Hcases; subst; by vm_compute.
Qed.

(** A text that starts with a digit loses nothing to white space and sign. *)
Lemma split_sign_digit d s :
  0 <= d < 10 ->
  split_sign (drop_spaces (String (digit_char d) s)) = (false, String (digit_char d) s).
Proof. intros (Hs&Hm&Hp&_)%digit_char_class. simpl. rewrite Hs. simpl. by rewrite Hm, Hp. Qed.

(** [std::stoull(std::to_string(n))] is [n]. *)
Lemma stoull_to_string n : 0 <= n < 2 ^ 64 -> stoull (to_string n) = Some n.
Proof.
  intros Hn. unfold to_string, stoull.
  assert ((n <? 0) = false) as -> by (apply Z.ltb_ge; lia).
  unfold dec. pose proof (parse_digits_dec n "" ltac:(lia)) as Hp.
  destruct (digits_head (Z.to_nat (Z.log2 n)) n "" ltac:(lia)) as (d&s&Hd&E).
  fold (digits_fuel n) in E. rewrite E in Hp |- *. rewrite split_sign_digit by done.
  rewrite Hp. simpl. assert ((2 ^ 64 <=? n) = false) as -> by (apply Z.leb_gt; lia). done.
Qed.

(** [std::to_string] of a natural number is never empty. *)
Lemma to_string_nonempty n : 0 <= n -> to_string n <> ""%string.
Proof.
  intros Hn E. unfold to_string, dec in E.
  assert ((n <? 0) = false) as Hlt by (apply Z.ltb_ge; lia). rewrite Hlt in E.
  destruct (digits_head (Z.to_nat (Z.log2 n)) n "" Hn) as (d&s&_&E').
  fold (digits_fuel n) in E'. congruence.
Qed.

(** The nearest integer is within half a unit. *)
Lemma round_div_even_near n d :
  0 < d -> 2 * Z.abs (d * round_div_even n d - n) <= d.
Proof.
  intros Hd. unfold round_div_even.
  pose proof (Z.div_mod n d ltac:(lia)). pose proof (Z.mod_pos_bound n d Hd).
  repeat split_match; zify_bools; nia.
Qed.

(** An exact quotient is not rounded. *)
Lemma round_div_even_exact n d : 0 < d -> round_div_even (n * d) d = n.
Proof.
  intros Hd. unfold round_div_even. rewrite Z.div_mul, Z.mod_mul by lia.
  assert ((2 * 0 <? d) = true) as -> by (apply Z.ltb_lt; lia). done.
Qed.

(** ** Concatenation *)
Lemma string_app_assoc (a b c : string) : ((a +:+ b) +:+ c = a +:+ (b +:+ c))%string.
Proof. induction a as [|x a IH]; [done|]. exact (f_equal (String x) IH). Qed.
Lemma string_app_nil_r (a : string) : (a +:+ "" = a)%string.
Proof. induction a as [|x a IH]; [done|]. exact (f_equal (String x) IH). Qed.
Lemma length_string_app (a b : string) :
  String.length (a +:+ b)%string = (String.length a + String.length b)%nat.
Proof. induction a; simpl; auto. Qed.
Lemma string_app_cons (x : ascii) (a b : string) : (String x a +:+ b = String x (a +:+ b))%string.
Proof. done. Qed.
Lemma string_app_empty (a : string) : ("" +:+ a = a)%string.
Proof. done. Qed.
Lemma list_ascii_app (a b : string) :
  String.list_ascii_of_string (a +:+ b)%string =
  (String.list_ascii_of_string a ++ String.list_ascii_of_string b)%list.
Proof. induction a as [|x a IH]; [done|]. exact (f_equal (cons x) IH). Qed.
