(* ===== verification/Exact.v ===== *)
(** * Exact: when floating-point arithmetic and its text lose nothing

    An integer below [2 ^ 53] is a double exactly, and its fixed-point text is its decimal
    digits.  The lemmas the order gateways use to say what reaches the wire. *)
From Stdlib Require Import Ascii.
From S2P Require Import Prelude Double Text.

#[local] Open Scope Z_scope.

(** ** Digits of a mantissa *)
Lemma digits2_pos_bounds p :
  2 ^ (Zpos (digits2_pos p) - 1) <= Zpos p < 2 ^ Zpos (digits2_pos p).
Proof.
  induction p as [p IH|p IH|]; [| |done]; cbn [digits2_pos];
    rewrite Pos2Z.inj_succ; (replace (Z.succ (Zpos (digits2_pos p)) - 1)
      with (Z.succ (Zpos (digits2_pos p) - 1)) by lia); rewrite !Z.pow_succ_r by lia; lia.
Qed.

Lemma digits2_le p k : 0 <= k -> Zpos p < 2 ^ k -> Zpos (digits2_pos p) <= k.
Proof.
  intros Hk Hp. pose proof (digits2_pos_bounds p) as [Hb _].
  assert (Zpos (digits2_pos p) - 1 < k); [|lia].
  apply (Z.pow_lt_mono_r_iff 2); lia.
Qed.

Lemma pos_iter_xO_value d p : Zpos (Pos.iter xO p d) = Zpos p * 2 ^ Zpos d.
Proof.
  induction d as [|d IH] using Pos.peano_ind; [simpl; lia|].
  rewrite Pos.iter_succ, Pos2Z.inj_xO, IH, Pos2Z.inj_succ, Z.pow_succ_r by lia. lia.
Qed.

Lemma pos_iter_xO_digits d p : Zpos (digits2_pos (Pos.iter xO p d)) = Zpos (digits2_pos p) + Zpos d.
Proof.
  induction d as [|d IH] using Pos.peano_ind; [simpl; lia|].
  rewrite Pos.iter_succ. cbn [digits2_pos]. rewrite Pos2Z.inj_succ, IH. lia.
Qed.

(** A full-width mantissa in range is left alone. *)
Lemma binary_round_aux_exact s m e :
  Zpos (digits2_pos m) = 53 -> -1074 <= e <= 971 ->
  binary_round_aux prec emax s (Zpos m) e loc_Exact = S754_finite s m e.
Proof.
  intros Hd He. assert (fexp prec emax (Zpos (digits2_pos m) + e) - e = 0) as Hf.
  { rewrite Hd. unfold fexp, emin, prec, emax. lia. }
  unfold binary_round_aux, shr_fexp, Zdigits2. rewrite Hf. simpl. rewrite Hf. simpl.
  destruct (Z.leb_spec e (emax - prec)) as [|H]; [done|]. unfold emax, prec in H. lia.
Qed.

Lemma of_Z_exact n :
  0 < n < 2 ^ 53 ->
  exists m k, of_Z n = S754_finite false m (- k) /\ 0 <= k <= 52 /\ Zpos m = n * 2 ^ k /\
    2 ^ 52 <= Zpos m < 2 ^ 53.
Proof.
  intros Hn. destruct n as [|p|p]; [lia| |lia].
  pose proof (digits2_le p 53 ltac:(lia) ltac:(lia)) as Hd.
  assert (fexp prec emax (Zpos (digits2_pos p) + 0) = Zpos (digits2_pos p) - 53) as Hf.
  { unfold fexp, emin, prec, emax. lia. }
  unfold of_Z, binary_normalize, binary_round, shl_align. rewrite Hf.
  assert (forall q, Zpos (digits2_pos q) = 53 -> 2 ^ 52 <= Zpos q < 2 ^ 53) as Hw.
  { intros q Hq. pose proof (digits2_pos_bounds q) as Hb. by rewrite Hq in Hb. }
  destruct (Zpos (digits2_pos p) - 53 - 0) as [|q|q] eqn:Eq; [|lia|].
  - exists p, 0. rewrite binary_round_aux_exact by lia. split_and!; try done; try lia; apply Hw; lia.
  - assert (Zpos (digits2_pos (Pos.iter xO p q)) = 53) as Hi by (rewrite pos_iter_xO_digits; lia).
    exists (Pos.iter xO p q), (Zpos q).
    replace (Zpos (digits2_pos p) - 53) with (- Zpos q) by lia.
    rewrite binary_round_aux_exact by lia.
    split_and!; try done; try lia; [by rewrite pos_iter_xO_value|apply Hw; lia..].
Qed.

Lemma scaled_exact n m k p :
  0 <= k -> 0 <= p -> Zpos m = n * 2 ^ k -> scaled p (Zpos m) (- k) = n * 10 ^ p.
Proof.
  intros Hk Hp Hm. unfold scaled. destruct (Z.leb_spec 0 (- k)).
  - replace k with 0 in * by lia. rewrite Hm. simpl. lia.
  - rewrite Z.opp_involutive, Hm. replace (n * 2 ^ k * 10 ^ p) with (n * 10 ^ p * 2 ^ k) by lia.
    apply round_div_even_exact. lia.
Qed.

(** The fixed text of an integer: its digits, a point, and zeros. *)
Lemma fixed_of_Z n p :
  0 <= n < 2 ^ 53 -> 0 <= p -> fixed p (of_Z n) = decimal_text p (n * 10 ^ p).
Proof.
  intros Hn Hp. destruct (decide (n = 0)) as [->|Hz]; [done|].
  destruct (of_Z_exact n) as (m&k&->&Hk&Hm&_); [lia|]. simpl.
  by rewrite (scaled_exact n) by lia.
Qed.

Lemma decimal_text_integral p n :
  0 <= p -> decimal_text p (n * 10 ^ p) =
    (dec n +:+ (if (p <=? 0)%Z then "" else String "."%char (padded (Z.to_nat p) 0 "")))%string.
Proof.
  intros Hp. unfold decimal_text. assert (0 < 10 ^ p) by lia.
  rewrite Z.div_mul, Z.mod_mul by lia. done.
Qed.

(** ** Rounding a quotient *)

(** Where [m / w] lies between two integers. *)
Definition loc_at (m w : Z) : location :=
  if m mod w =? 0 then loc_Exact else loc_Inexact (Z.compare (2 * (m mod w)) w).

(** A shift record that holds [m / w]. *)
Record shifted (m w : Z) (r : shr_record) : Prop := {
  sh_m : shr_m r = m / w;
  sh_bits : shr_r r || shr_s r = negb (m mod w =? 0);
  sh_loc : loc_of_shr_record r = loc_at m w }.

Lemma shr_1_spec r :
  0 <= shr_m r ->
  shr_m (shr_1 r) = shr_m r / 2 /\ shr_r (shr_1 r) = Z.odd (shr_m r) /\
  shr_s (shr_1 r) = shr_r r || shr_s r.
Proof.
  intros H. destruct r as [m rb sb]. destruct m as [|[p|p|]|]; simpl in *; try lia;
    (split_and!; [|done..]); [done| | |done].
  - apply (Z.div_unique_pos _ _ _ 1); lia.
  - apply (Z.div_unique_pos _ _ _ 0); lia.
Qed.

Lemma shifted_step m w r :
  0 <= m -> 0 < w -> shifted m w r -> shifted m (w * 2) (shr_1 r).
Proof.
  intros Hm Hw [H1 H2 H3].
  assert (0 <= shr_m r) as H0 by (rewrite H1; by apply Z.div_pos).
  destruct (shr_1_spec r H0) as (E1&E2&E3). rewrite H1 in E1, E2.
  assert (m mod (w * 2) = m mod w + w * (m / w mod 2)) as Hmod by (apply Z.rem_mul_r; lia).
  pose proof (Z.mod_pos_bound m w Hw) as Hr. rewrite Zmod_odd in Hmod. rewrite H2 in E3.
  assert ((m mod (w * 2) =? 0) = negb (Z.odd (m / w)) && (m mod w =? 0)) as Hz.
  { rewrite Hmod. destruct (Z.odd _), (Z.eqb_spec (m mod w) 0); simpl;
      [apply Z.eqb_neq|apply Z.eqb_neq|apply Z.eqb_eq|apply Z.eqb_neq]; lia. }
  split.
  - by rewrite E1, Z.div_div by lia.
  - rewrite E2, E3, Hz. by destruct (Z.odd _), (_ =? 0).
  - unfold loc_at. rewrite Hz. destruct (shr_1 r) as [m' rb sb]. simpl in E2, E3. subst rb sb.
    destruct (Z.odd (m / w)), (Z.eqb_spec (m mod w) 0) as [E|E]; simpl; try done; f_equal;
      symmetry; [apply Z.compare_eq_iff|apply Z.compare_gt_iff|apply Z.compare_lt_iff]; lia.
Qed.

Lemma shifted_iter m n : 0 <= m -> forall w r,
  0 < w -> shifted m w r -> shifted m (w * 2 ^ Zpos n) (SpecFloat.iter_pos shr_1 n r).
Proof.
  intros Hm. induction n as [n IH|n IH|]; intros w r Hw Hr; cbn [SpecFloat.iter_pos].
  - apply shifted_step in Hr; [|done..]. apply (IH (w * 2)), (IH (w * 2 * 2 ^ Zpos n)) in Hr; [|lia..].
    replace (w * 2 ^ Zpos n~1) with (w * 2 * 2 ^ Zpos n * 2 ^ Zpos n); [done|].
    rewrite (Pos2Z.inj_xI n), Z.pow_add_r, (Z.mul_comm 2 (Zpos n)), Z.pow_mul_r by lia.
    change (2 ^ 1) with 2. ring.
  - apply (IH w), (IH (w * 2 ^ Zpos n)) in Hr; [|lia..].
    replace (w * 2 ^ Zpos n~0) with (w * 2 ^ Zpos n * 2 ^ Zpos n); [done|].
    rewrite (Pos2Z.inj_xO n), (Z.mul_comm 2 (Zpos n)), Z.pow_mul_r by lia. ring.
  - by apply shifted_step.
Qed.

Lemma shifted_of_loc m w : shifted m w (shr_record_of_loc (m / w) (loc_at m w)).
Proof.
  unfold loc_at. destruct (Z.eqb_spec (m mod w) 0) as [E|E].
  - split; simpl; [done| |]; [by rewrite E|]. unfold loc_at. by rewrite E.
  - split; destruct (2 * (m mod w) ?= w) eqn:Ec; simpl; try done;
      try (by symmetry; apply negb_true_iff, Z.eqb_neq);
      unfold loc_at; rewrite (proj2 (Z.eqb_neq _ _)) by done; by rewrite Ec.
Qed.

Lemma round_at m w :
  0 <= m -> 0 < w -> round_nearest_even (m / w) (loc_at m w) = round_div_even m w.
Proof.
  intros Hm Hw. unfold loc_at, round_div_even.
  destruct (Z.eqb_spec (m mod w) 0) as [->|Hne].
  - by rewrite (proj2 (Z.ltb_lt (2 * 0) _)) by lia.
  - simpl. destruct (Z.compare_spec (2 * (m mod w)) w) as [E|E|E]; simpl.
    + rewrite (proj2 (Z.ltb_ge _ _)), (proj2 (Z.ltb_ge w _)) by lia. done.
    + by rewrite (proj2 (Z.ltb_lt _ _)) by lia.
    + rewrite (proj2 (Z.ltb_ge _ _)) by lia. by rewrite (proj2 (Z.ltb_lt _ _)) by lia.
Qed.

Lemma digits2_unique p k : 0 < k -> 2 ^ (k - 1) <= Zpos p < 2 ^ k -> Zpos (digits2_pos p) = k.
Proof.
  intros Hk [H1 H2]. pose proof (digits2_le p k ltac:(lia) H2).
  pose proof (digits2_pos_bounds p) as [_ Hb].
  assert (k - 1 < Zpos (digits2_pos p)); [|lia]. apply (Z.pow_lt_mono_r_iff 2); lia.
Qed.

(** The last step: a mantissa of 53 bits, or [2 ^ 53] just rounded up to. *)
Lemma renormalize q e :
  2 ^ 52 <= Zpos q <= 2 ^ 53 -> -1074 <= e <= 970 ->
  exists m j, (let '(r, e') := shr_fexp prec emax (Zpos q) e loc_Exact in (shr_m r, e')) =
      (Zpos m, e + j) /\ (j = 0 \/ j = 1) /\ 2 ^ 52 <= Zpos m < 2 ^ 53 /\ Zpos m * 2 ^ j = Zpos q.
Proof.
  intros Hq He. unfold shr_fexp, Zdigits2. destruct (decide (Zpos q = 2 ^ 53)) as [E53|N53].
  - assert (q = xO (Pos.pow 2 52)) as -> by lia.
    change (Zpos (digits2_pos (xO (2 ^ 52)))) with 54.
    assert (fexp prec emax (54 + e) - e = 1) as -> by (unfold fexp, emin, prec, emax; lia).
    eexists _, 1. by split_and!; [|right| | |].
  - rewrite (digits2_unique q 53) by (change (53 - 1) with 52; lia).
    assert (fexp prec emax (53 + e) - e = 0) as -> by (unfold fexp, emin, prec, emax; lia).
    eexists q, 0. cbn. rewrite Z.add_0_r, Z.mul_1_r. split_and!; [done|by left|lia..].
Qed.

(** A quotient with at least 53 bits is rounded to the nearest 53 bits, ties to even. *)
Lemma binary_round_aux_quotient s N D e d :
  0 <= N -> 0 < D -> 0 <= d -> 2 ^ (52 + d) <= N / D < 2 ^ (53 + d) -> -1074 <= e + d <= 970 ->
  exists m j, binary_round_aux prec emax s (N / D) e (loc_at N D) = S754_finite s m (e + d + j) /\
    (j = 0 \/ j = 1) /\ 2 ^ 52 <= Zpos m < 2 ^ 53 /\
    Zpos m * 2 ^ j = round_div_even N (D * 2 ^ d).
Proof.
  intros HN HD Hd HM He. destruct (N / D) as [|M|M] eqn:EM; [lia| |lia].
  assert (Zpos (digits2_pos M) = 53 + d) as HdM.
  { apply digits2_unique; [lia|]. by replace (53 + d - 1) with (52 + d) by lia. }
  pose proof (shifted_of_loc N D) as H0. rewrite EM in H0.
  assert (exists r, shr_fexp prec emax (Zpos M) e (loc_at N D) = (r, e + d) /\ shifted N (D * 2 ^ d) r)
    as (r&Er&[E1 _ E3]).
  { unfold shr_fexp, Zdigits2. rewrite HdM.
    assert (fexp prec emax (53 + d + e) - e = d) as -> by (unfold fexp, emin, prec, emax; lia).
    destruct d as [|dp|dp]; [|by eexists; split; [done|apply shifted_iter]|lia].
    eexists. rewrite Z.add_0_r, Z.mul_1_r. by split. }
  unfold binary_round_aux. rewrite Er, E1, E3, round_at by lia.
  set (q := round_div_even N (D * 2 ^ d)).
  assert (2 ^ 52 <= q <= 2 ^ 53) as Hq.
  { assert (D * 2 ^ d * 2 ^ 52 <= N < D * 2 ^ d * 2 ^ 53).
    { rewrite !Z.pow_add_r in HM by lia. pose proof (Z.div_mod N D ltac:(lia)).
      pose proof (Z.mod_pos_bound N D HD). nia. }
    pose proof (round_div_even_near N (D * 2 ^ d) ltac:(lia)) as Hn. fold q in Hn.
    assert (0 < D * 2 ^ d) by lia. nia. }
  clearbody q. destruct q as [|q|q]; [lia| |lia].
  destruct (renormalize q (e + d) Hq ltac:(lia)) as (m&j&Hm&Hj&Hw&Hv). exists m, j.
  destruct (shr_fexp _ _ _ (e + d) loc_Exact) as [r' e'']. injection Hm as -> ->.
  destruct (Z.leb_spec (e + d + j) (emax - prec)) as [|H]; [done|]. unfold emax, prec in H. lia.
Qed.

(** The case of an integer. *)
Lemma binary_round_aux_wide s M e d :
  0 <= d -> 2 ^ (52 + d) <= Zpos M < 2 ^ (53 + d) -> -1074 <= e + d <= 970 ->
  exists m j, binary_round_aux prec emax s (Zpos M) e loc_Exact = S754_finite s m (e + d + j) /\
    (j = 0 \/ j = 1) /\ 2 ^ 52 <= Zpos m < 2 ^ 53 /\
    Zpos m * 2 ^ j = round_div_even (Zpos M) (2 ^ d).
Proof.
  intros Hd HM He. destruct (binary_round_aux_quotient s (Zpos M) 1 e d) as (m&j&H1&H2&Hw&H3);
    rewrite ?Z.div_1_r; try lia. exists m, j. rewrite Z.div_1_r in H1. rewrite Z.mul_1_l in H3.
  unfold loc_at in H1. rewrite Z.mod_1_r in H1. done.
Qed.

(** ** Prices on a decimal grid *)

(** The double nearest to [10 ^ -k]: what [stod] makes of a step such as "0.01". *)
Definition decimal_step (k : Z) : double := of_decimal false 1 (- k).

Definition step_ok (k : Z) : bool :=
  match decimal_step k with
  | S754_finite false m e =>
      (2 ^ 52 <=? Zpos m) && (Zpos m <? 2 ^ 53) && (e <=? -52) && (-100 <=? e) &&
      (Z.abs (Zpos m * 10 ^ k - 2 ^ (- e)) * 2 ^ 52 <=? 2 ^ (- e))
  | _ => false
  end.
Lemma steps_ok k : 0 <= k <= 12 -> step_ok k = true.
Proof.
  intros Hk. assert (forallb step_ok (seqZ 0 13) = true) as H by (by vm_compute).
  rewrite forallb_forall in H. apply H, list_elem_of_In, elem_of_seqZ. lia.
Qed.

Lemma decimal_step_spec k :
  0 <= k <= 12 ->
  exists m f, decimal_step k = S754_finite false m (- f) /\ 2 ^ 52 <= Zpos m < 2 ^ 53 /\
    52 <= f <= 100 /\ Z.abs (Zpos m * 10 ^ k - 2 ^ f) * 2 ^ 52 <= 2 ^ f.
Proof.
  intros Hk. pose proof (steps_ok k Hk) as H. unfold step_ok in H.
  destruct (decimal_step k) as [| | |[] m e]; try done. zify_bools.
  exists m, (- e). rewrite Z.opp_involutive. split_and!; try done; lia.
Qed.

(** The arithmetic of one rounded product, scaled by ten to a power. *)
Lemma product_error n P K F B J A C m m2 M Q :
  0 < n -> 0 < P -> 0 < K -> 0 < F -> 0 < B -> 0 < J -> 0 < A -> 0 < C ->
  1 < C -> K * F = A * B * J -> M = n * K * m2 -> m * J = Q ->
  2 * Z.abs (B * Q - M) <= B -> C * B <= M -> Z.abs (m2 * P - F) * C <= F ->
  Z.abs (m * P - n * A) * C <= 2 * (n * A).
Proof.
  intros Hn HP HK HF HB HJ HA HC HnC HT HM HQ Hr Hw Hs.
  assert (Z.abs (M * P - n * (K * F)) * C <= n * (K * F)) as H2.
  { replace (M * P - n * (K * F)) with ((n * K) * (m2 * P - F)) by (subst M; ring).
    rewrite Z.abs_mul, (Z.abs_eq (n * K)) by lia. nia. }
  assert (2 * Z.abs (B * Q * P - M * P) <= B * P) as H1.
  { replace (B * Q * P - M * P) with ((B * Q - M) * P) by ring. rewrite Z.abs_mul, (Z.abs_eq P) by lia. nia. }
  assert (C * (B * P) <= M * P) as H3 by nia.
  assert (Z.abs ((m * P - n * A) * (B * J)) * C <= 2 * (n * A) * (B * J)) as H.
  { replace ((m * P - n * A) * (B * J)) with (B * Q * P - n * (K * F)) by (rewrite HT; subst Q; ring).
    replace (2 * (n * A) * (B * J)) with (2 * (n * (K * F))) by (rewrite HT; ring).
    assert (0 < K * F) as HT0 by lia. revert H1 H2 H3 HT0. clear -HC HnC HB HP Hn.
    generalize (K * F) (B * Q * P) (B * P) (M * P). intros T x y z H1 H2 H3 HT.
    assert (Z.abs (z - n * T) <= Z.abs (z - n * T) * C) by nia.
    assert (z <= 2 * (n * T)) by lia.
    assert (2 * Z.abs (x - z) * C <= C * y) by nia. nia. }
  rewrite Z.abs_mul, (Z.abs_eq (B * J)) in H by lia. nia.
Qed.

(** [n] steps of [10 ^ -k] computed as one product: a full-width number [m / 2 ^ f] whose
    relative distance from [n / 10 ^ k] is at most [2 ^ -51]. *)
Lemma grid_product n k m2 f2 :
  0 < n < 2 ^ 48 -> 0 <= k -> decimal_step k = S754_finite false m2 (- f2) ->
  2 ^ 52 <= Zpos m2 < 2 ^ 53 -> 52 <= f2 <= 100 ->
  Z.abs (Zpos m2 * 10 ^ k - 2 ^ f2) * 2 ^ 52 <= 2 ^ f2 ->
  exists m f, fmul (of_Z n) (decimal_step k) = S754_finite false m (- f) /\
    2 ^ 52 <= Zpos m < 2 ^ 53 /\ f2 - 49 <= f <= 152 /\
    Z.abs (Zpos m * 10 ^ k - n * 2 ^ f) * 2 ^ 52 <= 2 * (n * 2 ^ f).
Proof.
  intros Hn Hk -> Hw2 Hf2 Hs. destruct (of_Z_exact n) as (m1&k1&->&Hk1&Hm1&Hw1); [lia|].
  assert (5 <= k1) as Hk3.
  { assert (~ k1 <= 4); [|lia]. intros H. assert (2 ^ k1 <= 2 ^ 4) by (apply Z.pow_le_mono_r; lia). nia. }
  assert (exists d, 52 <= d <= 53 /\ 2 ^ (52 + d) <= Zpos (m1 * m2) < 2 ^ (53 + d)) as (d&Hd&HM).
  { rewrite Pos2Z.inj_mul. destruct (Z.lt_ge_cases (Zpos m1 * Zpos m2) (2 ^ 105)).
    - exists 52. split; [lia|]. split; [|done]. change (2 ^ (52 + 52)) with (2 ^ 52 * 2 ^ 52). nia.
    - exists 53. split; [lia|]. split; [done|]. change (2 ^ (53 + 53)) with (2 ^ 53 * 2 ^ 53). nia. }
  unfold fmul, SFmul. cbn [xorb].
  destruct (binary_round_aux_wide false (m1 * m2) (- k1 + - f2) d) as (m&j&->&Hj&Hw&Hm); [lia|done|lia|].
  exists m, (k1 + f2 - d - j). split_and!; try lia; [f_equal; lia|].
  pose proof (round_div_even_near (Zpos (m1 * m2)) (2 ^ d) ltac:(lia)) as Hr.
  apply (product_error n (10 ^ k) (2 ^ k1) (2 ^ f2) (2 ^ d) (2 ^ j) _ (2 ^ 52) (Zpos m) (Zpos m2)
    (Zpos (m1 * m2)) (round_div_even (Zpos (m1 * m2)) (2 ^ d))); try lia.
  - rewrite <- !Z.pow_add_r by lia. f_equal. lia.
  - rewrite <- Z.pow_add_r by lia. apply HM.
Qed.

Lemma round_div_even_unique m d n : 0 < d -> 2 * Z.abs (m - n * d) < d -> round_div_even m d = n.
Proof.
  intros Hd H. pose proof (round_div_even_near m d Hd) as Hn.
  set (q := round_div_even m d) in *. clearbody q. nia.
Qed.

(** The text of a grid price is the decimal numeral of its number of steps. *)
Lemma fixed_grid n k :
  0 <= n < 2 ^ 48 -> 0 <= k <= 12 ->
  fixed k (fmul (of_Z n) (decimal_step k)) = decimal_text k n.
Proof.
  intros Hn Hk. destruct (decimal_step_spec k Hk) as (m2&f2&E2&Hw2&Hf2&Hs2).
  destruct (decide (n = 0)) as [->|Hz]; [by rewrite E2|].
  destruct (grid_product n k m2 f2) as (m&f&->&Hw&Hf&He); [lia|lia|done..|]. simpl. unfold scaled.
  destruct (Z.leb_spec 0 (- f)); [lia|]. rewrite Z.opp_involutive.
  rewrite (round_div_even_unique _ _ n); [done|lia|]. nia.
Qed.

(** ** Snapping back onto the grid *)
Lemma new_location_at N D : 0 < D -> new_location D (N mod D) = loc_at N D.
Proof.
  intros HD. unfold new_location, new_location_even, new_location_odd, loc_at.
  destruct (Z.even D) eqn:Ev; [done|]. destruct (N mod D =? 0); [done|]. f_equal.
  assert (2 * (N mod D) <> D) as Hne by (intros E; by rewrite <- E, Z.even_mul in Ev).
  destruct (Z.compare_spec (2 * (N mod D) + 1) D), (Z.compare_spec (2 * (N mod D)) D);
    solve [done|exfalso; lia].
Qed.

(** The quotient of two full-width numbers. *)
Lemma fdiv_wide m1 e1 m2 e2 :
  2 ^ 52 <= Zpos m1 < 2 ^ 53 -> 2 ^ 52 <= Zpos m2 < 2 ^ 53 -> -900 <= e1 - e2 <= 900 ->
  exists m d j, fdiv (S754_finite false m1 e1) (S754_finite false m2 e2) =
      S754_finite false m (e1 - e2 - 53 + d + j) /\ (d = 0 \/ d = 1) /\ (j = 0 \/ j = 1) /\
    2 ^ 52 <= Zpos m < 2 ^ 53 /\ Zpos m * 2 ^ j = round_div_even (Zpos m1 * 2 ^ 53) (Zpos m2 * 2 ^ d).
Proof.
  intros H1 H2 He. unfold fdiv, SFdiv, SFdiv_core_binary, Zdigits2.
  rewrite (digits2_unique m1 53), (digits2_unique m2 53) by (change (53 - 1) with 52; lia).
  assert (Z.min (fexp prec emax (53 + e1 - (53 + e2))) (e1 - e2) = e1 - e2 - 53) as ->
    by (unfold fexp, emin, prec, emax; lia).
  replace (e1 - e2 - (e1 - e2 - 53)) with 53 by lia. cbn iota. rewrite Z.shiftl_mul_pow2 by lia.
  set (N := Zpos m1 * 2 ^ 53).
  pose proof (eq_refl (Z.div_eucl N (Zpos m2))) as E. destruct (Z.div_eucl N (Zpos m2)) as [q r] eqn:Eq.
  assert (q = N / Zpos m2) as -> by (unfold Z.div; by rewrite Eq).
  assert (r = N mod Zpos m2) as -> by (unfold Z.modulo; by rewrite Eq).
  rewrite new_location_at by lia. cbn [xorb].
  assert (exists d, (d = 0 \/ d = 1) /\ 2 ^ (52 + d) <= N / Zpos m2 < 2 ^ (53 + d)) as (d&Hd&Hw).
  { assert (2 ^ 52 <= N / Zpos m2 < 2 ^ 54) as [Hlo Hhi].
    { split; [apply Z.div_le_lower_bound|apply Z.div_lt_upper_bound]; lia. }
    destruct (Z.lt_ge_cases (N / Zpos m2) (2 ^ 53)); [exists 0|exists 1]; split; auto. }
  destruct (binary_round_aux_quotient false N (Zpos m2) (e1 - e2 - 53) d) as (m&j&->&Hj&Hwm&Hm);
    [lia..|]. by exists m, d, j.
Qed.

(** Adding half and flooring picks the nearest integer. *)
Lemma half_floor m d n : 0 < d -> 2 * Z.abs (m - n * d) < d -> (2 * m + d) / (2 * d) = n.
Proof. intros Hd H. symmetry. apply (Z.div_unique_pos _ _ _ (2 * m + d - 2 * d * n)); lia. Qed.


(** The arithmetic of the quotient of a rounded product by its step. *)
Lemma cross_error n m m2 P A F C :
  0 < n -> 0 < P -> 0 < A -> 0 < F -> 2 <= C -> 0 < m2 ->
  Z.abs (m * P - n * A) * C <= 2 * (n * A) -> Z.abs (m2 * P - F) * C <= F ->
  Z.abs (m * F - n * A * m2) * C <= 6 * (n * A * m2).
Proof.
  intros Hn HP HA HF HC Hm2 Ha Hb.
  assert (F <= 2 * (m2 * P)) as HF2 by nia.
  assert (0 < n * A) as HnA by lia. revert Ha HnA. generalize (n * A). intros T Ha HnA.
  assert (Z.abs ((m * F - T * m2) * P) * C <= 3 * (T * F)) as H.
  { replace ((m * F - T * m2) * P) with ((m * P - T) * F - T * (m2 * P - F)) by ring.
    assert (Z.abs ((m * P - T) * F) * C <= 2 * (T * F)) by (rewrite Z.abs_mul, (Z.abs_eq F) by lia; nia).
    assert (Z.abs (T * (m2 * P - F)) * C <= T * F) by (rewrite Z.abs_mul, (Z.abs_eq T) by lia; nia).
    nia. }
  rewrite Z.abs_mul, (Z.abs_eq P) in H by lia.
  assert (T * F <= 2 * (T * m2 * P)) by nia. nia.
Qed.

Lemma quotient_close n r G C :
  0 < n -> 16 * n <= C -> 1000 <= C -> 0 <= G -> C <= r ->
  2 * Z.abs (r - n * G) * C <= C + 12 * (n * G) -> 2 * Z.abs (r - n * G) < G.
Proof.
  intros Hn HnC HC HG Hr H.
  assert (16 * n * G <= C * G) by (by apply Z.mul_le_mono_nonneg_r).
  assert (8 * Z.abs (r - n * G) <= 4 + 3 * G) as H5.
  { apply (Z.mul_le_mono_pos_r _ _ C); lia. }
  assert (15 < G); [|lia]. apply Z.nle_gt. intros HG15.
  assert (n * G <= n * 15) by (apply Z.mul_le_mono_nonneg_l; lia). lia.
Qed.

Lemma quotient_error n m m2 r F G J B A C :
  0 < n -> 16 * n <= C -> 1000 <= C -> 0 < m2 -> 0 < F -> 0 <= G -> 0 < J -> 0 < B ->
  F * G * J * B = A * (2 * C) -> C <= r ->
  Z.abs (m * F - n * A * m2) * C <= 6 * (n * A * m2) ->
  2 * Z.abs (m2 * B * (r * J) - m * (2 * C)) <= m2 * B ->
  2 * Z.abs (r - n * G) < G.
Proof.
  intros Hn HnC HC Hm2 HF HG HJ HB HT Hr He Hq.
  set (W := m2 * B * J * F). assert (0 < W) as HW by (unfold W; lia).
  assert (n * G * W = n * A * m2 * (2 * C)) as HGW.
  { unfold W. transitivity (n * m2 * (F * G * J * B)); [ring|]. rewrite HT. ring. }
  assert (Z.abs ((m * F - n * A * m2) * (2 * C)) * C <= 6 * (n * G * W)) as H1.
  { rewrite Z.abs_mul, (Z.abs_eq (2 * C)), HGW by lia. nia. }
  assert (2 * Z.abs (r * W - m * (2 * C) * F) <= W) as H2.
  { replace (r * W - m * (2 * C) * F) with ((m2 * B * (r * J) - m * (2 * C)) * F) by (unfold W; ring).
    rewrite Z.abs_mul, (Z.abs_eq F) by lia. revert Hq. generalize (Z.abs (m2 * B * (r * J) - m * (2 * C))).
    intros y Hy. assert (0 < m2 * B * F) by lia.
    assert (2 * y * F <= m2 * B * F) by (apply Z.mul_le_mono_nonneg_r; lia).
    assert (m2 * B * F * 1 <= m2 * B * F * J) by (apply Z.mul_le_mono_nonneg_l; lia).
    unfold W. lia. }
  assert (2 * Z.abs ((r - n * G) * W) * C <= C * W + 12 * (n * G * W)) as H3.
  { replace ((m * F - n * A * m2) * (2 * C)) with (m * (2 * C) * F - n * G * W) in H1 by (rewrite HGW; ring).
    replace ((r - n * G) * W) with (r * W - n * G * W) by ring.
    revert H1 H2. generalize (r * W) (m * (2 * C) * F) (n * G * W). intros x y z H1 H2.
    assert (2 * Z.abs (x - y) * C <= W * C) by (apply Z.mul_le_mono_nonneg_r; lia).
    assert (Z.abs (x - z) * C <= (Z.abs (x - y) + Z.abs (y - z)) * C) by (apply Z.mul_le_mono_nonneg_r; lia).
    lia. }
  rewrite Z.abs_mul, (Z.abs_eq W) in H3 by lia.
  apply (quotient_close n r G C); try lia. apply (Z.mul_le_mono_pos_r _ _ W); [done|]. lia.
Qed.

(** Dividing a grid price by its step and rounding gives the number of steps back. *)
Lemma snap_stable n k :
  0 <= n < 2 ^ 48 -> 0 <= k <= 12 ->
  fround (fdiv (fmul (of_Z n) (decimal_step k)) (decimal_step k)) = of_Z n.
Proof.
  intros Hn Hk. destruct (decimal_step_spec k Hk) as (m2&f2&E2&Hw2&Hf2&Hs2).
  destruct (decide (n = 0)) as [->|Hz]; [by rewrite E2|].
  destruct (grid_product n k m2 f2) as (m&f&->&Hw&Hf&He); [lia|lia|done..|]. rewrite E2.
  destruct (fdiv_wide m (- f) m2 (- f2)) as (r&d&j&->&Hd&Hj&Hr&Hq); [done..|lia|].
  set (g := f - f2 + 53 - d - j). assert (0 < g) as Hg by lia.
  replace (- f - - f2 - 53 + d + j) with (- g) by lia. unfold fround.
  destruct (Z.leb_spec 0 (- g)); [lia|]. rewrite Z.opp_involutive.
  rewrite (half_floor (Zpos r) (2 ^ g) n); [done|lia|].
  pose proof (round_div_even_near (Zpos m * 2 ^ 53) (Zpos m2 * 2 ^ d) ltac:(lia)) as Hn2.
  rewrite <- Hq in Hn2.
  apply (quotient_error n (Zpos m) (Zpos m2) (Zpos r) (2 ^ f2) (2 ^ g) (2 ^ j) (2 ^ d) (2 ^ f) (2 ^ 52));
    try lia.
  - change (2 * 2 ^ 52) with (2 ^ 53). rewrite <- !Z.pow_add_r by lia. f_equal. lia.
  - by apply (cross_error _ _ _ (10 ^ k)); try lia.
Qed.
