(* ===== verification/Strategy.v ===== *)
(** * Strategy: unit conversions, the Geuant strategy and its order pairing

    [trader/strategy/base_strategy.*], [trader/strategy/geuant_strategy.*],
    [utils/tick_configs.*].  [make_decision] is the C++ function with its four output
    containers threaded as a [QuoteDecision]. *)
From S2P Require Import Prelude Double Messages.

(** ** base_strategy.hpp *)

(** A [TickFunc] is a nullable function pointer. *)
Definition TickFunc : Type := option (double -> double).

Definition get_tick_func (exchange : string) : TickFunc := None.

Record MarketConfig := {
  mc_name : string;
  min_tick_size : double;
  default_lot_size : double;
  mc_exchange : string;
  tick_func : TickFunc;
  short_sell_unable : bool }.

Record GeuantParams := {
  gp_name : string;
  spread_const_bp : double; skew_ratio : double;
  use_spread_cap : bool; spread_cap_bp : double;
  use_bbo_cap_buffer : bool; bbo_cap_buffer_bp : double;
  order_lots : Z; order_dollar : double;
  position_limit_in_lots : Z; position_in_dollar : bool;
  position_limit_in_dollar : double;
  order_buffer_bp : double;
  order_num : nat; order_interval_bp : double;
  tick_based_order_interval : bool; order_interval_ticks : Z }.

(** What [make_decision] fills in: two price-keyed place maps, two cancel lists. *)
Record QuoteDecision := {
  bid_place : gmap Z Z; ask_place : gmap Z Z;
  bid_cancel : list Z; ask_cancel : list Z }.
Definition no_decision : QuoteDecision :=
  {| bid_place := ∅; ask_place := ∅; bid_cancel := []; ask_cancel := [] |}.

(** The interface the order handler holds its strategy through. *)
Class BaseStrategy := {
  make_decision :
    PriceInfo -> bool -> Z -> gmap Z OutstandingOrder -> QuoteDecision -> QuoteDecision }.

Section base_strategy.
  Context (mc : MarketConfig).

Definition round_price_in_min_ticks (price : double) : Z :=
  to_int64 (fround (fdiv price (min_tick_size mc))).

Definition ceil_price_in_min_ticks (price : double) : Z :=
  match tick_func mc with
  | Some f =>
      let local_tick_size := f price in
      let ceil_price :=
        fmul (fceil (fsub (fdiv price local_tick_size) f1em8)) local_tick_size in
      round_price_in_min_ticks ceil_price
  | None => to_int64 (fceil (fsub (fdiv price (min_tick_size mc)) f1em8))
  end.

Definition floor_price_in_min_ticks (price : double) : Z :=
  match tick_func mc with
  | Some f =>
      let local_tick_size := f price in
      let floor_price :=
        fmul (ffloor (fadd (fdiv price local_tick_size) f1em8)) local_tick_size in
      round_price_in_min_ticks floor_price
  | None => to_int64 (ffloor (fadd (fdiv price (min_tick_size mc)) f1em8))
  end.

Definition to_double_price (price_in_min_ticks : Z) : double :=
  fmul (of_Z price_in_min_ticks) (min_tick_size mc).

Definition round_qty_in_lots (qty : double) : Z :=
  to_int32 (fround (fdiv qty (default_lot_size mc))).

Definition dollar_to_qty_in_lots (order_dollar order_price : double) : Z :=
  round_qty_in_lots (fdiv order_dollar order_price).

Definition to_double_qty (qty_in_lots : Z) : double :=
  fmul (of_Z qty_in_lots) (default_lot_size mc).
End base_strategy.

Lemma elem_of_kvs_keys {V} (m : gmap Z V) k : k ∈ (kvs m).*1 <-> is_Some (m !! k).
Proof. apply (elem_of_keys Z.le). Qed.

(** ** Pairing resting orders with wanted prices *)

(** [place_orders.lower_bound(p)] and the entry before it, on the ascending keys:
    the last key below [p] and the first key at or above it. *)
Fixpoint bracket (p : Z) (keys : list Z) (below : option Z) : option Z * option Z :=
  match keys with
  | [] => (below, None)
  | k :: ks => if p <=? k then (below, Some k) else bracket p ks (Some k)
  end.

(** The candidate wanted price for a resting order at [p], with its distance. *)
Definition nearest_candidate (p : Z) (keys : list Z) : option (Z * Z) :=
  let '(below, upper) := bracket p keys None in
  let from_below := match below with Some k => Some (k, wrap_s 64 (p - k)) | None => None end in
  match upper with
  | Some k =>
      let distance := wrap_s 64 (k - p) in
      match from_below with
      | None => Some (k, distance)
      | Some (_, best) => if distance <? best then Some (k, distance) else from_below
      end
  | None => from_below
  end.

Section geuant.
  Context (mc : MarketConfig) (params : GeuantParams).

Definition clip_delta (delta : double) : double :=
  if use_spread_cap params then fmin (fmax fzero delta) (spread_cap_bp params)
  else fmax fzero delta.

Definition delta_bid (forward_vol position_limit_usage : double) : double :=
  clip_delta (fmul (fmul (spread_const_bp params) forward_vol)
                (fadd fone (fmul (skew_ratio params) position_limit_usage))).

Definition delta_ask (forward_vol position_limit_usage : double) : double :=
  clip_delta (fmul (fmul (spread_const_bp params) forward_vol)
                (fsub fone (fmul (skew_ratio params) position_limit_usage))).

Definition get_order_qty_in_lots (price_in_min_ticks qty_limit_in_lots : Z) : Z :=
  std_min qty_limit_in_lots
    (if position_in_dollar params
     then dollar_to_qty_in_lots mc (order_dollar params) (to_double_price mc price_in_min_ticks)
     else order_lots params).

(** How far a wanted price may sit from a resting one and still be the same quote. *)
Definition tolerance_in_min_ticks (is_liquidate : bool) (outstanding_price : Z) : Z :=
  let buffer_bp := if is_liquidate then fzero else order_buffer_bp params in
  if fpos buffer_bp then
    to_int64 (ffloor (fadd
      (fdiv (fmul (of_Z (wrap_s 64 (Z.abs outstanding_price))) buffer_bp) f10000) f1em8))
  else 0.

(** The wanted price a resting order claims, if one is near enough. *)
Definition claim (is_liquidate : bool) (place_orders : gmap Z Z) (p : Z) : option Z :=
  match nearest_candidate p (kvs place_orders).*1 with
  | Some (k, best_distance) =>
      if tolerance_in_min_ticks is_liquidate p <? best_distance then None else Some k
  | None => None
  end.

(** One turn of the loop over [outstanding_orders]. *)
Definition choose_one (is_liquidate : bool) (d : QuoteDecision) (cid : Z)
    (o : OutstandingOrder) : QuoteDecision :=
  if oo_is_bid o then
    match claim is_liquidate (bid_place d) (oo_price o) with
    | None => {| bid_place := bid_place d; ask_place := ask_place d;
                 bid_cancel := bid_cancel d ++ [cid]; ask_cancel := ask_cancel d |}
    | Some k => {| bid_place := delete k (bid_place d); ask_place := ask_place d;
                   bid_cancel := bid_cancel d; ask_cancel := ask_cancel d |}
    end
  else
    match claim is_liquidate (ask_place d) (oo_price o) with
    | None => {| bid_place := bid_place d; ask_place := ask_place d;
                 bid_cancel := bid_cancel d; ask_cancel := ask_cancel d ++ [cid] |}
    | Some k => {| bid_place := bid_place d; ask_place := delete k (ask_place d);
                   bid_cancel := bid_cancel d; ask_cancel := ask_cancel d |}
    end.

Definition choose_orders_to_cancel (outstanding : gmap Z OutstandingOrder)
    (is_liquidate : bool) (d : QuoteDecision) : QuoteDecision :=
  foldl (fun d co => choose_one is_liquidate d co.1 co.2) d (kvs outstanding).

(** *** make_decision *)

Definition set_bid (p q : Z) (d : QuoteDecision) : QuoteDecision :=
  {| bid_place := <[p := q]> (bid_place d); ask_place := ask_place d;
     bid_cancel := bid_cancel d; ask_cancel := ask_cancel d |}.
Definition set_ask (p q : Z) (d : QuoteDecision) : QuoteDecision :=
  {| bid_place := bid_place d; ask_place := <[p := q]> (ask_place d);
     bid_cancel := bid_cancel d; ask_cancel := ask_cancel d |}.

(** "One tick" for this product. *)
Definition local_tick (pi : PriceInfo) : double :=
  match tick_func mc with
  | Some f => f (fair_price pi)
  | None => if fpos (pi_tick_size pi) then pi_tick_size pi else min_tick_size mc
  end.

(** The get-flat branch: quote the whole position one tick inside the touch. *)
Definition liquidation_quote (pi : PriceInfo) (position : Z) (d : QuoteDecision) : QuoteDecision :=
  if 0 <? position then
    set_ask (floor_price_in_min_ticks mc
               (fsub (to_double_price mc (bask_price pi)) (local_tick pi)))
      position d
  else if position <? 0 then
    set_bid (ceil_price_in_min_ticks mc
               (fadd (to_double_price mc (bbid_price pi)) (local_tick pi)))
      (wrap_s 32 (- position)) d
  else d.

Definition bid_price_limit (pi : PriceInfo) : Z :=
  if use_bbo_cap_buffer params then
    floor_price_in_min_ticks mc
      (fmul (to_double_price mc (bbid_price pi))
         (fsub fone (fdiv (bbo_cap_buffer_bp params) f10000)))
  else
    floor_price_in_min_ticks mc (fsub (to_double_price mc (bask_price pi)) (local_tick pi)).

Definition ask_price_limit (pi : PriceInfo) : Z :=
  if use_bbo_cap_buffer params then
    ceil_price_in_min_ticks mc
      (fmul (to_double_price mc (bask_price pi))
         (fadd fone (fdiv (bbo_cap_buffer_bp params) f10000)))
  else
    ceil_price_in_min_ticks mc (fadd (to_double_price mc (bbid_price pi)) (local_tick pi)).

Definition position_limit (pi : PriceInfo) : Z :=
  if position_in_dollar params
  then dollar_to_qty_in_lots mc (position_limit_in_dollar params) (mid_price pi)
  else position_limit_in_lots params.

Definition bid_qty_limit (pi : PriceInfo) (position : Z) : Z :=
  wrap_s 32 (position_limit pi - position).
Definition ask_qty_limit (pi : PriceInfo) (position : Z) : Z :=
  std_min (if short_sell_unable mc then position else int32_max)
    (wrap_s 32 (position + position_limit pi)).

Definition limit_usage (pi : PriceInfo) (position : Z) : double :=
  if position_in_dollar params then
    fdiv (fmul (to_double_qty mc position) (mid_price pi)) (position_limit_in_dollar params)
  else fdiv (to_double_qty mc position) (to_double_qty mc (position_limit_in_lots params)).

(** [map.rbegin()->first] and [map.begin()->first]. *)
Definition last_key (m : gmap Z Z) : option Z := last (kvs m).*1.
Definition first_key (m : gmap Z Z) : option Z := head (kvs m).*1.

(** One level of the ladder. *)
Definition ladder_level (pi : PriceInfo) (position : Z) (d : QuoteDecision) (order_idx : nat)
    : QuoteDecision :=
  let idx := Z.of_nat order_idx in
  let tick_based := (1 <=? idx) && tick_based_order_interval params in
  let price_offset :=
    if tick_based
    then fmul (of_Z (wrap_u 64 (idx * order_interval_ticks params))) (local_tick pi)
    else fdiv (fmul (fmul (fair_price pi) (of_Z idx)) (order_interval_bp params)) f10000 in
  let usage := limit_usage pi position in
  let base_delta_bid := delta_bid (forward_vol_bp pi) usage in
  let base_delta_ask := delta_ask (forward_vol_bp pi) usage in
  let d :=
    if 0 <? bid_qty_limit pi position then
      let raw :=
        if tick_based
        then fsub (to_double_price mc (default 0 (last_key (bid_place d)))) price_offset
        else fsub (fmul (fair_price pi) (fsub fone (fdiv base_delta_bid f10000))) price_offset in
      let p := std_min (round_price_in_min_ticks mc raw) (bid_price_limit pi) in
      set_bid p (get_order_qty_in_lots p (bid_qty_limit pi position)) d
    else d in
  if 0 <? ask_qty_limit pi position then
    let raw :=
      if tick_based
      then fadd (to_double_price mc (default 0 (first_key (ask_place d)))) price_offset
      else fadd (fmul (fair_price pi) (fadd fone (fdiv base_delta_ask f10000))) price_offset in
    let p := std_max (round_price_in_min_ticks mc raw) (ask_price_limit pi) in
    set_ask p (get_order_qty_in_lots p (ask_qty_limit pi position)) d
  else d.

Definition quote_ladder (pi : PriceInfo) (position : Z) (d : QuoteDecision) : QuoteDecision :=
  foldl (ladder_level pi position) d (seq 0 (order_num params)).

Definition geuant_make_decision (pi : PriceInfo) (do_liquidate : bool) (position : Z)
    (outstanding : gmap Z OutstandingOrder) (d : QuoteDecision) : QuoteDecision :=
  if is_nan (mid_price pi) then d
  else if do_liquidate then
    choose_orders_to_cancel outstanding true (liquidation_quote pi position d)
  else
    choose_orders_to_cancel outstanding false (quote_ladder pi position d).

Definition GeuantStrategy : BaseStrategy := {| make_decision := geuant_make_decision |}.
End geuant.

(** ** Spread bounds *)

(** The clipped half-spread is never negative and, when the cap is on, never above
    it, whatever the raw value is (a NaN one included). *)
Lemma clip_delta_range params delta :
  is_nan (spread_cap_bp params) = false -> fle fzero (spread_cap_bp params) = true ->
  fle fzero (clip_delta params delta) = true /\
  (use_spread_cap params = true -> fle (clip_delta params delta) (spread_cap_bp params) = true).
Proof.
  intros Hn Hc. unfold clip_delta. destruct (use_spread_cap params).
  - split; [|intros _; apply fmin_le_r; [by apply fmax_not_nan|done]].
    destruct (fmin_cases (fmax fzero delta) (spread_cap_bp params)) as [-> | ->]; [|done].
    by apply fmax_ge_l.
  - split; [by apply fmax_ge_l|done].
Qed.

(** ** The nearest wanted price *)

Definition in_ticks (z : Z) : Prop := Z.abs z < 2 ^ 62.

Lemma bracket_spec p keys below lo up :
  StronglySorted Z.lt keys ->
  (forall b, below = Some b -> b < p /\ Forall (Z.lt b) keys) ->
  bracket p keys below = (lo, up) ->
  (forall b, lo = Some b -> b < p /\ (b ∈ keys \/ below = Some b)) /\
  (forall u, up = Some u -> p <= u /\ u ∈ keys) /\
  (forall k, k ∈ keys \/ below = Some k ->
     (k < p /\ exists b, lo = Some b /\ k <= b) \/ (p <= k /\ exists u, up = Some u /\ u <= k)).
Proof.
  intros Hs. revert below. induction Hs as [|k ks Hs IH Hk]; simpl; intros below Hb Heq.
  - simplify_eq. split_and!; [naive_solver|naive_solver|].
    intros k [Hk|Hk]; [set_solver|]. left. naive_solver lia.
  - destruct (p <=? k) eqn:E; zbool.
    + simplify_eq. split_and!; [naive_solver|intros u [= <-]; set_solver|].
      intros k' [[->|Hk']%elem_of_cons|Hk'].
      * right. naive_solver lia.
      * right. rewrite Forall_forall in Hk. specialize (Hk k' Hk'). naive_solver lia.
      * left. naive_solver lia.
    + destruct (IH (Some k)) as (H1&H2&H3); [naive_solver|done|].
      split_and!.
      * intros b Hb'. destruct (H1 b Hb') as [? [?|[= <-]]]; set_solver.
      * set_solver.
      * intros k' [[->|Hk']%elem_of_cons|Hk']; [apply H3; by right|apply H3; by left|].
        destruct (Hb k' Hk') as [Hlt HF]. inversion HF; subst.
        destruct (H3 k (or_intror eq_refl)) as [(_&b&->&?)|(?&_)]; [|lia].
        left. split; [lia|]. exists b. split; [done|lia].
Qed.

Lemma wrap_distance a b : in_ticks a -> in_ticks b -> wrap_s 64 (a - b) = a - b.
Proof. unfold in_ticks. intros. apply wrap_s_id; lia. Qed.

(** The candidate really is the closest wanted price, and an exact tie goes to the
    lower one. *)
Lemma nearest_candidate_spec p keys :
  StronglySorted Z.lt keys -> in_ticks p -> Forall in_ticks keys ->
  match nearest_candidate p keys with
  | None => keys = []
  | Some (k, d) =>
      k ∈ keys /\ d = Z.abs (k - p) /\
      forall k', k' ∈ keys -> d <= Z.abs (k' - p) /\ (Z.abs (k' - p) = d -> k <= k')
  end.
Proof.
  intros Hs Hp HF. unfold nearest_candidate.
  destruct (bracket p keys None) as [lo up] eqn:E.
  destruct (bracket_spec p keys None lo up Hs ltac:(done) E) as (Hlo&Hup&Hall).
  rewrite Forall_forall in HF.
  assert (forall k, k ∈ keys -> wrap_s 64 (p - k) = p - k /\ wrap_s 64 (k - p) = k - p) as W.
  { intros k Hk. split; apply wrap_distance; auto. }
  destruct lo as [b|], up as [u|]; simpl.
  - destruct (Hlo b eq_refl) as [Hb [Hbk|?]]; [|done]. destruct (Hup u eq_refl) as [Hu Huk].
    destruct (W b Hbk) as [-> _], (W u Huk) as [_ ->].
    destruct (u - p <? p - b) eqn:Ed; zbool; split_and!; try done; try lia;
      intros k' Hk'; destruct (Hall k' (or_introl Hk')) as [(?&?&?&?)|(?&?&?&?)];
      simplify_eq; lia.
  - destruct (Hlo b eq_refl) as [Hb [Hbk|?]]; [|done]. destruct (W b Hbk) as [-> _].
    split_and!; [done|lia|]. intros k' Hk'.
    destruct (Hall k' (or_introl Hk')) as [(?&?&?&?)|(?&?&?&?)]; simplify_eq; lia.
  - destruct (Hup u eq_refl) as [Hu Huk]. destruct (W u Huk) as [_ ->].
    split_and!; [done|lia|]. intros k' Hk'.
    destruct (Hall k' (or_introl Hk')) as [(?&?&?&?)|(?&?&?&?)]; simplify_eq; lia.
  - destruct keys as [|k ks]; [done|].
    destruct (Hall k) as [(?&?&?&?)|(?&?&?&?)]; set_solver.
Qed.

Lemma kvs_keys_sorted {V} (m : gmap Z V) : StronglySorted Z.lt (kvs m).*1.
Proof.
  assert (StronglySorted (key_le Z.le) (kvs m)) as Hs.
  { apply kvs_by_sorted; [intros a b c; lia|intros a b; lia]. }
  pose proof (NoDup_keys_kvs_by Z.le m) as Hn. revert Hn Hs.
  generalize (kvs m). intros kv Hn Hs.
  induction Hs as [|a l Hs IH Ha]; simpl in *; [constructor|].
  apply NoDup_cons in Hn as [Hna Hn]. constructor; [by apply IH|].
  apply Forall_forall. intros k Hk. rewrite Forall_forall in Ha.
  apply list_elem_of_fmap in Hk as (b&->&Hb). specialize (Ha b Hb).
  unfold key_le in Ha. assert (a.1 <> b.1); [|lia].
  intros Heq. apply Hna. rewrite Heq. by apply list_elem_of_fmap_2.
Qed.

(** ** Pairing resting orders with wanted prices *)

(** One side of a decision: [true] is the bid side. *)
Definition places (b : bool) (d : QuoteDecision) : gmap Z Z :=
  if b then bid_place d else ask_place d.
Definition cancels (b : bool) (d : QuoteDecision) : list Z :=
  if b then bid_cancel d else ask_cancel d.
(** The resting orders of one side, in iteration order. *)
Definition side (b : bool) (L : list (Z * OutstandingOrder)) : list (Z * OutstandingOrder) :=
  List.filter (fun co => Bool.eqb (oo_is_bid co.2) b) L.

Section pairing.
Context (params : GeuantParams) (liq : bool).

Lemma claim_elem m p k : claim params liq m p = Some k -> is_Some (m !! k).
Proof.
  unfold claim, nearest_candidate. rewrite <- (elem_of_kvs_keys m k).
  destruct (bracket p (kvs m).*1 None) as [lo up] eqn:E.
  destruct (bracket_spec p _ None lo up (kvs_keys_sorted m) ltac:(done) E) as (Hlo&Hup&_).
  destruct lo as [l|], up as [u|]; simpl; repeat case_match; naive_solver.
Qed.

Lemma claim_spec m p k :
  in_ticks p -> (forall k, is_Some (m !! k) -> in_ticks k) ->
  claim params liq m p = Some k ->
  Z.abs (k - p) <= tolerance_in_min_ticks params liq p /\
  forall k', is_Some (m !! k') -> Z.abs (k - p) <= Z.abs (k' - p).
Proof.
  intros Hp Hm. unfold claim. pose proof (nearest_candidate_spec p (kvs m).*1) as N.
  destruct (nearest_candidate _ _) as [[k' d]|]; [|done].
  destruct N as (_&->&N); [apply kvs_keys_sorted|done| |].
  { apply Forall_forall. intros x Hx. by apply Hm, elem_of_kvs_keys. }
  case_match; [done|]. intros [= ->]. zify_bools. split; [lia|].
  intros k' Hk'. by apply N, elem_of_kvs_keys.
Qed.

Lemma claim_exact m p :
  in_ticks p -> (forall k, is_Some (m !! k) -> in_ticks k) ->
  0 <= tolerance_in_min_ticks params liq p ->
  is_Some (m !! p) -> claim params liq m p = Some p.
Proof.
  intros Hp Hm Ht Hk. unfold claim. pose proof (nearest_candidate_spec p (kvs m).*1) as N.
  destruct (nearest_candidate _ _) as [[k' d]|].
  - destruct N as (_&->&N); [apply kvs_keys_sorted|done| |].
    { apply Forall_forall. intros x Hx. by apply Hm, elem_of_kvs_keys. }
    destruct (N p) as [N1 _]; [by apply elem_of_kvs_keys|].
    assert (k' = p) as -> by lia.
    destruct (_ <? _) eqn:E; zbool. done.
  - apply elem_of_kvs_keys in Hk. rewrite N in Hk; [set_solver|apply kvs_keys_sorted|done|].
    apply Forall_forall. intros x Hx. by apply Hm, elem_of_kvs_keys.
Qed.

Lemma choose_one_places b d cid o :
  places b (choose_one params liq d cid o) =
  if Bool.eqb (oo_is_bid o) b then
    match claim params liq (places b d) (oo_price o) with
    | None => places b d
    | Some k => delete k (places b d)
    end
  else places b d.
Proof. unfold choose_one. destruct b, (oo_is_bid o); simpl; by case_match. Qed.

Lemma choose_one_cancels b d cid o :
  cancels b (choose_one params liq d cid o) =
  if Bool.eqb (oo_is_bid o) b then
    match claim params liq (places b d) (oo_price o) with
    | None => cancels b d ++ [cid]
    | Some k => cancels b d
    end
  else cancels b d.
Proof. unfold choose_one. destruct b, (oo_is_bid o); simpl; by case_match. Qed.

(** The loop body folded over an explicit list of resting orders. *)
Abbreviation pair_all L d :=
  (foldl (fun d co => choose_one params liq d co.1 co.2) d L).

Lemma choose_one_shrink b d cid o :
  places b (choose_one params liq d cid o) ⊆ places b d.
Proof. rewrite choose_one_places. repeat case_match; try done. apply delete_subseteq. Qed.

Lemma pair_all_shrink b L d : places b (pair_all L d) ⊆ places b d.
Proof.
  revert d. induction L as [|co L IH]; intros d; simpl; [done|].
  etrans; [apply IH | apply choose_one_shrink].
Qed.

(** Every resting order is either cancelled or uses up exactly one wanted price. *)
Lemma pair_all_count b L d :
  (size (places b (pair_all L d)) + length (side b L) + length (cancels b d) =
   size (places b d) + length (cancels b (pair_all L d)))%nat.
Proof.
  revert d. induction L as [|[cid o] L IH]; intros d; simpl; [lia|].
  specialize (IH (choose_one params liq d cid o)).
  rewrite choose_one_places, choose_one_cancels in IH.
  destruct (Bool.eqb (oo_is_bid o) b); simpl in *; [|lia].
  destruct (claim params liq (places b d) (oo_price o)) as [k|] eqn:E.
  - apply claim_elem in E as [q Hq]. rewrite map_size_delete, Hq in IH.
    assert (size (places b d) <> 0)%nat; [|lia].
    intros H0%map_size_empty_inv. by rewrite H0, lookup_empty in Hq.
  - rewrite length_app in IH. simpl in IH. lia.
Qed.

(** The cancel list only grows, by ids of that side's resting orders, in order. *)
Lemma pair_all_cancels b L d :
  exists c, cancels b (pair_all L d) = cancels b d ++ c /\ c `sublist_of` (side b L).*1.
Proof.
  revert d. induction L as [|[cid o] L IH]; intros d; simpl.
  - exists []. by rewrite app_nil_r.
  - destruct (IH (choose_one params liq d cid o)) as (c&->&Hc).
    rewrite choose_one_cancels. destruct (Bool.eqb (oo_is_bid o) b); simpl; [|by exists c].
    case_match.
    + exists c. split; [done|]. by constructor.
    + exists (cid :: c). rewrite <- app_assoc. split; [done|]. by constructor.
Qed.

(** A resting order that is not cancelled stands in for a wanted price near it. *)
Lemma pair_all_kept b L d cid o :
  (forall k, is_Some (places b d !! k) -> in_ticks k) ->
  (forall co, co ∈ L -> in_ticks (oo_price co.2)) ->
  NoDup L.*1 -> (cid, o) ∈ L -> oo_is_bid o = b -> cid ∉ cancels b (pair_all L d) ->
  exists k, is_Some (places b d !! k) /\ places b (pair_all L d) !! k = None /\
    Z.abs (k - oo_price o) <= tolerance_in_min_ticks params liq (oo_price o).
Proof.
  revert d. induction L as [|[cid' o'] L IH]; intros d Hd HL Hnd Hin Hb Hc; simpl in *;
    [set_solver|].
  apply NoDup_cons in Hnd as [Hni Hnd]. apply elem_of_cons in Hin as [[= <- <-]|Hin].
  - destruct (pair_all_cancels b L (choose_one params liq d cid o)) as (c&Ec&_).
    rewrite Ec, choose_one_cancels in Hc.
    rewrite Hb, Bool.eqb_reflx in Hc.
    destruct (claim params liq (places b d) (oo_price o)) as [k|] eqn:E; [|set_solver].
    exists k. split_and!; [by eapply claim_elem| |].
    + eapply lookup_weaken_None; [|apply pair_all_shrink].
      rewrite choose_one_places, Hb, Bool.eqb_reflx, E. apply lookup_delete_eq.
    + eapply claim_spec; [by apply (HL (cid, o)); set_solver|done|done].
  - destruct (IH (choose_one params liq d cid' o')) as (k&Hk&?&?);
      [|set_solver|done|done|done|done|].
    + intros k [q Hq]. apply Hd. exists q. eapply lookup_weaken; [done|].
      apply choose_one_shrink.
    + exists k. split_and!; [|done|done]. destruct Hk as [q Hq]. exists q.
      eapply lookup_weaken; [done|]. apply choose_one_shrink.
Qed.

(** With nothing wanted on a side, every resting order of that side is cancelled. *)
Lemma pair_all_cancel_everything b L d :
  places b d = ∅ -> cancels b (pair_all L d) = cancels b d ++ (side b L).*1.
Proof.
  revert d. induction L as [|[cid o] L IH]; intros d Hd; simpl; [by rewrite app_nil_r|].
  assert (claim params liq (places b d) (oo_price o) = None) as Hn.
  { rewrite Hd. done. }
  rewrite IH; rewrite ?choose_one_places, ?choose_one_cancels, ?Hn.
  - destruct (Bool.eqb (oo_is_bid o) b); simpl; [|done]. by rewrite <- app_assoc.
  - by case_match.
Qed.

(** Re-deciding what already rests is a no-op: when the wanted prices of a side are
    exactly its resting prices, nothing is cancelled and nothing is placed. *)
Lemma pair_all_no_churn b L d :
  (forall k, is_Some (places b d !! k) <-> k ∈ (oo_price ∘ snd <$> side b L)) ->
  NoDup (oo_price ∘ snd <$> side b L) ->
  (forall co, co ∈ L -> in_ticks (oo_price co.2)) ->
  (forall co, co ∈ L -> 0 <= tolerance_in_min_ticks params liq (oo_price co.2)) ->
  places b (pair_all L d) = ∅ /\ cancels b (pair_all L d) = cancels b d.
Proof.
  assert (forall co L', co ∈ side b L' -> co ∈ L') as Hside.
  { intros co L' Hco. apply list_elem_of_In, filter_In in Hco as [Hco _].
    by apply list_elem_of_In. }
  revert d. induction L as [|[cid o] L IH]; intros d Hd Hnd Ht Htol.
  { simpl in *. split; [|done]. apply map_empty. intros k.
    destruct (places b d !! k) as [q|] eqn:E; [|done].
    exfalso. apply (not_elem_of_nil k). apply Hd. by rewrite E. }
  assert (forall k, is_Some (places b d !! k) -> in_ticks k) as Htk.
  { intros k Hk. apply Hd in Hk. apply list_elem_of_fmap in Hk as (co&->&Hco). simpl.
    apply Ht. by apply Hside. }
  cbn [foldl fst snd].
  destruct (Bool.eqb (oo_is_bid o) b) eqn:Eb; simpl in Hd, Hnd; rewrite Eb in Hd, Hnd.
  - simpl in Hd, Hnd. apply NoDup_cons in Hnd as [Hni Hnd].
    assert (claim params liq (places b d) (oo_price o) = Some (oo_price o)) as Hc.
    { apply claim_exact; [apply (Ht (cid, o)); set_solver|done| |].
      - apply (Htol (cid, o)). set_solver.
      - apply Hd. set_solver. }
    destruct (IH (choose_one params liq d cid o)) as [-> ->]; [|done|set_solver|set_solver|].
    + intros k. rewrite choose_one_places, Eb, Hc.
      destruct (decide (k = oo_price o)) as [->|Hne].
      * rewrite lookup_delete_eq. split; [by intros []|]. intros Hk. by destruct Hni.
      * rewrite lookup_delete_ne by done. rewrite Hd. set_solver.
    + by rewrite choose_one_cancels, Eb, Hc.
  - destruct (IH (choose_one params liq d cid o)) as [-> ->]; [|done|set_solver|set_solver|].
    + intros k. by rewrite choose_one_places, Eb.
    + by rewrite choose_one_cancels, Eb.
Qed.
End pairing.

(** ** Quote bounds *)

Section bounds.
Context (mc : MarketConfig) (params : GeuantParams) (pi : PriceInfo) (position : Z).

(** What every placed level satisfies. *)
Definition bid_ok (p q : Z) : Prop :=
  p <= bid_price_limit mc params pi /\ q <= bid_qty_limit mc params pi position /\
  0 < bid_qty_limit mc params pi position.
Definition ask_ok (p q : Z) : Prop :=
  ask_price_limit mc params pi <= p /\ q <= ask_qty_limit mc params pi position /\
  0 < ask_qty_limit mc params pi position.
Definition decision_ok (d : QuoteDecision) : Prop :=
  map_Forall bid_ok (bid_place d) /\ map_Forall ask_ok (ask_place d).

Lemma get_order_qty_le p lim : get_order_qty_in_lots mc params p lim <= lim.
Proof. unfold get_order_qty_in_lots. rewrite std_min_spec. lia. Qed.

Lemma set_bid_ok p q d : decision_ok d -> bid_ok p q -> decision_ok (set_bid p q d).
Proof. intros [Hb Ha] H. split; simpl; [|done]. by apply map_Forall_insert_2. Qed.

Lemma set_ask_ok p q d : decision_ok d -> ask_ok p q -> decision_ok (set_ask p q d).
Proof. intros [Hb Ha] H. split; simpl; [done|]. by apply map_Forall_insert_2. Qed.

Lemma ladder_level_ok d i : decision_ok d -> decision_ok (ladder_level mc params pi position d i).
Proof.
  intros Hd. unfold ladder_level. cbv zeta.
  assert (forall raw, bid_ok (std_min raw (bid_price_limit mc params pi))
    (get_order_qty_in_lots mc params (std_min raw (bid_price_limit mc params pi))
       (bid_qty_limit mc params pi position)) \/
    bid_qty_limit mc params pi position <= 0) as Hbid.
  { intros raw. destruct (Z.le_gt_cases (bid_qty_limit mc params pi position) 0); [by right|].
    left. split_and!; [rewrite std_min_spec; lia|apply get_order_qty_le|lia]. }
  assert (forall raw, ask_ok (std_max raw (ask_price_limit mc params pi))
    (get_order_qty_in_lots mc params (std_max raw (ask_price_limit mc params pi))
       (ask_qty_limit mc params pi position)) \/
    ask_qty_limit mc params pi position <= 0) as Hask.
  { intros raw. destruct (Z.le_gt_cases (ask_qty_limit mc params pi position) 0); [by right|].
    left. split_and!; [rewrite std_max_spec; lia|apply get_order_qty_le|lia]. }
  assert (forall (c : bool) x y, (c = true -> decision_ok x) -> (c = false -> decision_ok y) ->
    decision_ok (if c then x else y)) as Hif by (intros []; auto).
  apply Hif; intros Ea; zify_bools.
  - apply set_ask_ok.
    + apply Hif; intros Eb; zify_bools; [|done]. apply set_bid_ok; [done|].
      edestruct Hbid as [H|H]; [exact H|lia].
    + edestruct Hask as [H|H]; [exact H|lia].
  - apply Hif; intros Eb; zify_bools; [|done]. apply set_bid_ok; [done|].
    edestruct Hbid as [H|H]; [exact H|lia].
Qed.

Lemma quote_ladder_ok d : decision_ok d -> decision_ok (quote_ladder mc params pi position d).
Proof.
  unfold quote_ladder. generalize (seq 0 (order_num params)). intros l.
  revert d. induction l as [|i l IH]; intros d Hd; simpl; [done|].
  by apply IH, ladder_level_ok.
Qed.

Lemma decision_ok_weaken d d' :
  (forall b, places b d' ⊆ places b d) -> decision_ok d -> decision_ok d'.
Proof.
  intros Hs [Hb Ha]. split; intros p q Hp; [apply Hb|apply Ha];
    eapply lookup_weaken; eauto; [apply (Hs true)|apply (Hs false)].
Qed.
End bounds.

Lemma tolerance_liquidate params p : tolerance_in_min_ticks params true p = 0.
Proof. done. Qed.

(** ** A sample market, for evaluating the definitions *)
Module Sample.
Definition mc : MarketConfig := {|
  mc_name := "0"; min_tick_size := of_Z 1; default_lot_size := of_Z 1;
  mc_exchange := "binance"; tick_func := None; short_sell_unable := false |}.
Definition params : GeuantParams := {|
  gp_name := "0"; spread_const_bp := of_Z 10; skew_ratio := fzero;
  use_spread_cap := true; spread_cap_bp := of_Z 50;
  use_bbo_cap_buffer := false; bbo_cap_buffer_bp := fzero;
  order_lots := 2; order_dollar := fzero; position_limit_in_lots := 5;
  position_in_dollar := false; position_limit_in_dollar := fzero;
  order_buffer_bp := of_Z 1; order_num := 2; order_interval_bp := fzero;
  tick_based_order_interval := true; order_interval_ticks := 3 |}.
Definition pi : PriceInfo := {|
  bbid_price := 9999; bask_price := 10001; mid_price := of_Z 10000;
  fair_price := of_Z 10000; applied_factor := fnan; forward_vol_bp := fone;
  pi_tick_size := of_Z 1 |}.
Definition resting : gmap Z OutstandingOrder :=
  {[ 1 := {| oo_price := 9990; oo_qty := 2; oo_is_bid := true |};
     2 := {| oo_price := 9000; oo_qty := 2; oo_is_bid := true |};
     3 := {| oo_price := 10013; oo_qty := 2; oo_is_bid := false |} ]}.
Definition wanted : QuoteDecision := quote_ladder mc params pi 0 no_decision.
End Sample.

(** The sample quotes two levels a side: 9990/9987 and 10010/10013. *)
Example sample_ladder :
  (kvs (bid_place Sample.wanted), kvs (ask_place Sample.wanted)) =
  ([(9987, 2); (9990, 2)], [(10010, 2); (10013, 2)]).
Proof. vm_compute. reflexivity. Qed.

Lemma ticks_of_map {A} (m : gmap Z A) :
  map_Forall (fun k _ => in_ticks k) m -> forall k, is_Some (m !! k) -> in_ticks k.
Proof. intros H k [a Ha]. by apply (H k a). Qed.

#[export] Instance in_ticks_dec z : Decision (in_ticks z).
Proof. unfold in_ticks. apply _. Defined.

(** ** Properties of the strategy *)

(** C15: Pairing resting orders with wanted prices is an exact accounting on each side:
    the wanted prices left over are a sub-map of those asked for; every resting order
    is either cancelled once or has used up exactly one wanted price; only resting
    orders of that side are cancelled; and an order that is kept stands in for a wanted
    price no further from it than the configured tolerance. *)
Theorem pairing_sound params liq outstanding d b :
  bid_cancel d = [] -> ask_cancel d = [] ->
  (forall k, is_Some (places b d !! k) -> in_ticks k) ->
  (forall cid o, outstanding !! cid = Some o -> in_ticks (oo_price o)) ->
  let d' := choose_orders_to_cancel params outstanding liq d in
  places b d' ⊆ places b d /\
  (size (places b d') + length (side b (kvs outstanding)) =
     size (places b d) + length (cancels b d'))%nat /\
  NoDup (cancels b d') /\
  (forall cid, cid ∈ cancels b d' ->
     exists o, outstanding !! cid = Some o /\ oo_is_bid o = b) /\
  (forall cid o, outstanding !! cid = Some o -> oo_is_bid o = b -> cid ∉ cancels b d' ->
     exists k, is_Some (places b d !! k) /\ places b d' !! k = None /\
       Z.abs (k - oo_price o) <= tolerance_in_min_ticks params liq (oo_price o)).
Proof.
  intros Hb Ha Hk Ho. cbv zeta. unfold choose_orders_to_cancel.
  assert (cancels b d = []) as Hc0 by (by destruct b).
  pose proof (NoDup_keys_kvs_by Z.le outstanding) as Hnd.
  destruct (pair_all_cancels params liq b (kvs outstanding) d) as (c&Ec&Hc).
  rewrite Hc0 in Ec. simpl in Ec.
  assert (sublist (side b (kvs outstanding)).*1 (kvs outstanding).*1) as Hsub.
  { unfold side. generalize (kvs outstanding). induction l as [|co l IH]; simpl; [constructor|].
    case_match; by constructor. }
  split_and!.
  - apply pair_all_shrink.
  - pose proof (pair_all_count params liq b (kvs outstanding) d) as H.
    rewrite Hc0 in H. simpl in H. lia.
  - rewrite Ec. eapply sublist_NoDup; [done|]. by etrans.
  - rewrite Ec. intros cid Hcid. eapply elem_of_sublist in Hcid; [|done].
    apply list_elem_of_fmap in Hcid as ((cid'&o)&->&Hin).
    apply list_elem_of_In, filter_In in Hin as [Hin He].
    exists o. split; [|by apply Bool.eqb_prop].
    by apply list_elem_of_In, elem_of_kvs_by in Hin.
  - intros cid o Hco Hob Hni. eapply pair_all_kept; try done.
    + intros [cid' o'] Hin. apply elem_of_kvs_by in Hin. by eapply Ho.
    + by apply elem_of_kvs_by.
Qed.

Lemma pairing_sound_witness :
  let d' := choose_orders_to_cancel Sample.params Sample.resting false Sample.wanted in
  cancels true d' = [2] /\ places true d' = {[ 9987 := 2 ]} /\
  (size (places true d') + length (side true (kvs Sample.resting)) =
     size (places true Sample.wanted) + length (cancels true d'))%nat.
Proof.
  split; [vm_compute; reflexivity|]. split; [apply (bool_decide_unpack _); vm_compute; exact I|].
  refine (proj1 (proj2 (pairing_sound Sample.params false Sample.resting Sample.wanted true
    _ _ _ _))); [reflexivity|reflexivity|..].
  - apply ticks_of_map. apply (bool_decide_unpack _). vm_compute. exact I.
  - intros cid o. revert cid o. apply (bool_decide_unpack (map_Forall
      (fun _ o => in_ticks (oo_price o)) Sample.resting)). vm_compute. exact I.
Defined.

(** Re-deciding an unchanged market is a no-op: when the prices wanted on a side are
    exactly the prices already resting there (one order per price), the pairing cancels
    nothing and leaves nothing to place on that side. *)
Theorem pairing_no_churn params liq outstanding d b :
  let resting := oo_price ∘ snd <$> side b (kvs outstanding) in
  (forall k, is_Some (places b d !! k) <-> k ∈ resting) ->
  NoDup resting ->
  (forall cid o, outstanding !! cid = Some o ->
     in_ticks (oo_price o) /\ 0 <= tolerance_in_min_ticks params liq (oo_price o)) ->
  let d' := choose_orders_to_cancel params outstanding liq d in
  places b d' = ∅ /\ cancels b d' = cancels b d.
Proof.
  cbv zeta. intros Hd Hnd Ho. unfold choose_orders_to_cancel.
  apply pair_all_no_churn; [done|done|..];
    intros [cid o] Hin; apply elem_of_kvs_by in Hin; by apply (Ho cid o).
Qed.

(** Orders already resting at the wanted prices: no cancel, nothing left to place. *)
Definition sample_resting_wanted : gmap Z OutstandingOrder :=
  {[ 1 := {| oo_price := 9990; oo_qty := 2; oo_is_bid := true |};
     2 := {| oo_price := 9987; oo_qty := 2; oo_is_bid := true |} ]}.

Lemma pairing_no_churn_witness :
  let d' := choose_orders_to_cancel Sample.params sample_resting_wanted false Sample.wanted in
  places true d' = ∅ /\ cancels true d' = cancels true Sample.wanted.
Proof.
  apply (pairing_no_churn Sample.params false sample_resting_wanted Sample.wanted true).
  - intros k. rewrite <- elem_of_kvs_keys.
    assert ((kvs (places true Sample.wanted)).*1 = [9987; 9990]) as -> by (vm_compute; reflexivity).
    assert ((oo_price ∘ snd <$> side true (kvs sample_resting_wanted)) = [9990; 9987]) as ->
      by (vm_compute; reflexivity).
    set_solver.
  - apply (bool_decide_unpack _). vm_compute. exact I.
  - intros cid o. revert cid o. apply (bool_decide_unpack (map_Forall
      (fun _ o => in_ticks (oo_price o) /\
         0 <= tolerance_in_min_ticks Sample.params false (oo_price o)) sample_resting_wanted)).
    vm_compute. exact I.
Defined.

(** C2: Every order a quoting decision places respects the position limit and stays on
    its own side of the price caps: bids at or below the bid cap and no larger than the
    room left up to the limit, asks at or above the ask cap and no larger than the room
    down to it, and never more than the holding when short selling is off. *)
Theorem decision_respects_limits mc params pi position outstanding :
  let d := geuant_make_decision mc params pi false position outstanding no_decision in
  (forall p q, bid_place d !! p = Some q ->
     p <= bid_price_limit mc params pi /\
     (in_int32 (position_limit mc params pi - position) ->
        position + q <= position_limit mc params pi)) /\
  (forall p q, ask_place d !! p = Some q ->
     ask_price_limit mc params pi <= p /\
     (in_int32 (position + position_limit mc params pi) ->
        - position_limit mc params pi <= position - q) /\
     (short_sell_unable mc = true -> q <= position)).
Proof.
  cbv zeta. set (d := geuant_make_decision _ _ _ _ _ _ _).
  assert (decision_ok mc params pi position d) as [Hb Ha].
  { unfold d, geuant_make_decision. destruct (is_nan _); [by split; apply map_Forall_empty|].
    eapply decision_ok_weaken; [intros b; apply pair_all_shrink|].
    apply quote_ladder_ok. by split; apply map_Forall_empty. }
  split; intros p q Hp.
  - destruct (Hb p q Hp) as (?&Hq&_). split; [done|]. intros Hr.
    unfold bid_qty_limit in Hq. rewrite wrap32_id in Hq by done. lia.
  - destruct (Ha p q Hp) as (?&Hq&_). unfold ask_qty_limit in Hq. rewrite std_min_spec in Hq.
    split_and!; [done| |].
    + intros Hr. rewrite wrap32_id in Hq by done. lia.
    + intros E. rewrite E in Hq. lia.
Qed.

Lemma decision_respects_limits_witness :
  let d := geuant_make_decision Sample.mc Sample.params Sample.pi false 3 ∅ no_decision in
  bid_place d !! 9990 = Some 2 /\ 3 + 2 <= position_limit Sample.mc Sample.params Sample.pi.
Proof.
  split; [vm_compute; reflexivity|].
  apply (proj1 (decision_respects_limits Sample.mc Sample.params Sample.pi 3 ∅) 9990 2).
  - vm_compute. reflexivity.
  - vm_compute. split; discriminate.
Defined.

(** C19: The get-flat decision places at most one order, on the closing side only, sized
    to the whole position, and pulls every resting order except one already sitting at
    exactly that closing price. *)
Theorem liquidation_closes_position mc params pi position outstanding :
  is_nan (mid_price pi) = false -> int32_min < position <= int32_max ->
  (forall cid o, outstanding !! cid = Some o -> in_ticks (oo_price o)) ->
  let close_bid := bool_decide (position < 0) in
  let wanted := liquidation_quote mc pi position no_decision in
  (forall k, is_Some (places close_bid wanted !! k) -> in_ticks k) ->
  let d := geuant_make_decision mc params pi true position outstanding no_decision in
  places (negb close_bid) d = ∅ /\
  (size (places close_bid d) <= 1)%nat /\
  map_Forall (fun _ q => q = Z.abs position) (places close_bid d) /\
  (forall cid o, outstanding !! cid = Some o -> cid ∉ cancels (oo_is_bid o) d ->
     position <> 0 /\ oo_is_bid o = close_bid /\
     is_Some (places close_bid wanted !! oo_price o)).
Proof.
  intros Hmid Hpos Hticks close_bid wanted Hwt d.
  assert (d = choose_orders_to_cancel params outstanding true wanted) as ->.
  { unfold d, geuant_make_decision. by rewrite Hmid. }
  assert (places (negb close_bid) wanted = ∅ /\ (size (places close_bid wanted) <= 1)%nat /\
    map_Forall (fun _ q => q = Z.abs position) (places close_bid wanted) /\
    (places close_bid wanted <> ∅ -> position <> 0)) as (He&Hs&Hq&Hz).
  { unfold wanted, close_bid, liquidation_quote, set_ask, set_bid, no_decision, places.
    case_bool_decide; repeat case_match; zify_bools; simpl; try lia;
      rewrite ?insert_empty, ?map_size_singleton, ?map_size_empty;
      split_and!; try done; try lia; try (by apply map_Forall_empty);
      apply map_Forall_singleton; rewrite ?wrap32_id; unfold in_int32, int32_min, int32_max in *;
      lia. }
  assert (forall b, cancels b wanted = []) as Hcw.
  { intros b. unfold wanted, liquidation_quote, set_ask, set_bid.
    destruct b; repeat case_match; done. }
  assert (forall b k, is_Some (places b wanted !! k) -> in_ticks k) as Hwt'.
  { intros b k Hk. destruct (decide (b = close_bid)) as [->|Hb]; [by apply Hwt|].
    assert (b = negb close_bid) as -> by (destruct b, close_bid; done).
    rewrite He in Hk. by destruct Hk. }
  unfold choose_orders_to_cancel. split_and!.
  - apply map_empty. intros k. eapply lookup_weaken_None; [|apply pair_all_shrink].
    by rewrite He.
  - etrans; [|exact Hs]. apply map_subseteq_size, pair_all_shrink.
  - intros k q Hk. eapply Hq, lookup_weaken; [exact Hk|apply pair_all_shrink].
  - intros cid o Ho Hni.
    destruct (pair_all_kept params true (oo_is_bid o) (kvs outstanding) wanted cid o)
      as (k&Hk&_&Habs); [apply Hwt'| |apply NoDup_keys_kvs_by|by apply elem_of_kvs_by|done|done|].
    { intros [cid' o'] Hin. apply elem_of_kvs_by in Hin. by eapply Hticks. }
    rewrite tolerance_liquidate in Habs. assert (k = oo_price o) as -> by lia.
    destruct (decide (oo_is_bid o = close_bid)) as [Hb|Hb].
    + rewrite Hb in Hk. split_and!; [|done|done]. apply Hz. intros E.
      rewrite E in Hk. by destruct Hk.
    + assert (oo_is_bid o = negb close_bid) as Hn by (destruct (oo_is_bid o), close_bid; done).
      rewrite Hn, He in Hk. by destruct Hk.
Qed.

Lemma liquidation_closes_position_witness :
  let d := geuant_make_decision Sample.mc Sample.params Sample.pi true 4 Sample.resting no_decision in
  kvs (ask_place d) = [(10000, 4)] /\ cancels true d = [1; 2] /\ cancels false d = [3] /\
  places true d = ∅ /\ (size (places false d) <= 1)%nat.
Proof.
  split_and!; [vm_compute; reflexivity..| |].
  - apply (liquidation_closes_position Sample.mc Sample.params Sample.pi 4 Sample.resting).
    + vm_compute. reflexivity.
    + vm_compute. split; [reflexivity|discriminate].
    + intros cid o. revert cid o. apply (bool_decide_unpack (map_Forall
        (fun _ o => in_ticks (oo_price o)) Sample.resting)). vm_compute. exact I.
    + apply ticks_of_map. apply (bool_decide_unpack _). vm_compute. exact I.
  - apply (liquidation_closes_position Sample.mc Sample.params Sample.pi 4 Sample.resting).
    + vm_compute. reflexivity.
    + vm_compute. split; [reflexivity|discriminate].
    + intros cid o. revert cid o. apply (bool_decide_unpack (map_Forall
        (fun _ o => in_ticks (oo_price o)) Sample.resting)). vm_compute. exact I.
    + apply ticks_of_map. apply (bool_decide_unpack _). vm_compute. exact I.
Defined.
