(* ===== verification/OrderState.v ===== *)
(** * OrderState: the order handler's state, configuration, effects and clock

    [trader/order_handler/order_handler_dtypes.hpp], the members of [OrderHandler]
    ([order_handler.hpp]) and the tasks of [trader_dtypes.hpp].  A handler step runs in
    a state monad over a [World]: the handler's mutable members, the position in the
    clock and in the task queue, and the trace of everything sent out.  The clock and
    the queue are streams of the environment [Env], so a theorem about a step holds for
    every clock and every arrival order. *)
From S2P Require Import Prelude Double Messages Strategy.

(** ** order_handler_dtypes.hpp *)
Record PendingOrderRecord := {
  por_product : string; por_type : string; por_is_bid : bool;
  por_price : double; por_qty : double }.

Record ProductState := {
  product_info : ProductInfoData;
  l1 : L1;
  fair_price_state : FairPriceState;
  position_in_lots : Z;
  outstanding_orders : gmap Z OutstandingOrder;
  cid_to_order_no : gmap Z string;
  order_no_to_cid : gmap string Z;
  response_waiting_place_orders : gset Z;
  response_waiting_cancel_orders : gset Z;
  response_waiting_since_ns : Z }.

Definition ProductState_default : ProductState := {|
  product_info := ProductInfoData_default; l1 := L1_default;
  fair_price_state := FairPriceState_default; position_in_lots := 0;
  outstanding_orders := ∅; cid_to_order_no := ∅; order_no_to_cid := ∅;
  response_waiting_place_orders := ∅; response_waiting_cancel_orders := ∅;
  response_waiting_since_ns := 0 |}.

Definition no_waiting_orders (s : ProductState) : bool :=
  bool_decide (response_waiting_place_orders s = ∅) &&
  bool_decide (response_waiting_cancel_orders s = ∅).

(** Field updates. *)
Definition set_product_info v s := {| product_info := v; l1 := l1 s;
  fair_price_state := fair_price_state s; position_in_lots := position_in_lots s;
  outstanding_orders := outstanding_orders s; cid_to_order_no := cid_to_order_no s;
  order_no_to_cid := order_no_to_cid s;
  response_waiting_place_orders := response_waiting_place_orders s;
  response_waiting_cancel_orders := response_waiting_cancel_orders s;
  response_waiting_since_ns := response_waiting_since_ns s |}.
Definition set_l1 v s := {| product_info := product_info s; l1 := v;
  fair_price_state := fair_price_state s; position_in_lots := position_in_lots s;
  outstanding_orders := outstanding_orders s; cid_to_order_no := cid_to_order_no s;
  order_no_to_cid := order_no_to_cid s;
  response_waiting_place_orders := response_waiting_place_orders s;
  response_waiting_cancel_orders := response_waiting_cancel_orders s;
  response_waiting_since_ns := response_waiting_since_ns s |}.
Definition set_fair_price_state v s := {| product_info := product_info s; l1 := l1 s;
  fair_price_state := v; position_in_lots := position_in_lots s;
  outstanding_orders := outstanding_orders s; cid_to_order_no := cid_to_order_no s;
  order_no_to_cid := order_no_to_cid s;
  response_waiting_place_orders := response_waiting_place_orders s;
  response_waiting_cancel_orders := response_waiting_cancel_orders s;
  response_waiting_since_ns := response_waiting_since_ns s |}.
Definition set_position v s := {| product_info := product_info s; l1 := l1 s;
  fair_price_state := fair_price_state s; position_in_lots := v;
  outstanding_orders := outstanding_orders s; cid_to_order_no := cid_to_order_no s;
  order_no_to_cid := order_no_to_cid s;
  response_waiting_place_orders := response_waiting_place_orders s;
  response_waiting_cancel_orders := response_waiting_cancel_orders s;
  response_waiting_since_ns := response_waiting_since_ns s |}.
Definition set_outstanding v s := {| product_info := product_info s; l1 := l1 s;
  fair_price_state := fair_price_state s; position_in_lots := position_in_lots s;
  outstanding_orders := v; cid_to_order_no := cid_to_order_no s;
  order_no_to_cid := order_no_to_cid s;
  response_waiting_place_orders := response_waiting_place_orders s;
  response_waiting_cancel_orders := response_waiting_cancel_orders s;
  response_waiting_since_ns := response_waiting_since_ns s |}.
Definition set_order_nos v v' s := {| product_info := product_info s; l1 := l1 s;
  fair_price_state := fair_price_state s; position_in_lots := position_in_lots s;
  outstanding_orders := outstanding_orders s; cid_to_order_no := v;
  order_no_to_cid := v';
  response_waiting_place_orders := response_waiting_place_orders s;
  response_waiting_cancel_orders := response_waiting_cancel_orders s;
  response_waiting_since_ns := response_waiting_since_ns s |}.
Definition set_waiting p c t s := {| product_info := product_info s; l1 := l1 s;
  fair_price_state := fair_price_state s; position_in_lots := position_in_lots s;
  outstanding_orders := outstanding_orders s; cid_to_order_no := cid_to_order_no s;
  order_no_to_cid := order_no_to_cid s;
  response_waiting_place_orders := p;
  response_waiting_cancel_orders := c;
  response_waiting_since_ns := t |}.

(** ** Tasks on the trader queue *)
Inductive Task :=
  | TListenerStatus (u : ListenerStatusUpdate)
  | TListenerSubscribe (u : ListenerSubscribeUpdate)
  | TMarketData (r : MarketDataResponse)
  | TPricerStatus (u : PricerStatusUpdate)
  | TPricerSubscribe (u : PricerSubscribeUpdate)
  | TFairPrice (r : FairPriceResponse)
  | TOrderUpdate (product : string)
  | TOrderResponse (r : OrderResponse).

(** ** What a step sends out *)
Record OrderRecordRow := {
  orr_local_tstamp : Z; orr_server_tstamp : double; orr_symbol : string; orr_cid : Z;
  orr_order_no : string; orr_type : string; orr_side : string; orr_success : bool;
  orr_price : double; orr_qty : double; orr_msg : string }.
Record OrderDecisionRow := {
  odr_local_tstamp : Z; odr_bbid : double; odr_bask : double; odr_mid : double;
  odr_fair : double; odr_factor : double; odr_forward_vol : double;
  odr_position : Z; odr_outstanding : Z; odr_bid_price : double; odr_ask_price : double }.
Inductive Output :=
  | OutListenerSubscribe (product : string) (c : Category)
  | OutPricerSubscribe (product : string) (c : Category)
  | OutProductGrid (product : string) (tick lot : double)
  | OutPlace (info : OrderPlaceInfo)
  | OutCancel (info : OrderCancelInfo)
  | OutOrderRecord (row : OrderRecordRow)
  | OutOrderDecision (row : OrderDecisionRow).

(** ** The handler's constant and mutable members *)
Record HandlerConfig := {
  exchange : string;
  market_config : MarketConfig;
  strategy : BaseStrategy;
  trade_products : list string;
  subscribe_products : list ProductSpec;
  fair_price_max_age_ns : Z;
  order_update_interval_ns : Z;
  flatten_on_shutdown : bool;
  shutdown_cancel_timeout_ns : Z;
  shutdown_flatten_timeout_ns : Z;
  shutdown_market_flatten : bool;
  shutdown_reduce_only : bool;
  order_record_save_path : string;
  order_decision_save_path : string }.

(** [order_response_timeout_ns_]. *)
Definition order_response_timeout_ns : Z := 5 * 1000000000.

Record Handler := {
  last_cid : Z;
  product_states : gmap string ProductState;
  order_no_to_product : gmap string string;
  cid_to_product : gmap Z string;
  positions : gmap string PositionData;
  pending_order_records : gmap Z PendingOrderRecord;
  listener_connecting : bool;
  listener_connected : bool;
  pricer_connected : bool;
  shutting_down : bool;
  shutdown_done : bool }.

Definition set_product_states v h := {| last_cid := last_cid h; product_states := v;
  order_no_to_product := order_no_to_product h; cid_to_product := cid_to_product h;
  positions := positions h; pending_order_records := pending_order_records h;
  listener_connecting := listener_connecting h; listener_connected := listener_connected h;
  pricer_connected := pricer_connected h; shutting_down := shutting_down h;
  shutdown_done := shutdown_done h |}.
Definition set_last_cid v h := {| last_cid := v; product_states := product_states h;
  order_no_to_product := order_no_to_product h; cid_to_product := cid_to_product h;
  positions := positions h; pending_order_records := pending_order_records h;
  listener_connecting := listener_connecting h; listener_connected := listener_connected h;
  pricer_connected := pricer_connected h; shutting_down := shutting_down h;
  shutdown_done := shutdown_done h |}.
Definition set_routing v v' h := {| last_cid := last_cid h; product_states := product_states h;
  order_no_to_product := v; cid_to_product := v';
  positions := positions h; pending_order_records := pending_order_records h;
  listener_connecting := listener_connecting h; listener_connected := listener_connected h;
  pricer_connected := pricer_connected h; shutting_down := shutting_down h;
  shutdown_done := shutdown_done h |}.
Definition set_positions v h := {| last_cid := last_cid h; product_states := product_states h;
  order_no_to_product := order_no_to_product h; cid_to_product := cid_to_product h;
  positions := v; pending_order_records := pending_order_records h;
  listener_connecting := listener_connecting h; listener_connected := listener_connected h;
  pricer_connected := pricer_connected h; shutting_down := shutting_down h;
  shutdown_done := shutdown_done h |}.
Definition set_pending v h := {| last_cid := last_cid h; product_states := product_states h;
  order_no_to_product := order_no_to_product h; cid_to_product := cid_to_product h;
  positions := positions h; pending_order_records := v;
  listener_connecting := listener_connecting h; listener_connected := listener_connected h;
  pricer_connected := pricer_connected h; shutting_down := shutting_down h;
  shutdown_done := shutdown_done h |}.
Definition set_links lc l p h := {| last_cid := last_cid h; product_states := product_states h;
  order_no_to_product := order_no_to_product h; cid_to_product := cid_to_product h;
  positions := positions h; pending_order_records := pending_order_records h;
  listener_connecting := lc; listener_connected := l;
  pricer_connected := p; shutting_down := shutting_down h;
  shutdown_done := shutdown_done h |}.
Definition set_shutdown sd done h := {| last_cid := last_cid h; product_states := product_states h;
  order_no_to_product := order_no_to_product h; cid_to_product := cid_to_product h;
  positions := positions h; pending_order_records := pending_order_records h;
  listener_connecting := listener_connecting h; listener_connected := listener_connected h;
  pricer_connected := pricer_connected h; shutting_down := sd;
  shutdown_done := done |}.

(** ** The environment and the world of a step *)
Record Env := {
  clk : nat -> Z;                 (* successive [get_curr_tstamp_ns()] readings *)
  rx : nat -> option Task         (* successive [wait_dequeue_timed] results *) }.

Record World := {
  hs : Handler; clk_i : nat; rx_i : nat; out : list Output }.
Definition set_hs h w := {| hs := h; clk_i := clk_i w; rx_i := rx_i w; out := out w |}.

Abbreviation M := (st World).

(** [modify] on the handler, on one product's state, and [emit]. *)
Definition upd (f : Handler -> Handler) : M unit := modify (fun w => set_hs (f (hs w)) w).
Definition get : M Handler := gets hs.
Definition emit (o : Output) : M unit := modify (fun w =>
  {| hs := hs w; clk_i := clk_i w; rx_i := rx_i w; out := out w ++ [o] |}).

(** A [ProductState&] obtained from [product_states_]: read, and write back. *)
Definition state_of (p : string) (h : Handler) : ProductState :=
  default ProductState_default (product_states h !! p).
Definition upd_product (p : string) (f : ProductState -> ProductState) (h : Handler) : Handler :=
  set_product_states (alter f p (product_states h)) h.
(** [product_states_[p]]: default-construct on a miss. *)
Definition touch_product (p : string) (h : Handler) : Handler :=
  match product_states h !! p with
  | Some _ => h
  | None => set_product_states (<[p := ProductState_default]> (product_states h)) h
  end.

Section env.
  Context (env : Env).

(** [get_curr_tstamp_ns()]. *)
Definition now : M Z := fun w =>
  (clk env (clk_i w),
   {| hs := hs w; clk_i := S (clk_i w); rx_i := rx_i w; out := out w |}).

(** [trader_queue_.wait_dequeue_timed(task, ...)]. *)
Definition dequeue : M (option Task) := fun w =>
  (rx env (rx_i w),
   {| hs := hs w; clk_i := clk_i w; rx_i := S (rx_i w); out := out w |}).
End env.
