(* ===== verification/OrderHandler.v ===== *)
(** * OrderHandler: the trader's event handlers and order submission

    [trader/order_handler/order_handler.cpp]: unit conversions, grid snapping, the
    market/execution/position/fair-price handlers, the reply handler, the decision step
    and the submission of orders.  Every handler is one definition in the monad of
    [OrderState]; logging to the process log is not modelled, the CSV rows are. *)
From Stdlib Require Import Ascii.
From S2P Require Import Prelude Double Text Messages Strategy OrderState.

(** ** Text helpers *)

(** [std::replace] of one character. *)
Definition replace_char (a b : ascii) : string -> string :=
  string_map (fun c => if Ascii.eqb c a then b else c).

Definition csv_safe (text : string) : string :=
  let out := replace_char ","%char ";"%char text in
  let out := replace_char "010"%char " "%char out in
  replace_char "013"%char " "%char out.

(** ** Snapping to a product's grid *)

(** [snap_qty_to_product_grid]: the snapped quantity, and whether an order is left. *)
Definition snap_qty_to_product_grid (info : ProductInfoData) (qty : double) : bool * double :=
  let qty :=
    match lot_size info with
    | Some lot => if fpos lot then fmul (fround (fdiv qty lot)) lot else qty
    | None => qty
    end in
  (fpos qty, qty).

(** [snap_to_product_grid]: the verdict with the snapped price and quantity. *)
Definition snap_to_product_grid (info : ProductInfoData) (is_bid : bool) (price qty : double)
    : bool * double * double :=
  let price :=
    match tick_size info with
    | Some tick => if fpos tick then fmul (fround (fdiv price tick)) tick else price
    | None => price
    end in
  let '(ok, qty) := snap_qty_to_product_grid info qty in
  (ok && fpos price, price, qty).

(** The delay [set_order_update_timer] arms: to the next multiple of the interval. *)
Definition order_update_delay (interval now : Z) : Z := interval - Z.rem now interval.

Section order_handler.
  Context (env : Env) (cfg : HandlerConfig).

Abbreviation mc := (market_config cfg).

(** ** Units *)
Definition to_price_in_min_ticks (price : double) : Z :=
  to_int64 (fround (fdiv price (min_tick_size mc))).
Definition to_qty_in_lots (qty : double) : Z :=
  to_int32 (fround (fdiv qty (default_lot_size mc))).

(** ** Construction *)
Definition Handler_init : Handler := {|
  last_cid := 0;
  product_states := list_to_map ((fun p => (p, ProductState_default)) <$> trade_products cfg);
  order_no_to_product := ∅; cid_to_product := ∅; positions := ∅;
  pending_order_records := ∅;
  listener_connecting := false; listener_connected := false; pricer_connected := false;
  shutting_down := false; shutdown_done := false |}.

(** The constructor's unit check; [None] is the exception. *)
Definition OrderHandler_new : option Handler :=
  if fle (min_tick_size mc) fzero || fle (default_lot_size mc) fzero then None
  else Some Handler_init.

(** ** Bookkeeping *)

(** Reserve the next cid: the send-time timestamp, made strictly increasing. *)
Definition reserve_cid (product : string) : M Z :=
  t ← now env;
  h ← get;
  let cid := wrap_u 64 t in
  let cid := if cid <=? last_cid h then wrap_u 64 (last_cid h + 1) else cid in
  upd (set_last_cid cid) ;;
  upd (fun h => set_routing (order_no_to_product h) (<[cid := product]> (cid_to_product h)) h) ;;
  mret cid.

(** Drop an order (cid) and all of its index entries; [p] is the product [state] is of. *)
Definition forget_order (p : string) (cid : Z) (h : Handler) : Handler :=
  let s := state_of p h in
  let h :=
    match cid_to_order_no s !! cid with
    | Some order_no =>
        upd_product p (fun s => set_order_nos (delete cid (cid_to_order_no s))
                                  (delete order_no (order_no_to_cid s)) s)
          (set_routing (delete order_no (order_no_to_product h)) (cid_to_product h) h)
    | None => h
    end in
  let h := upd_product p (fun s => set_outstanding (delete cid (outstanding_orders s)) s) h in
  set_routing (order_no_to_product h) (delete cid (cid_to_product h)) h.

(** Bind cid and exchange order number, both ways. *)
Definition bind_order_no (p : string) (cid : Z) (order_no : string) (h : Handler) : Handler :=
  if decide (order_no = ""%string) then h
  else
    let h := upd_product p (fun s => set_order_nos (<[cid := order_no]> (cid_to_order_no s))
                                       (<[order_no := cid]> (order_no_to_cid s)) s) h in
    set_routing (<[order_no := p]> (order_no_to_product h)) (cid_to_product h) h.

(** Erase a cid from the waiting sets ([pl]/[cn] say which). *)
Definition erase_waiting (pl cn : bool) (cid : Z) (s : ProductState) : ProductState :=
  set_waiting
    (if pl then response_waiting_place_orders s ∖ {[cid]} else response_waiting_place_orders s)
    (if cn then response_waiting_cancel_orders s ∖ {[cid]} else response_waiting_cancel_orders s)
    (response_waiting_since_ns s) s.

Definition clear_waiting_if_idle (s : ProductState) : ProductState :=
  if no_waiting_orders s
  then set_waiting (response_waiting_place_orders s) (response_waiting_cancel_orders s) 0 s
  else s.

Definition mark_pending_record (cid : Z) (product type : string) (is_bid : bool)
    (price qty : double) (h : Handler) : Handler :=
  set_pending (<[cid := {| por_product := product; por_type := type; por_is_bid := is_bid;
                           por_price := price; por_qty := qty |}]> (pending_order_records h)) h.

(** Write one order-record row and drop the pending entry. *)
Definition log_order_record (product : string) (cid : Z) (order_no type : string)
    (success : bool) (server_tstamp_ms : option Z) (msg : string) : M unit :=
  h ← get;
  let pending := pending_order_records h !! cid in
  upd (fun h => set_pending (delete cid (pending_order_records h)) h) ;;
  if decide (order_record_save_path cfg = ""%string) then mret tt
  else
    t ← now env;
    emit (OutOrderRecord {|
      orr_local_tstamp := t;
      orr_server_tstamp := match server_tstamp_ms with Some z => of_Z z | None => fnan end;
      orr_symbol := product; orr_cid := cid;
      orr_order_no := if decide (order_no = ""%string) then "-" else order_no;
      orr_type := match pending with Some r => por_type r | None => type end;
      orr_side := match pending with
                  | Some r => if por_is_bid r then "bid" else "ask"
                  | None => "-"
                  end;
      orr_success := success;
      orr_price := match pending with Some r => por_price r | None => fnan end;
      orr_qty := match pending with Some r => por_qty r | None => fnan end;
      orr_msg := if decide (msg = ""%string) then "-" else csv_safe msg |}).

Definition log_order_decision (product : string) (pi : PriceInfo) (s : ProductState)
    (d : QuoteDecision) : M unit :=
  if decide (order_decision_save_path cfg = ""%string) then mret tt
  else
    t ← now env;
    emit (OutOrderDecision {|
      odr_local_tstamp := t;
      odr_bbid := to_double_price mc (bbid_price pi);
      odr_bask := to_double_price mc (bask_price pi);
      odr_mid := mid_price pi; odr_fair := fair_price pi; odr_factor := applied_factor pi;
      odr_forward_vol := forward_vol_bp pi;
      odr_position := position_in_lots s;
      odr_outstanding := Z.of_nat (size (outstanding_orders s));
      odr_bid_price := match last_key (bid_place d) with
                       | Some p => to_double_price mc p | None => fnan end;
      odr_ask_price := match first_key (ask_place d) with
                       | Some p => to_double_price mc p | None => fnan end |}).

(** ** Link status *)
Definition on_listener_status (u : ListenerStatusUpdate) : M unit :=
  h ← get;
  when (negb (listener_connected h) && ls_connected u)
    (for_each (subscribe_products cfg) (fun spec =>
       emit (OutListenerSubscribe (spec_product spec) (spec_category spec)))) ;;
  upd (fun h => set_links (ls_connecting u) (ls_connected u) (pricer_connected h) h).

Definition on_pricer_status (u : PricerStatusUpdate) : M unit :=
  h ← get;
  when (negb (pricer_connected h) && ps_connected u)
    (for_each (trade_products cfg) (fun product => emit (OutPricerSubscribe product futures))) ;;
  upd (fun h => set_links (listener_connecting h) (listener_connected h) (ps_connected u) h).

(** ** Market data *)

(** Top level of one side: price in ticks (-1 when absent) and quantity in lots. *)
Definition top_of_book (book : list OrderbookLevel) : Z * Z :=
  match book with
  | {| lvl_price := Some p; lvl_qty := q |} :: _ =>
      (to_price_in_min_ticks p, to_qty_in_lots (value_or fzero q))
  | _ => (-1, 0)
  end.

Definition on_orderbook (product : string) (data : OrderbookData) : M unit :=
  h ← get;
  match product_states h !! product with
  | None => mret tt
  | Some _ =>
      let '(bp, bq) := top_of_book (bid_book data) in
      let '(ap, aq) := top_of_book (ask_book data) in
      upd (upd_product product (set_l1 {| l1_bbid_price := bp; l1_bask_price := ap;
                                          l1_bbid_qty := bq; l1_bask_qty := aq |}))
  end.

(** *** Executions *)

(** Routing, step one: by the client order id we stamped. *)
Definition route_by_cid (h : Handler) (data : ExecutionData) : option (Z * string) :=
  if decide (client_order_id data = ""%string) then None
  else match stoull (client_order_id data) with
       | Some parsed =>
           match cid_to_product h !! parsed with
           | Some p => Some (parsed, p)
           | None => None
           end
       | None => None
       end.

(** Routing, in full: the product the execution belongs to and, when known, the cid. *)
Definition route_execution (h : Handler) (product : string) (data : ExecutionData)
    : string * option Z :=
  let by_cid := route_by_cid h data in
  let target := match by_cid with Some (_, p) => p | None => ""%string end in
  let target :=
    if decide (target = ""%string)
    then default product (order_no_to_product h !! ex_order_no data)
    else target in
  let cid :=
    match by_cid with
    | Some (c, _) => Some c
    | None => order_no_to_cid (state_of target h) !! ex_order_no data
    end in
  (target, cid).

(** Adopt an order this session did not place. *)
Definition adopt_order (target : string) (data : ExecutionData) : M unit :=
  new_cid ← reserve_cid target;
  upd (upd_product target (fun s => set_outstanding
    (<[new_cid := {| oo_price := to_price_in_min_ticks (value_or fnan (order_price data));
                     oo_qty := to_qty_in_lots (value_or fzero (order_qty data));
                     oo_is_bid := ex_is_bid data |}]> (outstanding_orders s)) s)) ;;
  upd (bind_order_no target new_cid (ex_order_no data)).

(** Accepted, rejected or cancelled: the [is_accept_data] half. *)
Definition on_accept (target : string) (cid : option Z) (data : ExecutionData) : M unit :=
  if is_rejected data then
    match cid with
    | Some c =>
        upd (upd_product target (erase_waiting true true c)) ;;
        upd (forget_order target c) ;;
        upd (upd_product target clear_waiting_if_idle)
    | None => mret tt
    end
  else if is_cancel data then
    match cid with
    | Some c =>
        upd (upd_product target (erase_waiting false true c)) ;;
        upd (forget_order target c) ;;
        upd (upd_product target clear_waiting_if_idle)
    | None => mret tt
    end
  else if is_place data && is_accepted data then
    match cid with
    | Some c =>
        upd (bind_order_no target c (ex_order_no data)) ;;
        upd (upd_product target (erase_waiting true false c)) ;;
        upd (upd_product target clear_waiting_if_idle)
    | None =>
        when (fpos (value_or fzero (order_qty data))) (adopt_order target data)
    end
  else mret tt.

(** A fill: shrink the order, drop it when done, move the position. *)
Definition on_fill (target : string) (cid : option Z) (data : ExecutionData) : M unit :=
  let exec_qty := to_qty_in_lots (value_or fzero (execute_qty data)) in
  match cid with
  | Some c =>
      h ← get;
      let order := default OutstandingOrder_default
                     (outstanding_orders (state_of target h) !! c) in
      let left := wrap_s 32 (oo_qty order - exec_qty) in
      upd (upd_product target (fun s => set_outstanding
        (<[c := {| oo_price := oo_price order; oo_qty := left; oo_is_bid := oo_is_bid order |}]>
           (outstanding_orders s)) s)) ;;
      when (left <=? 0)
        (upd (upd_product target (erase_waiting true true c)) ;;
         upd (forget_order target c) ;;
         upd (upd_product target clear_waiting_if_idle))
  | None => mret tt
  end ;;
  when (update_position_on_fill data)
    (upd (upd_product target (fun s => set_position
       (wrap_s 32 (position_in_lots s + (if ex_is_bid data then exec_qty
                                         else wrap_s 32 (- exec_qty)))) s))).

Definition on_execution (product : string) (data : ExecutionData) : M unit :=
  h ← get;
  let '(target, cid) := route_execution h product data in
  if decide (target = ""%string) then mret tt
  else match product_states h !! target with
  | None => mret tt
  | Some _ =>
      if is_accept_data data then on_accept target cid data
      else when (is_executed data && fpos (value_or fzero (execute_qty data)))
             (on_fill target cid data)
  end.

Definition on_position (product : string) (data : PositionData) : M unit :=
  match balance data with
  | None => mret tt
  | Some b =>
      upd (fun h =>
        let pos := default PositionData_default (positions h !! product) in
        set_positions (<[product := {| balance := Some b;
          available_balance := match available_balance data with
                               | Some a => Some a
                               | None => available_balance pos
                               end |}]> (positions h)) h) ;;
      h ← get;
      match product_states h !! product with
      | Some _ => upd (upd_product product (set_position (to_qty_in_lots b)))
      | None => mret tt
      end
  end.

Definition on_product_info (product : string) (data : ProductInfoData) : M unit :=
  match tick_size data, lot_size data with
  | Some tick, Some lot =>
      if fle tick fzero || fle lot fzero then mret tt
      else
        h ← get;
        match product_states h !! product with
        | None => mret tt
        | Some _ =>
            upd (upd_product product
              (set_product_info {| tick_size := Some tick; lot_size := Some lot |})) ;;
            emit (OutProductGrid product tick lot)
        end
  | _, _ => mret tt
  end.

Definition on_fair_price (product : string) (data : FairPriceData) : M unit :=
  h ← get;
  match product_states h !! product with
  | None => mret tt
  | Some _ =>
      let vol_usable := is_finite (fpd_forward_vol_bp data) && fpos (fpd_forward_vol_bp data) in
      upd (upd_product product (set_fair_price_state {|
        fps_ts := fpd_ts data;
        fps_fair_price := value_or fnan (fpd_fair_price data);
        fps_factor := value_or fnan (fpd_factor data);
        fps_forward_vol_bp := if vol_usable then fpd_forward_vol_bp data else fone |}))
  end.

Definition process_market_data (r : MarketDataResponse) : M unit :=
  match md_data r with
  | Orderbook d => on_orderbook (md_product r) d
  | Trade _ => mret tt
  | Execution d => on_execution (md_product r) d
  | Position d => on_position (md_product r) d
  | ProductInfo d => on_product_info (md_product r) d
  | Error => mret tt
  end.

(** ** Order replies *)
Definition on_order_response (r : OrderResponse) : M unit :=
  h ← get;
  match cid_to_product h !! or_cid r with
  | None =>
      match pending_order_records h !! or_cid r with
      | Some pending =>
          log_order_record (por_product pending) (or_cid r) (or_order_no r)
            (por_type pending) (or_success r) (or_server_tstamp_ms r) (or_msg r)
      | None => mret tt
      end
  | Some product =>
      let cid := or_cid r in
      let s := state_of product h in
      let was_place := bool_decide (cid ∈ response_waiting_place_orders s) in
      let was_cancel := bool_decide (cid ∈ response_waiting_cancel_orders s) in
      upd (touch_product product) ;;
      upd (upd_product product (erase_waiting true true cid)) ;;
      upd (upd_product product clear_waiting_if_idle) ;;
      if was_cancel then
        log_order_record product cid (or_order_no r) "cancel" (or_success r)
          (or_server_tstamp_ms r) (or_msg r) ;;
        when (or_success r || or_order_gone r) (upd (forget_order product cid))
      else
        log_order_record product cid (or_order_no r) "place" (or_success r)
          (or_server_tstamp_ms r) (or_msg r) ;;
        if or_success r then upd (bind_order_no product cid (or_order_no r))
        else when was_place (upd (forget_order product cid))
  end.

(** ** Submission *)

Definition mark_waiting (product : string) (cancel : bool) (cid : Z) : M unit :=
  h ← get;
  let s := state_of product h in
  (if no_waiting_orders s then
     t ← now env;
     upd (upd_product product (fun s => set_waiting (response_waiting_place_orders s)
            (response_waiting_cancel_orders s) t s))
   else mret tt) ;;
  upd (upd_product product (fun s => set_waiting
    (if cancel then response_waiting_place_orders s
     else {[cid]} ∪ response_waiting_place_orders s)
    (if cancel then {[cid]} ∪ response_waiting_cancel_orders s
     else response_waiting_cancel_orders s)
    (response_waiting_since_ns s) s)).

Definition submit_cancel (product : string) (cid : Z) : M unit :=
  h ← get;
  let s := state_of product h in
  match cid_to_order_no s !! cid with
  | None => mret tt
  | Some order_no =>
      match outstanding_orders s !! cid with
      | Some o => upd (mark_pending_record cid product "cancel" (oo_is_bid o)
                         (to_double_price mc (oo_price o)) (to_double_qty mc (oo_qty o)))
      | None => mret tt
      end ;;
      mark_waiting product true cid ;;
      emit (OutCancel (cancel_info order_no product cid))
  end.

(** Snap the order; [None] when nothing is left to send. *)
Definition snapped_order (s : ProductState) (is_bid : bool) (price_in_min_ticks qty_in_lots : Z)
    (is_limit : bool) : option (double * double) :=
  let price := to_double_price mc price_in_min_ticks in
  let qty := to_double_qty mc qty_in_lots in
  if is_limit then
    let '(ok, price, qty) := snap_to_product_grid (product_info s) is_bid price qty in
    if ok : bool then Some (price, qty) else None
  else
    let '(ok, qty) := snap_qty_to_product_grid (product_info s) qty in
    if ok : bool then Some (fzero, qty) else None.

Definition submit_place (product : string) (is_bid : bool) (price_in_min_ticks qty_in_lots : Z)
    (is_limit reduce_only : bool) : M unit :=
  h ← get;
  if qty_in_lots <=? 0 then mret tt
  else match snapped_order (state_of product h) is_bid price_in_min_ticks qty_in_lots is_limit with
  | None => mret tt
  | Some (price, qty) =>
      cid ← reserve_cid product;
      when is_limit (upd (upd_product product (fun s => set_outstanding
        (<[cid := {| oo_price := price_in_min_ticks; oo_qty := qty_in_lots;
                     oo_is_bid := is_bid |}]> (outstanding_orders s)) s))) ;;
      mark_waiting product false cid ;;
      upd (mark_pending_record cid product "place" is_bid
             (if is_limit then price else fnan) qty) ;;
      emit (OutPlace {| opi_is_limit := is_limit; opi_is_bid := is_bid; opi_price := price;
        opi_qty := qty; opi_product := product; opi_cid := cid;
        opi_reduce_only := reduce_only |})
  end.

(** ** The decision step *)

Definition build_price_info (s : ProductState) : M PriceInfo :=
  let bbid := l1_bbid_price (l1 s) in
  let bask := l1_bask_price (l1 s) in
  let product_tick := value_or fzero (tick_size (product_info s)) in
  let tick := if fpos product_tick then product_tick else min_tick_size mc in
  if (bbid =? -1) || (bask =? -1) then
    mret {| bbid_price := bbid; bask_price := bask; mid_price := fnan; fair_price := fnan;
            applied_factor := fnan; forward_vol_bp := fone; pi_tick_size := tick |}
  else
    let mid := fdiv (to_double_price mc (wrap_s 64 (bbid + bask))) (of_Z 2) in
    let f := fair_price_state s in
    usable ← (if is_nan (fps_fair_price f) then mret false
              else if fair_price_max_age_ns cfg <=? 0 then mret true
              else t ← now env; mret (t - fps_ts f <=? fair_price_max_age_ns cfg));
    mret (if (usable : bool) && is_finite (fps_factor f) then
      {| bbid_price := bbid; bask_price := bask; mid_price := mid;
         fair_price := fmul (fps_factor f) mid; applied_factor := fps_factor f;
         forward_vol_bp := fps_forward_vol_bp f; pi_tick_size := tick |}
    else
      {| bbid_price := bbid; bask_price := bask; mid_price := mid; fair_price := mid;
         applied_factor := fnan; forward_vol_bp := fone; pi_tick_size := tick |}).

(** Close out the requests a timeout gives up on. *)
Definition record_timed_out (product : string) (cids : gset Z) (type : string) : M unit :=
  for_each (set_seq_asc cids) (fun cid =>
    h ← get;
    log_order_record product cid
      (default ""%string (cid_to_order_no (state_of product h) !! cid)) type false None
      "no response within order_response_timeout").

(** Wait for outstanding replies, or give up on them: [true] when the step may go on. *)
Definition waiting_gate (product : string) : M bool :=
  h ← get;
  let s := state_of product h in
  if no_waiting_orders s then mret true
  else
    now_ns ← now env;
    if (0 <? response_waiting_since_ns s) &&
       (order_response_timeout_ns <? now_ns - response_waiting_since_ns s)
    then
      record_timed_out product (response_waiting_place_orders s) "place" ;;
      record_timed_out product (response_waiting_cancel_orders s) "cancel" ;;
      upd (upd_product product (set_waiting ∅ ∅ 0)) ;;
      mret true
    else mret false.

(** Send a decision: cancels first, then places, each in container order. *)
Definition send_decision (product : string) (d : QuoteDecision) : M unit :=
  for_each (bid_cancel d) (submit_cancel product) ;;
  for_each (ask_cancel d) (submit_cancel product) ;;
  for_each (kvs (bid_place d)) (fun pq => submit_place product true pq.1 pq.2 true false) ;;
  for_each (kvs (ask_place d)) (fun pq => submit_place product false pq.1 pq.2 true false).

(** What must hold before a decision is attempted at all. *)
Definition may_decide (h : Handler) (product : string) (do_liquidate : bool) : bool :=
  negb (shutting_down h && negb do_liquidate) &&
  match product_states h !! product with
  | None => false
  | Some s =>
      listener_connected h &&
      negb (bool_decide (tick_func mc = None) && bool_decide (tick_size (product_info s) = None))
  end.

Definition decide_and_send (product : string) (do_liquidate : bool) : M unit :=
  h ← get;
  let s := state_of product h in
  pi ← build_price_info s;
  if is_nan (mid_price pi) then mret tt
  else
    let d := @make_decision (strategy cfg) pi do_liquidate (position_in_lots s)
               (outstanding_orders s) no_decision in
    log_order_decision product pi s d ;;
    send_decision product d.

Definition update_orders (product : string) (do_liquidate : bool) : M unit :=
  h ← get;
  if may_decide h product do_liquidate then
    go ← waiting_gate product;
    when go (decide_and_send product do_liquidate)
  else mret tt.

Definition handle_task (task : Task) : M unit :=
  match task with
  | TListenerStatus u => on_listener_status u
  | TListenerSubscribe _ => mret tt
  | TMarketData r => process_market_data r
  | TPricerStatus u => on_pricer_status u
  | TPricerSubscribe _ => mret tt
  | TFairPrice r => on_fair_price (fpr_product r) (fpr_data r)
  | TOrderUpdate product => update_orders product false
  | TOrderResponse r => on_order_response r
  end.

(** One turn of the trading loop. *)
Definition run : M unit :=
  task ← dequeue env;
  match task with
  | Some t => handle_task t
  | None => mret tt
  end.
End order_handler.
