(* ===== verification/OrderFrame.v ===== *)
(** * OrderFrame: what every handler step leaves alone

    No handler rewinds the clock, unsends an output or touches the stop flags: the
    frame every theorem about sequences of steps rests on. *)
From S2P Require Import Prelude Double Messages Strategy OrderState OrderHandler.

(** [w'] is [w] after some steps: later on the clock, the stop flags as they were, and
    the outputs of [w] are a prefix of its own. *)
Definition advances (w w' : World) : Prop :=
  (clk_i w <= clk_i w')%nat /\
  (shutting_down (hs w), shutdown_done (hs w)) = (shutting_down (hs w'), shutdown_done (hs w')) /\
  out w `prefix_of` out w'.

#[export] Instance advances_preorder : PreOrder advances.
Proof.
  split.
  - intros w. by split_and!.
  - intros w1 w2 w3 (?&?&?) (?&?&?). split_and!; [lia|congruence|by etrans].
Qed.

Section frame.
Context (env : Env) (cfg : HandlerConfig).

Definition keeps_flags (f : Handler -> Handler) : Prop :=
  forall h, (shutting_down h, shutdown_done h) = (shutting_down (f h), shutdown_done (f h)).

Lemma follows_upd f : keeps_flags f -> follows advances (upd f).
Proof. intros Hf w. split_and!; [done|apply Hf|done]. Qed.
Lemma follows_dequeue : follows advances (dequeue env).
Proof. by intros w. Qed.
Lemma follows_get : follows advances get.
Proof. by intros w. Qed.
Lemma follows_now : follows advances (now env).
Proof. intros w. split_and!; simpl; auto. Qed.
Lemma follows_emit o : follows advances (emit o).
Proof. intros w. split_and!; simpl; auto. by eexists. Qed.

Lemma keeps_forget p c : keeps_flags (forget_order p c).
Proof. intros h. unfold forget_order. by destruct (cid_to_order_no _ !! c). Qed.
Lemma keeps_bind p c o : keeps_flags (bind_order_no p c o).
Proof. intros h. unfold bind_order_no. by case_decide. Qed.
Lemma keeps_touch p : keeps_flags (touch_product p).
Proof. intros h. unfold touch_product. by destruct (product_states h !! p). Qed.
End frame.

Create HintDb frame.
#[export] Hint Resolve keeps_forget keeps_bind keeps_touch : frame.
#[export] Hint Extern 1 (keeps_flags _) => (intros ?; reflexivity) : frame.

(** Run the state monad one layer, leaving handlers folded. *)
Ltac run_w :=
  unfold get, gets, mbind, st_bind, mret, st_ret, now, dequeue, upd, modify, emit;
  cbn [fst snd hs clk_i rx_i out set_hs negb when].

(** Structural automation: walk down binds, loops and case splits. *)
Ltac follow_step :=
  first
  [ assumption
  | apply follows_upd; solve [auto with frame] | apply follows_dequeue | apply follows_get | apply follows_now | apply follows_emit
  | apply follows_ret; apply _ | solve [auto with frame]
  | apply follows_bind; [apply _| |intros ?]
  | apply follows_when; [apply _|] | apply follows_for_each; [apply _|intros ? ?]
  | match goal with |- follows _ (match ?x with _ => _ end) => destruct x end ].
Ltac follow := cbv zeta; repeat follow_step.

Section frames.
Context (env : Env) (cfg : HandlerConfig).
Abbreviation framed := (follows advances).

Lemma frame_reserve_cid p : framed (reserve_cid env p).
Proof. unfold reserve_cid. follow. Qed.
Hint Resolve frame_reserve_cid : frame.

Lemma frame_log_order_record p c o t s ts m : framed (log_order_record env cfg p c o t s ts m).
Proof. unfold log_order_record. follow. Qed.
Hint Resolve frame_log_order_record : frame.

Lemma frame_log_order_decision p pi s d : framed (log_order_decision env cfg p pi s d).
Proof. unfold log_order_decision. follow. Qed.
Hint Resolve frame_log_order_decision : frame.

Lemma frame_mark_waiting p b c : framed (mark_waiting env p b c).
Proof. unfold mark_waiting. follow. Qed.
Hint Resolve frame_mark_waiting : frame.

Lemma frame_submit_cancel p c : framed (submit_cancel env cfg p c).
Proof. unfold submit_cancel. follow. Qed.
Hint Resolve frame_submit_cancel : frame.

Lemma frame_submit_place p b px q l r : framed (submit_place env cfg p b px q l r).
Proof. unfold submit_place. follow. Qed.
Hint Resolve frame_submit_place : frame.

Lemma frame_build_price_info s : framed (build_price_info env cfg s).
Proof. unfold build_price_info. follow. Qed.
Hint Resolve frame_build_price_info : frame.

Lemma frame_waiting_gate p : framed (waiting_gate env cfg p).
Proof. unfold waiting_gate, record_timed_out. follow. Qed.
Hint Resolve frame_waiting_gate : frame.

Lemma frame_send_decision p d : framed (send_decision env cfg p d).
Proof. unfold send_decision. follow. Qed.
Hint Resolve frame_send_decision : frame.

Lemma frame_update_orders p l : framed (update_orders env cfg p l).
Proof. unfold update_orders, decide_and_send. follow. Qed.
Hint Resolve frame_update_orders : frame.

Lemma frame_on_execution p d : framed (on_execution env cfg p d).
Proof. unfold on_execution, on_accept, on_fill, adopt_order. follow. Qed.
Hint Resolve frame_on_execution : frame.

Lemma frame_on_order_response r : framed (on_order_response env cfg r).
Proof. unfold on_order_response. follow. Qed.
Hint Resolve frame_on_order_response : frame.

(** No task handler touches the past, what was sent, or the stop flags. *)
Lemma frame_handle_task t : framed (handle_task env cfg t).
Proof.
  destruct t; simpl; follow;
    unfold on_listener_status, on_pricer_status, process_market_data, on_orderbook,
      on_position, on_product_info, on_fair_price; follow.
Qed.
End frames.

#[export] Hint Resolve frame_reserve_cid frame_log_order_record frame_mark_waiting
  frame_submit_cancel frame_submit_place frame_update_orders frame_handle_task
  frame_send_decision frame_waiting_gate frame_build_price_info : frame.

(** ** A sample trader, for evaluating the handlers *)
Module SampleTrader.
Definition cfg : HandlerConfig := {|
  exchange := "binance"; market_config := Sample.mc;
  strategy := GeuantStrategy Sample.mc Sample.params;
  trade_products := ["BTC"]; subscribe_products := [{| spec_product := "BTC"; spec_category := futures |}];
  fair_price_max_age_ns := 1000000000; order_update_interval_ns := 1000000000;
  flatten_on_shutdown := true; shutdown_cancel_timeout_ns := 20; shutdown_flatten_timeout_ns := 20;
  shutdown_market_flatten := true; shutdown_reduce_only := true;
  order_record_save_path := "logs"; order_decision_save_path := "logs" |}.
Definition cfg_cancel_only : HandlerConfig := {|
  exchange := "binance"; market_config := Sample.mc;
  strategy := GeuantStrategy Sample.mc Sample.params;
  trade_products := ["BTC"]; subscribe_products := [];
  fair_price_max_age_ns := 1000000000; order_update_interval_ns := 1000000000;
  flatten_on_shutdown := false; shutdown_cancel_timeout_ns := 20; shutdown_flatten_timeout_ns := 20;
  shutdown_market_flatten := true; shutdown_reduce_only := true;
  order_record_save_path := "logs"; order_decision_save_path := "logs" |}.

(** A clock that ticks once per reading, and a queue that delivers [tasks] in order. *)
Definition env (tasks : list Task) : Env := {|
  clk := fun i => 1000 + Z.of_nat i; rx := fun i => tasks !! i |}.
Definition w0 : World := {| hs := Handler_init cfg; clk_i := 0; rx_i := 0; out := [] |}.

Definition level (p q : Z) : OrderbookLevel :=
  {| lvl_price := Some (of_Z p); lvl_qty := Some (of_Z q) |}.
Definition up : Task := TListenerStatus {| ls_connecting := false; ls_connected := true |}.
Definition grid : Task := TMarketData {| md_product := "BTC"; md_data := ProductInfo
  {| tick_size := Some (of_Z 1); lot_size := Some (of_Z 1) |} |}.
Definition book : Task := TMarketData {| md_product := "BTC"; md_data := Orderbook
  {| bid_book := [level 9999 3]; ask_book := [level 10001 4]; ob_server_tstamp_ms := None |} |}.
Definition tick : Task := TOrderUpdate "BTC".
Definition ack (cid : Z) (order_no : string) : Task := TOrderResponse
  {| or_success := true; or_code := ""; or_msg := ""; or_order_no := order_no; or_cid := cid;
     or_server_tstamp_ms := None; or_order_gone := false |}.
Definition held (lots : Z) : Task := TMarketData {| md_product := "BTC"; md_data := Position
  {| balance := Some (of_Z lots); available_balance := None |} |}.

(** Handle a list of tasks in order. *)
Definition feed (tasks : list Task) (w : World) : World :=
  foldl (fun w t => (handle_task (env []) cfg t w).2) w tasks.
(** Connected, gridded, one book: the first decision quotes four orders. *)
Definition quoting : World := feed [up; grid; book; tick] w0.
End SampleTrader.

Example sample_quotes :
  (fun o => match o with OutPlace i => Some (opi_is_bid i, to_int64 (opi_price i), opi_cid i)
            | _ => None end) <$> drop 3 (out SampleTrader.quoting) =
  [Some (true, 9987, 1001); Some (true, 9990, 1003); Some (false, 10010, 1004);
   Some (false, 10013, 1005)].
Proof. vm_compute. reflexivity. Qed.
