(* ===== verification/OrderInvariant.v ===== *)
(** * OrderInvariant: the order handler's bookkeeping invariant

    Every cid belongs to one product for good: the per-product maps, the waiting sets
    and the global routing tables never disagree about whose it is, ids never repeat,
    an outstanding order is always routable, and a product that waits for replies has
    its wait start recorded.  Proved preserved by every task the queue can carry, so it
    holds in every reachable state. *)
From S2P Require Import Prelude Double Text Messages Strategy OrderState OrderHandler OrderFrame.

(** The cids a product's state mentions. *)
Definition knows (s : ProductState) (cid : Z) : Prop :=
  is_Some (outstanding_orders s !! cid) \/ is_Some (cid_to_order_no s !! cid) \/
  (exists o, order_no_to_cid s !! o = Some cid) \/
  cid ∈ response_waiting_place_orders s \/ cid ∈ response_waiting_cancel_orders s.

(** The invariant; [n] is the number of clock readings so far. *)
Record inv (products : list string) (n : nat) (h : Handler) : Prop := {
  inv_last : 0 <= last_cid h <= 2 ^ 62 + Z.of_nat n;
  inv_dom : dom (product_states h) = list_to_set products;
  inv_known : forall p s cid, product_states h !! p = Some s -> knows s cid ->
    0 <= cid <= last_cid h;
  inv_routed : forall cid p, cid_to_product h !! cid = Some p ->
    0 <= cid <= last_cid h /\ is_Some (product_states h !! p);
  inv_order_no : forall o p, order_no_to_product h !! o = Some p ->
    is_Some (product_states h !! p);
  inv_outstanding : forall p s cid, product_states h !! p = Some s ->
    is_Some (outstanding_orders s !! cid) -> cid_to_product h !! cid = Some p;
  inv_owner : forall p s cid q, product_states h !! p = Some s -> knows s cid ->
    cid_to_product h !! cid = Some q -> q = p;
  inv_unique : forall p q s t cid, product_states h !! p = Some s ->
    product_states h !! q = Some t -> knows s cid -> knows t cid -> p = q;
  inv_waiting : forall p s, product_states h !! p = Some s ->
    no_waiting_orders s = false -> 0 < response_waiting_since_ns s }.

(** [cid] may be worked on in product [p]'s state. *)
Definition owned (h : Handler) (p : string) (cid : Z) : Prop :=
  cid_to_product h !! cid = Some p \/
  exists s o, product_states h !! p = Some s /\ order_no_to_cid s !! o = Some cid.

Definition mine (h : Handler) (p : string) (cid : Z) : Prop :=
  cid_to_product h !! cid = Some p \/
  exists s, product_states h !! p = Some s /\ knows s cid.

(** The environment's clock reads a positive time below 2^62 ns (the year 2116). *)
Definition clock_ok (env : Env) : Prop := forall i, 0 < clk env i <= 2 ^ 62.

(** The invariant of a world: it is claimed while fewer than 2^62 readings were made. *)
Definition winv (products : list string) (w : World) : Prop :=
  Z.of_nat (clk_i w) < 2 ^ 62 -> inv products (clk_i w) (hs w).

(** Run the state monad symbolically. *)
Ltac run_m :=
  unfold mbind, st_bind, mret, st_ret, upd, get, now, emit, gets, modify, set_hs, when in *;
  cbn -[Z.of_nat Z.pow wrap_u wrap_s] in *.

(** ** Per-product updates *)
Section updates.
Context (products : list string) (n : nat).
Abbreviation Inv := (inv products n).

Lemma lookup_upd_product p f h q :
  product_states (upd_product p f h) !! q =
  if decide (p = q) then f <$> product_states h !! q else product_states h !! q.
Proof.
  unfold upd_product. simpl. rewrite lookup_alter. by destruct (decide (p = q)) as [->|].
Qed.

Lemma is_Some_upd_product p f h q :
  is_Some (product_states h !! q) -> is_Some (product_states (upd_product p f h) !! q).
Proof.
  intros [t Ht]. rewrite lookup_upd_product. destruct (decide (p = q)) as [->|]; rewrite Ht;
    by eexists.
Qed.

(** [f] adds at most [c] to what the product knows, and that [c] is [p]'s. *)
Lemma inv_upd_product p f c h :
  Inv h ->
  (forall s x, product_states h !! p = Some s -> knows (f s) x -> knows s x \/ x = c) ->
  (forall s x, product_states h !! p = Some s -> is_Some (outstanding_orders (f s) !! x) ->
     is_Some (outstanding_orders s !! x) \/ (x = c /\ cid_to_product h !! c = Some p)) ->
  (forall s, product_states h !! p = Some s -> no_waiting_orders (f s) = false ->
     0 < response_waiting_since_ns (f s)) ->
  mine h p c \/ (forall s x, product_states h !! p = Some s -> knows (f s) x -> knows s x) ->
  Inv (upd_product p f h).
Proof.
  intros [Hl Hd Hk Hr Ho Hout How Hu Hw] Hadd Hadd_out Hadd_w Hown.
  assert (forall q t x, product_states (upd_product p f h) !! q = Some t -> knows t x ->
    exists t', product_states h !! q = Some t' /\ (knows t' x \/
      (q = p /\ (cid_to_product h !! x = Some p \/ knows t' x)))) as Hstep.
  { intros q t x Hq Hx. rewrite lookup_upd_product in Hq. destruct (decide (p = q)) as [<-|].
    - apply fmap_Some in Hq as (s&Hs&->). exists s. split; [done|].
      destruct Hown as [[Hc|(s'&Hs'&Hc)]|Hshrink].
      + destruct (Hadd s x Hs Hx) as [?| ->]; [by left|]. right. auto.
      + destruct (Hadd s x Hs Hx) as [?| ->]; [by left|]. left. by simplify_eq.
      + left. by eapply Hshrink.
    - exists t. auto. }
  split; simpl; try done.
  - by rewrite dom_alter_L.
  - intros q t x Hq Hx. destruct (Hstep q t x Hq Hx) as (t'&Ht'&[?|[-> [?|?]]]);
      [by eapply Hk| |by eapply Hk]. by eapply Hr.
  - intros x q Hx. destruct (Hr x q Hx) as [? ?]. split; [done|].
    by apply (is_Some_upd_product p f h).
  - intros o q Hq. apply (is_Some_upd_product p f h). by eapply Ho.
  - intros q t x Hq Hx. fold (upd_product p f h) in Hq.
    change (product_states (upd_product p f h) !! q = Some t) in Hq.
    rewrite lookup_upd_product in Hq. destruct (decide (p = q)) as [<-|]; [|by eapply Hout].
    apply fmap_Some in Hq as (s&Hs&->).
    destruct (Hadd_out s x Hs Hx) as [?|[-> ?]]; [by eapply Hout|done].
  - intros q t x r Hq Hx Hxr. destruct (Hstep q t x Hq Hx) as (t'&Ht'&[?|[-> [?|?]]]);
      [by eapply How|by simplify_eq|by eapply How].
  - intros q r t u x Hq Hrr Hx Hy.
    destruct (Hstep q t x Hq Hx) as (t'&Ht'&Kt), (Hstep r u x Hrr Hy) as (u'&Hu'&Ku).
    destruct Kt as [?|[-> [?|?]]], Ku as [?|[-> [?|?]]]; try done; try (by eapply Hu);
      try (symmetry; by eapply How); by eapply How.
  - intros q t Hq Hnw. change (product_states (upd_product p f h) !! q = Some t) in Hq.
    rewrite lookup_upd_product in Hq. destruct (decide (p = q)) as [<-|]; [|by eapply Hw].
    apply fmap_Some in Hq as (s&Hs&->). by eapply Hadd_w.
Qed.

Lemma owned_mine h p c : owned h p c -> mine h p c.
Proof.
  intros [Hc|(s&o&Hs&Hc)]; [by left|]. right. exists s. split; [done|].
  right; right; left. eauto.
Qed.

(** An update that adds no cid, no outstanding order and keeps the wait start. *)
Lemma inv_upd_shrink p f h :
  Inv h ->
  (forall s x, knows (f s) x -> knows s x) ->
  (forall s x, is_Some (outstanding_orders (f s) !! x) -> is_Some (outstanding_orders s !! x)) ->
  (forall s, no_waiting_orders (f s) = false ->
     no_waiting_orders s = false /\ response_waiting_since_ns (f s) = response_waiting_since_ns s) ->
  Inv (upd_product p f h).
Proof.
  intros HI Hk Hout Hw. apply inv_upd_product with (c := 0); try done.
  - intros s x _ Hx. left. by apply Hk.
  - intros s x _ Hx. left. by apply Hout.
  - intros s Hs Hnw. destruct (Hw s Hnw) as [? ->]. by eapply inv_waiting.
  - right. intros s x _. apply Hk.
Qed.

Lemma no_waiting_false s :
  no_waiting_orders s = false <->
  response_waiting_place_orders s <> ∅ \/ response_waiting_cancel_orders s <> ∅.
Proof.
  unfold no_waiting_orders. rewrite andb_false_iff, !bool_decide_eq_false. done.
Qed.

Lemma inv_erase_waiting p pl cn c h : Inv h -> Inv (upd_product p (erase_waiting pl cn c) h).
Proof.
  intros HI. apply inv_upd_shrink; [done|..]; intros s.
  - intros x. unfold knows, erase_waiting. simpl. destruct pl, cn; set_solver.
  - done.
  - rewrite !no_waiting_false. simpl. intros H. split; [|done].
    destruct pl, cn; simpl in H; set_solver.
Qed.

Lemma inv_clear_waiting p h : Inv h -> Inv (upd_product p clear_waiting_if_idle h).
Proof.
  intros HI. apply inv_upd_shrink; [done|..]; intros s;
    unfold clear_waiting_if_idle; destruct (no_waiting_orders s) eqn:E; try done.
  change (no_waiting_orders s = false -> true = false /\ 0 = response_waiting_since_ns s).
  by rewrite E.
Qed.

Lemma inv_no_waiting p h : Inv h -> Inv (upd_product p (set_waiting ∅ ∅ 0) h).
Proof.
  intros HI. apply inv_upd_shrink; [done|..]; intros s; [|done|].
  - intros x. unfold knows. simpl. set_solver.
  - rewrite no_waiting_false. simpl. naive_solver.
Qed.

(** Updates of fields that carry no cid. *)
Lemma inv_upd_other p f h :
  Inv h ->
  (forall s, outstanding_orders (f s) = outstanding_orders s /\
     cid_to_order_no (f s) = cid_to_order_no s /\ order_no_to_cid (f s) = order_no_to_cid s /\
     response_waiting_place_orders (f s) = response_waiting_place_orders s /\
     response_waiting_cancel_orders (f s) = response_waiting_cancel_orders s /\
     response_waiting_since_ns (f s) = response_waiting_since_ns s) ->
  Inv (upd_product p f h).
Proof.
  intros HI Hf. apply inv_upd_shrink; [done|..]; intros s;
    destruct (Hf s) as (E1&E2&E3&E4&E5&E6).
  - intros x. unfold knows. by rewrite E1, E2, E3, E4, E5.
  - by rewrite E1.
  - unfold no_waiting_orders. by rewrite E4, E5, E6.
Qed.

(** Changing the size of an order that is already outstanding. *)
Lemma inv_set_order p c o h :
  Inv h -> is_Some (outstanding_orders (state_of p h) !! c) ->
  Inv (upd_product p (fun s => set_outstanding (<[c := o]> (outstanding_orders s)) s) h).
Proof.
  intros HI Hc. apply inv_upd_product with (c := c); try done; simpl.
  - intros s x Hs Hx. destruct (decide (x = c)) as [->|Hne]; [by right|]. left.
    unfold knows in *. simpl in Hx. by rewrite lookup_insert_ne in Hx by done.
  - intros s x Hs Hx. left. unfold state_of in Hc. rewrite Hs in Hc.
    destruct (decide (x = c)) as [->|Hne]; [done|]. by rewrite lookup_insert_ne in Hx.
  - intros s Hs. change (no_waiting_orders (set_outstanding (<[c := o]> (outstanding_orders s)) s))
      with (no_waiting_orders s). apply (inv_waiting _ _ _ HI p s Hs).
  - left. left. unfold state_of in Hc. destruct (product_states h !! p) as [s|] eqn:Hs.
    + by eapply inv_outstanding.
    + by destruct Hc.
Qed.
End updates.

(** ** Routing tables *)
Section routing.
Context (products : list string) (n : nat).
Abbreviation Inv := (inv products n).

Lemma inv_set_routing o' c' h :
  Inv h ->
  (forall o p, o' !! o = Some p -> is_Some (product_states h !! p)) ->
  (forall c p, c' !! c = Some p -> cid_to_product h !! c = Some p) ->
  (forall p s x, product_states h !! p = Some s -> is_Some (outstanding_orders s !! x) ->
     c' !! x = cid_to_product h !! x) ->
  Inv (set_routing o' c' h).
Proof.
  intros [Hl Hd Hk Hr Ho Hout How Hu Hw] Ho' Hc' Hkeep. split; simpl; try done.
  - intros c p Hc. apply Hr. by apply Hc'.
  - intros p s x Hs Hx. rewrite (Hkeep p s x Hs Hx). by eapply Hout.
  - intros p s x q Hs Hx Hq. eapply How; [done|done|]. by apply Hc'.
Qed.

Lemma inv_set_other f h :
  Inv h ->
  last_cid (f h) = last_cid h -> product_states (f h) = product_states h ->
  order_no_to_product (f h) = order_no_to_product h ->
  cid_to_product (f h) = cid_to_product h -> Inv (f h).
Proof.
  intros [Hl Hd Hk Hr Ho Hout How Hu Hw] E1 E2 E3 E4. split; rewrite ?E1, ?E2, ?E3, ?E4; done.
Qed.

Lemma owned_range h p c : Inv h -> owned h p c -> 0 <= c <= last_cid h.
Proof.
  intros HI [Hc|(s&o&Hs&Hc)].
  - by eapply (inv_routed _ _ _ HI).
  - eapply (inv_known _ _ _ HI); [done|]. right; right; left. eauto.
Qed.

Lemma inv_bind p c o h :
  Inv h -> owned h p c -> is_Some (product_states h !! p) -> Inv (bind_order_no p c o h).
Proof.
  intros HI Hown Hp. unfold bind_order_no. case_decide; [done|].
  assert (Inv (upd_product p (fun s => set_order_nos (<[c := o]> (cid_to_order_no s))
                                     (<[o := c]> (order_no_to_cid s)) s) h)) as HI'.
  { apply inv_upd_product with (c := c); try done; simpl.
    - intros s x Hs Hx. destruct (decide (x = c)) as [->|Hne]; [by right|]. left.
      unfold knows in *. simpl in Hx. rewrite lookup_insert_ne in Hx by done.
      destruct Hx as [?|[?|[[o' Ho']|?]]]; [by left|by right; left| |by right; right; right].
      right; right; left. destruct (decide (o = o')) as [->|?].
      + rewrite lookup_insert_eq in Ho'. by simplify_eq.
      + rewrite lookup_insert_ne in Ho' by done. eauto.
    - intros s x Hs Hx. by left.
    - intros s Hs. apply (inv_waiting _ _ _ HI p s Hs).
    - left. by apply owned_mine. }
  apply inv_set_routing; [done| |done|done]. simpl. intros o' q Ho'.
  apply (is_Some_upd_product p _ h).
  destruct (decide (o = o')) as [->|?].
  - rewrite lookup_insert_eq in Ho'. by simplify_eq.
  - rewrite lookup_insert_ne in Ho' by done. by eapply (inv_order_no _ _ _ HI).
Qed.

Lemma owned_upd h p f q c :
  (forall s, order_no_to_cid (f s) = order_no_to_cid s) ->
  owned h p c -> owned (upd_product q f h) p c.
Proof.
  intros Hf [Hc|(s&o&Hs&Hc)]; [by left|]. right.
  destruct (decide (q = p)) as [->|Hne].
  - exists (f s), o. rewrite lookup_upd_product, decide_True, Hs, Hf by done. done.
  - exists s, o. rewrite lookup_upd_product, decide_False by done. done.
Qed.

(** What [forget_order] does to one product's state. *)
Definition forget_state (c : Z) (s : ProductState) : ProductState :=
  set_outstanding (delete c (outstanding_orders s))
    (match cid_to_order_no s !! c with
     | Some o => set_order_nos (delete c (cid_to_order_no s)) (delete o (order_no_to_cid s)) s
     | None => s
     end).

Lemma upd_product_upd p f g h : upd_product p f (upd_product p g h) = upd_product p (f ∘ g) h.
Proof. unfold upd_product, set_product_states. simpl. f_equal. apply map_eq. intros q.
  rewrite !lookup_alter. repeat case_decide; try done. by destruct (product_states h !! p). Qed.

Lemma upd_product_ext p f g h :
  f (state_of p h) = g (state_of p h) -> upd_product p f h = upd_product p g h.
Proof.
  intros E. unfold upd_product, set_product_states. f_equal. apply map_eq. intros q.
  rewrite !lookup_alter. case_decide; [|done]. unfold state_of in E.
  destruct (product_states h !! p); simpl in *; [by rewrite E|done].
Qed.

Lemma forget_order_alt p c h :
  forget_order p c h =
  set_routing (match cid_to_order_no (state_of p h) !! c with
               | Some o => delete o (order_no_to_product h)
               | None => order_no_to_product h
               end) (delete c (cid_to_product h)) (upd_product p (forget_state c) h).
Proof.
  unfold forget_order. destruct (cid_to_order_no (state_of p h) !! c) as [o|] eqn:E.
  - change (set_routing (delete o (order_no_to_product h)) (delete c (cid_to_product h))
      (upd_product p (fun s => set_outstanding (delete c (outstanding_orders s)) s)
        (upd_product p (fun s => set_order_nos (delete c (cid_to_order_no s))
                                (delete o (order_no_to_cid s)) s) h)) =
      set_routing (delete o (order_no_to_product h)) (delete c (cid_to_product h))
        (upd_product p (forget_state c) h)).
    rewrite upd_product_upd. f_equal. apply upd_product_ext. unfold forget_state. simpl.
    by rewrite E.
  - change (set_routing (order_no_to_product h) (delete c (cid_to_product h))
      (upd_product p (fun s => set_outstanding (delete c (outstanding_orders s)) s) h) =
      set_routing (order_no_to_product h) (delete c (cid_to_product h))
        (upd_product p (forget_state c) h)).
    f_equal. apply upd_product_ext. unfold forget_state. by rewrite E.
Qed.

Lemma forget_state_knows c s x : knows (forget_state c s) x -> knows s x.
Proof.
  unfold knows, forget_state. destruct (cid_to_order_no s !! c) as [o|]; simpl.
  - intros [H|[H|[[o' H]|H]]]; [left|right;left|right;right;left|by right;right;right].
    + destruct H as [? H]. apply lookup_delete_Some in H as [_ H]. by rewrite H.
    + destruct H as [? H]. apply lookup_delete_Some in H as [_ H]. by rewrite H.
    + apply lookup_delete_Some in H as [_ H]. eauto.
  - intros [H|H]; [left|by right].
    destruct H as [? H]. apply lookup_delete_Some in H as [_ H]. by rewrite H.
Qed.

Lemma forget_state_waiting c s : no_waiting_orders (forget_state c s) = no_waiting_orders s /\
  response_waiting_since_ns (forget_state c s) = response_waiting_since_ns s.
Proof. unfold forget_state. by destruct (cid_to_order_no s !! c). Qed.

Lemma forget_state_outstanding c s :
  outstanding_orders (forget_state c s) = delete c (outstanding_orders s).
Proof. unfold forget_state. by destruct (cid_to_order_no s !! c). Qed.

Lemma inv_forget p c h : Inv h -> owned h p c -> Inv (forget_order p c h).
Proof.
  intros HI Hown. rewrite forget_order_alt.
  assert (Inv (upd_product p (forget_state c) h)) as HI'.
  { apply inv_upd_shrink; [done|..]; intros s.
    - apply forget_state_knows.
    - intros x. rewrite forget_state_outstanding. intros [o Ho].
      apply lookup_delete_Some in Ho as [_ Ho]. by rewrite Ho.
    - destruct (forget_state_waiting c s) as [-> ->]. done. }
  apply inv_set_routing; [done|..].
  - intros o q Hq. apply (inv_order_no _ _ _ HI' o). simpl.
    destruct (cid_to_order_no (state_of p h) !! c); [|done].
    by apply lookup_delete_Some in Hq as [_ Hq].
  - intros x q Hx. by apply lookup_delete_Some in Hx as [_ Hx].
  - intros q s x Hs Hx. destruct (decide (x = c)) as [->|Hne]; [|by rewrite lookup_delete_ne].
    exfalso. rewrite lookup_upd_product in Hs. destruct (decide (p = q)) as [<-|Hpq].
    + apply fmap_Some in Hs as (s'&Hs'&->). rewrite forget_state_outstanding in Hx.
      rewrite lookup_delete_eq in Hx. by destruct Hx.
    + assert (cid_to_product h !! c = Some q) as Hq by by eapply (inv_outstanding _ _ _ HI).
      destruct Hown as [Hc|(t&o&Ht&Hc)]; [simplify_eq|].
      apply Hpq. eapply (inv_unique _ _ _ HI p q t s c); [done|done| |by left].
      right; right; left. eauto.
Qed.

Lemma inv_weaken m h : (n <= m)%nat -> Inv h -> inv products m h.
Proof. intros Hm [Hl]. split; try done. lia. Qed.

(** A fresh cid. *)
Lemma inv_reserve t p h :
  Inv h -> Z.of_nat (S n) < 2 ^ 62 -> 0 < t <= 2 ^ 62 -> is_Some (product_states h !! p) ->
  let cid := if wrap_u 64 t <=? last_cid h then wrap_u 64 (last_cid h + 1) else wrap_u 64 t in
  let h' := set_routing (order_no_to_product h) (<[cid := p]> (cid_to_product h))
              (set_last_cid cid h) in
  last_cid h < cid /\ inv products (S n) h' /\ cid_to_product h' !! cid = Some p.
Proof.
  intros HI Hn Ht Hp. cbv zeta. destruct (inv_last _ _ _ HI) as [Hl0 Hl1].
  rewrite (wrap_u_id 64 t) by lia. rewrite (wrap_u_id 64 (last_cid h + 1)) by lia.
  set (cid := if t <=? last_cid h then last_cid h + 1 else t).
  assert (last_cid h < cid <= 2 ^ 62 + Z.of_nat (S n)) as Hc.
  { unfold cid. destruct (t <=? last_cid h) eqn:E; zify_bools; lia. }
  split; [lia|]. split; [|apply lookup_insert_eq].
  destruct HI as [Hl Hd Hk Hr Ho Hout How Hu Hw]. split; simpl; try done; try lia.
  - intros q s x Hs Hx. specialize (Hk q s x Hs Hx). lia.
  - intros x q Hx. destruct (decide (cid = x)) as [<-|Hne].
    + rewrite lookup_insert_eq in Hx. simplify_eq. split; [lia|done].
    + rewrite lookup_insert_ne in Hx by done. destruct (Hr x q Hx). split; [lia|done].
  - intros q s x Hs Hx. rewrite lookup_insert_ne; [by eapply Hout|].
    intros <-. assert (knows s cid) as Hkn by by left. specialize (Hk q s cid Hs Hkn). lia.
  - intros q s x r Hs Hx Hxr. destruct (decide (cid = x)) as [<-|Hne].
    + specialize (Hk q s cid Hs Hx). lia.
    + rewrite lookup_insert_ne in Hxr by done. by eapply How.
Qed.

(** A fresh outstanding order under a cid routed to its product. *)
Lemma inv_add_order p c o h :
  Inv h -> cid_to_product h !! c = Some p ->
  Inv (upd_product p (fun s => set_outstanding (<[c := o]> (outstanding_orders s)) s) h).
Proof.
  intros HI Hc. apply inv_upd_product with (c := c); try done; simpl.
  - intros s x Hs Hx. destruct (decide (x = c)) as [->|Hne]; [by right|]. left.
    unfold knows in *. simpl in Hx. by rewrite lookup_insert_ne in Hx by done.
  - intros s x Hs Hx. destruct (decide (x = c)) as [->|Hne]; [by right|].
    left. by rewrite lookup_insert_ne in Hx.
  - intros s Hs. change (no_waiting_orders (set_outstanding (<[c := o]> (outstanding_orders s)) s))
      with (no_waiting_orders s). apply (inv_waiting _ _ _ HI p s Hs).
  - left. by left.
Qed.
End routing.

(** ** Handlers *)
Section handlers.
Context (env : Env) (cfg : HandlerConfig).
Hypothesis Hclk : clock_ok env.
Hypothesis Hnames : "" ∉ trade_products cfg.
Hypothesis Hlot : fpos (default_lot_size (market_config cfg)) = true.
Abbreviation WI := (winv (trade_products cfg)).
Abbreviation Inv := (inv (trade_products cfg)).

Lemma preserves_upd f : (forall n h, Inv n h -> Inv n (f h)) -> preserves WI (upd f).
Proof. intros Hf w Hw Hn. apply Hf, Hw, Hn. Qed.

Lemma preserves_now : preserves WI (now env).
Proof. intros w Hw Hn. simpl in *. eapply inv_weaken; [|apply Hw]; lia. Qed.

Lemma preserves_emit o : preserves WI (emit o).
Proof. by intros w Hw. Qed.

Lemma preserves_get : preserves WI get.
Proof. by intros w Hw. Qed.

Hint Resolve preserves_now preserves_emit preserves_get preserves_ret : omni.

Lemma preserves_if {A} (b : bool) (m m' : M A) :
  preserves WI m -> preserves WI m' -> preserves WI (if b then m else m').
Proof. by destruct b. Qed.

Lemma preserves_log_order_record p c o t s ts msg :
  preserves WI (log_order_record env cfg p c o t s ts msg).
Proof.
  unfold log_order_record. apply preserves_bind; [auto with omni|]. intros h.
  apply preserves_bind; [by apply preserves_upd; intros; apply inv_set_other|]. intros _.
  case_decide; auto with omni.
Qed.

Lemma preserves_log_order_decision p pi s d :
  preserves WI (log_order_decision env cfg p pi s d).
Proof.
  unfold log_order_decision. case_decide; auto with omni.
Qed.

Lemma preserves_on_listener_status u : preserves WI (on_listener_status cfg u).
Proof.
  unfold on_listener_status. apply preserves_bind; auto with omni. intros h.
  apply preserves_bind.
  - apply preserves_when. intros _. apply preserves_for_each. auto with omni.
  - intros _. apply preserves_upd. intros. by apply inv_set_other.
Qed.

Lemma preserves_on_pricer_status u : preserves WI (on_pricer_status cfg u).
Proof.
  unfold on_pricer_status. apply preserves_bind; auto with omni. intros h.
  apply preserves_bind.
  - apply preserves_when. intros _. apply preserves_for_each. auto with omni.
  - intros _. apply preserves_upd. intros. by apply inv_set_other.
Qed.

Lemma preserves_on_orderbook p d : preserves WI (on_orderbook cfg p d).
Proof.
  unfold on_orderbook. apply preserves_bind; auto with omni. intros h.
  case_match; auto with omni. repeat case_match.
  apply preserves_upd. intros. by apply inv_upd_other.
Qed.

Lemma preserves_on_position p d : preserves WI (on_position cfg p d).
Proof.
  unfold on_position. case_match; auto with omni.
  apply preserves_bind; [by apply preserves_upd; intros; apply inv_set_other|]. intros _.
  apply preserves_bind; auto with omni. intros h. case_match; auto with omni.
  apply preserves_upd. intros. by apply inv_upd_other.
Qed.

Lemma preserves_on_product_info p d : preserves WI (on_product_info p d).
Proof.
  unfold on_product_info. repeat case_match; auto with omni.
  apply preserves_bind; auto with omni. intros h. case_match; auto with omni.
  apply preserves_bind; auto with omni. apply preserves_upd. intros. by apply inv_upd_other.
Qed.

Lemma preserves_on_fair_price p d : preserves WI (on_fair_price p d).
Proof.
  unfold on_fair_price. apply preserves_bind; auto with omni. intros h.
  case_match; auto with omni. apply preserves_upd. intros. by apply inv_upd_other.
Qed.

Lemma preserves_build_price_info s : preserves WI (build_price_info env cfg s).
Proof.
  unfold build_price_info. cbv zeta. destruct (_ || _); auto with omni.
  apply preserves_bind; [|auto with omni].
  repeat apply preserves_if; auto with omni.
Qed.

(** *** Routing an execution *)
Lemma route_by_cid_spec h data c p :
  route_by_cid h data = Some (c, p) -> cid_to_product h !! c = Some p.
Proof.
  unfold route_by_cid. case_decide; [done|]. destruct (stoull _); [|done].
  destruct (cid_to_product h !! z) eqn:E; [|done]. naive_solver.
Qed.

(** The cid an execution is routed to belongs to the product it is routed to. *)
Lemma route_execution_owned n h product data target c :
  Inv n h -> route_execution h product data = (target, Some c) -> owned h target c.
Proof.
  intros HI. unfold route_execution.
  destruct (route_by_cid h data) as [[c' p]|] eqn:E.
  - apply route_by_cid_spec in E. destruct (inv_routed _ _ _ HI c' p E) as [_ [s Hs]].
    assert (p <> ""%string) as Hp.
    { intros ->. apply Hnames. apply (elem_of_list_to_set (C:=gset string)).
      rewrite <- (inv_dom _ _ _ HI). by apply elem_of_dom_2 in Hs. }
    rewrite decide_False by done. intros. simplify_eq. by left.
  - rewrite decide_True by done. intros [= <- Hc]. right. unfold state_of in Hc.
    destruct (product_states h !! _) as [s|] eqn:Es; simpl in Hc; [|done].
    exists s. eauto.
Qed.

Lemma preserves_adopt_order target data :
  forall w, WI w -> is_Some (product_states (hs w) !! target) ->
  WI (adopt_order env cfg target data w).2.
Proof.
  intros w Hw Hp Hn. unfold adopt_order, reserve_cid in *. run_m.
  destruct (inv_reserve (trade_products cfg) (clk_i w) (clk env (clk_i w)) target (hs w))
    as (_&HI&Hc); [apply Hw; lia|lia|apply Hclk|done|].
  apply inv_bind.
  - by apply inv_add_order.
  - left. done.
  - by apply is_Some_upd_product.
Qed.

Lemma preserves_on_accept target cid data w :
  WI w -> is_Some (product_states (hs w) !! target) ->
  (forall c, cid = Some c -> Z.of_nat (clk_i w) < 2 ^ 62 -> owned (hs w) target c) ->
  WI (on_accept env cfg target cid data w).2.
Proof.
  intros Hw Hp Hown. unfold on_accept.
  destruct (is_rejected data); [|destruct (is_cancel data); [|destruct (_ && _); [|done]]];
    destruct cid as [c|]; try done.
  - intros Hn. run_m. apply inv_clear_waiting, inv_forget; [by apply inv_erase_waiting, Hw|].
    apply owned_upd; [done|]. by apply Hown.
  - intros Hn. run_m. apply inv_clear_waiting, inv_forget; [by apply inv_erase_waiting, Hw|].
    apply owned_upd; [done|]. by apply Hown.
  - intros Hn. run_m. apply inv_clear_waiting, inv_erase_waiting, inv_bind; auto.
  - destruct (fpos (value_or fzero (order_qty data))); [|done]. by apply preserves_adopt_order.
Qed.

(** A positive quantity is a non-negative number of lots, or the out-of-range value. *)
Lemma to_qty_in_lots_pos q : fpos q = true ->
  0 <= to_qty_in_lots cfg q \/ to_qty_in_lots cfg q = - 2 ^ 31.
Proof.
  intros Hq. unfold to_qty_in_lots, to_int32. apply (to_sint_no_neg 32).
  auto 6 with omni.
Qed.

Lemma to_qty_in_lots_range q : in_int32 (to_qty_in_lots cfg q).
Proof.
  unfold in_int32, int32_min, int32_max, to_qty_in_lots, to_int32.
  pose proof (to_sint_range 32 (fround (fdiv q (default_lot_size (market_config cfg))))). lia.
Qed.

(** Filling an order that is not outstanding leaves nothing behind. *)
Lemma forget_phantom p c o f h :
  (forall s, outstanding_orders (f s) = outstanding_orders s /\
             cid_to_order_no (f s) = cid_to_order_no s) ->
  (forall s m, f (set_outstanding m s) = set_outstanding m (f s)) ->
  forget_order p c (upd_product p f (upd_product p
    (fun s => set_outstanding (<[c := o]> (outstanding_orders s)) s) h)) =
  forget_order p c (upd_product p f h).
Proof.
  intros Hf Hf2. rewrite !forget_order_alt, !upd_product_upd.
  assert (forall g, (forall s, cid_to_order_no (g s) = cid_to_order_no s) ->
    cid_to_order_no (state_of p (upd_product p g h)) = cid_to_order_no (state_of p h)) as E.
  { intros g Hg. unfold state_of. rewrite lookup_upd_product, decide_True by done.
    destruct (product_states h !! p); simpl; [by rewrite Hg|done]. }
  rewrite !E; [|intros s; by destruct (Hf s)|intros s; simpl; by rewrite Hf2; simpl; destruct (Hf s)].
  f_equal. apply upd_product_ext. simpl. rewrite Hf2. unfold forget_state. simpl.
  destruct (Hf (state_of p h)) as [-> ->].
  destruct (cid_to_order_no (state_of p h) !! c); unfold set_outstanding; simpl;
    by rewrite delete_insert_eq.
Qed.

Lemma bind_snd {A B} (m : M A) (f : A -> M B) w :
  WI (m w).2 -> (forall a, preserves WI (f a)) -> WI ((m ≫= f) w).2.
Proof. intros Hm Hf. apply Hf, Hm. Qed.

Lemma preserves_on_fill target cid data w :
  WI w -> fpos (value_or fzero (execute_qty data)) = true ->
  (forall c, cid = Some c -> Z.of_nat (clk_i w) < 2 ^ 62 -> owned (hs w) target c) ->
  WI (on_fill cfg target cid data w).2.
Proof.
  intros Hw Hq Hown. unfold on_fill. cbv zeta. apply bind_snd.
  2: { intros _. apply preserves_when. intros _. apply preserves_upd. intros.
       by apply inv_upd_other. }
  destruct cid as [c|]; [|done]. intros Hn. run_m.
  set (eq := to_qty_in_lots cfg _) in *.
  destruct (outstanding_orders (state_of target (hs w)) !! c) as [o|] eqn:Eo; simpl in *.
  - destruct (_ <=? 0); run_m.
    + apply inv_clear_waiting, inv_forget.
      * apply inv_erase_waiting, inv_set_order; [by apply Hw|]. by rewrite Eo.
      * apply owned_upd, owned_upd; [done|done|]. by apply Hown.
    + apply inv_set_order; [by apply Hw|]. by rewrite Eo.
  - assert ((wrap_s 32 (0 - eq) <=? 0) = true) as E.
    { apply Z.leb_le. destruct (to_qty_in_lots_pos _ Hq) as [He|He]; fold eq in He.
      - pose proof (to_qty_in_lots_range (value_or fzero (execute_qty data))) as Hr. fold eq in Hr.
        unfold in_int32, int32_min, int32_max in Hr.
        rewrite wrap32_id; unfold in_int32, int32_min, int32_max; lia.
      - rewrite He. vm_compute. discriminate. }
    rewrite E in Hn |- *. run_m. apply inv_clear_waiting. rewrite forget_phantom by done.
    apply inv_forget; [by apply inv_erase_waiting, Hw|].
    apply owned_upd; [done|]. by apply Hown.
Qed.

Lemma preserves_on_execution p data : preserves WI (on_execution env cfg p data).
Proof.
  intros w Hw. unfold on_execution.
  change (WI ((let '(target, cid) := route_execution (hs w) p data in
    if decide (target = ""%string) then mret tt
    else match product_states (hs w) !! target with
    | None => mret tt
    | Some _ =>
        if is_accept_data data then on_accept env cfg target cid data
        else when (is_executed data && fpos (value_or fzero (execute_qty data)))
               (on_fill cfg target cid data)
    end) w).2).
  destruct (route_execution (hs w) p data) as [target cid] eqn:Er.
  case_decide; [done|]. destruct (product_states (hs w) !! target) as [s|] eqn:Es; [|done].
  assert (forall c, cid = Some c -> Z.of_nat (clk_i w) < 2 ^ 62 -> owned (hs w) target c) as Hown.
  { intros c -> Hn. by eapply route_execution_owned; [apply Hw|]. }
  destruct (is_accept_data data).
  - apply preserves_on_accept; [done|by eexists|done].
  - destruct (is_executed data); [|done].
    destruct (fpos (value_or fzero (execute_qty data))) eqn:Eq; [|done].
    by apply preserves_on_fill.
Qed.

(** *** Replies and submission *)
Lemma touch_product_id p h : is_Some (product_states h !! p) -> touch_product p h = h.
Proof. intros [s Hs]. unfold touch_product. by rewrite Hs. Qed.

(** A step that starts from the same bookkeeping keeps ownership. *)
Lemma log_order_record_hs p c o t s ts msg w :
  hs (log_order_record env cfg p c o t s ts msg w).2 =
  set_pending (delete c (pending_order_records (hs w))) (hs w) /\
  (clk_i w <= clk_i (log_order_record env cfg p c o t s ts msg w).2)%nat.
Proof. unfold log_order_record. run_m. case_decide; simpl; split; auto with lia. Qed.

Lemma preserves_on_order_response r : preserves WI (on_order_response env cfg r).
Proof.
  intros w Hw. unfold on_order_response. run_m.
  destruct (cid_to_product (hs w) !! or_cid r) as [p|] eqn:Ep.
  2: { destruct (pending_order_records (hs w) !! or_cid r); [|done].
       by apply preserves_log_order_record. }
  set (logged := log_order_record env cfg p (or_cid r) (or_order_no r)) in *.
  set (w1 := {| hs := upd_product p clear_waiting_if_idle
    (upd_product p (erase_waiting true true (or_cid r)) (touch_product p (hs w)));
    clk_i := clk_i w; rx_i := rx_i w; out := out w |}).
  assert (Z.of_nat (clk_i w) < 2 ^ 62 -> Inv (clk_i w) (hs w1) /\
    cid_to_product (hs w1) !! or_cid r = Some p /\ is_Some (product_states (hs w1) !! p)) as H1.
  { intros Hn'. specialize (Hw Hn'). destruct (inv_routed _ _ _ Hw _ _ Ep) as [_ Hp].
    unfold w1. simpl. rewrite touch_product_id by done.
    split; [by apply inv_clear_waiting, inv_erase_waiting|]. split; [done|].
    apply (is_Some_upd_product p clear_waiting_if_idle (upd_product p _ _)).
    by apply is_Some_upd_product. }
  assert (forall t s ts msg (f : Handler -> Handler),
    (forall n h, Inv n h -> cid_to_product h !! or_cid r = Some p ->
       is_Some (product_states h !! p) -> Inv n (f h)) ->
    WI (set_hs (f (hs (logged t s ts msg w1).2)) (logged t s ts msg w1).2)) as Hstep.
  { intros t s ts msg f Hf Hn'. simpl in Hn'.
    destruct (log_order_record_hs p (or_cid r) (or_order_no r) t s ts msg w1) as [Eh Hle].
    fold logged in Eh, Hle. simpl in Hle.
    destruct H1 as (HI&Hc&Hp); [unfold w1 in *; simpl in *; lia|].
    simpl. rewrite Eh. apply Hf; [|done|done]. apply inv_set_other; try done.
    eapply inv_weaken; [|done]. done. }
  case_bool_decide; [destruct (or_success r || or_order_gone r) eqn:Es|destruct (or_success r) eqn:Es].
  - apply Hstep with (f := forget_order p (or_cid r)). intros n h HI Hc Hp.
    apply inv_forget; [done|by left].
  - apply (Hstep _ _ _ _ id). auto.
  - apply Hstep with (f := bind_order_no p (or_cid r) (or_order_no r)). intros n h HI Hc Hp.
    apply inv_bind; [done|by left|done].
  - case_bool_decide.
    + apply Hstep with (f := forget_order p (or_cid r)). intros n h HI Hc Hp.
      apply inv_forget; [done|by left].
    + apply (Hstep _ _ _ _ id). auto.
Qed.

Lemma preserves_mark_waiting p cancel c w :
  WI w -> (Z.of_nat (clk_i w) < 2 ^ 62 -> mine (hs w) p c) ->
  WI (mark_waiting env p cancel c w).2.
Proof.
  intros Hw Hm. unfold mark_waiting. run_m.
  assert (forall n h, Inv n h -> mine h p c ->
    (forall s, product_states h !! p = Some s -> 0 < response_waiting_since_ns s) ->
    Inv n (upd_product p (fun s => set_waiting
      (if cancel then response_waiting_place_orders s
       else {[c]} ∪ response_waiting_place_orders s)
      (if cancel then {[c]} ∪ response_waiting_cancel_orders s
       else response_waiting_cancel_orders s) (response_waiting_since_ns s) s) h)) as Hins.
  { intros n h HI Hmine Hsince. apply inv_upd_product with (c := c); [done|..]; simpl.
    - intros s x _. unfold knows. simpl. destruct cancel; set_solver.
    - intros s x _ Hx. by left.
    - intros s Hs _. by apply Hsince.
    - by left. }
  destruct (no_waiting_orders (state_of p (hs w))) eqn:Enw; intros Hn; run_m.
  - apply Hins.
    + eapply inv_weaken; [|apply inv_upd_product with (c := c); [apply Hw; lia|..]]; [lia|..].
      * intros s x _ Hx. by left.
      * intros s x _ Hx. by left.
      * intros s _ _. apply Hclk.
      * right. intros s x _ Hx. exact Hx.
    + destruct Hm as [?|(s&Hs&Hk)]; [lia|by left|right].
      eexists. split; [rewrite lookup_upd_product, decide_True, Hs by done; done|]. exact Hk.
    + intros s. rewrite lookup_upd_product, decide_True by done.
      destruct (product_states (hs w) !! p); [|done]. intros [= <-]. apply Hclk.
  - apply Hins; [by apply Hw|by apply Hm|]. intros s Hs. eapply inv_waiting; [by apply Hw|done|].
    unfold state_of in Enw. by rewrite Hs in Enw.
Qed.

Lemma preserves_submit_cancel p c : preserves WI (submit_cancel env cfg p c).
Proof.
  intros w Hw. unfold submit_cancel.
  change (WI ((match cid_to_order_no (state_of p (hs w)) !! c with
    | None => mret tt
    | Some order_no =>
      (match outstanding_orders (state_of p (hs w)) !! c with
      | Some o => upd (mark_pending_record c p "cancel" (oo_is_bid o)
          (to_double_price (market_config cfg) (oo_price o))
          (to_double_qty (market_config cfg) (oo_qty o)))
      | None => mret tt
      end) ;;
      mark_waiting env p true c ;; emit (OutCancel (cancel_info order_no p c))
    end) w).2).
  destruct (cid_to_order_no (state_of p (hs w)) !! c) as [o|] eqn:Eo; [|done].
  assert (mine (hs w) p c) as Hm.
  { unfold state_of in Eo. destruct (product_states (hs w) !! p) as [s|] eqn:Es; [|done].
    right. exists s. split; [done|]. right; left. by eexists. }
  destruct (outstanding_orders (state_of p (hs w)) !! c) as [oo|].
  - apply (bind_snd (mark_waiting env p true c) (fun _ => emit _) (set_hs _ w));
      [|auto using preserves_emit].
    apply preserves_mark_waiting; [|done]. intros Hn. apply inv_set_other; try done. by apply Hw.
  - apply (bind_snd (mark_waiting env p true c) (fun _ => emit _) w);
      [|auto using preserves_emit].
    by apply preserves_mark_waiting.
Qed.

(** The reading bound may be assumed of the starting world too. *)
Lemma winv_assume {A} (m : M A) w :
  follows advances m -> (Z.of_nat (clk_i w) < 2 ^ 62 -> WI (m w).2) -> WI (m w).2.
Proof. intros Hm Hw Hn. destruct (Hm w) as (Hle&_&_). apply Hw; [|done]. lia. Qed.

Lemma traded_state w p :
  WI w -> Z.of_nat (clk_i w) < 2 ^ 62 -> p ∈ trade_products cfg ->
  is_Some (product_states (hs w) !! p).
Proof.
  intros Hw Hn Hp. apply elem_of_dom. rewrite (inv_dom _ _ _ (Hw Hn)).
  by apply (elem_of_list_to_set (C:=gset string)).
Qed.

Lemma traded_of_state w p s :
  WI w -> Z.of_nat (clk_i w) < 2 ^ 62 -> product_states (hs w) !! p = Some s ->
  p ∈ trade_products cfg.
Proof.
  intros Hw Hn Hp. apply (elem_of_list_to_set (C:=gset string)).
  rewrite <- (inv_dom _ _ _ (Hw Hn)). by apply elem_of_dom_2 in Hp.
Qed.

Lemma reserve_cid_spec p w :
  WI w -> p ∈ trade_products cfg ->
  WI (reserve_cid env p w).2 /\
  (Z.of_nat (clk_i (reserve_cid env p w).2) < 2 ^ 62 ->
   cid_to_product (hs (reserve_cid env p w).2) !! (reserve_cid env p w).1 = Some p).
Proof.
  intros Hw Hp. unfold reserve_cid. run_m.
  split; intros Hn; run_m; assert (Z.of_nat (clk_i w) < 2 ^ 62) as Hn' by lia;
    by destruct (inv_reserve (trade_products cfg) (clk_i w) (clk env (clk_i w)) p (hs w)
      (Hw Hn') Hn (Hclk _) (traded_state w p Hw Hn' Hp)) as (_&?&?).
Qed.

Lemma preserves_submit_place p b px q lim ro :
  p ∈ trade_products cfg -> preserves WI (submit_place env cfg p b px q lim ro).
Proof.
  intros Hp w Hw. unfold submit_place.
  destruct (q <=? 0) eqn:Eq; [done|]. unfold get at 1. unfold gets, mbind at 1, st_bind at 1.
  cbn [fst snd].
  destruct (snapped_order cfg (state_of p (hs w)) b px q lim) as [[price qty]|]; [|done].
  destruct (reserve_cid_spec p w Hw Hp) as [HI Hc].
  unfold mbind at 1, st_bind at 1. cbv zeta.
  destruct (reserve_cid env p w) as [cid w1]; cbn [fst snd] in *.
  set (add := when lim _). assert (WI (add w1).2 /\
    (Z.of_nat (clk_i (add w1).2) < 2 ^ 62 -> mine (hs (add w1).2) p cid)) as [HI2 Hm].
  { unfold add. destruct lim; [|split; [done|]; intros Hn; left; by apply Hc].
    split; intros Hn; [|left; by apply Hc]. apply inv_add_order; [by apply HI|by apply Hc]. }
  apply (bind_snd (mark_waiting env p false cid)
    (fun _ => upd _ ≫= fun _ => emit _) (add w1).2).
  - by apply (preserves_mark_waiting p false cid (add w1).2).
  - intros _. apply preserves_bind; [|auto using preserves_emit].
    apply preserves_upd. intros. by apply inv_set_other.
Qed.

Lemma preserves_send_decision p d :
  p ∈ trade_products cfg -> preserves WI (send_decision env cfg p d).
Proof.
  intros Hp. unfold send_decision. repeat (apply preserves_bind; [|intros _]);
    apply preserves_for_each; intros a _;
    by first [apply preserves_submit_cancel | apply preserves_submit_place].
Qed.

Lemma preserves_waiting_gate p : preserves WI (waiting_gate env cfg p).
Proof.
  unfold waiting_gate. apply preserves_bind; [apply preserves_get|]. intros h. cbv zeta.
  destruct (no_waiting_orders _); [apply preserves_ret|].
  apply preserves_bind; [apply preserves_now|]. intros t.
  destruct (_ && _); [|apply preserves_ret]. unfold record_timed_out.
  do 2 (apply preserves_bind; [apply preserves_for_each; intros c _;
    apply preserves_bind; [apply preserves_get|]; intros; apply preserves_log_order_record|];
    intros _).
  apply preserves_bind; [|intros; apply preserves_ret]. apply preserves_upd.
  intros. by apply inv_no_waiting.
Qed.

Lemma preserves_decide_and_send p liq :
  p ∈ trade_products cfg -> preserves WI (decide_and_send env cfg p liq).
Proof.
  intros Hp. unfold decide_and_send. apply preserves_bind; [apply preserves_get|].
  intros h. cbv zeta. apply preserves_bind; [apply preserves_build_price_info|].
  intros pi. destruct (is_nan _); [apply preserves_ret|].
  apply preserves_bind; [apply preserves_log_order_decision|]. intros _.
  by apply preserves_send_decision.
Qed.

Lemma preserves_update_orders p liq : preserves WI (update_orders env cfg p liq).
Proof.
  intros w Hw. apply winv_assume; [auto with frame|]. intros Hn.
  unfold update_orders. unfold get, gets, mbind at 1, st_bind at 1. cbn [fst snd].
  destruct (may_decide cfg (hs w) p liq) eqn:Em; [|done].
  assert (p ∈ trade_products cfg) as Hp.
  { unfold may_decide in Em. destruct (product_states (hs w) !! p) eqn:E.
    - by eapply traded_of_state.
    - by rewrite andb_false_r in Em. }
  apply (preserves_bind WI (waiting_gate env cfg p)); [apply preserves_waiting_gate| |done].
  intros go. apply preserves_when. intros _. by apply preserves_decide_and_send.
Qed.

Lemma preserves_handle_task t : preserves WI (handle_task env cfg t).
Proof.
  destruct t as [u|u|r|u|u|r|p|r]; simpl; try apply preserves_ret.
  - apply preserves_on_listener_status.
  - unfold process_market_data. destruct (md_data r); try apply preserves_ret.
    + apply preserves_on_orderbook.
    + apply preserves_on_execution.
    + apply preserves_on_position.
    + apply preserves_on_product_info.
  - apply preserves_on_pricer_status.
  - apply preserves_on_fair_price.
  - apply preserves_update_orders.
  - apply preserves_on_order_response.
Qed.
End handlers.

(** ** Reachability *)

(** The life of a trader as a step relation: any task may be the next one handled, and the
    stop sequence takes its own steps between tasks: raising the flags, cancelling an order,
    deciding to liquidate, closing a position at market. *)
Inductive step (env : Env) (cfg : HandlerConfig) : World -> World -> Prop :=
  | step_task t w : step env cfg w (handle_task env cfg t w).2
  | step_tick w : step env cfg w (now env w).2
  | step_dequeue w : step env cfg w (dequeue env w).2
  | step_stop w : step env cfg w (upd (set_shutdown true true) w).2
  | step_cancel p c w : step env cfg w (submit_cancel env cfg p c w).2
  | step_decide p liq w : step env cfg w (update_orders env cfg p liq w).2
  | step_close p b px q lim ro w : is_Some (product_states (hs w) !! p) ->
      step env cfg w (submit_place env cfg p b px q lim ro w).2.

Lemma step_rtc env cfg {A} (m : M A) :
  (forall w, step env cfg w (m w).2) -> follows (rtc (step env cfg)) m.
Proof. intros Hm w. apply rtc_once, Hm. Qed.

Lemma preserves_step env cfg w w' :
  clock_ok env -> "" ∉ trade_products cfg ->
  fpos (default_lot_size (market_config cfg)) = true ->
  step env cfg w w' -> winv (trade_products cfg) w -> winv (trade_products cfg) w'.
Proof.
  intros Hclk Hnames Hlot Hs Hw.
  destruct Hs as [t w|w|w|w|p c w|p liq w|p b px q lim ro w Hp]; [| |done|..].
  - by apply preserves_handle_task.
  - by apply preserves_now.
  - intros Hn. apply (inv_set_other (trade_products cfg) (clk_i w) (set_shutdown true true)); try done.
    by apply Hw.
  - by apply preserves_submit_cancel.
  - by apply preserves_update_orders.
  - destruct Hp as [s Hp]. apply winv_assume; [auto with frame|]. intros Hn.
    apply (preserves_submit_place env cfg Hclk Hnames Hlot p); [by eapply traded_of_state|done].
Qed.

Definition initial (cfg : HandlerConfig) (w : World) : Prop :=
  OrderHandler_new cfg = Some (hs w) /\ clk_i w = 0%nat.

Definition reachable (env : Env) (cfg : HandlerConfig) (w : World) : Prop :=
  exists w0, initial cfg w0 /\ rtc (step env cfg) w0 w.

Lemma list_to_map_lookup_const {A} (l : list string) (a b : A) p :
  (list_to_map ((fun p => (p, a)) <$> l) : gmap string A) !! p = Some b -> b = a.
Proof.
  intros H%elem_of_list_to_map_2. apply list_elem_of_fmap in H as (?&?&_). naive_solver.
Qed.

Lemma inv_init cfg : inv (trade_products cfg) 0 (Handler_init cfg).
Proof.
  assert (forall p s, product_states (Handler_init cfg) !! p = Some s -> s = ProductState_default)
    as Hs by (intros p s; apply list_to_map_lookup_const).
  assert (forall s c, s = ProductState_default -> knows s c -> False) as Hk.
  { intros s c -> H. unfold knows in H. simpl in H. rewrite !lookup_empty in H.
    destruct H as [H|[H|[[o H]|H]]]; [by destruct H..| |set_solver].
    by rewrite lookup_empty in H. }
  split; simpl.
  - lia.
  - rewrite dom_list_to_map_L. f_equal. rewrite <- list_fmap_compose.
    induction (trade_products cfg) as [|p l IH]; simpl; [done|by f_equal].
  - intros p s c Hp Hc. exfalso. eauto.
  - intros c p. by rewrite lookup_empty.
  - intros o p. by rewrite lookup_empty.
  - intros p s c Hp Hc. exfalso. eapply Hk; [by eapply Hs|by left].
  - intros p s c q Hp Hc. exfalso. eauto.
  - intros p q s t c Hp Hq Hc. exfalso. eauto.
  - intros p s Hp. rewrite (Hs p s Hp). done.
Qed.

(** C1: The bookkeeping invariant holds in every reachable state of the trader, from its
    first task to the end of its stop sequence, whatever the interleaving of market data,
    executions, replies, link changes, decision ticks, cancels and liquidations: cids are
    unique and owned by one product in every table, outstanding orders are routable,
    routing targets exist, and a waiting product has a wait start. *)
Theorem reachable_inv env cfg w :
  clock_ok env -> "" ∉ trade_products cfg ->
  fpos (default_lot_size (market_config cfg)) = true ->
  reachable env cfg w -> Z.of_nat (clk_i w) < 2 ^ 62 ->
  inv (trade_products cfg) (clk_i w) (hs w).
Proof.
  intros Hclk Hnames Hlot (w0&[Hnew Hi]&Hsteps).
  change (winv (trade_products cfg) w).
  assert (winv (trade_products cfg) w0) as H0.
  { intros _. unfold OrderHandler_new in Hnew. destruct (_ || _); [done|].
    injection Hnew as <-. rewrite Hi. apply inv_init. }
  clear Hnew Hi. induction Hsteps as [|w0 w1 w2 Hstep _ IH]; [done|]. apply IH.
  by eapply preserves_step.
Qed.

(** The invariant at a trader that connected, learned its grid, quoted and was answered. *)
Definition sample_env : Env := {|
  clk := fun i => Z.min (1000 + Z.of_nat i) (2 ^ 62); rx := fun _ => None |}.
Definition sample_feed (tasks : list Task) (w : World) : World :=
  foldl (fun w t => (handle_task sample_env SampleTrader.cfg t w).2) w tasks.

Lemma sample_feed_steps tasks w : rtc (step sample_env SampleTrader.cfg) w (sample_feed tasks w).
Proof.
  revert w. induction tasks as [|t l IH]; intros w; [apply rtc_refl|].
  eapply rtc_l; [apply (step_task _ _ t)|apply IH].
Qed.

Definition sample_world : World :=
  sample_feed [SampleTrader.up; SampleTrader.grid; SampleTrader.book; SampleTrader.tick;
               SampleTrader.ack 1001 "A1"] SampleTrader.w0.

Lemma reachable_inv_witness :
  inv (trade_products SampleTrader.cfg) (clk_i sample_world) (hs sample_world) /\
  is_Some (cid_to_product (hs sample_world) !! 1001).
Proof.
  split.
  - apply (reachable_inv sample_env SampleTrader.cfg sample_world).
    + intros i. unfold sample_env. cbn [clk]. lia.
    + set_solver.
    + vm_compute. reflexivity.
    + exists SampleTrader.w0. split; [split; [vm_compute; reflexivity|reflexivity]|].
      apply sample_feed_steps.
    + vm_compute. reflexivity.
  - vm_compute. by eexists.
Defined.
