(* ===== verification/OrderSend.v ===== *)
(** * OrderSend: what the trader sends to the gateway

    The exact effect of [submit_place], and the property every request that leaves the
    trader has, whatever task or decision produced it. *)
From S2P Require Import Prelude Double Messages Strategy OrderState OrderHandler OrderFrame.

(** A request a venue could accept at all: a positive size, a positive price on a limit
    order, and no price on a market order. *)
Definition valid_request (o : Output) : bool :=
  match o with
  | OutPlace i =>
      fpos (opi_qty i) &&
      (if opi_is_limit i then fpos (opi_price i) else bool_decide (opi_price i = fzero))
  | _ => true
  end.

(** Every output a step adds satisfies [P]. *)
Definition sends_only (P : Output -> bool) (w w' : World) : Prop :=
  exists l, out w' = out w ++ l /\ Forall (fun o => P o = true) l.

#[export] Instance sends_only_preorder P : PreOrder (sends_only P).
Proof.
  split.
  - intros w. exists []. by rewrite app_nil_r.
  - intros w1 w2 w3 (l&E2&Hl) (l'&E3&Hl'). exists (l ++ l').
    rewrite E3, E2, app_assoc. split; [done|]. by apply Forall_app.
Qed.

(** ** Reading a product back *)
Lemma state_of_upd_field {A} (g : ProductState -> A) f p q h :
  (forall s, g (f s) = g s) -> g (state_of p (upd_product q f h)) = g (state_of p h).
Proof.
  intros Hf. unfold state_of, upd_product. simpl. rewrite lookup_alter.
  case_decide as E; [|done]. rewrite E. by destruct (product_states h !! p); simpl; rewrite ?Hf.
Qed.

Lemma state_of_upd f p h :
  is_Some (product_states h !! p) -> state_of p (upd_product p f h) = f (state_of p h).
Proof.
  intros [s Hs]. unfold state_of, upd_product. simpl.
  by rewrite lookup_alter, decide_True, Hs by done.
Qed.

Section send.
Context (env : Env) (cfg : HandlerConfig).

(** The waiting marks change nothing else. *)
Lemma mark_waiting_field {A} (g : ProductState -> A) p b c w q :
  (forall s x y t, g (set_waiting x y t s) = g s) ->
  g (state_of q (hs (mark_waiting env p b c w).2)) = g (state_of q (hs w)) /\
  out (mark_waiting env p b c w).2 = out w /\
  last_cid (hs (mark_waiting env p b c w).2) = last_cid (hs w).
Proof.
  intros Hg. unfold mark_waiting. run_w.
  destruct (no_waiting_orders _); run_w; split_and!; try done;
    rewrite !state_of_upd_field by (intros; apply Hg); done.
Qed.

(** [submit_place], in full: nothing when the size is not positive or the snap leaves no
    order; otherwise one request under a fresh cid, recorded as outstanding in the
    units asked for when it is a limit order. *)
Lemma submit_place_spec p b px q lim ro w :
  let s := state_of p (hs w) in
  let w' := (submit_place env cfg p b px q lim ro w).2 in
  match (if q <=? 0 then None else snapped_order cfg s b px q lim) with
  | None => w' = w
  | Some (price, qty) =>
      let cid := last_cid (hs w') in
      out w' = out w ++ [OutPlace {| opi_is_limit := lim; opi_is_bid := b;
        opi_price := price; opi_qty := qty; opi_product := p; opi_cid := cid;
        opi_reduce_only := ro |}] /\
      position_in_lots (state_of p (hs w')) = position_in_lots s /\
      (is_Some (product_states (hs w) !! p) ->
       outstanding_orders (state_of p (hs w')) =
       if lim then <[cid := {| oo_price := px; oo_qty := q; oo_is_bid := b |}]>
                     (outstanding_orders s) else outstanding_orders s)
  end.
Proof.
  cbv zeta. unfold submit_place. run_w. destruct (q <=? 0); [done|].
  destruct (snapped_order cfg (state_of p (hs w)) b px q lim) as [[price qty]|]; [|done].
  unfold reserve_cid. run_w.
  match goal with |- context [mark_waiting _ _ _ ?c _] => set (cid := c) end.
  match goal with |- context [mark_waiting _ _ _ _ ?x] => set (w1 := x) end.
  pose proof (mark_waiting_field outstanding_orders p false cid w1 p ltac:(done)) as (E1&E2&E3).
  pose proof (mark_waiting_field position_in_lots p false cid w1 p ltac:(done)) as (E4&_).
  assert (last_cid (hs w1) = cid) as El by (unfold w1; by destruct lim).
  assert (out w1 = out w) as Eo by (unfold w1; by destruct lim).
  unfold mark_pending_record. cbn [last_cid set_pending product_states].
  rewrite E2, E3, El, Eo. split; [done|].
  change (state_of p (set_pending ?v ?h)) with (state_of p h).
  rewrite E1, E4. unfold w1. split.
  - destruct lim; run_w; [|done]. by rewrite (state_of_upd_field position_in_lots).
  - intros Hp. destruct lim; run_w; [|done]. by rewrite state_of_upd.
Qed.

Lemma snapped_order_valid s b px q lim price qty :
  snapped_order cfg s b px q lim = Some (price, qty) ->
  fpos qty = true /\ (if lim then fpos price else bool_decide (price = fzero)) = true.
Proof.
  unfold snapped_order, snap_to_product_grid, snap_qty_to_product_grid. cbv zeta.
  destruct lim; simpl.
  - destruct (fpos _ && fpos _) eqn:E; [|done]. apply andb_true_iff in E as [E1 E2].
    by intros [= <- <-].
  - destruct (fpos _) eqn:E; [|done]. intros [= <- <-]. by rewrite bool_decide_eq_true_2.
Qed.

Abbreviation valid := (follows (sends_only valid_request)).

Lemma valid_upd f : valid (upd f).
Proof. intros w. exists []. by rewrite app_nil_r. Qed.
Lemma valid_get : valid get.
Proof. by intros w. Qed.
Lemma valid_now : valid (now env).
Proof. intros w. exists []. by rewrite app_nil_r. Qed.
Lemma valid_dequeue : valid (dequeue env).
Proof. intros w. exists []. by rewrite app_nil_r. Qed.
Lemma valid_emit o : valid_request o = true -> valid (emit o).
Proof. intros Ho w. exists [o]. split; [done|]. by constructor. Qed.

Lemma valid_submit_place p b px q lim ro : valid (submit_place env cfg p b px q lim ro).
Proof.
  intros w. pose proof (submit_place_spec p b px q lim ro w) as H. cbv zeta in H.
  destruct (q <=? 0); [by rewrite H|].
  destruct (snapped_order _ _ _ _ _ _) as [[price qty]|] eqn:E; [|by rewrite H].
  destruct H as [Ho _]. eexists. split; [exact Ho|]. constructor; [|done]. simpl.
  apply snapped_order_valid in E as [-> E]. by rewrite E.
Qed.
End send.

Create HintDb valid.
#[export] Hint Resolve valid_submit_place : valid.

Ltac valid_step :=
  first
  [ assumption
  | apply valid_upd | apply valid_get | apply valid_now | apply valid_dequeue
  | apply valid_emit; reflexivity | apply follows_ret; apply _ | solve [auto with valid]
  | apply follows_bind; [apply _| |intros ?]
  | apply follows_when; [apply _|] | apply follows_for_each; [apply _|intros ? ?]
  | match goal with |- follows _ (match ?x with _ => _ end) => destruct x end ].
Ltac validly := cbv zeta; repeat valid_step.

Section valid_steps.
Context (env : Env) (cfg : HandlerConfig).
Abbreviation valid := (follows (sends_only valid_request)).

Lemma valid_log_order_record p c o t s ts m : valid (log_order_record env cfg p c o t s ts m).
Proof. unfold log_order_record. validly. Qed.
Hint Resolve valid_log_order_record : valid.

Lemma valid_submit_cancel p c : valid (submit_cancel env cfg p c).
Proof. unfold submit_cancel, mark_waiting. validly. Qed.
Hint Resolve valid_submit_cancel : valid.

Lemma valid_update_orders p l : valid (update_orders env cfg p l).
Proof.
  unfold update_orders, decide_and_send, waiting_gate, record_timed_out, build_price_info,
    log_order_decision, send_decision. validly.
Qed.
Hint Resolve valid_update_orders : valid.

Lemma valid_on_execution p d : valid (on_execution env cfg p d).
Proof. unfold on_execution, on_accept, on_fill, adopt_order, reserve_cid. validly. Qed.

Lemma valid_on_order_response r : valid (on_order_response env cfg r).
Proof. unfold on_order_response. validly. Qed.
Hint Resolve valid_on_execution valid_on_order_response : valid.

(** C5: Every request a task makes the trader send is one a venue could accept: the size
    is positive after snapping, a limit price is positive after snapping, and a market
    order carries no price. *)
Theorem requests_valid t w :
  sends_only valid_request w (handle_task env cfg t w).2.
Proof.
  revert w. change (valid (handle_task env cfg t)).
  destruct t; simpl; validly;
    unfold on_listener_status, on_pricer_status, process_market_data, on_orderbook,
      on_position, on_product_info, on_fair_price; validly.
Qed.
End valid_steps.
