(* ===== verification/Shutdown.v ===== *)
(** * Shutdown: the trader's bounded stop sequence

    [OrderHandler::shutdown] and what it is built from: the pump, the cancel rounds, the
    passive flatten and the market flatten.  The C++ [while] loops run on fuel and say
    whether they ended by themselves; the clock makes a fuel that is always enough
    explicit. *)
From S2P Require Import Prelude Double Messages Strategy OrderState OrderHandler OrderFrame OrderInvariant OrderSend.

Section shutdown.
  Context (env : Env) (cfg : HandlerConfig).

(** ** Status predicates *)
Definition no_orders_outstanding (h : Handler) : bool :=
  forallb (fun ps => bool_decide (outstanding_orders ps.2 = ∅)) (skvs (product_states h)).

(** Is there an order a cancel could be sent for right now? *)
Definition cancellable (s : ProductState) (cid : Z) : bool :=
  negb (bool_decide (cid ∈ response_waiting_cancel_orders s)) &&
  bool_decide (is_Some (cid_to_order_no s !! cid)).
Definition any_cancellable (h : Handler) : bool :=
  existsb (fun ps => existsb (fun co => cancellable ps.2 co.1) (kvs (outstanding_orders ps.2)))
    (skvs (product_states h)).

Definition all_flat (h : Handler) : bool :=
  forallb (fun ps => position_in_lots ps.2 =? 0) (skvs (product_states h)).

(** ** The pump *)

(** [while (!done()) { ... }] until [done] or the deadline; the result is [false] only
    when the fuel ran out. *)
Fixpoint pump_until (fuel : nat) (done : Handler -> bool) (deadline_ns : Z) : M bool :=
  match fuel with
  | O => mret false
  | S fuel =>
      h ← get;
      if done h then mret true
      else
        t ← now env;
        if deadline_ns - t <=? 0 then mret true
        else
          task ← dequeue env;
          match task with
          | Some t => handle_task env cfg t
          | None => mret tt
          end ;;
          pump_until fuel done deadline_ns
  end.

(** ** Cancelling everything *)

(** One product's share of a cancel round: the cids are copied first. *)
Definition cancel_product (product : string) : M unit :=
  h ← get;
  let cids := (kvs (outstanding_orders (state_of product h))).*1 in
  for_each cids (fun cid =>
    h ← get;
    let s := state_of product h in
    if bool_decide (cid ∈ response_waiting_cancel_orders s) then mret tt
    else if bool_decide (cid_to_order_no s !! cid = None) then mret tt
    else submit_cancel env cfg product cid).

Definition cancel_round : M unit :=
  h ← get;
  for_each (skvs (product_states h)).*1 cancel_product.

Fixpoint cancel_all_orders (fuel : nat) (deadline_ns : Z) : M bool :=
  match fuel with
  | O => mret false
  | S fuel' =>
      h ← get;
      if no_orders_outstanding h then mret true
      else
        t ← now env;
        if t <? deadline_ns then
          cancel_round ;;
          t ← now env;
          ok ← pump_until fuel (fun h => no_orders_outstanding h || any_cancellable h)
                 (Z.min (t + 200 * 1000000) deadline_ns);
          if (ok : bool) then cancel_all_orders fuel' deadline_ns else mret false
        else mret true
  end.

(** ** Getting flat *)

Definition submit_market_flatten (product : string) : M unit :=
  h ← get;
  let position := position_in_lots (state_of product h) in
  if position =? 0 then mret tt
  else
    submit_place env cfg product (position <? 0) 0
      (if 0 <? position then position else wrap_s 32 (- position)) false
      (shutdown_reduce_only cfg).

(** The passive stage: liquidation decisions until flat or out of time. *)
Fixpoint passive_flatten (fuel : nat) (deadline_ns : Z) : M bool :=
  match fuel with
  | O => mret false
  | S fuel' =>
      h ← get;
      if all_flat h then mret true
      else
        t ← now env;
        if t <? deadline_ns then
          for_each (trade_products cfg) (fun product => update_orders env cfg product true) ;;
          t ← now env;
          ok ← pump_until fuel all_flat (Z.min (t + order_update_interval_ns cfg) deadline_ns);
          if (ok : bool) then passive_flatten fuel' deadline_ns else mret false
        else mret true
  end.

Definition flatten_positions (fuel : nat) (deadline_ns : Z) : M bool :=
  h ← get;
  if all_flat h then mret true
  else
    ok ← passive_flatten fuel deadline_ns;
    h ← get;
    if negb ok then mret false
    else if all_flat h then mret true
    else if negb (shutdown_market_flatten cfg) then mret true
    else
      t ← now env;
      ok ← cancel_all_orders fuel (t + shutdown_cancel_timeout_ns cfg);
      if negb ok then mret false
      else
        h ← get;
        for_each (skvs (product_states h)).*1 submit_market_flatten ;;
        t ← now env;
        pump_until fuel all_flat (t + shutdown_flatten_timeout_ns cfg).

(** ** The sequence *)
Definition shutdown (fuel : nat) : M bool :=
  h ← get;
  if shutdown_done h then mret true
  else
    upd (set_shutdown true true) ;;
    t ← now env;
    ok ← cancel_all_orders fuel (t + shutdown_cancel_timeout_ns cfg);
    if negb ok then mret false
    else if negb (flatten_on_shutdown cfg) then mret true
    else
      t ← now env;
      ok ← flatten_positions fuel (t + shutdown_flatten_timeout_ns cfg);
      if negb ok then mret false
      else
        h ← get;
        if negb (no_orders_outstanding h) then
          t ← now env;
          cancel_all_orders fuel (t + shutdown_cancel_timeout_ns cfg)
        else mret true.
End shutdown.

(** ** Frame *)
Section frames.
Context (env : Env) (cfg : HandlerConfig).

Lemma frame_pump_until fuel dn d : follows advances (pump_until env cfg fuel dn d).
Proof. induction fuel as [|fuel IH]; cbn [pump_until]; follow. Qed.
Hint Resolve frame_pump_until : frame.

Lemma frame_cancel_round : follows advances (cancel_round env cfg).
Proof. unfold cancel_round, cancel_product. follow. Qed.
Hint Resolve frame_cancel_round : frame.

Lemma frame_cancel_all fuel d : follows advances (cancel_all_orders env cfg fuel d).
Proof. revert d. induction fuel as [|fuel IH]; intros d; cbn [cancel_all_orders]; follow. Qed.
Hint Resolve frame_cancel_all : frame.

Lemma frame_submit_market_flatten p : follows advances (submit_market_flatten env cfg p).
Proof. unfold submit_market_flatten. follow. Qed.
Hint Resolve frame_submit_market_flatten : frame.

Lemma frame_passive_flatten fuel d : follows advances (passive_flatten env cfg fuel d).
Proof. revert d. induction fuel as [|fuel IH]; intros d; cbn [passive_flatten]; follow. Qed.
Hint Resolve frame_passive_flatten : frame.

Lemma frame_flatten fuel d : follows advances (flatten_positions env cfg fuel d).
Proof. unfold flatten_positions. follow. Qed.
End frames.
#[export] Hint Resolve frame_pump_until frame_cancel_round frame_cancel_all
  frame_submit_market_flatten frame_passive_flatten frame_flatten : frame.

(** ** Termination *)

(** The clock moves forward by at least a nanosecond between readings. *)
Definition clock_strict (env : Env) : Prop := forall i, clk env i + 1 <= clk env (S i).

Section termination.
Context (env : Env) (cfg : HandlerConfig).
Hypothesis Hclk : clock_strict env.

Lemma clock_le i j : (i <= j)%nat -> clk env i + Z.of_nat (j - i) <= clk env j.
Proof.
  induction 1 as [|j Hle IH]; [rewrite Nat.sub_diag; lia|].
  pose proof (Hclk j). rewrite Nat.sub_succ_l by done. lia.
Qed.

(** The time left to [deadline] fits in the fuel. *)
Definition enough (fuel : nat) (deadline : Z) (w : World) : Prop :=
  deadline - clk env (clk_i w) < Z.of_nat fuel.

Lemma enough_later fuel d w w' :
  enough fuel d w -> (clk_i w <= clk_i w')%nat -> enough fuel d w'.
Proof. unfold enough. intros H Hle. pose proof (clock_le _ _ Hle). lia. Qed.

Lemma enough_step fuel d w w' :
  enough (S fuel) d w -> (clk_i w < clk_i w')%nat -> enough fuel d w'.
Proof. unfold enough. intros H Hle. pose proof (clock_le (clk_i w) (clk_i w')). lia. Qed.

Lemma clk_handle_task t w : (clk_i w <= clk_i (handle_task env cfg t w).2)%nat.
Proof. by destruct (frame_handle_task env cfg t w). Qed.

Lemma pump_until_total fuel dn d w :
  enough fuel d w -> (0 < fuel)%nat ->
  (pump_until env cfg fuel dn d w).1 = true /\
  (clk_i w <= clk_i (pump_until env cfg fuel dn d w).2)%nat.
Proof.
  revert w. induction fuel as [|fuel IH]; intros w He Hf; [lia|].
  cbn [pump_until]. run_w.
  destruct (dn (hs w)); [by split|]. unfold enough in He.
  destruct (d - clk env (clk_i w) <=? 0) eqn:E; zify_bools; [split; simpl; auto|].
  match goal with |- context [pump_until _ _ _ _ _ ?x] => set (w2 := x) end.
  assert (S (clk_i w) <= clk_i w2)%nat as Hle.
  { unfold w2. simpl. destruct (rx env (rx_i w)) as [t|]; [|simpl; lia].
    etrans; [|apply clk_handle_task]. simpl; lia. } pose proof (clock_le (clk_i w) (clk_i w2)).
  destruct (IH w2) as [-> ?]; [unfold enough; lia|lia|].
  split; [done|lia].
Qed.

Lemma cancel_all_total fuel d w :
  enough fuel d w -> (0 < fuel)%nat ->
  (cancel_all_orders env cfg fuel d w).1 = true /\
  (clk_i w <= clk_i (cancel_all_orders env cfg fuel d w).2)%nat.
Proof.
  revert w. induction fuel as [|fuel IH]; intros w He Hf; [lia|].
  cbn [cancel_all_orders]. run_w.
  destruct (no_orders_outstanding (hs w)); [by split|].
  destruct (clk env (clk_i w) <? d) eqn:E; zify_bools; [|split; simpl; auto].
  match goal with |- context [cancel_round _ _ ?x] => set (w1 := x) end.
  destruct (frame_cancel_round env cfg w1) as (Hle&_&_).
  set (w2 := (cancel_round env cfg w1).2) in *. unfold w1 in Hle. simpl in Hle.
  match goal with |- context [pump_until _ _ (S fuel) ?x ?y ?z] =>
    set (dn := x); set (dl := y); set (w3 := z) end.
  destruct (pump_until_total (S fuel) dn dl w3) as [-> Hle2].
  { apply (enough_later _ _ w); [unfold dl, enough in *; lia|unfold w3; simpl; lia]. }
  { lia. }
  set (w4 := (pump_until env cfg (S fuel) dn dl w3).2) in *. unfold w3 in Hle2. simpl in Hle2.
  unfold enough in He. pose proof (clock_le (clk_i w) (clk_i w4)).
  destruct (IH w4) as [-> ?]; [unfold enough; lia|lia|]. split; [done|lia].
Qed.

Lemma passive_flatten_total fuel d w :
  enough fuel d w -> (0 < fuel)%nat ->
  (passive_flatten env cfg fuel d w).1 = true /\
  (clk_i w <= clk_i (passive_flatten env cfg fuel d w).2)%nat.
Proof.
  revert w. induction fuel as [|fuel IH]; intros w He Hf; [lia|].
  cbn [passive_flatten]. run_w.
  destruct (all_flat (hs w)); [by split|].
  destruct (clk env (clk_i w) <? d) eqn:E; zify_bools; [|split; simpl; auto].
  match goal with |- context [for_each _ _ ?x] => set (w1 := x) end.
  assert (follows advances (for_each (trade_products cfg)
    (fun product => update_orders env cfg product true))) as Hfr by follow.
  destruct (Hfr w1) as (Hle&_&_).
  set (w2 := (for_each _ _ w1).2) in *. unfold w1 in Hle. simpl in Hle.
  match goal with |- context [pump_until _ _ (S fuel) _ ?y ?z] =>
    set (dl := y); set (w3 := z) end.
  destruct (pump_until_total (S fuel) all_flat dl w3) as [-> Hle2].
  { apply (enough_later _ _ w); [unfold dl, enough in *; lia|unfold w3; simpl; lia]. }
  { lia. }
  set (w4 := (pump_until env cfg (S fuel) all_flat dl w3).2) in *. unfold w3 in Hle2. simpl in Hle2.
  unfold enough in He. pose proof (clock_le (clk_i w) (clk_i w4)).
  destruct (IH w4) as [-> ?]; [unfold enough; lia|lia|]. split; [done|lia].
Qed.

(** A deadline set from a fresh reading is within reach. *)
Lemma enough_fresh fuel T w :
  T <= Z.of_nat fuel ->
  enough fuel (clk env (clk_i w) + T)
    {| hs := hs w; clk_i := S (clk_i w); rx_i := rx_i w; out := out w |}.
Proof. intros HT. unfold enough. simpl. pose proof (Hclk (clk_i w)). lia. Qed.

Lemma flatten_total fuel d w :
  enough fuel d w -> (0 < fuel)%nat ->
  shutdown_cancel_timeout_ns cfg <= Z.of_nat fuel ->
  shutdown_flatten_timeout_ns cfg <= Z.of_nat fuel ->
  (flatten_positions env cfg fuel d w).1 = true.
Proof.
  intros He Hf Hc Hfl. unfold flatten_positions. run_w. destruct (all_flat (hs w)); [done|].
  destruct (passive_flatten_total fuel d w He Hf) as [-> _]. cbn [negb].
  set (w1 := (passive_flatten env cfg fuel d w).2).
  destruct (all_flat (hs w1)); [done|]. destruct (shutdown_market_flatten cfg); [|done].
  run_w.
  edestruct cancel_all_total as [-> _]; [by apply enough_fresh|done|].
  run_w.
  apply pump_until_total; [by apply (enough_fresh _ _ (for_each _ _ _).2)|done].
Qed.
End termination.

(** The sequence ends by itself. *)
Lemma shutdown_total env cfg fuel w :
  clock_strict env ->
  shutdown_cancel_timeout_ns cfg <= Z.of_nat fuel ->
  shutdown_flatten_timeout_ns cfg <= Z.of_nat fuel ->
  (0 < fuel)%nat ->
  (shutdown env cfg fuel w).1 = true.
Proof.
  intros Hclk Hc Hfl Hf. unfold shutdown. run_w. destruct (shutdown_done (hs w)); [done|].
  run_w.
  edestruct cancel_all_total as [-> _]; [done|by apply (enough_fresh _ Hclk _ _ (set_hs _ w))|done|].
  cbn [negb]. destruct (flatten_on_shutdown cfg); [|done]. run_w.
  rewrite flatten_total; [|done|by apply (enough_fresh _ Hclk _ _ (cancel_all_orders _ _ _ _ _).2)|done..].
  cbn [negb]. destruct (no_orders_outstanding _); [done|]. run_w.
  apply cancel_all_total; [done|by apply (enough_fresh _ Hclk _ _ (flatten_positions _ _ _ _ _).2)|done].
Qed.

(** ** What the sequence can send *)

Definition is_place_output (o : Output) : bool :=
  match o with OutPlace _ => true | _ => false end.

(** Once shutting down, a step keeps it so and sends no new order. *)
Definition quiet (w w' : World) : Prop :=
  shutting_down (hs w) = true ->
  shutting_down (hs w') = true /\
  exists l, out w' = out w ++ l /\ Forall (fun o => is_place_output o = false) l.

#[export] Instance quiet_preorder : PreOrder quiet.
Proof.
  split.
  - intros w Hw. split; [done|]. exists []. by rewrite app_nil_r.
  - intros w1 w2 w3 H12 H23 H1. destruct (H12 H1) as (H2&l&E2&Hl).
    destruct (H23 H2) as (H3&l'&E3&Hl'). split; [done|]. exists (l ++ l').
    rewrite E3, E2, app_assoc. split; [done|]. by apply Forall_app.
Qed.

Section quiet.
Context (env : Env) (cfg : HandlerConfig).

Lemma quiet_upd f :
  (forall h, shutting_down (f h) = shutting_down h) -> follows quiet (upd f).
Proof.
  intros Hf w Hw. simpl. split; [by rewrite Hf|]. exists []. by rewrite app_nil_r.
Qed.
Lemma quiet_get : follows quiet get.
Proof. by intros w. Qed.
Lemma quiet_now : follows quiet (now env).
Proof. intros w Hw. split; [done|]. exists []. by rewrite app_nil_r. Qed.
Lemma quiet_dequeue : follows quiet (dequeue env).
Proof. intros w Hw. split; [done|]. exists []. by rewrite app_nil_r. Qed.
Lemma quiet_emit o : is_place_output o = false -> follows quiet (emit o).
Proof. intros Ho w Hw. split; [done|]. exists [o]. split; [done|]. by constructor. Qed.

Lemma shutting_down_forget p c h : shutting_down (forget_order p c h) = shutting_down h.
Proof. unfold forget_order. by destruct (cid_to_order_no _ !! c). Qed.
Lemma shutting_down_bind p c o h : shutting_down (bind_order_no p c o h) = shutting_down h.
Proof. unfold bind_order_no. by case_decide. Qed.
Lemma shutting_down_touch p h : shutting_down (touch_product p h) = shutting_down h.
Proof. unfold touch_product. by destruct (product_states h !! p). Qed.
End quiet.

Create HintDb quiet.
#[export] Hint Resolve shutting_down_forget shutting_down_bind shutting_down_touch : quiet.
#[export] Hint Extern 1 (shutting_down _ = shutting_down _) => reflexivity : quiet.

Ltac quiet_step :=
  first
  [ assumption
  | apply quiet_upd; intros; solve [auto with quiet] | apply quiet_get | apply quiet_now
  | apply quiet_dequeue | apply quiet_emit; reflexivity
  | apply follows_ret; apply _ | solve [auto with quiet]
  | apply follows_bind; [apply _| |intros ?]
  | apply follows_when; [apply _|] | apply follows_for_each; [apply _|intros ? ?]
  | match goal with |- follows _ (match ?x with _ => _ end) => destruct x end ].
Ltac quietly := cbv zeta; repeat quiet_step.

Section quiet_steps.
Context (env : Env) (cfg : HandlerConfig).

Lemma quiet_log_order_record p c o t s ts m :
  follows quiet (log_order_record env cfg p c o t s ts m).
Proof. unfold log_order_record. quietly. Qed.
Hint Resolve quiet_log_order_record : quiet.

Lemma quiet_submit_cancel p c : follows quiet (submit_cancel env cfg p c).
Proof. unfold submit_cancel, mark_waiting. quietly. Qed.
Hint Resolve quiet_submit_cancel : quiet.

Lemma quiet_on_execution p d : follows quiet (on_execution env cfg p d).
Proof. unfold on_execution, on_accept, on_fill, adopt_order, reserve_cid. quietly. Qed.

Lemma quiet_on_order_response r : follows quiet (on_order_response env cfg r).
Proof. unfold on_order_response. quietly. Qed.

(** A decision tick already queued when the stop begins does nothing. *)
Lemma quiet_update_orders p : follows quiet (update_orders env cfg p false).
Proof.
  intros w Hw. unfold update_orders, may_decide. run_w. rewrite Hw. simpl.
  split; [done|]. exists []. by rewrite app_nil_r.
Qed.
Hint Resolve quiet_on_execution quiet_on_order_response quiet_update_orders : quiet.

Lemma quiet_handle_task t : follows quiet (handle_task env cfg t).
Proof.
  destruct t; simpl; quietly;
    unfold on_listener_status, on_pricer_status, process_market_data, on_orderbook,
      on_position, on_product_info, on_fair_price; quietly.
Qed.
Hint Resolve quiet_handle_task : quiet.

Lemma quiet_pump_until fuel dn d : follows quiet (pump_until env cfg fuel dn d).
Proof. induction fuel as [|fuel IH]; cbn [pump_until]; quietly. Qed.
Hint Resolve quiet_pump_until : quiet.

Lemma quiet_cancel_all fuel d : follows quiet (cancel_all_orders env cfg fuel d).
Proof.
  revert d. induction fuel as [|fuel IH]; intros d; cbn [cancel_all_orders]; quietly;
    unfold cancel_round, cancel_product; quietly.
Qed.

(** *** What a cancel round asks for *)
Abbreviation waiting_cancel p w := (response_waiting_cancel_orders (state_of p (hs w))).

(** Sending cancels: the orders and their numbers stay, and whatever is newly awaited has been
    asked for. *)
Definition cancels_only (w w' : World) : Prop :=
  (forall p, outstanding_orders (state_of p (hs w')) = outstanding_orders (state_of p (hs w)) /\
     cid_to_order_no (state_of p (hs w')) = cid_to_order_no (state_of p (hs w)) /\
     waiting_cancel p w ⊆ waiting_cancel p w') /\
  exists l, out w' = out w ++ l /\
    forall p c, c ∈ waiting_cancel p w' -> c ∈ waiting_cancel p w \/
      exists o, cid_to_order_no (state_of p (hs w)) !! c = Some o /\ OutCancel (cancel_info o p c) ∈ l.

#[local] Instance cancels_only_preorder : PreOrder cancels_only.
Proof.
  split.
  - intros w. split; [done|]. exists []. rewrite app_nil_r. auto.
  - intros w1 w2 w3 (H12&l&E2&Hl) (H23&l'&E3&Hl'). split.
    + intros p. destruct (H23 p) as (->&->&?), (H12 p) as (->&->&?). split_and!; [done|done|by etrans].
    + exists (l ++ l'). rewrite E3, E2, app_assoc. split; [done|]. intros p c Hc.
      destruct (H12 p) as (_&Ecid&_). destruct (Hl' p c Hc) as [Hc2|(o&Ho&Hin)].
      * destruct (Hl p c Hc2) as [?|(o&?&?)]; [by left|right]. exists o. set_solver.
      * right. exists o. rewrite <- Ecid. set_solver.
Qed.

Lemma mark_waiting_cancel p c w q : is_Some (product_states (hs w) !! p) ->
  waiting_cancel q (mark_waiting env p true c w).2 =
  if decide (q = p) then {[c]} ∪ waiting_cancel p w else waiting_cancel q w.
Proof.
  intros [s Hs]. unfold mark_waiting. run_w. unfold state_of, upd_product.
  destruct (no_waiting_orders _); run_w; simpl; rewrite ?lookup_alter;
    destruct (decide (q = p)) as [->|Hq]; rewrite ?(decide_True (P := p = p)), ?(decide_False (P := p = q)), ?Hs by done;
    try done; rewrite ?lookup_alter; by rewrite ?decide_True, ?Hs by done.
Qed.

(** One cancel: recorded, awaited and sent, if the order has its number. *)
Lemma submit_cancel_asks p c w :
  cancels_only w (submit_cancel env cfg p c w).2 /\
  (is_Some (cid_to_order_no (state_of p (hs w)) !! c) -> c ∈ waiting_cancel p (submit_cancel env cfg p c w).2).
Proof.
  unfold submit_cancel. run_w. destruct (cid_to_order_no _ !! c) as [o|] eqn:Eo; [|split; [done|by intros []]].
  assert (is_Some (product_states (hs w) !! p)) as Hp.
  { unfold state_of in Eo. destruct (product_states (hs w) !! p); [by eexists|done]. }
  match goal with |- context [mark_waiting env p true c ?x] => set (w1 := x) end.
  assert (product_states (hs w1) = product_states (hs w) /\ out w1 = out w) as [Eps Eout].
  { unfold w1. by destruct (outstanding_orders _ !! c). }
  assert (forall q, state_of q (hs w1) = state_of q (hs w)) as Est by (intros; unfold state_of; by rewrite Eps).
  pose proof (fun q => mark_waiting_cancel p c w1 q ltac:(by rewrite Eps)) as Hw.
  pose proof (fun A g q H => mark_waiting_field (A := A) env g p true c w1 q H) as Hf.
  run_w. set (w2 := (mark_waiting env p true c w1).2) in *. unfold cancels_only. cbn [hs out]. split.
  - split.
    + intros q. rewrite (proj1 (Hf _ outstanding_orders q ltac:(done))),
        (proj1 (Hf _ cid_to_order_no q ltac:(done))), Hw, !Est. split_and!; try done.
      case_decide; [subst; apply union_subseteq_r|done].
    + exists [OutCancel (cancel_info o p c)].
      rewrite (proj1 (proj2 (Hf _ outstanding_orders p ltac:(done)))), Eout. split; [done|].
      intros q c'. rewrite Hw, !Est. case_decide; [subst|by left].
      intros [->%elem_of_singleton|?]%elem_of_union; [right|by left]. exists o.
      split; [done|]. by apply list_elem_of_singleton.
  - intros _. rewrite Hw, decide_True by done. by apply elem_of_union_l, elem_of_singleton.
Qed.

(** After a round every working order with a number has its cancel awaited. *)
Lemma cancel_round_covers w p c :
  is_Some (outstanding_orders (state_of p (hs w)) !! c) ->
  is_Some (cid_to_order_no (state_of p (hs w)) !! c) ->
  cancels_only w (cancel_round env cfg w).2 /\ c ∈ waiting_cancel p (cancel_round env cfg w).2.
Proof.
  set (Q c p w := cid_to_order_no (state_of p (hs w)) !! c = None \/ c ∈ waiting_cancel p w).
  assert (forall c p w w', cancels_only w w' -> Q c p w -> Q c p w') as HQ.
  { intros c' p' w1 w2 [H _]. destruct (H p') as (_&E&?). unfold Q. rewrite E. set_solver. }
  set (body p cid := (h ← get;
    let s := state_of p h in
    if bool_decide (cid ∈ response_waiting_cancel_orders s) then mret tt
    else if bool_decide (cid_to_order_no s !! cid = None) then mret tt
    else submit_cancel env cfg p cid) : M unit).
  assert (forall p c w, cancels_only w (body p c w).2 /\ Q c p (body p c w).2) as Hbody.
  { intros p' c' w'. unfold body, Q. run_w. case_bool_decide; [split; [done|by right]|].
    case_bool_decide as E; [split; [done|by left]|].
    destruct (submit_cancel_asks p' c' w') as [? Hin]. split; [done|right].
    by apply Hin, not_eq_None_Some. }
  assert (forall p w, cancels_only w (cancel_product env cfg p w).2 /\
    forall c, is_Some (outstanding_orders (state_of p (hs w)) !! c) -> Q c p (cancel_product env cfg p w).2) as Hprod.
  { intros p' w'. unfold cancel_product. run_w. split.
    - apply (follows_for_each cancels_only). intros c' _ w1. by apply Hbody.
    - intros c' Hc'. apply (for_each_achieves cancels_only (fun c => Q c p') _ (body p')).
      + intros c1 w1. by apply Hbody.
      + intros c1 w1 w2. by apply HQ.
      + intros c1 w1. by apply Hbody.
      + by apply elem_of_kvs_keys. }
  intros Ho Hn. unfold cancel_round. run_w.
  assert (cancels_only w (for_each (skvs (product_states (hs w))).*1 (cancel_product env cfg) w).2) as Hco.
  { apply (follows_for_each cancels_only). intros p' _ w1. by apply Hprod. }
  split; [done|].
  assert (Q c p (for_each (skvs (product_states (hs w))).*1 (cancel_product env cfg) w).2) as [H|H]; [|..|done].
  - apply (for_each_achieves cancels_only
      (fun p w => is_Some (outstanding_orders (state_of p (hs w)) !! c) -> Q c p w) _ (cancel_product env cfg)).
    + intros p' w1. by apply Hprod.
    + intros p' w1 w2 H12 H1 H2. destruct (proj1 H12 p') as (E&_&_). rewrite E in H2. eapply HQ; eauto.
    + intros p' w1 H1. destruct (Hprod p' w1) as [[H _] HQ1]. destruct (H p') as (E&_&_). rewrite E in H1.
      by apply HQ1.
    + apply (elem_of_keys string_le). unfold state_of in Ho. destruct (product_states (hs w) !! p); [by eexists|].
      simpl in Ho. rewrite lookup_empty in Ho. by destruct Ho.
    + destruct (proj1 Hco p) as (E&_&_). by rewrite E.
  - destruct (proj1 Hco p) as (_&E&_). rewrite E in H. rewrite H in Hn. by destruct Hn.
Qed.

(** *** How a cancel phase ends *)

(** The order [c] is working at the venue as [o], and no cancel of it is awaited. *)
Definition cancel_due (w : World) (p : string) (c : Z) (o : string) : Prop :=
  is_Some (outstanding_orders (state_of p (hs w)) !! c) /\
  cid_to_order_no (state_of p (hs w)) !! c = Some o /\ c ∉ waiting_cancel p w.

(** A phase that ends with orders outstanding has read its own deadline last; and unless it
    began past it, it has asked for every cancel that was due when it began. *)
Lemma cancel_all_outcome fuel d w :
  let w' := (cancel_all_orders env cfg fuel d w).2 in
  (cancel_all_orders env cfg fuel d w).1 = true ->
  no_orders_outstanding (hs w') = true \/
  ((clk_i w < clk_i w')%nat /\ d <= clk env (pred (clk_i w')) /\
   (clk env (clk_i w) < d -> forall p c o, cancel_due w p c o ->
    exists l, out w' = out w ++ l /\ OutCancel (cancel_info o p c) ∈ l)).
Proof.
  cbv zeta. revert w. induction fuel as [|fuel IH]; intros w; cbn [cancel_all_orders]; [done|].
  run_w. destruct (no_orders_outstanding (hs w)) eqn:Eno; [by left|].
  destruct (clk env (clk_i w) <? d) eqn:E; zify_bools.
  2: { intros _. right. simpl. split_and!; [lia|done|lia]. }
  match goal with |- context [cancel_round _ _ ?x] => set (w1 := x) end.
  destruct (frame_cancel_round env cfg w1) as (Hle&_&_).
  pose proof (cancel_round_covers w1) as Hcov. set (w2 := (cancel_round env cfg w1).2) in *.
  unfold w1 in Hle. simpl in Hle.
  match goal with |- context [pump_until _ _ (S fuel) ?x ?y ?z] =>
    set (dn := x); set (dl := y); set (w3 := z) end.
  destruct (frame_pump_until env cfg (S fuel) dn dl w3) as (Hle2&_&Hout3).
  destruct (pump_until env cfg (S fuel) dn dl w3) as [ok w4]. cbn [fst snd] in *.
  unfold w3 in Hle2. simpl in Hle2. destruct ok; [|done].
  intros Hok. destruct (frame_cancel_all env cfg fuel d w4) as (_&_&Hout4).
  destruct (IH w4 Hok) as [?|(Hlt&Hd&_)]; [by left|right].
  split_and!; [lia|done|]. intros _ p c o (Ho&Hn&Hnw).
  destruct (Hcov p c Ho ltac:(by eexists)) as [(_&l&El&Hl) Hin].
  destruct (Hl p c Hin) as [?|(o'&Ho'&Hin')]; [done|].
  assert (o' = o) as -> by (cbn in Ho'; congruence).
  destruct Hout3 as [l3 E3], Hout4 as [l4 E4]. exists (l ++ l3 ++ l4).
  cbn [out w3] in E3. rewrite E4, E3, El, <- !app_assoc. split; [done|set_solver].
Qed.
End quiet_steps.

(** ** The sequence as steps of the trader's life *)
Section steps.
Context (env : Env) (cfg : HandlerConfig).
Abbreviation lives := (follows (rtc (step env cfg))).

Lemma lives_get : lives get.
Proof. intros w. apply rtc_refl. Qed.
Lemma lives_now : lives (now env).
Proof. apply step_rtc, step_tick. Qed.
Lemma lives_dequeue : lives (dequeue env).
Proof. apply step_rtc, step_dequeue. Qed.
Lemma lives_handle_task t : lives (handle_task env cfg t).
Proof. apply step_rtc, step_task. Qed.
Lemma lives_submit_cancel p c : lives (submit_cancel env cfg p c).
Proof. apply step_rtc, step_cancel. Qed.
Lemma lives_update_orders p liq : lives (update_orders env cfg p liq).
Proof. apply step_rtc, step_decide. Qed.
Lemma lives_stop : lives (upd (set_shutdown true true)).
Proof. apply step_rtc, step_stop. Qed.
End steps.

Create HintDb lives.
#[export] Hint Resolve lives_get lives_now lives_dequeue lives_handle_task lives_submit_cancel
  lives_update_orders lives_stop : lives.
Ltac live_step :=
  first
  [ assumption
  | apply follows_ret; apply _ | solve [auto with lives]
  | apply follows_bind; [apply _| |intros ?]
  | apply follows_when; [apply _|] | apply follows_for_each; [apply _|intros ? ?]
  | match goal with |- follows _ (match ?x with _ => _ end) => destruct x end ].
Ltac live := cbv zeta; repeat live_step.

Section shutdown_steps.
Context (env : Env) (cfg : HandlerConfig).
Abbreviation lives := (follows (rtc (step env cfg))).

Lemma lives_pump_until fuel dn d : lives (pump_until env cfg fuel dn d).
Proof. induction fuel as [|fuel IH]; cbn [pump_until]; live. Qed.
Hint Resolve lives_pump_until : lives.

Lemma lives_cancel_all fuel d : lives (cancel_all_orders env cfg fuel d).
Proof.
  revert d. induction fuel as [|fuel IH]; intros d; cbn [cancel_all_orders]; live;
    unfold cancel_round, cancel_product; live.
Qed.

Lemma lives_passive_flatten fuel d : lives (passive_flatten env cfg fuel d).
Proof. revert d. induction fuel as [|fuel IH]; intros d; cbn [passive_flatten]; live. Qed.

(** A product with a position has a state. *)
Lemma lives_market_flatten p : lives (submit_market_flatten env cfg p).
Proof.
  intros w. unfold submit_market_flatten. run_w.
  destruct (position_in_lots _ =? 0) eqn:E; [apply rtc_refl|].
  apply rtc_once, step_close. unfold state_of in E.
  destruct (product_states (hs w) !! p); [by eexists|done].
Qed.
Hint Resolve lives_cancel_all lives_passive_flatten lives_market_flatten : lives.

Lemma lives_flatten fuel d : lives (flatten_positions env cfg fuel d).
Proof. unfold flatten_positions. live. Qed.
Hint Resolve lives_flatten : lives.
Lemma lives_shutdown fuel : lives (shutdown env cfg fuel).
Proof. unfold shutdown. live. Qed.
End shutdown_steps.

(** ** Properties of the stop sequence *)

(** The stop sequence, begun in [w], ended in [w'] with a cancel phase that ran out: the last
    thing it did was a cancel phase of its own, which set its deadline from a reading of the
    clock, a whole timeout ahead, when it began, and ended with orders outstanding only when
    its last reading had reached that deadline.  If it did not begin past it, it asked the
    venue for every cancel that was due. *)
Definition gave_up (env : Env) (cfg : HandlerConfig) (fuel : nat) (w w' : World) : Prop :=
  exists w0, shutting_down (hs w0) = true /\ (clk_i w <= clk_i w0)%nat /\ rtc (step env cfg) w w0 /\
    let deadline := clk env (clk_i w0) + shutdown_cancel_timeout_ns cfg in
    let began := (now env w0).2 in
    w' = (cancel_all_orders env cfg fuel deadline began).2 /\
    (clk_i began < clk_i w')%nat /\ deadline <= clk env (pred (clk_i w')) /\
    (clk env (clk_i began) < deadline -> forall p c o, cancel_due w0 p c o ->
     exists l, out w' = out w0 ++ l /\ OutCancel (cancel_info o p c) ∈ l).
Definition cleared_or_timed_out (env : Env) (cfg : HandlerConfig) (fuel : nat) (w w' : World) : Prop :=
  no_orders_outstanding (hs w') = true \/ gave_up env cfg fuel w w'.

Lemma cancel_phase_outcome env cfg fuel w w0 :
  shutting_down (hs w0) = true -> (clk_i w <= clk_i w0)%nat -> rtc (step env cfg) w w0 ->
  let phase := cancel_all_orders env cfg fuel (clk env (clk_i w0) + shutdown_cancel_timeout_ns cfg)
                 (now env w0).2 in
  phase.1 = true -> cleared_or_timed_out env cfg fuel w phase.2.
Proof.
  intros Hs Hle Hr phase Hok.
  destruct (cancel_all_outcome env cfg fuel _ (now env w0).2 Hok) as [?|(H1&H2&H3)]; [by left|right].
  exists w0. by split_and!.
Qed.

Lemma shutdown_clears env cfg fuel w :
  shutdown_done (hs w) = false ->
  (shutdown env cfg fuel w).1 = true ->
  cleared_or_timed_out env cfg fuel w (shutdown env cfg fuel w).2.
Proof.
  intros Hd. unfold shutdown. run_w. rewrite Hd. run_w.
  set (w0 := set_hs (set_shutdown true true (hs w)) w).
  assert (rtc (step env cfg) w w0) as Hr0 by apply (lives_stop env cfg w).
  pose proof (cancel_phase_outcome env cfg fuel w w0 eq_refl (le_n _) Hr0) as Hc1.
  pose proof (lives_cancel_all env cfg fuel (clk env (clk_i w0) + shutdown_cancel_timeout_ns cfg)
    (now env w0).2) as Hr1.
  destruct (frame_cancel_all env cfg fuel (clk env (clk_i w0) + shutdown_cancel_timeout_ns cfg)
    (now env w0).2) as (Hk1&[= Hs1 _]&_).
  unfold now in *. cbn [fst snd] in *. cbv zeta in Hc1.
  change (clk_i w0) with (clk_i w) in *. change (rx_i w0) with (rx_i w) in *. change (out w0) with (out w) in *.
  destruct (cancel_all_orders env cfg fuel _ _) as [ok w2]. cbn [fst snd] in *.
  destruct ok; cbn [negb]; [|done].
  destruct (flatten_on_shutdown cfg); cbn [negb]; [|by intros; apply Hc1].
  run_w. set (w2' := {| hs := hs w2; clk_i := _ |}).
  pose proof (lives_flatten env cfg fuel (clk env (clk_i w2) + shutdown_flatten_timeout_ns cfg) w2') as Hr2.
  destruct (frame_flatten env cfg fuel (clk env (clk_i w2) + shutdown_flatten_timeout_ns cfg) w2')
    as (Hk2&[= Hs2 _]&_).
  destruct (flatten_positions _ _ _ _ _) as [ok w3]. cbn [fst snd] in *.
  destruct ok; cbn [negb]; [|done].
  destruct (no_orders_outstanding (hs w3)) eqn:Eno; cbn [negb]; [by left|]. run_w.
  apply (cancel_phase_outcome env cfg fuel w w3).
  - rewrite <- Hs2. cbn. by rewrite <- Hs1.
  - cbn in *. lia.
  - etrans; [exact Hr0|]. etrans; [apply (lives_now env cfg w0)|]. etrans; [exact Hr1|].
    etrans; [apply (lives_now env cfg w2)|]. exact Hr2.
Qed.

(** A cancel-only sequence places nothing. *)
Lemma shutdown_places_nothing env cfg fuel w :
  flatten_on_shutdown cfg = false ->
  exists l, out (shutdown env cfg fuel w).2 = out w ++ l /\
    Forall (fun o => is_place_output o = false) l.
Proof.
  intros Hf. unfold shutdown. run_w. destruct (shutdown_done (hs w)).
  { exists []. by rewrite app_nil_r. }
  run_w. rewrite Hf.
  match goal with |- context [cancel_all_orders _ _ _ ?d ?x] => set (w1 := x); set (dl := d) end.
  destruct (quiet_cancel_all env cfg fuel dl w1) as (_&l&Hl&HF); [done|].
  destruct (cancel_all_orders env cfg fuel dl w1) as [ok w2].
  destruct ok; cbn [fst snd negb] in *; by exists l.
Qed.

(** The flags the sequence leaves behind. *)
Lemma shutdown_sets_flags env cfg fuel w :
  shutdown_done (hs w) = false ->
  let h := hs (shutdown env cfg fuel w).2 in shutting_down h = true /\ shutdown_done h = true.
Proof.
  cbv zeta. intros Hd. unfold shutdown. run_w. rewrite Hd. run_w.
  match goal with |- context [cancel_all_orders _ _ _ _ ?x] => set (w1 := x) end.
  assert (follows advances (ok ← cancel_all_orders env cfg fuel
        (clk env (clk_i w) + shutdown_cancel_timeout_ns cfg);
    if negb ok then mret false
    else if negb (flatten_on_shutdown cfg) then mret true
    else
      t ← now env;
      ok ← flatten_positions env cfg fuel (t + shutdown_flatten_timeout_ns cfg);
      if negb ok then mret false
      else
        h ← get;
        if negb (no_orders_outstanding h) then
          t ← now env;
          cancel_all_orders env cfg fuel (t + shutdown_cancel_timeout_ns cfg)
        else mret true)) as Hfr by follow.
  destruct (Hfr w1) as (_&[= E1 E2]&_). split; symmetry; [exact E1|exact E2].
Qed.

(** The stop sequence always ends: with a clock that moves between readings, fuel for
    the longer of the two configured timeouts is enough, whatever arrives on the queue
    meanwhile and whatever state the trader is in. *)
Theorem shutdown_terminates env cfg fuel w :
  clock_strict env ->
  shutdown_cancel_timeout_ns cfg <= Z.of_nat fuel ->
  shutdown_flatten_timeout_ns cfg <= Z.of_nat fuel ->
  (0 < fuel)%nat ->
  (shutdown env cfg fuel w).1 = true.
Proof. apply shutdown_total. Qed.

(** Nothing is left working: when the sequence ends, either no order is outstanding
    on any product, or it ended in a cancel phase that ran for its whole timeout. *)
Theorem shutdown_cancels_everything env cfg fuel w :
  shutdown_done (hs w) = false ->
  (shutdown env cfg fuel w).1 = true ->
  cleared_or_timed_out env cfg fuel w (shutdown env cfg fuel w).2.
Proof. apply shutdown_clears. Qed.

(** A cancel-only stop never trades: with flattening switched off, the whole sequence,
    including every event it handles while waiting, sends no new order. *)
Theorem shutdown_cancel_only env cfg fuel w :
  flatten_on_shutdown cfg = false ->
  exists l, out (shutdown env cfg fuel w).2 = out w ++ l /\
    Forall (fun o => is_place_output o = false) l.
Proof. apply shutdown_places_nothing. Qed.

(** The stop sequence runs once: called again it sends nothing and changes nothing. *)
Theorem shutdown_idempotent env cfg fuel fuel' w :
  let w' := (shutdown env cfg fuel w).2 in
  shutdown env cfg fuel' w' = (true, w').
Proof.
  cbv zeta. assert (shutdown_done (hs (shutdown env cfg fuel w).2) = true) as Hd.
  { destruct (shutdown_done (hs w)) eqn:E; [|by apply shutdown_sets_flags].
    unfold shutdown. run_w. by rewrite E. }
  unfold shutdown at 1. run_w. by rewrite Hd.
Qed.

(** C26: The market flatten of one product sends at most one order.  For every position
    but INT32_MIN (whose negation overflows in C++): it sends nothing when the position is
    zero or when its size snaps to nothing on the product's lot grid, and otherwise exactly
    one market order, on the opposite side, for the position's size snapped to the lot grid,
    tagged reduce-only as configured; the position itself moves only when the fill is
    reported. *)
Theorem market_flatten_closes env cfg p w :
  let s := state_of p (hs w) in
  int32_min < position_in_lots s <= int32_max ->
  let w' := (submit_market_flatten env cfg p w).2 in
  let '(ok, qty) := snap_qty_to_product_grid (product_info s)
    (to_double_qty (market_config cfg) (Z.abs (position_in_lots s))) in
  position_in_lots (state_of p (hs w')) = position_in_lots s /\
  out w' = out w ++
    (if (position_in_lots s =? 0) || negb ok then []
     else [OutPlace {| opi_is_limit := false; opi_is_bid := position_in_lots s <? 0;
             opi_price := fzero; opi_qty := qty; opi_product := p;
             opi_cid := last_cid (hs w'); opi_reduce_only := shutdown_reduce_only cfg |}]).
Proof.
  cbv zeta. set (s := state_of p (hs w)). intros Hr.
  unfold submit_market_flatten. run_w. fold s.
  destruct (snap_qty_to_product_grid _ _) as [ok qty] eqn:Es.
  destruct (position_in_lots s =? 0) eqn:E0; cbn [orb]; zify_bools.
  { split; [done|]. by rewrite app_nil_r. }
  assert ((if 0 <? position_in_lots s then position_in_lots s else wrap_s 32 (- position_in_lots s))
    = Z.abs (position_in_lots s)) as ->.
  { unfold int32_min, int32_max in *.
    destruct (0 <? position_in_lots s) eqn:E; zify_bools; [lia|].
    rewrite wrap32_id; unfold in_int32, int32_min, int32_max; lia. }
  pose proof (submit_place_spec env cfg p (position_in_lots s <? 0) 0
    (Z.abs (position_in_lots s)) false (shutdown_reduce_only cfg) w) as H. cbv zeta in H. fold s in H.
  assert ((Z.abs (position_in_lots s) <=? 0) = false) as E by (apply Z.leb_gt; lia).
  rewrite E in H. unfold snapped_order in H. rewrite Es in H.
  destruct ok; cbn [negb].
  - by destruct H as (->&->&_).
  - rewrite H. split; [done|]. by rewrite app_nil_r.
Qed.

(** ** Concrete runs *)
Definition shutdown_fuel : nat := 21.
Definition held_world : World :=
  SampleTrader.feed [SampleTrader.up; SampleTrader.grid; SampleTrader.held 3] SampleTrader.w0.

Lemma env_strict tasks : clock_strict (SampleTrader.env tasks).
Proof. intros i. unfold SampleTrader.env. cbn [clk]. lia. Qed.

Lemma shutdown_terminates_witness :
  (shutdown (SampleTrader.env []) SampleTrader.cfg shutdown_fuel SampleTrader.quoting).1 = true.
Proof.
  apply shutdown_terminates; [apply env_strict| | |]; vm_compute; try done; by repeat constructor.
Defined.

Lemma shutdown_cancels_everything_witness :
  cleared_or_timed_out (SampleTrader.env []) SampleTrader.cfg shutdown_fuel SampleTrader.quoting
    (shutdown (SampleTrader.env []) SampleTrader.cfg shutdown_fuel SampleTrader.quoting).2.
Proof.
  apply (shutdown_cancels_everything (SampleTrader.env []) SampleTrader.cfg shutdown_fuel
           SampleTrader.quoting); vm_compute; reflexivity.
Defined.

Lemma shutdown_cancel_only_witness :
  exists l, out (shutdown (SampleTrader.env []) SampleTrader.cfg_cancel_only shutdown_fuel
                   SampleTrader.quoting).2 = out SampleTrader.quoting ++ l /\
    Forall (fun o => is_place_output o = false) l.
Proof. apply shutdown_cancel_only. reflexivity. Defined.

Lemma market_flatten_closes_witness :
  position_in_lots (state_of "BTC" (hs held_world)) = 3 /\
  (let s := state_of "BTC" (hs held_world) in
   let w' := (submit_market_flatten (SampleTrader.env []) SampleTrader.cfg "BTC" held_world).2 in
   let '(ok, qty) := snap_qty_to_product_grid (product_info s)
     (to_double_qty (market_config SampleTrader.cfg) (Z.abs (position_in_lots s))) in
   position_in_lots (state_of "BTC" (hs w')) = position_in_lots s /\
   out w' = out held_world ++
     (if (position_in_lots s =? 0) || negb ok then []
      else [OutPlace {| opi_is_limit := false; opi_is_bid := position_in_lots s <? 0;
             opi_price := fzero; opi_qty := qty; opi_product := "BTC";
             opi_cid := last_cid (hs w');
             opi_reduce_only := shutdown_reduce_only SampleTrader.cfg |}])).
Proof.
  split; [vm_compute; reflexivity|].
  apply (market_flatten_closes (SampleTrader.env []) SampleTrader.cfg "BTC" held_world).
  vm_compute. split; [reflexivity|discriminate].
Defined.
