(* ===== verification/Report.v ===== *)
(** * Report: what the trader says it leaves behind

    The text half of the stop sequence, [format_residual] and [residual_caveat] of
    [trader/order_handler/order_handler.cpp], with [format_positions], and the choice of
    gateway the constructor makes.  fmt's writing of a [double] is a parameter. *)
From Stdlib Require Import Ascii.
From S2P Require Import Prelude Double Text Messages Strategy OrderState OrderHandler OrderFrame Shutdown.

#[local] Open Scope string_scope.
#[local] Open Scope list_scope.
#[local] Open Scope Z_scope.

(** [create_order_gateway]; [None] is the throw. *)
Inductive GatewayKind := BinanceOrders | KisOrders.
Definition create_order_gateway (exchange : string) : option GatewayKind :=
  if decide (exchange = "binance") then Some BinanceOrders
  else if decide (exchange = "kis") then Some KisOrders
  else None.

Section report.
Context (cfg : HandlerConfig) (fmt_double : double -> string).

(** [if (!out.empty()) out += " "; out += entry]. *)
Definition append_entry (out entry : string) : string :=
  (if decide (out = "") then "" else out +:+ " ") +:+ entry.

Definition format_positions (h : Handler) : string :=
  if decide (positions h = ∅) then "(none)"
  else foldl (fun out pp => append_entry out
    (pp.1 +:+ "(balance=" +:+ fmt_double (default fnan (balance pp.2)) +:+
     ",avail=" +:+ fmt_double (default fnan (available_balance pp.2)) +:+ ")"))
    "" (skvs (positions h)).

Definition residual_caveat (h : Handler) : string :=
  if listener_connected h || (no_orders_outstanding h && all_flat h) then ""
  else " (listener link is down -- this is the last state we were told, not confirmed)".

Definition residual_entry (ps : string * ProductState) : string :=
  ps.1 +:+ "(orders=" +:+ to_string (Z.of_nat (size (outstanding_orders ps.2))) +:+
  ",position=" +:+ fmt_double (to_double_qty (market_config cfg) (position_in_lots ps.2)) +:+ ")".
Definition format_residual (h : Handler) : string :=
  let out := foldl (fun out ps =>
    if bool_decide (outstanding_orders ps.2 = ∅) && (position_in_lots ps.2 =? 0) then out
    else append_entry out (residual_entry ps)) "" (skvs (product_states h)) in
  if decide (out = "") then "(clean)" else out.

(** ** What it says *)

(** Products with something left. *)
Definition residual (ps : string * ProductState) : Prop :=
  outstanding_orders ps.2 <> ∅ \/ position_in_lots ps.2 <> 0.
#[local] Instance residual_dec ps : Decision (residual ps).
Proof. unfold residual. apply _. Defined.
Fixpoint joined (entries : list string) : string :=
  match entries with
  | [] => ""
  | [e] => e
  | e :: entries => e +:+ " " +:+ joined entries
  end.

Lemma joined_snoc es e : joined (es ++ [e]) = (if decide (es = []) then "" else joined es +:+ " ") +:+ e.
Proof.
  induction es as [|e0 es IH]; [done|]. rewrite decide_False by done.
  destruct es as [|e1 es]; [simpl; by rewrite string_app_assoc|].
  change (e0 +:+ " " +:+ joined ((e1 :: es) ++ [e]) = ((e0 +:+ " " +:+ joined (e1 :: es)) +:+ " ") +:+ e).
  rewrite IH, decide_False by done. by rewrite !string_app_assoc.
Qed.
Lemma residual_entry_nonempty ps : residual_entry ps <> "".
Proof. unfold residual_entry. by destruct ps.1. Qed.
Lemma joined_nonempty es : Forall (fun e => e <> "") es -> joined es = "" -> es = [].
Proof.
  destruct es as [|e es]; [done|]. intros [He _]%Forall_cons. destruct es; simpl; [done|]. by destruct e.
Qed.

Lemma residual_fold l :
  foldl (fun out ps =>
    if bool_decide (outstanding_orders ps.2 = ∅) && (position_in_lots ps.2 =? 0) then out
    else append_entry out (residual_entry ps)) "" l =
  joined (residual_entry <$> filter residual l).
Proof.
  induction l as [|ps l IH] using rev_ind; [done|]. rewrite foldl_app, IH, filter_app, fmap_app. simpl.
  destruct (decide (residual ps)) as [Hr|Hr].
  - rewrite (filter_cons_True _ ps), filter_nil by done. cbn [fmap list_fmap]. rewrite joined_snoc.
    assert (bool_decide (outstanding_orders ps.2 = ∅) && (position_in_lots ps.2 =? 0) = false) as ->.
    { apply andb_false_iff. destruct Hr; [left; by apply bool_decide_eq_false|right; by apply Z.eqb_neq]. }
    unfold append_entry. f_equal. set (es := residual_entry <$> filter residual l).
    destruct (decide (es = [])) as [->|Hne]; [done|]. rewrite decide_False; [done|].
    intros H. apply Hne, joined_nonempty; [|done]. apply Forall_fmap, Forall_true.
    intros. apply residual_entry_nonempty.
  - rewrite (filter_cons_False _ ps), filter_nil, app_nil_r by done.
    destruct (bool_decide_reflect (outstanding_orders ps.2 = ∅)), (Z.eqb_spec (position_in_lots ps.2) 0);
      try done; destruct Hr; [by right|by left|by left].
Qed.

(** Every entry says [=], which "(clean)" does not. *)
Lemma entry_says_equals ps : In "="%char (String.list_ascii_of_string (residual_entry ps)).
Proof.
  unfold residual_entry. induction ps.1 as [|a p IH]; [|by right].
  rewrite string_app_empty. simpl. do 7 right. by left.
Qed.
Lemma joined_says_equals e es : In "="%char (String.list_ascii_of_string e) ->
  In "="%char (String.list_ascii_of_string (joined (e :: es))).
Proof.
  intros H. destruct es; [done|]. cbn [joined]. rewrite list_ascii_app. by apply in_or_app; left.
Qed.

Lemma nothing_left h :
  filter residual (skvs (product_states h)) = [] <->
  no_orders_outstanding h = true /\ all_flat h = true.
Proof.
  unfold no_orders_outstanding, all_flat. rewrite !forallb_forall. split.
  - intros Hf. assert (forall ps, In ps (skvs (product_states h)) -> ~ residual ps) as Hn.
    { intros ps Hin Hr. apply (not_elem_of_nil ps). rewrite <- Hf.
      apply list_elem_of_filter. split; [done|]. by apply list_elem_of_In. }
    split; intros ps Hin; specialize (Hn ps Hin); unfold residual in Hn.
    + apply bool_decide_eq_true. apply dec_stable. tauto.
    + apply Z.eqb_eq. lia.
  - intros [Ho Hp]. apply elem_of_nil_inv. intros ps [Hr Hin]%list_elem_of_filter.
    apply list_elem_of_In in Hin. specialize (Ho ps Hin). specialize (Hp ps Hin).
    apply bool_decide_eq_true in Ho. apply Z.eqb_eq in Hp. by destruct Hr.
Qed.

(** C40: The stop report is honest.  It says "(clean)" exactly when no order is outstanding
    and every product is flat; otherwise it is one entry per product with something left,
    in product order, with its count and size; and it is qualified exactly when there is
    something left and the link it was learnt over is down. *)
Theorem report_is_honest h :
  let left := filter residual (skvs (product_states h)) in
  (format_residual h = "(clean)" <-> no_orders_outstanding h = true /\ all_flat h = true) /\
  (left <> [] -> format_residual h = joined (residual_entry <$> left)) /\
  (residual_caveat h = "" <-> listener_connected h = true \/ left = []).
Proof.
  cbv zeta. unfold format_residual. rewrite residual_fold. cbv zeta.
  set (l := filter residual (skvs (product_states h))).
  assert (l <> [] -> joined (residual_entry <$> l) <> "" /\ joined (residual_entry <$> l) <> "(clean)") as Hl.
  { destruct l as [|ps l']; [done|]. intros _. rewrite fmap_cons.
    pose proof (joined_says_equals _ (residual_entry <$> l') (entry_says_equals ps)) as H.
    split; intros E; rewrite E in H; [done|]. simpl in H. by repeat destruct H as [?|H]. }
  split_and!.
  - rewrite <- nothing_left. fold l. destruct (decide (l = [])) as [->|Hne].
    + by rewrite decide_True.
    + destruct (Hl Hne). rewrite decide_False by done. naive_solver.
  - intros Hne. destruct (Hl Hne). by rewrite decide_False.
  - unfold l. rewrite nothing_left. unfold residual_caveat. destruct (listener_connected h), (no_orders_outstanding h), (all_flat h);
      simpl; naive_solver.
Qed.
End report.
