(* ===== verification/Signals.v ===== *)
(** * Signals: how a program is told to stop

    [utils/shutdown.cpp]: the signal handler and the two process-wide atomics it shares
    with the program, one atomic operation at a time; and the loop condition of the three
    [main] functions with [get_curr_intraday_minute] of [utils/datetime.cpp].  The clock
    readings are arguments. *)
From S2P Require Import Prelude.

#[local] Open Scope Z_scope.

(** What the handler writes to the console. *)
Inductive Notice := Stopping | AlreadyRunning | Forced.

(** The process: the two atomics, the handler activations (and requests) that have raised
    the flag but not yet stored the time, the console, and whether the default action was
    restored and re-raised, which ends it. *)
Record Process := {
  g_shutdown_requested : bool; g_first_signal_sec : Z;
  about_to_store : list bool;      (* [true] from the handler, which also speaks *)
  console : list Notice; killed : bool }.
Definition Process_new : Process := {|
  g_shutdown_requested := false; g_first_signal_sec := 0; about_to_store := []; console := [];
  killed := false |}.

Definition SHUTDOWN_GRACE_SEC : Z := 5.

(** [g_shutdown_requested.exchange(true)], for the one that finds it lowered. *)
Definition raise_flag (from_handler : bool) (p : Process) : Process := {|
  g_shutdown_requested := true; g_first_signal_sec := g_first_signal_sec p;
  about_to_store := about_to_store p ++ [from_handler]; console := console p; killed := killed p |}.
(** The store that follows it, and the handler's line. *)
Definition store_time (now_sec : Z) (p : Process) : Process :=
  match about_to_store p with
  | [] => p
  | from_handler :: rest => {|
      g_shutdown_requested := g_shutdown_requested p; g_first_signal_sec := now_sec;
      about_to_store := rest;
      console := if from_handler then console p ++ [Stopping] else console p; killed := killed p |}
  end.

(** [on_shutdown_signal], up to its first store. *)
Definition on_shutdown_signal (now_sec : Z) (p : Process) : Process :=
  if negb (g_shutdown_requested p) then raise_flag true p
  else
    let since := now_sec - g_first_signal_sec p in
    let speak n dead := {|
      g_shutdown_requested := true; g_first_signal_sec := g_first_signal_sec p;
      about_to_store := about_to_store p; console := console p ++ [n]; killed := dead |} in
    if since <? SHUTDOWN_GRACE_SEC then speak AlreadyRunning (killed p) else speak Forced true.
(** [request_shutdown], up to its store. *)
Definition request_shutdown (p : Process) : Process :=
  if negb (g_shutdown_requested p) then raise_flag false p else p.
Definition shutdown_requested (p : Process) : bool := g_shutdown_requested p.

(** ** Runs *)
Inductive Event := Signal (now_sec : Z) | Request | Store (now_sec : Z).
Definition event_step (p : Process) (e : Event) : Process :=
  if killed p then p
  else match e with
  | Signal now => on_shutdown_signal now p
  | Request => request_shutdown p
  | Store now => store_time now p
  end.
Definition run_events (es : list Event) (p : Process) : Process := foldl event_step p es.

(** ** The loop of a main function *)

(** [get_curr_intraday_minute]. *)
Definition intraday_minute (now_sec timezone_minute_offset : Z) : Z :=
  Z.rem (now_sec ÷ 60 + timezone_minute_offset) 1440.
(** Whether the loop takes another turn; only the trader's also polls the flag. *)
Definition session_open (market_end now_sec timezone_minute_offset : Z) : bool :=
  (market_end <? 0) || (intraday_minute now_sec timezone_minute_offset <? market_end).
Definition trader_keeps_running (p : Process) (market_end now_sec timezone : Z) : bool :=
  negb (shutdown_requested p) && session_open market_end now_sec timezone.

(** ** Lemmas *)
Lemma run_events_killed es p : killed p = true -> run_events es p = p.
Proof.
  intros Hk. unfold run_events. induction es as [|e es IH]; simpl; [done|].
  unfold event_step at 2. by rewrite Hk.
Qed.

Lemma flag_stays es p : shutdown_requested p = true -> shutdown_requested (run_events es p) = true.
Proof.
  unfold run_events, shutdown_requested. revert p.
  induction es as [|e es IH]; intros p Hp; simpl; [done|]. apply IH. unfold event_step.
  destruct (killed p); [done|]. destruct e as [now| |now]; simpl.
  - unfold on_shutdown_signal. rewrite Hp. simpl. by destruct (_ <? _).
  - unfold request_shutdown. by rewrite Hp.
  - unfold store_time. by destruct (about_to_store p).
Qed.

(** Signals and requests only, no store outstanding. *)
Definition is_late (t0 : Z) (e : Event) : bool :=
  match e with Signal now => t0 + SHUTDOWN_GRACE_SEC <=? now | _ => false end.

Lemma run_after_store t0 es p :
  g_shutdown_requested p = true -> g_first_signal_sec p = t0 -> about_to_store p = [] ->
  killed p = false ->
  killed (run_events es p) = existsb (is_late t0) es.
Proof.
  revert p. induction es as [|e es IH]; intros p Hf Ht Ha Hk; [done|].
  change (run_events (e :: es) p) with (run_events es (event_step p e)). simpl.
  assert (event_step p e = match e with Signal now => on_shutdown_signal now p | _ => p end) as ->.
  { unfold event_step. rewrite Hk. destruct e; [done| |].
    - unfold request_shutdown. by rewrite Hf.
    - unfold store_time. by rewrite Ha. }
  destruct e as [now| |now]; simpl; [|by apply IH..].
  unfold on_shutdown_signal. rewrite Hf, Ht. simpl.
  destruct (Z.ltb_spec (now - t0) SHUTDOWN_GRACE_SEC), (Z.leb_spec (t0 + SHUTDOWN_GRACE_SEC) now);
    simpl; try lia.
  - by apply IH.
  - by rewrite run_events_killed.
Qed.

(** C33: A repeated signal is forgiven for five seconds and obeyed after.  Once the first
    signal or request has recorded its time [t0], whatever signals, requests and stray
    stores follow, the flag stays raised, and the process is killed exactly when one of
    the signals comes five seconds or more after [t0]; the trader's loop takes no further
    turn. *)
Theorem repeat_signals_forgiven first t0 es :
  first = Signal t0 \/ first = Request ->
  let p := run_events es (run_events [first; Store t0] Process_new) in
  killed p = existsb (is_late t0) es /\ shutdown_requested p = true /\
  (forall market_end now timezone, trader_keeps_running p market_end now timezone = false).
Proof.
  intros Hfirst. cbv zeta.
  assert (shutdown_requested (run_events es (run_events [first; Store t0] Process_new)) = true) as Hr.
  { apply flag_stays. by destruct Hfirst as [-> | ->]. }
  split_and!; [|done|].
  - by apply run_after_store; destruct Hfirst as [-> | ->].
  - intros. unfold trader_keeps_running. by rewrite Hr.
Qed.

(** The grace window does not hold from the first instant: a second signal that lands
    between the flag being raised and the time being stored finds the time still zero and
    ends the process at once, at any time more than five seconds after boot. *)
Theorem unstored_time_kills t :
  SHUTDOWN_GRACE_SEC <= t ->
  killed (run_events [Signal t; Signal t] Process_new) = true.
Proof.
  intros Ht. unfold run_events, event_step, on_shutdown_signal. simpl. rewrite Z.sub_0_r.
  by destruct (Z.ltb_spec t SHUTDOWN_GRACE_SEC); [lia|].
Qed.

(** A day whose session ends at minute [e] is over, for the loop, from [e] to midnight: a
    session that starts in that stretch takes no turn at all. *)
Lemma session_after_end e now tz :
  0 <= e -> e <= intraday_minute now tz -> session_open e now tz = false.
Proof.
  intros H0 He. unfold session_open. destruct (Z.ltb_spec e 0); [lia|].
  by destruct (Z.ltb_spec (intraday_minute now tz) e); [lia|].
Qed.

(** ** Witnesses *)
Lemma repeat_signals_forgiven_witness :
  killed (run_events [Signal 101; Signal 104; Request] (run_events [Signal 100; Store 100] Process_new)) = false /\
  killed (run_events [Signal 101; Signal 105] (run_events [Signal 100; Store 100] Process_new)) = true.
Proof.
  split.
  - by destruct (repeat_signals_forgiven (Signal 100) 100 [Signal 101; Signal 104; Request]) as [-> _];
      [left|].
  - by destruct (repeat_signals_forgiven (Signal 100) 100 [Signal 101; Signal 105]) as [-> _]; [left|].
Defined.

Lemma unstored_time_kills_witness :
  killed (run_events [Signal 100; Signal 100] Process_new) = true.
Proof. apply unstored_time_kills. by vm_compute. Defined.
