(* ===== verification/TradingSession.v ===== *)
(** * TradingSession: the trader process from its first turn to its exit

    [main] of [trader_main.cpp] once the configuration is read: the handler is built,
    events are handled one per turn while no signal has come and the market is open, and
    the stop sequence runs.  It puts together the loop condition and the signal handler
    of [Signals], the turn of [OrderHandler] and the sequence of [Shutdown]. *)
From S2P Require Import Prelude Double Messages Strategy OrderState OrderHandler OrderFrame OrderInvariant OrderSend Shutdown Signals.

#[local] Open Scope Z_scope.

(** How the process ends: its status 1 without a handler, the default action of a forced
    signal, or status 0 with the world it leaves. *)
Inductive Outcome := Misconfigured | KilledBySignal | Finished (w : World).

Section session.
(** What reaches the process from outside: the handler activations between two polls of
    the flag, the seconds [time(nullptr)] gives at each poll, and the activations during
    the stop sequence. *)
Context (env : Env) (cfg : HandlerConfig) (market_end timezone : Z).
Context (arriving : nat -> list Event) (wall : nat -> Z) (late : list Event).

(** The process when the loop polls it the [i]-th time. *)
Fixpoint process_at (i : nat) : Process :=
  match i with
  | O => run_events (arriving O) Process_new
  | S j => run_events (arriving i) (process_at j)
  end.
Definition turn_taken (i : nat) : bool :=
  trader_keeps_running (process_at i) market_end (wall i) timezone.

(** [while (!shutdown_requested() && ...) order_handler->run();] from poll [i] on: [None]
    when the fuel ran out, else the poll that ended the loop. *)
Fixpoint trading_loop (fuel : nat) (i : nat) : M (option nat) :=
  match fuel with
  | O => mret None
  | S fuel =>
      if killed (process_at i) then mret (Some i)
      else if turn_taken i then run env cfg ;; trading_loop fuel (S i)
      else mret (Some i)
  end.

Definition start_world (h : Handler) : World := {| hs := h; clk_i := 0; rx_i := 0; out := [] |}.

(** [main] from the handler's construction; [None] only when a fuel ran out. *)
Definition trader_process (turns fuel : nat) : option Outcome :=
  match OrderHandler_new cfg with
  | None => Some Misconfigured
  | Some h =>
      match trading_loop turns 0 (start_world h) with
      | (None, _) => None
      | (Some i, w) =>
          if killed (run_events late (process_at i)) then Some KilledBySignal
          else
            match shutdown env cfg fuel w with
            | (true, w) => Some (Finished w)
            | (false, _) => None
            end
      end
  end.

(** What the first [n] turns hand to the handler, in order. *)
Definition tasks_of (w : World) (n : nat) : list Task := omap (rx env) (seq (rx_i w) n).
Definition handle_all (w : World) (ts : list Task) : World :=
  foldl (fun w t => (handle_task env cfg t w).2) w ts.
End session.

(** ** A step reads nothing of the queue but through [dequeue] *)
Definition set_rx (k : nat) (w : World) : World :=
  {| hs := hs w; clk_i := clk_i w; rx_i := k; out := out w |}.

(** [m] neither sees nor moves the place reached in the queue. *)
Definition blind {A} (m : M A) : Prop :=
  forall w k, m (set_rx k w) = ((m w).1, set_rx k (m w).2).

Lemma blind_ret {A} (a : A) : blind (mret a).
Proof. done. Qed.
Lemma blind_bind {A B} (m : M A) (f : A -> M B) :
  blind m -> (forall a, blind (f a)) -> blind (mbind f m).
Proof.
  intros Hm Hf w k. unfold mbind, st_bind. rewrite Hm. destruct (m w) as [a w1]. simpl.
  apply Hf.
Qed.
Lemma blind_get : blind get.
Proof. done. Qed.
Lemma blind_upd f : blind (upd f).
Proof. done. Qed.
Lemma blind_emit o : blind (emit o).
Proof. done. Qed.
Lemma blind_now env : blind (now env).
Proof. done. Qed.
Lemma blind_when b m : blind m -> blind (when b m).
Proof. by destruct b. Qed.
Lemma blind_for_each {A} (l : list A) f : (forall a, blind (f a)) -> blind (for_each l f).
Proof.
  intros Hf. induction l as [|a l IH]; simpl; [apply blind_ret|]. by apply blind_bind.
Qed.

Create HintDb blind.
#[export] Hint Resolve blind_ret blind_get blind_upd blind_emit blind_now : blind.
Ltac blind_step :=
  first
  [ solve [auto with blind]
  | apply blind_bind; [|intros ?] | apply blind_when | apply blind_for_each; intros ?
  | match goal with |- blind (match ?x with _ => _ end) => destruct x end ].
Ltac blindly := cbv zeta; repeat blind_step.

Section blind.
Context (env : Env) (cfg : HandlerConfig).

Lemma blind_reserve_cid p : blind (reserve_cid env p).
Proof. unfold reserve_cid. blindly. Qed.
Lemma blind_log_order_record p c o t s ts m : blind (log_order_record env cfg p c o t s ts m).
Proof. unfold log_order_record. blindly. Qed.
Lemma blind_mark_waiting p b c : blind (mark_waiting env p b c).
Proof. unfold mark_waiting. blindly. Qed.
Hint Resolve blind_reserve_cid blind_log_order_record blind_mark_waiting : blind.

Lemma blind_submit_cancel p c : blind (submit_cancel env cfg p c).
Proof. unfold submit_cancel. blindly. Qed.
Lemma blind_submit_place p b px q l r : blind (submit_place env cfg p b px q l r).
Proof. unfold submit_place. blindly. Qed.
Hint Resolve blind_submit_cancel blind_submit_place : blind.

Lemma blind_update_orders p l : blind (update_orders env cfg p l).
Proof.
  unfold update_orders, decide_and_send, waiting_gate, record_timed_out, build_price_info,
    log_order_decision, send_decision. blindly.
Qed.
Lemma blind_on_execution p d : blind (on_execution env cfg p d).
Proof. unfold on_execution, on_accept, on_fill, adopt_order. blindly. Qed.
Lemma blind_on_order_response r : blind (on_order_response env cfg r).
Proof. unfold on_order_response. blindly. Qed.
Hint Resolve blind_update_orders blind_on_execution blind_on_order_response : blind.

Lemma blind_handle_task t : blind (handle_task env cfg t).
Proof.
  destruct t; simpl; blindly;
    unfold on_listener_status, on_pricer_status, process_market_data, on_orderbook,
      on_position, on_product_info, on_fair_price; blindly.
Qed.

Lemma handle_task_rx t w : rx_i (handle_task env cfg t w).2 = rx_i w.
Proof.
  pose proof (blind_handle_task t w (rx_i w)) as H.
  assert (set_rx (rx_i w) w = w) as E by (by destruct w). rewrite E in H.
  by rewrite H.
Qed.

Lemma handle_all_set_rx ts w k :
  handle_all env cfg (set_rx k w) ts = set_rx k (handle_all env cfg w ts).
Proof.
  revert w. induction ts as [|t ts IH]; intros w; [done|]. unfold handle_all. simpl.
  rewrite blind_handle_task. simpl. apply IH.
Qed.
Lemma handle_all_app w ts ts' :
  handle_all env cfg w (ts ++ ts') = handle_all env cfg (handle_all env cfg w ts) ts'.
Proof. apply foldl_app. Qed.
Lemma handle_all_advances ts w : advances w (handle_all env cfg w ts).
Proof.
  revert w. induction ts as [|t ts IH]; intros w; [done|].
  etrans; [apply frame_handle_task|apply IH].
Qed.

(** One turn is the next queue result, handled if there is one. *)
Lemma run_turn w :
  (run env cfg w).2 =
  set_rx (S (rx_i w)) (handle_all env cfg w (tasks_of env w 1)).
Proof.
  unfold run, tasks_of, handle_all. run_w. simpl. destruct (rx env (rx_i w)) as [t|]; simpl.
  - change {| hs := hs w; clk_i := clk_i w; rx_i := S (rx_i w); out := out w |}
      with (set_rx (S (rx_i w)) w). by rewrite blind_handle_task.
  - done.
Qed.
End blind.

(** ** The loop *)
Section loop.
Context (env : Env) (cfg : HandlerConfig) (market_end timezone : Z).
Context (arriving : nat -> list Event) (wall : nat -> Z).

Lemma run_events_alive es p : killed (run_events es p) = false -> killed p = false.
Proof. destruct (killed p) eqn:E; [|done]. by rewrite run_events_killed by done; rewrite E. Qed.

Lemma alive_before i n :
  (i <= n)%nat -> killed (process_at arriving n) = false -> killed (process_at arriving i) = false.
Proof. induction 1 as [|n _ IH]; [done|]. intros H. apply IH. by eapply run_events_alive. Qed.

Lemma tasks_of_app w a b :
  tasks_of env w (a + b) = tasks_of env w a ++ omap (rx env) (seq (rx_i w + a) b).
Proof. unfold tasks_of. by rewrite seq_app, omap_app. Qed.

(** The loop handles what the queue gave it, in order, and stops at the first poll that
    says so. *)
Lemma trading_loop_handles fuel i n w :
  (forall j, (i <= j < n)%nat -> turn_taken market_end timezone arriving wall j = true) ->
  turn_taken market_end timezone arriving wall n = false ->
  (i <= n < i + fuel)%nat ->
  killed (process_at arriving n) = false ->
  trading_loop env cfg market_end timezone arriving wall fuel i w =
    (Some n, set_rx (rx_i w + (n - i)) (handle_all env cfg w (tasks_of env w (n - i)))).
Proof.
  revert i w. induction fuel as [|fuel IH]; intros i w Hon Hoff Hi Hk; [lia|].
  cbn [trading_loop]. rewrite (alive_before i n) by (lia || done).
  destruct (decide (i = n)) as [->|Hne].
  - rewrite Hoff, Nat.sub_diag, Nat.add_0_r. by destruct w.
  - rewrite Hon by lia. unfold mbind, st_bind.
    pose proof (run_turn env cfg w) as Hr. destruct (run env cfg w) as [u w1]. simpl in Hr. subst w1.
    rewrite IH; [|intros; apply Hon; lia|done|lia|done]. cbn [snd].
    replace (n - i)%nat with (1 + (n - S i))%nat by lia. set (m := (n - S i)%nat).
    rewrite tasks_of_app, handle_all_set_rx, handle_all_app.
    replace (rx_i w + (1 + m))%nat with (S (rx_i w) + m)%nat by lia.
    replace (rx_i w + 1)%nat with (S (rx_i w)) by lia. unfold tasks_of at 2. simpl.
    done.
Qed.

Lemma lives_run : follows (rtc (step env cfg)) (run env cfg).
Proof. unfold run. live. Qed.
Hint Resolve lives_run : lives.

Lemma lives_trading_loop fuel i :
  follows (rtc (step env cfg)) (trading_loop env cfg market_end timezone arriving wall fuel i).
Proof. revert i. induction fuel as [|fuel IH]; intros i; cbn [trading_loop]; live. Qed.
End loop.

Lemma start_initial cfg h : OrderHandler_new cfg = Some h -> initial cfg (start_world h).
Proof. by split. Qed.

(** C3: A trading session leaves nothing working.  Whatever comes on the queue and
    whichever signals arrive, if poll [n] is the first to say stop (a signal, or the market's
    close) and no signal is forced, the process ends by itself.  It has handled exactly what
    the queue gave it in its [n] turns, in order.  Then either no order is outstanding on any
    product, or the stop sequence ended by giving up: its last act was a cancel phase of its
    own, whose deadline was a clock reading taken when the phase began plus the configured
    timeout, whose last clock reading had reached that deadline, and which (unless the
    deadline had passed at its first look) asked the venue to cancel every order that was
    working under a venue number with no cancel awaited.  With flattening off nothing has
    been placed since the last turn.  The world it ends in is a reachable one, so its
    books still agree. *)
Theorem session_leaves_nothing_working env cfg market_end timezone arriving wall late turns fuel n h :
  OrderHandler_new cfg = Some h ->
  clock_strict env ->
  shutdown_cancel_timeout_ns cfg <= Z.of_nat fuel ->
  shutdown_flatten_timeout_ns cfg <= Z.of_nat fuel ->
  (0 < fuel)%nat ->
  (forall i, (i < n)%nat -> turn_taken market_end timezone arriving wall i = true) ->
  turn_taken market_end timezone arriving wall n = false ->
  (n < turns)%nat ->
  killed (run_events late (process_at arriving n)) = false ->
  let traded := handle_all env cfg (start_world h) (tasks_of env (start_world h) n) in
  exists w',
    trader_process env cfg market_end timezone arriving wall late turns fuel = Some (Finished w') /\
    w' = (shutdown env cfg fuel (set_rx n traded)).2 /\
    reachable env cfg w' /\
    cleared_or_timed_out env cfg fuel (set_rx n traded) w' /\
    shutting_down (hs w') = true /\ shutdown_done (hs w') = true /\
    (flatten_on_shutdown cfg = false -> exists l, out w' = out traded ++ l /\
      Forall (fun o => is_place_output o = false) l).
Proof.
  intros Hnew Hclk Hc Hf Hfuel Hon Hoff Hn Hlate traded.
  assert (shutdown_done (hs (set_rx n traded)) = false) as Hd.
  { destruct (handle_all_advances env cfg (tasks_of env (start_world h) n) (start_world h))
      as (_&[= _ E]&_). cbn [set_rx hs]. unfold traded. rewrite <- E.
    unfold OrderHandler_new in Hnew. destruct (_ || _); [done|]. by injection Hnew as <-. }
  pose proof (shutdown_total env cfg fuel (set_rx n traded) Hclk Hc Hf Hfuel) as Ht.
  pose proof (trading_loop_handles env cfg market_end timezone arriving wall turns 0 n (start_world h))
    as Hloop. rewrite Nat.sub_0_r in Hloop.
  specialize (Hloop ltac:(intros; apply Hon; lia) Hoff ltac:(lia) ltac:(by eapply run_events_alive)).
  change (rx_i (start_world h) + n)%nat with n in Hloop. fold traded in Hloop.
  exists (shutdown env cfg fuel (set_rx n traded)).2. split_and!.
  - unfold trader_process. rewrite Hnew, Hloop, Hlate.
    destruct (shutdown env cfg fuel (set_rx n traded)) as [ok w']. simpl in Ht. by rewrite Ht.
  - done.
  - exists (start_world h). split; [by apply start_initial|].
    etrans; [|apply (lives_shutdown env cfg fuel (set_rx n traded))].
    pose proof (lives_trading_loop env cfg market_end timezone arriving wall turns 0 (start_world h))
      as Hl. by rewrite Hloop in Hl.
  - by apply shutdown_clears.
  - by apply shutdown_sets_flags.
  - by apply shutdown_sets_flags.
  - intros Hflat. apply (shutdown_places_nothing env cfg fuel (set_rx n traded) Hflat).
Qed.

(** A misconfigured trader never trades: the process ends before its first turn. *)
Lemma misconfigured_exits env cfg market_end timezone arriving wall late turns fuel :
  OrderHandler_new cfg = None ->
  trader_process env cfg market_end timezone arriving wall late turns fuel = Some Misconfigured.
Proof. intros H. unfold trader_process. by rewrite H. Qed.

(** ** A sample session: four turns, a signal, a second one within the grace *)
Module SampleSession.
Definition env := SampleTrader.env [SampleTrader.up; SampleTrader.grid; SampleTrader.book; SampleTrader.tick].
Definition arriving (i : nat) : list Event := if decide (i = 4%nat) then [Signal 100; Store 100] else [].
Definition outcome := trader_process env SampleTrader.cfg (-1) 0 arriving (fun _ => 100)
  [Signal 102] 10 shutdown_fuel.
End SampleSession.

Lemma session_leaves_nothing_working_witness :
  exists w', SampleSession.outcome = Some (Finished w') /\
    cleared_or_timed_out SampleSession.env SampleTrader.cfg shutdown_fuel
      (set_rx 4 (handle_all SampleSession.env SampleTrader.cfg (start_world (Handler_init SampleTrader.cfg))
        (tasks_of SampleSession.env (start_world (Handler_init SampleTrader.cfg)) 4))) w' /\ shutdown_done (hs w') = true.
Proof.
  destruct (session_leaves_nothing_working SampleSession.env SampleTrader.cfg (-1) 0
    SampleSession.arriving (fun _ => 100) [Signal 102] 10 shutdown_fuel 4
    (Handler_init SampleTrader.cfg)) as (w'&Hp&_&_&Hc&_&Hd&_).
  - vm_compute. reflexivity.
  - apply env_strict.
  - vm_compute. discriminate.
  - vm_compute. discriminate.
  - vm_compute. by repeat constructor.
  - intros i Hi. do 4 (destruct i as [|i]; [vm_compute; reflexivity|]). lia.
  - vm_compute. reflexivity.
  - by repeat constructor.
  - vm_compute. reflexivity.
  - exists w'. by split_and!.
Defined.
