(* ===== verification/Calendar.v ===== *)
(** * Calendar: broken-down time and the date of the csv trails

    [gmtime] and [timegm] of the C library on the proleptic Gregorian calendar, and
    [get_curr_date] of [utils/datetime.cpp], which names the csv files.  Years are counted
    from the first of March inside eras of 400 years, so that the leap day comes last. *)
From S2P Require Import Prelude.

#[local] Open Scope Z_scope.

(** ** Years and months *)

(** The largest [k < n] with [f k <= x] (0 when there is none). *)
Fixpoint last_below (f : Z -> Z) (n : nat) (x : Z) : Z :=
  match n with
  | O => 0
  | S n => if f (Z.of_nat n) <=? x then Z.of_nat n else last_below f n x
  end.

(** Days before year [y] of an era, and before month [m] of a year, March being 0. *)
Definition year_start (y : Z) : Z := 365 * y + y / 4 - y / 100 + y / 400.
Definition month_start (m : Z) : Z := (153 * m + 2) / 5.
Definition era_days : Z := 146097.
(** From the start of an era to 1970-01-01. *)
Definition epoch_shift : Z := 719468.

(** [struct tm]: the year counts from 1900 and the month from 0; [year] and [month] are the
    two as written. *)
Record Tm := { tm_year : Z; tm_mon : Z; tm_mday : Z; tm_hour : Z; tm_min : Z; tm_sec : Z }.
Definition year (tm : Tm) : Z := tm_year tm + 1900.
Definition month (tm : Tm) : Z := tm_mon tm + 1.

(** The date of a day counted from 1970-01-01, and back. *)
Definition date_of_day (d : Z) : Z * Z * Z :=
  let era := (d + epoch_shift) / era_days in
  let doe := (d + epoch_shift) mod era_days in
  let y := last_below year_start 400 doe in
  let doy := doe - year_start y in
  let m := last_below month_start 12 doy in
  (400 * era + y + (if m <? 10 then 0 else 1), if m <? 10 then m + 3 else m - 9,
   doy - month_start m + 1).
Definition day_of_date (y m d : Z) : Z :=
  let y := if m <=? 2 then y - 1 else y in
  let mp := if m <=? 2 then m + 9 else m - 3 in
  era_days * (y / 400) + year_start (y mod 400) + month_start mp + (d - 1) - epoch_shift.

Definition gmtime (t : Z) : Tm :=
  let '(y, m, d) := date_of_day (t / 86400) in
  let s := t mod 86400 in
  {| tm_year := y - 1900; tm_mon := m - 1; tm_mday := d;
     tm_hour := s / 3600; tm_min := s mod 3600 / 60; tm_sec := s mod 60 |}.
Definition timegm (tm : Tm) : Z :=
  86400 * day_of_date (year tm) (month tm) (tm_mday tm) + 3600 * tm_hour tm + 60 * tm_min tm + tm_sec tm.

(** [get_curr_date]: the local day as YYYYMMDD. *)
Definition get_curr_date (now_sec timezone_minute_offset : Z) : Z :=
  let tm := gmtime (now_sec + timezone_minute_offset * 60) in
  let year := tm_year tm + 1900 in
  let month := tm_mon tm + 1 in
  let day := tm_mday tm in
  year * 10000 + month * 100 + day.

(** ** Lemmas *)
Lemma last_below_spec f n x : f 0 <= x < f (Z.of_nat n) ->
  let k := last_below f n x in 0 <= k < Z.of_nat n /\ f k <= x < f (k + 1).
Proof.
  cbv zeta. induction n as [|n IH]; [change (Z.of_nat 0) with 0; lia|]. intros H. simpl last_below.
  destruct (Z.leb_spec (f (Z.of_nat n)) x) as [Hn|Hn].
  - replace (Z.of_nat n + 1) with (Z.of_nat (S n)) by lia. lia.
  - destruct IH; lia.
Qed.

(** Where a day falls: its era, its year and month from March, its day of the month. *)
Record located (d era y m md : Z) : Prop := {
  lo_day : d + epoch_shift = era_days * era + year_start y + month_start m + md;
  lo_year : 0 <= y < 400; lo_month : 0 <= m < 12; lo_mday : 0 <= md <= 30;
  lo_in_era : 0 <= d + epoch_shift - era_days * era < era_days;
  lo_in_year : year_start y <= d + epoch_shift - era_days * era < year_start (y + 1);
  lo_in_month : md < month_start (m + 1) - month_start m;
  lo_date : date_of_day d =
    (400 * era + y + (if m <? 10 then 0 else 1), if m <? 10 then m + 3 else m - 9, md + 1) }.

Lemma year_length y : 365 <= year_start (y + 1) - year_start y <= 366.
Proof. unfold year_start. Z.to_euclidean_division_equations. lia. Qed.
Lemma month_length m : 30 <= month_start (m + 1) - month_start m <= 31.
Proof. unfold month_start. Z.to_euclidean_division_equations. lia. Qed.

Lemma locate d : exists era y m md, located d era y m md.
Proof.
  set (x := d + epoch_shift). pose proof (Z.div_mod x era_days ltac:(done)) as Hx.
  pose proof (Z.mod_pos_bound x era_days ltac:(done)) as Hb.
  destruct (last_below_spec year_start 400 (x mod era_days)) as [Hy Hys].
  { change (year_start 0) with 0. change (year_start (Z.of_nat 400)) with era_days. lia. }
  set (y := last_below year_start _ _) in *. pose proof (year_length y) as Hlen.
  destruct (last_below_spec month_start 12 (x mod era_days - year_start y)) as [Hm Hms].
  { change (month_start 0) with 0. change (month_start (Z.of_nat 12)) with 367. lia. }
  set (m := last_below month_start _ _) in *. pose proof (month_length m) as Hml.
  exists (x / era_days), y, m, (x mod era_days - year_start y - month_start m).
  split; fold x; try lia. done.
Qed.

Lemma year_start_le y y' : y <= y' -> year_start y <= year_start y'.
Proof.
  intros H. unfold year_start. Z.to_euclidean_division_equations. lia.
Qed.
Lemma month_start_le m m' : m <= m' -> month_start m <= month_start m'.
Proof. intros H. unfold month_start. apply Z.div_le_mono; lia. Qed.

Lemma date_stamp_lt d d' : d < d' ->
  let '(y, m, md) := date_of_day d in let '(y', m', md') := date_of_day d' in
  10000 * y + 100 * m + md < 10000 * y' + 100 * m' + md'.
Proof.
  intros Hd. destruct (locate d) as (e&y&m&md&[H1 Hy Hm Hmd He Hiy Him ->]).
  destruct (locate d') as (e'&y'&m'&md'&[H1' Hy' Hm' Hmd' He' Hiy' Him' ->]).
  assert (e <= e') by (unfold era_days in *; nia).
  assert (e < e' \/ (e = e' /\ (y < y' \/ (y = y' /\ (m < m' \/ (m = m' /\ md < md')))))) as Hlex.
  { destruct (Z.eq_dec e e') as [<-|]; [|lia]. right. split; [done|].
    destruct (Z.lt_trichotomy y y') as [?|[<-|Hlt]]; [lia| |pose proof (year_start_le (y' + 1) y); lia].
    right. split; [done|]. destruct (Z.lt_trichotomy m m') as [?|[<-|Hlt]]; [lia|lia|].
    pose proof (month_start_le (m' + 1) m). lia. }
  clear - Hlex Hy Hy' Hm Hm' Hmd Hmd'. destruct (Z.ltb_spec m 10), (Z.ltb_spec m' 10); lia.
Qed.

Lemma second_of_day s : 3600 * (s / 3600) + 60 * (s mod 3600 / 60) + s mod 60 = s.
Proof. Z.to_euclidean_division_equations. lia. Qed.

(** A timestamp broken down and put together again is itself. *)
Lemma timegm_gmtime t : timegm (gmtime t) = t.
Proof.
  unfold gmtime. destruct (locate (t / 86400)) as (e&y&m&md&[H1 Hy Hm Hmd He Hiy Him ->]).
  unfold timegm, day_of_date. unfold year, month; cbn [tm_year tm_mon tm_mday tm_hour tm_min tm_sec]; rewrite ?Z.sub_add.
  pose proof (second_of_day (t mod 86400)). pose proof (Z.div_mod t 86400 ltac:(done)).
  assert ((400 * e + y) / 400 = e /\ (400 * e + y) mod 400 = y) as [Hq Hr].
  { split; [symmetry; apply (Z.div_unique _ _ _ y); lia|symmetry; apply (Z.mod_unique _ _ e); lia]. }
  destruct (Z.ltb_spec m 10).
  - rewrite (proj2 (Z.leb_gt _ _)) by lia. rewrite Z.add_0_r, Hq, Hr.
    replace (m + 3 - 3) with m by lia. lia.
  - rewrite (proj2 (Z.leb_le _ _)) by lia. replace (400 * e + y + 1 - 1) with (400 * e + y) by lia.
    rewrite Hq, Hr. replace (m - 9 + 9) with m by lia. lia.
Qed.

Lemma gmtime_fields t : let tm := gmtime t in
  1 <= month tm <= 12 /\ 1 <= tm_mday tm <= 31 /\ 0 <= tm_hour tm <= 23 /\ 0 <= tm_min tm <= 59 /\
  0 <= tm_sec tm <= 59.
Proof.
  unfold gmtime. destruct (locate (t / 86400)) as (e&y&m&md&[H1 Hy Hm Hmd He Hiy Him ->]).
  unfold year, month; cbn [tm_year tm_mon tm_mday tm_hour tm_min tm_sec]; rewrite ?Z.sub_add.
  assert (0 <= (t mod 86400) / 3600 <= 23 /\ 0 <= (t mod 86400) mod 3600 / 60 <= 59 /\
          0 <= (t mod 86400) mod 60 <= 59) by (Z.to_euclidean_division_equations; lia).
  destruct (Z.ltb_spec m 10); lia.
Qed.

(** ** The Gregorian calendar, by its rules *)
Definition leap (y : Z) : bool := (y mod 4 =? 0) && (negb (y mod 100 =? 0) || (y mod 400 =? 0)).
Definition month_days (y m : Z) : Z :=
  if m =? 2 then (if leap y then 29 else 28)
  else if (m =? 4) || (m =? 6) || (m =? 9) || (m =? 11) then 30 else 31.
Definition year_days (y : Z) : Z := if leap y then 366 else 365.
(** Days of the years 1 to [y - 1], and of the months before [m] of year [y]. *)
Definition days_before_year (y : Z) : Z := 365 * (y - 1) + (y - 1) / 4 - (y - 1) / 100 + (y - 1) / 400.
Definition days_before_month (y m : Z) : Z := foldr Z.add 0 (month_days y <$> seqZ 1 (m - 1)).
(** The number of a date, 1970-01-01 being 0. *)
Definition calendar_day (y m d : Z) : Z :=
  days_before_year y + days_before_month y m + (d - 1) - days_before_year 1970.
Definition valid_date (y m d : Z) : Prop := 1 <= m <= 12 /\ 1 <= d <= month_days y m.

(** The count of years is the sum of their lengths. *)
Lemma days_before_year_step y : days_before_year (y + 1) = days_before_year y + year_days y.
Proof.
  unfold days_before_year, year_days, leap. replace (y + 1 - 1) with y by lia.
  destruct (Z.eqb_spec (y mod 4) 0), (Z.eqb_spec (y mod 100) 0), (Z.eqb_spec (y mod 400) 0); simpl;
    Z.to_euclidean_division_equations; lia.
Qed.
Lemma days_before_year_era e y : days_before_year (400 * e + y) = era_days * e + days_before_year y.
Proof. unfold days_before_year, era_days. Z.to_euclidean_division_equations. lia. Qed.
Lemma leap_era e y : leap (400 * e + y) = leap y.
Proof.
  unfold leap. replace (400 * e + y) with (y + (100 * e) * 4) by lia. rewrite Z_mod_plus_full.
  replace (y + 100 * e * 4) with (y + (4 * e) * 100) by lia. rewrite Z_mod_plus_full.
  replace (y + 4 * e * 100) with (y + e * 400) by lia. by rewrite Z_mod_plus_full.
Qed.
Lemma year_start_days y : year_start y = days_before_year (y + 1).
Proof. unfold year_start, days_before_year. by replace (y + 1 - 1) with y by lia. Qed.

(** The months, counted from March. *)
Ltac each_month m H :=
  assert (m = 0 \/ m = 1 \/ m = 2 \/ m = 3 \/ m = 4 \/ m = 5 \/ m = 6 \/ m = 7 \/ m = 8 \/ m = 9 \/
    m = 10 \/ m = 11) as H by lia;
  repeat (destruct H as [H|H]); subst m; try lia.
Lemma month_from_march y m : 0 <= m < 10 ->
  days_before_month y (m + 3) = year_days y - 306 + month_start m /\
  month_days y (m + 3) = month_start (m + 1) - month_start m.
Proof.
  intros Hm. unfold days_before_month, month_days, year_days. destruct (leap y); each_month m H; by vm_compute.
Qed.
Lemma month_from_january y m : 10 <= m < 12 ->
  days_before_month y (m - 9) = month_start m - 306 /\
  month_days y (m - 9) = Z.min (month_start (m + 1) - month_start m) (year_days y - month_start m).
Proof.
  intros Hm. unfold days_before_month, month_days, year_days. destruct (leap y); each_month m H; by vm_compute.
Qed.

(** The date of a day is a date of the calendar, and that day's. *)
Lemma date_is_calendar d :
  let '(y, m, md) := date_of_day d in valid_date y m md /\ calendar_day y m md = d.
Proof.
  destruct (locate d) as (e&y&m&md&[H1 Hy Hm Hmd He Hiy Him ->]).
  pose proof (days_before_year_step y) as Hs. pose proof (days_before_year_step (y + 1)) as Hs'.
  rewrite !year_start_days in *. unfold valid_date, calendar_day, epoch_shift in *.
  change (days_before_year 1970) with 719162.
  assert (forall y, year_days (400 * e + y) = year_days y) as Hye
    by (intros; unfold year_days; by rewrite leap_era).
  destruct (Z.ltb_spec m 10).
  - destruct (month_from_march (400 * e + y + 0) m) as [-> ->]; [lia|].
    rewrite Z.add_0_r, Hye, days_before_year_era. lia.
  - destruct (month_from_january (400 * e + y + 1) m) as [-> ->]; [lia|].
    rewrite <- Z.add_assoc, Hye, days_before_year_era. lia.
Qed.

(** C37: The date that names a csv file is the local calendar date.  For every timestamp and
    every time zone the stamp reads YYYYMMDD: its year, month and day are a date of the
    Gregorian calendar -- the day within its month, leap years included -- and that date is
    the local day, counted from 1970-01-01.  So a later moment never has an earlier stamp,
    and two moments have the same stamp exactly when they fall on the same local day. *)
Theorem date_stamp_is_the_local_day t t' tz :
  (exists y m d, get_curr_date t tz = 10000 * y + 100 * m + d /\ valid_date y m d /\
     calendar_day y m d = (t + tz * 60) / 86400) /\
  (t <= t' -> get_curr_date t tz <= get_curr_date t' tz) /\
  (get_curr_date t tz = get_curr_date t' tz <-> (t + tz * 60) / 86400 = (t' + tz * 60) / 86400).
Proof.
  set (d := (t + tz * 60) / 86400). set (d' := (t' + tz * 60) / 86400).
  assert (forall u, get_curr_date u tz = let '(y, m, md) := date_of_day ((u + tz * 60) / 86400) in
    10000 * y + 100 * m + md) as Hs.
  { intros u. unfold get_curr_date, gmtime. destruct (date_of_day _) as [[y m] md]. simpl. lia. }
  rewrite !Hs. fold d d'. pose proof (date_stamp_lt d d') as Hlt. pose proof (date_stamp_lt d' d) as Hgt.
  pose proof (date_is_calendar d) as Hcal.
  destruct (date_of_day d) as [[y m] md] eqn:Hd, (date_of_day d') as [[y' m'] md'] eqn:Hd'. split_and!.
  - exists y, m, md. destruct Hcal. split_and!; [lia|done..].
  - intros Ht. assert (d <= d') as [?| ->]%Z.le_lteq by (apply Z.div_le_mono; lia); [lia|].
    rewrite Hd in Hd'. injection Hd' as -> -> ->. done.
  - split; [lia|]. intros <-. rewrite Hd in Hd'. by injection Hd' as -> -> ->.
Qed.

Lemma sample_date : get_curr_date 1709164800 540 = 20240229 /\ get_curr_date (1709164800 + 86400) 0 = 20240301.
Proof. by vm_compute. Qed.
Lemma date_stamp_is_the_local_day_witness :
  get_curr_date 1709164800 0 <= get_curr_date 1709251199 0 /\ get_curr_date 1709251199 0 = 20240229 /\
  calendar_day 2024 2 29 = 1709251199 / 86400.
Proof. split_and!; [apply (date_stamp_is_the_local_day 1709164800 1709251199 0); lia|by vm_compute..]. Defined.
