(* ===== verification/Pricer.v ===== *)
(** * Pricer: market state, factors, the fair-price calculator and the pricer service

    [pricer/market_state.hpp], [pricer/factor/*], [pricer/fair_price/*] and
    [pricer/pricer.cpp].  A factor is an instance of [BaseFactor] with its own state; the
    calculator and the service are written and verified against that interface alone.
    [std::pow] is the C library's: a parameter of the microprice factor.  The JSON writer
    is glaze's: a parameter of the publishing step. *)
From S2P Require Import Prelude Double Messages.

(** ** Market state *)
Record MarketState := {
  ms_ts : Z; ms_bbid_price : double; ms_bask_price : double;
  ms_bbid_qty : double; ms_bask_qty : double;
  ms_last_trade_price : double; ms_cum_trade_qty : double; ms_cum_buy_trade_qty : double }.
Definition MarketState_default : MarketState := {|
  ms_ts := 0; ms_bbid_price := fnan; ms_bask_price := fnan; ms_bbid_qty := fzero;
  ms_bask_qty := fzero; ms_last_trade_price := fnan; ms_cum_trade_qty := fnan;
  ms_cum_buy_trade_qty := fnan |}.

Definition has_two_sided_book (m : MarketState) : bool :=
  negb (is_nan (ms_bbid_price m)) && negb (is_nan (ms_bask_price m)) &&
  fpos (ms_bbid_price m) && fpos (ms_bask_price m).
Definition ms_mid_price (m : MarketState) : double :=
  fdiv (fadd (ms_bbid_price m) (ms_bask_price m)) (of_Z 2).

(** ** Factors *)

(** The virtual interface: [compute] may move the factor's own state. *)
Class BaseFactor (F : Type) := {
  compute : MarketState -> F -> option double * F;
  factor_forward_vol_bp : F -> double }.

Record FactorConfig := { factor_name : string; fc_ema_alpha : double; fc_cap_bp : double }.

(** The state every factor inherits. *)
Record FactorBase := { ema_alpha : double; cap_bp : double; ema_factor : option double }.
Definition BaseFactor_new (c : FactorConfig) : FactorBase :=
  {| ema_alpha := fc_ema_alpha c; cap_bp := fc_cap_bp c; ema_factor := None |}.

(** [std::clamp]. *)
Definition std_clamp (v lo hi : double) : double :=
  if flt v lo then lo else if flt hi v then hi else v.

Definition clamp_factor (b : FactorBase) (factor : double) : double :=
  let cap := fdiv (cap_bp b) f10000 in
  std_clamp factor (fsub fone cap) (fadd fone cap).

Definition apply_ema (raw : double) (b : FactorBase) : double * FactorBase :=
  let ema :=
    match ema_factor b with
    | None => raw
    | Some prev =>
        if fle fone (ema_alpha b) then raw
        else fadd (fmul (ema_alpha b) raw) (fmul (fsub fone (ema_alpha b)) prev)
    end in
  (ema, {| ema_alpha := ema_alpha b; cap_bp := cap_bp b; ema_factor := Some ema |}).

Record MicropriceParams := { imbalance_exponent : double }.
Record MicropriceFactor := { mp_base : FactorBase; mp_params : MicropriceParams }.

Section microprice.
Context (pow : double -> double -> double).

(** The raw multiplier, before clamping and smoothing. *)
Definition microprice_raw (p : MicropriceParams) (m : MarketState) : option double :=
  if negb (has_two_sided_book m) then None
  else
    let mid := ms_mid_price m in
    if fle mid fzero then None
    else
      let bbid_weight := pow (ms_bask_qty m) (imbalance_exponent p) in
      let bask_weight := pow (ms_bbid_qty m) (imbalance_exponent p) in
      let total_weight := fadd bbid_weight bask_weight in
      if negb (fpos total_weight) then None
      else
        let microprice := fdiv (fadd (fmul (ms_bbid_price m) bbid_weight)
                                     (fmul (ms_bask_price m) bask_weight)) total_weight in
        Some (fdiv microprice mid).

Definition microprice_compute (m : MarketState) (f : MicropriceFactor)
    : option double * MicropriceFactor :=
  match microprice_raw (mp_params f) m with
  | None => (None, f)
  | Some raw =>
      let '(v, b) := apply_ema (clamp_factor (mp_base f) raw) (mp_base f) in
      (Some v, {| mp_base := b; mp_params := mp_params f |})
  end.

(** [MicropriceFactor] leaves [forward_vol_bp] at the base class's 1.0. *)
#[local] Instance Microprice : BaseFactor MicropriceFactor := {|
  compute := microprice_compute; factor_forward_vol_bp := fun _ => fone |}.
End microprice.

(** [init_factor]: the factor named by the configuration, [None] for an unknown name. *)
Definition init_factor (c : FactorConfig) (p : MicropriceParams) : option MicropriceFactor :=
  if decide (factor_name c = "Microprice"%string)
  then Some {| mp_base := BaseFactor_new c; mp_params := p |} else None.

(** ** The fair-price calculator *)
Inductive FairPriceMode := MID | VWAP | FACTOR.
#[export] Instance fair_price_mode_eq_dec : EqDecision FairPriceMode.
Proof. solve_decision. Defined.

Definition fair_price_mode_from_string (mode : string) : FairPriceMode :=
  if decide (mode = "VWAP"%string) then VWAP
  else if decide (mode = "FACTOR"%string) then FACTOR
  else MID.
Definition fair_price_mode_name (mode : FairPriceMode) : string :=
  match mode with VWAP => "VWAP" | FACTOR => "FACTOR" | MID => "MID" end.

Record FairPriceResult := {
  res_mid_price : double; res_fair_price : double; res_factor : double;
  res_forward_vol_bp : double }.
Definition FairPriceResult_default : FairPriceResult :=
  {| res_mid_price := fnan; res_fair_price := fnan; res_factor := fnan;
     res_forward_vol_bp := fone |}.
Definition priceable (r : FairPriceResult) : bool := negb (is_nan (res_fair_price r)).

Definition compute_vwap (m : MarketState) : double :=
  let total_qty := fadd (ms_bbid_qty m) (ms_bask_qty m) in
  if negb (fpos total_qty) then fnan
  else fdiv (fadd (fmul (ms_bbid_price m) (ms_bask_qty m))
                  (fmul (ms_bask_price m) (ms_bbid_qty m))) total_qty.

Section calculator.
Context {F : Type} `{!BaseFactor F}.

Record FairPriceCalculator := { calc_mode : FairPriceMode; calc_factor : option F }.

(** [factor_ ? factor_->compute(state) : std::nullopt]. *)
Definition run_factor (m : MarketState) (f : option F) : option double * option F :=
  match f with
  | Some f => let '(v, f') := compute m f in (v, Some f')
  | None => (None, None)
  end.

Definition calc_compute (m : MarketState) (c : FairPriceCalculator)
    : FairPriceResult * FairPriceCalculator :=
  if negb (has_two_sided_book m) then (FairPriceResult_default, c)
  else
    let mid := ms_mid_price m in
    let plain fair := {| res_mid_price := mid; res_fair_price := fair;
                         res_factor := fnan; res_forward_vol_bp := fone |} in
    match calc_mode c with
    | MID => (plain mid, c)
    | VWAP =>
        let vwap := compute_vwap m in
        (plain (if is_nan vwap then mid else vwap), c)
    | FACTOR =>
        let '(v, f) := run_factor m (calc_factor c) in
        let c' := {| calc_mode := calc_mode c; calc_factor := f |} in
        match v, f with
        | Some v, Some f =>
            if is_finite v then
              let vol := factor_forward_vol_bp f in
              ({| res_mid_price := mid; res_fair_price := fmul v mid; res_factor := v;
                  res_forward_vol_bp := if is_finite vol && fpos vol then vol else fone |}, c')
            else (plain mid, c')
        | _, _ => (plain mid, c')
        end
    end.
End calculator.
Arguments FairPriceCalculator F : clear implicits.

(** ** The service *)
Section pricer.
Context {F : Type} `{!BaseFactor F}.
(** glaze's JSON writer for a [FairPriceMsg]; [None] is its error code. *)
Context (write_json : string -> FairPriceData -> option string).
(** Successive [get_curr_tstamp_ns()] readings. *)
Context (clock : nat -> Z).

Record PricerConfig := { mode : FairPriceMode; pc_products : list ProductSpec }.

Record PricerProduct := {
  market : MarketState; calculator : FairPriceCalculator F; book_seen : bool }.

Inductive PricerOutput :=
  | PSubscribe (product : string) (c : Category)
  | PBroadcast (product : string) (json : string).

Record Pricer := {
  pz_products : gmap string PricerProduct; pz_connected : bool;
  pz_clk : nat; pz_out : list PricerOutput }.

(** The constructor: one calculator per configured product; [None] is the exception for
    an unknown factor name. *)
Fixpoint build_products (m : FairPriceMode) (make_factor : option F) (specs : list ProductSpec)
    (acc : gmap string PricerProduct) : option (gmap string PricerProduct) :=
  match specs with
  | [] => Some acc
  | spec :: specs =>
      let add f := build_products m make_factor specs
        (<[spec_product spec := {| market := MarketState_default;
             calculator := {| calc_mode := m; calc_factor := f |};
             book_seen := false |}]> acc) in
      if decide (m = FACTOR) then
        match make_factor with Some f => add (Some f) | None => None end
      else add None
  end.
Definition Pricer_new (c : PricerConfig) (make_factor : option F) : option Pricer :=
  (fun ps => {| pz_products := ps; pz_connected := false; pz_clk := 0; pz_out := [] |})
    <$> build_products (mode c) make_factor (pc_products c) ∅.

Abbreviation PM := (st Pricer).

Definition pz_emit (o : PricerOutput) : PM unit := modify (fun w =>
  {| pz_products := pz_products w; pz_connected := pz_connected w; pz_clk := pz_clk w;
     pz_out := pz_out w ++ [o] |}).
Definition pz_now : PM Z := fun w =>
  (clock (pz_clk w), {| pz_products := pz_products w; pz_connected := pz_connected w;
                        pz_clk := S (pz_clk w); pz_out := pz_out w |}).
Definition pz_put (product : string) (p : PricerProduct) : PM unit := modify (fun w =>
  {| pz_products := <[product := p]> (pz_products w); pz_connected := pz_connected w;
     pz_clk := pz_clk w; pz_out := pz_out w |}).
Definition pz_set_connected (b : bool) : PM unit := modify (fun w =>
  {| pz_products := pz_products w; pz_connected := b; pz_clk := pz_clk w;
     pz_out := pz_out w |}).

Definition pz_on_listener_status (c : PricerConfig) (u : ListenerStatusUpdate) : PM unit :=
  w ← gets id;
  when (negb (pz_connected w) && ls_connected u)
    (for_each (pc_products c) (fun spec =>
       pz_emit (PSubscribe (spec_product spec) (spec_category spec)))) ;;
  pz_set_connected (ls_connected u).

(** One side of the top of book: price and quantity in exchange units. *)
Definition pz_top (book : list OrderbookLevel) : double * double :=
  match book with
  | {| lvl_price := Some p; lvl_qty := q |} :: _ => (p, value_or fzero q)
  | _ => (fnan, fzero)
  end.

Definition pz_on_orderbook (product : string) (data : OrderbookData) : PM unit :=
  w ← gets id;
  match pz_products w !! product with
  | None => mret tt
  | Some p =>
      t ← pz_now;
      let '(bp, bq) := pz_top (bid_book data) in
      let '(ap, aq) := pz_top (ask_book data) in
      let m := market p in
      pz_put product {| market := {| ms_ts := t; ms_bbid_price := bp; ms_bask_price := ap;
          ms_bbid_qty := bq; ms_bask_qty := aq; ms_last_trade_price := ms_last_trade_price m;
          ms_cum_trade_qty := ms_cum_trade_qty m;
          ms_cum_buy_trade_qty := ms_cum_buy_trade_qty m |};
        calculator := calculator p; book_seen := true |}
  end.

Definition pz_on_trade (product : string) (data : TradeData) : PM unit :=
  w ← gets id;
  match pz_products w !! product with
  | None => mret tt
  | Some p =>
      t ← pz_now;
      let m := market p in
      pz_put product {| market := {| ms_ts := t; ms_bbid_price := ms_bbid_price m;
          ms_bask_price := ms_bask_price m; ms_bbid_qty := ms_bbid_qty m;
          ms_bask_qty := ms_bask_qty m;
          ms_last_trade_price := value_or (ms_last_trade_price m) (trade_price data);
          ms_cum_trade_qty := value_or (ms_cum_trade_qty m) (cum_trade_qty data);
          ms_cum_buy_trade_qty := value_or (ms_cum_buy_trade_qty m) (cum_buy_trade_qty data) |};
        calculator := calculator p; book_seen := book_seen p |}
  end.

Definition pz_process_market_data (r : MarketDataResponse) : PM unit :=
  match md_data r with
  | Orderbook d => pz_on_orderbook (md_product r) d
  | Trade d => pz_on_trade (md_product r) d
  | _ => mret tt
  end.

(** The market as a publish tick stamps it. *)
Definition stamped (t : Z) (m : MarketState) : MarketState :=
  {| ms_ts := t; ms_bbid_price := ms_bbid_price m; ms_bask_price := ms_bask_price m;
     ms_bbid_qty := ms_bbid_qty m; ms_bask_qty := ms_bask_qty m;
     ms_last_trade_price := ms_last_trade_price m; ms_cum_trade_qty := ms_cum_trade_qty m;
     ms_cum_buy_trade_qty := ms_cum_buy_trade_qty m |}.

(** The payload of a [FairPriceMsg]. *)
Definition fair_price_data (t : Z) (r : FairPriceResult) : FairPriceData :=
  {| fpd_ts := t; fpd_fair_price := Some (res_fair_price r);
     fpd_factor := if is_nan (res_factor r) then None else Some (res_factor r);
     fpd_forward_vol_bp := res_forward_vol_bp r |}.

Definition publish_fair_price (product : string) : PM unit :=
  w ← gets id;
  match pz_products w !! product with
  | None => mret tt
  | Some p =>
      if negb (pz_connected w) then mret tt
      else if negb (book_seen p) then mret tt
      else
        t ← pz_now;
        let m := stamped t (market p) in
        let '(r, calc) := calc_compute m (calculator p) in
        pz_put product {| market := m; calculator := calc; book_seen := book_seen p |} ;;
        if negb (priceable r) then mret tt
        else match write_json product (fair_price_data (ms_ts m) r) with
             | None => mret tt
             | Some json => pz_emit (PBroadcast product json)
             end
  end.

Inductive PricerTask :=
  | PTListenerStatus (u : ListenerStatusUpdate)
  | PTListenerSubscribe (u : ListenerSubscribeUpdate)
  | PTMarketData (r : MarketDataResponse)
  | PTFairPriceUpdate (product : string).

(** One turn of [Pricer::run], on the task it dequeued. *)
Definition pricer_run (c : PricerConfig) (task : PricerTask) : PM unit :=
  match task with
  | PTListenerStatus u => pz_on_listener_status c u
  | PTListenerSubscribe _ => mret tt
  | PTMarketData r => pz_process_market_data r
  | PTFairPriceUpdate product => publish_fair_price product
  end.
End pricer.

(** ** The calculator *)
Lemma two_sided_pos m :
  has_two_sided_book m = true -> fpos (ms_bbid_price m) = true /\ fpos (ms_bask_price m) = true.
Proof. unfold has_two_sided_book. intros. zify_bools. done. Qed.

Lemma mid_not_nan m : has_two_sided_book m = true -> is_nan (ms_mid_price m) = false.
Proof.
  intros [Hb Ha]%two_sided_pos. unfold ms_mid_price. apply fdiv_not_nan; [|done..].
  apply fadd_nonneg_not_nan; by apply fpos_nonneg.
Qed.

Section calculator_spec.
Context {F : Type} `{!BaseFactor F}.

(** The prices the three modes stand for, written out: the mean of the best prices, each
    weighted by the size on the other side, where that is a number; and the factor, where
    there is a finite one. *)
Definition weighted_price (m : MarketState) : option double :=
  let size := fadd (ms_bbid_qty m) (ms_bask_qty m) in
  let price := fdiv (fadd (fmul (ms_bbid_price m) (ms_bask_qty m))
                          (fmul (ms_bask_price m) (ms_bbid_qty m))) size in
  if fpos size && negb (is_nan price) then Some price else None.
Definition usable_factor (m : MarketState) (c : FairPriceCalculator F) : option (double * F) :=
  f ← calc_factor c;
  match compute m f with
  | (Some v, f') => if is_finite v then Some (v, f') else None
  | (None, _) => None
  end.

Lemma calc_vwap m : (let vwap := compute_vwap m in if is_nan vwap then ms_mid_price m else vwap) =
  default (ms_mid_price m) (weighted_price m).
Proof.
  unfold compute_vwap, weighted_price. cbv zeta. destruct (fpos _); [|done]. cbn [negb andb].
  by destruct (is_nan _).
Qed.

(** C25: The calculator's contract, for every mode and every factor.  A half-empty book is
    not priceable and does not disturb the factor.  On a two-sided book the mid is always
    reported, and the fair price is: in MID mode the mid; in VWAP mode the best prices each
    weighted by the other side's size, or the mid when that is not a number; in FACTOR mode
    the factor times the mid, reported with the factor and its spread multiplier, or the mid
    alone when there is no finite factor.  MID and VWAP (and FACTOR, when the mid is a finite
    number) always produce a price, a price without a usable factor is never scaled by a
    spread estimate, and the spread multiplier that goes out is always a positive finite
    number. *)
Theorem calc_compute_contract (m : MarketState) (c : FairPriceCalculator F) :
  let '(r, c') := calc_compute m c in
  calc_mode c' = calc_mode c /\
  is_finite (res_forward_vol_bp r) && fpos (res_forward_vol_bp r) = true /\
  (is_nan (res_factor r) = true -> res_forward_vol_bp r = fone) /\
  (calc_mode c <> FACTOR -> res_factor r = fnan /\ c' = c) /\
  if has_two_sided_book m then
    res_mid_price r = ms_mid_price m /\
    match calc_mode c with
    | MID => res_fair_price r = ms_mid_price m
    | VWAP => res_fair_price r = default (ms_mid_price m) (weighted_price m)
    | FACTOR =>
        match usable_factor m c with
        | Some (v, f) =>
            res_factor r = v /\ res_fair_price r = fmul v (ms_mid_price m) /\ calc_factor c' = Some f /\
            (is_finite (factor_forward_vol_bp f) && fpos (factor_forward_vol_bp f) = true ->
             res_forward_vol_bp r = factor_forward_vol_bp f)
        | None => res_factor r = fnan /\ res_fair_price r = ms_mid_price m
        end
    end /\
    (calc_mode c <> FACTOR \/ is_finite (ms_mid_price m) = true -> priceable r = true)
  else priceable r = false /\ c' = c.
Proof.
  unfold calc_compute. destruct (has_two_sided_book m) eqn:Ht; [|by split_and!].
  pose proof (mid_not_nan m Ht) as Hm. cbn [negb]. cbv zeta.
  assert (forall x, is_nan x = false -> priceable {| res_mid_price := ms_mid_price m;
    res_fair_price := x; res_factor := fnan; res_forward_vol_bp := fone |} = true) as Hp
    by (intros x Hx; unfold priceable; cbn [res_fair_price]; by rewrite Hx).
  destruct (calc_mode c) eqn:Em.
  - split_and!; naive_solver.
  - split_and!; try (done || intros; by rewrite Em in *); [apply calc_vwap|].
    intros _. apply Hp. by destruct (is_nan (compute_vwap m)) eqn:E.
  - unfold usable_factor, run_factor. destruct (calc_factor c) as [f0|]; cbn [mbind option_bind];
      [|split_and!; cbn; by (done || naive_solver)].
    destruct (compute m f0) as [[v|] f]; cbn [mbind option_bind]; [|split_and!; cbn; by (done || naive_solver)].
    destruct (is_finite v) eqn:Ev; [|split_and!; cbn; by (done || naive_solver)].
    pose proof (is_finite_not_nan _ Ev) as Hv.
    split_and!; cbn [res_forward_vol_bp res_factor res_fair_price res_mid_price calc_mode calc_factor];
      try done.
    + by destruct (is_finite (factor_forward_vol_bp f) && fpos (factor_forward_vol_bp f)) eqn:E.
    + by rewrite Hv.
    + by intros ->.
    + intros [|Hf]; [done|]. unfold priceable. cbn [res_fair_price].
      by rewrite fmul_finite_not_nan.
Qed.
End calculator_spec.

(** ** The microprice factor *)
Lemma std_clamp_range v lo hi :
  is_nan v = false -> fle lo hi = true ->
  fle lo (std_clamp v lo hi) = true /\ fle (std_clamp v lo hi) hi = true.
Proof.
  intros Hv Hle. destruct (fle_not_nan _ _ Hle) as [Hl Hh]. unfold std_clamp.
  destruct (flt v lo) eqn:E1; [split; [by apply fle_refl|done]|].
  destruct (flt hi v) eqn:E2; [split; [done|by apply fle_refl]|].
  split; by apply flt_false_fle.
Qed.

Lemma std_clamp_nan lo hi : std_clamp fnan lo hi = fnan.
Proof. unfold std_clamp. by rewrite flt_nan_l, flt_nan_r. Qed.

(** Without smoothing the factor never pulls the price further from mid than the
    configured cap: what [compute] returns lies in [1 - cap, 1 + cap], whatever the book
    and whatever [pow] returns, as long as the raw ratio is a number. *)
Theorem microprice_capped pow f m v f' :
  fle fone (ema_alpha (mp_base f)) = true ->
  fle (fsub fone (fdiv (cap_bp (mp_base f)) f10000))
      (fadd fone (fdiv (cap_bp (mp_base f)) f10000)) = true ->
  microprice_compute pow m f = (Some v, f') ->
  is_nan v = true \/
  (fle (fsub fone (fdiv (cap_bp (mp_base f)) f10000)) v = true /\
   fle v (fadd fone (fdiv (cap_bp (mp_base f)) f10000)) = true).
Proof.
  intros Ha Hcap. unfold microprice_compute.
  destruct (microprice_raw pow (mp_params f) m) as [raw|]; [|done].
  unfold apply_ema. rewrite Ha. intros [= <- _].
  assert (match ema_factor (mp_base f) with Some _ | None => clamp_factor (mp_base f) raw end
    = clamp_factor (mp_base f) raw) as -> by (by destruct (ema_factor (mp_base f))).
  unfold clamp_factor. destruct (is_nan raw) eqn:En.
  - left. apply is_nan_true in En as ->. by rewrite std_clamp_nan.
  - right. by apply std_clamp_range.
Qed.

(** One unusable sample disables a smoothed factor for good: once the running average
    is NaN every later [compute] returns NaN and keeps it, so the calculator quotes plain
    mid from then on although the book is fine. *)
Theorem ema_nan_sticks pow f m :
  ema_factor (mp_base f) = Some fnan ->
  fle fone (ema_alpha (mp_base f)) = false ->
  let '(v, f') := microprice_compute pow m f in
  (v = None \/ v = Some fnan) /\ ema_factor (mp_base f') = Some fnan /\
  ema_alpha (mp_base f') = ema_alpha (mp_base f).
Proof.
  intros He Ha. unfold microprice_compute.
  destruct (microprice_raw pow (mp_params f) m) as [raw|]; [|by split_and!; [left|..]].
  unfold apply_ema. rewrite He, Ha, fmul_nan_r, fadd_nan_r. split_and!; [by right|done..].
Qed.

(** ** The service *)
Section service.
Context {F : Type} `{!BaseFactor F}.
Context (write_json : string -> FairPriceData -> option string) (clock : nat -> Z).
Context (c : PricerConfig).

Abbreviation Pz := (@Pricer F).

(** Handle a list of tasks in order. *)
Definition pricer_feed (tasks : list PricerTask) (w : Pz) : Pz :=
  foldl (fun w t => (pricer_run write_json clock c t w).2) w tasks.

Definition reports_up (t : PricerTask) : bool :=
  match t with PTListenerStatus u => ls_connected u | _ => false end.

(** A link that is down stays down, and nothing goes out. *)
Definition muted (w w' : Pz) : Prop :=
  pz_connected w = false -> pz_connected w' = false /\ pz_out w' = pz_out w.

Lemma run_muted t w :
  reports_up t = false -> muted w (pricer_run write_json clock c t w).2.
Proof.
  intros Ht Hw. destruct t as [u|u|r|p]; simpl in *; [|done|..].
  - unfold pz_on_listener_status, mbind, st_bind. cbn [gets fst snd id].
    rewrite Hw, Ht. cbn. done.
  - unfold pz_process_market_data. destruct (md_data r) as [d|d|d|d|d|]; try done.
    + unfold pz_on_orderbook, mbind, st_bind. cbn [gets fst snd id].
      destruct (pz_products w !! _); [|done]. cbn. by destruct (pz_top _), (pz_top _).
    + unfold pz_on_trade, mbind, st_bind. cbn [gets fst snd id].
      by destruct (pz_products w !! _).
  - unfold publish_fair_price, mbind, st_bind. cbn [gets fst snd id].
    destruct (pz_products w !! _); [|done]. by rewrite Hw.
Qed.

(** With the listener link down the pricer goes quiet: whatever market data still sits
    on its queue and however often the publish timer fires, nothing is broadcast until the
    link is reported up again. *)
Theorem pricer_silent_while_down tasks w :
  pz_connected w = false -> Forall (fun t => reports_up t = false) tasks ->
  pz_out (pricer_feed tasks w) = pz_out w.
Proof.
  revert w. induction tasks as [|t tasks IH]; intros w Hw Ht; [done|].
  apply Forall_cons in Ht as [Ht Hts]. destruct (run_muted t w Ht Hw) as [Hw' Ho].
  unfold pricer_feed in *. simpl. by rewrite IH, Ho.
Qed.

(** A publish tick right after a reconnect broadcasts the book of before the outage: the
    seen flag and the market survive the down/up transition, so the first message is
    priced off the frozen book and stamped with the present, which is what the trader's
    age check trusts. *)
Theorem reconnect_publishes_frozen_book product p w json :
  pz_products w !! product = Some p -> book_seen p = true ->
  let t := clock (pz_clk w) in
  let r := (calc_compute (stamped t (market p)) (calculator p)).1 in
  priceable r = true -> write_json product (fair_price_data t r) = Some json ->
  PBroadcast product json ∈ pz_out (pricer_feed
    [PTListenerStatus {| ls_connecting := false; ls_connected := false |};
     PTListenerStatus {| ls_connecting := false; ls_connected := true |};
     PTFairPriceUpdate product] w).
Proof.
  cbv zeta. intros Hp Hs Hr Hj.
  assert (forall l w0, (for_each l (fun spec => pz_emit (F := F)
    (PSubscribe (spec_product spec) (spec_category spec))) w0).2 =
    {| pz_products := pz_products w0; pz_connected := pz_connected w0; pz_clk := pz_clk w0;
       pz_out := pz_out w0 ++ map (fun spec => PSubscribe (spec_product spec) (spec_category spec)) l |})
    as Hl.
  { induction l as [|a l IH]; intros w0; simpl.
    - rewrite app_nil_r. by destruct w0.
    - unfold mbind, st_bind. rewrite IH. simpl. by rewrite <- app_assoc. }
  unfold pricer_feed. cbn [foldl pricer_run]. unfold pz_on_listener_status, mbind, st_bind.
  cbn [gets fst snd id ls_connected when]. rewrite andb_false_r. cbn [when].
  unfold mret, st_ret, pz_set_connected, modify. cbn [fst snd pz_connected negb andb when].
  rewrite Hl. unfold publish_fair_price, mbind, st_bind.
  cbn [gets fst snd id pz_products pz_connected pz_clk pz_out negb]. rewrite Hp, Hs. cbn [negb].
  unfold pz_now, pz_put, modify. cbn [fst snd pz_products pz_connected pz_clk pz_out].
  destruct (calc_compute _ _) as [r calc]. cbn [fst snd] in *. rewrite Hr. cbn [negb ms_ts stamped].
  rewrite Hj. cbn. set_solver.
Qed.
End service.

(** ** Concrete runs *)
Module SamplePricer.
Definition fconf (alpha : Z) : FactorConfig :=
  {| factor_name := "Microprice"; fc_ema_alpha := fdiv (of_Z alpha) (of_Z 10); fc_cap_bp := of_Z 20 |}.
(** [pow(x, 1)], and a [pow] that overflowed. *)
Definition pow1 : double -> double -> double := fun x _ => x.
Definition pow_inf : double -> double -> double := fun _ _ => S754_infinity false.
Definition factor (alpha : Z) : MicropriceFactor :=
  {| mp_base := BaseFactor_new (fconf alpha); mp_params := {| imbalance_exponent := fone |} |}.
Definition book : MarketState := {|
  ms_ts := 5; ms_bbid_price := of_Z 99; ms_bask_price := of_Z 101; ms_bbid_qty := of_Z 3;
  ms_bask_qty := of_Z 1; ms_last_trade_price := fnan; ms_cum_trade_qty := fnan;
  ms_cum_buy_trade_qty := fnan |}.
Definition conf : PricerConfig :=
  {| mode := VWAP; pc_products := [{| spec_product := "BTC"; spec_category := futures |}] |}.
Definition json (product : string) (_ : FairPriceData) : option string := Some product.
Definition product : PricerProduct (F := MicropriceFactor) := {|
  market := book; book_seen := true;
  calculator := {| calc_mode := VWAP; calc_factor := None |} |}.
Definition world : Pricer (F := MicropriceFactor) := {|
  pz_products := <["BTC" := product]> ∅;
  pz_connected := true; pz_clk := 0; pz_out := [] |}.
End SamplePricer.

(** The bid-heavy book leans up: 1.005, capped at 20 bp to 1.002. *)
Lemma microprice_capped_witness :
  exists v f', microprice_compute SamplePricer.pow1 SamplePricer.book (SamplePricer.factor 10)
    = (Some v, f') /\
  (is_nan v = true \/
   (fle (fsub fone (fdiv (of_Z 20) f10000)) v = true /\
    fle v (fadd fone (fdiv (of_Z 20) f10000)) = true)).
Proof.
  eexists _, _. split; [vm_compute; reflexivity|].
  apply (microprice_capped SamplePricer.pow1 (SamplePricer.factor 10) SamplePricer.book
    _ (microprice_compute SamplePricer.pow1 SamplePricer.book (SamplePricer.factor 10)).2);
    vm_compute; reflexivity.
Defined.

(** A [pow] that overflows poisons the average; the next, sane book cannot mend it. *)
Lemma ema_nan_sticks_witness :
  let f := (microprice_compute SamplePricer.pow_inf SamplePricer.book (SamplePricer.factor 2)).2 in
  ema_factor (mp_base f) = Some fnan /\
  let '(v, f') := microprice_compute SamplePricer.pow1 SamplePricer.book f in
  (v = None \/ v = Some fnan) /\ ema_factor (mp_base f') = Some fnan /\
  ema_alpha (mp_base f') = ema_alpha (mp_base f).
Proof.
  cbv zeta. split; [vm_compute; reflexivity|].
  apply (ema_nan_sticks SamplePricer.pow1
    (microprice_compute SamplePricer.pow_inf SamplePricer.book (SamplePricer.factor 2)).2
    SamplePricer.book); vm_compute; reflexivity.
Defined.

#[local] Existing Instance Microprice.

Lemma pricer_silent_while_down_witness :
  pz_out (pricer_feed (F := MicropriceFactor)
    (BaseFactor0 := Microprice SamplePricer.pow1) SamplePricer.json Z.of_nat SamplePricer.conf
    [PTFairPriceUpdate "BTC"; PTFairPriceUpdate "BTC"]
    {| pz_products := pz_products SamplePricer.world; pz_connected := false; pz_clk := 0;
       pz_out := [] |}) = [].
Proof.
  apply (pricer_silent_while_down (F := MicropriceFactor)
    (BaseFactor0 := Microprice SamplePricer.pow1)); [reflexivity|].
  repeat constructor.
Defined.

Lemma reconnect_publishes_frozen_book_witness :
  PBroadcast "BTC" "BTC" ∈ pz_out (pricer_feed (F := MicropriceFactor)
    (BaseFactor0 := Microprice SamplePricer.pow1) SamplePricer.json Z.of_nat SamplePricer.conf
    [PTListenerStatus {| ls_connecting := false; ls_connected := false |};
     PTListenerStatus {| ls_connecting := false; ls_connected := true |};
     PTFairPriceUpdate "BTC"] SamplePricer.world).
Proof.
  refine (reconnect_publishes_frozen_book (F := MicropriceFactor)
    (BaseFactor0 := Microprice SamplePricer.pow1) SamplePricer.json Z.of_nat SamplePricer.conf
    "BTC" SamplePricer.product SamplePricer.world "BTC" _ _ _ _);
    vm_compute; reflexivity.
Defined.
