(* ===== verification/PriceLink.v ===== *)
(** * PriceLink: the pricer's messages, as the trader uses them

    The two processes meet in one message, [FairPriceData]: the pricer's calculator fills
    it ([Pricer.fair_price_data]), the trader's [on_fair_price] stores it and
    [build_price_info] turns it into the price the strategy quotes around. *)
From S2P Require Import Prelude Double Messages Strategy OrderState OrderHandler OrderFrame Pricer.

Section link.
Context (env : Env) (cfg : HandlerConfig).

(** The price picture of product [p] as the next decision would build it. *)
Definition price_info_of (p : string) (w : World) : PriceInfo :=
  (build_price_info env cfg (state_of p (hs w)) w).1.

(** What the handler keeps of a message for a product it trades. *)
Lemma on_fair_price_state p d w s :
  product_states (hs w) !! p = Some s ->
  fair_price_state (state_of p (hs (on_fair_price p d w).2)) =
    {| fps_ts := fpd_ts d; fps_fair_price := value_or fnan (fpd_fair_price d);
       fps_factor := value_or fnan (fpd_factor d);
       fps_forward_vol_bp :=
         if is_finite (fpd_forward_vol_bp d) && fpos (fpd_forward_vol_bp d)
         then fpd_forward_vol_bp d else fone |}.
Proof.
  intros Hp. unfold on_fair_price. run_w. rewrite Hp.
  unfold state_of, upd_product, set_product_states. simpl. by rewrite lookup_alter_eq, Hp.
Qed.

(** The price the strategy quotes around is the trader's own mid, unless the pricer sent
    a finite factor recently enough, in which case it is exactly that factor times the mid
    (and the pricer's spread multiplier goes with it): nothing older than the configured
    age, and nothing but the factor, ever moves a quote. *)
Theorem price_info_provenance p w :
  let pi := price_info_of p w in
  let f := fair_price_state (state_of p (hs w)) in
  (fair_price pi = mid_price pi /\ applied_factor pi = fnan /\ forward_vol_bp pi = fone) \/
  (applied_factor pi = fps_factor f /\ is_finite (fps_factor f) = true /\
   fair_price pi = fmul (fps_factor f) (mid_price pi) /\
   forward_vol_bp pi = fps_forward_vol_bp f /\ is_nan (fps_fair_price f) = false /\
   (0 < fair_price_max_age_ns cfg ->
    clk env (clk_i w) - fps_ts f <= fair_price_max_age_ns cfg)).
Proof.
  cbv zeta. unfold price_info_of, build_price_info.
  set (s := state_of p (hs w)). set (f := fair_price_state s).
  destruct ((l1_bbid_price (l1 s) =? -1) || (l1_bask_price (l1 s) =? -1)); [by left|].
  run_w. destruct (is_nan (fps_fair_price f)) eqn:En; cbn [fst snd].
  { left. by cbn. }
  destruct (fair_price_max_age_ns cfg <=? 0) eqn:Ea; cbn [fst snd andb].
  - destruct (is_finite (fps_factor f)) eqn:Ef; [right|by left].
    split_and!; try done. zify_bools. lia.
  - destruct (_ - _ <=? _) eqn:Et; cbn [fst snd andb]; [|by left].
    destruct (is_finite (fps_factor f)) eqn:Ef; [right|by left].
    split_and!; try done. by zify_bools.
Qed.

(** A VWAP price never reaches a quote.  In VWAP (and MID) mode the calculator's message
    carries a price and no factor, and the trader applies only factors: after any such
    message the strategy is handed its own mid, however far the published price is from
    it. *)
Theorem vwap_price_is_ignored {F} `{!BaseFactor F} p t m (c : FairPriceCalculator F) w s :
  calc_mode c <> FACTOR ->
  product_states (hs w) !! p = Some s ->
  let d := fair_price_data t (calc_compute m c).1 in
  let pi := price_info_of p (on_fair_price p d w).2 in
  fair_price pi = mid_price pi /\ applied_factor pi = fnan.
Proof.
  intros Hm Hp d pi. assert (fpd_factor d = None) as Hd.
  { unfold d, fair_price_data. cbn [fpd_factor]. unfold calc_compute.
    destruct (has_two_sided_book m); [|done]. cbn [negb]. by destruct (calc_mode c). }
  destruct (price_info_provenance p (on_fair_price p d w).2) as [(?&?&?)|H]; [done|].
  exfalso. destruct H as (_&Hf&_). revert Hf.
  by rewrite (on_fair_price_state p d w s Hp), Hd.
Qed.
End link.

(** On this book VWAP prices 100.5 against a mid of 100; the trader's picture is its own
    mid (10000) either way. *)
Lemma vwap_price_is_ignored_witness :
  let d := fair_price_data 7 (calc_compute (BaseFactor0 := Microprice SamplePricer.pow1)
             SamplePricer.book (calculator SamplePricer.product)).1 in
  let pi := price_info_of (SampleTrader.env []) SampleTrader.cfg "BTC"
              (on_fair_price "BTC" d SampleTrader.quoting).2 in
  (fpd_fair_price d = Some (fdiv (of_Z 201) (of_Z 2)) /\ mid_price pi = of_Z 10000) /\
  fair_price pi = mid_price pi /\ applied_factor pi = fnan.
Proof.
  cbv zeta. split; [vm_compute; by split|].
  apply (vwap_price_is_ignored (SampleTrader.env []) SampleTrader.cfg
    (BaseFactor0 := Microprice SamplePricer.pow1) "BTC" 7 SamplePricer.book
    (calculator SamplePricer.product) SampleTrader.quoting
    (state_of "BTC" (hs SampleTrader.quoting))); [done|vm_compute; reflexivity].
Defined.
