(* ===== verification/Framing.v ===== *)
(** * Framing: the line protocol of the internal TCP links, and the session's writer

    Both ends of a link frame messages the same way: one JSON text per line.
    [on_read] is the read callback shared by [TcpSession::do_read] and
    [TcpClientBase::do_read]; the second half is [TcpSession]'s write queue
    ([send_message], [do_write], the completion handler, [close]) as a step relation, its
    callbacks interleaving in any order, over a queue that keeps the order of each sending
    thread and no other. *)
From Stdlib Require Import Ascii.
From S2P Require Import Prelude MpQueue Double Messages Text.

#[local] Arguments String.append !s1 s2 / : simpl nomatch.

Definition newline : ascii := "010"%char.
Definition frame (m : string) : string := (m +:+ String newline "")%string.
Definition frames (ms : list string) : string := foldr (fun m s => frame m +:+ s)%string ""%string ms.

(** ** The reader *)

(** The [while (find('\n') != npos)] loop on the accumulated text: the non-empty lines to
    handle, in order, and what stays in the buffer. *)
Fixpoint take_lines (fuel : nat) (buf : string) : list string * string :=
  match fuel with
  | O => ([], buf)
  | S fuel =>
      match split_at newline buf with
      | None => ([], buf)
      | Some (line, rest) =>
          let '(ls, kept) := take_lines fuel rest in
          ((if decide (line = ""%string) then ls else line :: ls), kept)
      end
  end.

(** One read: append the chunk, hand out every complete line. *)
Definition on_read (buf chunk : string) : list string * string :=
  let text := (buf +:+ chunk)%string in take_lines (String.length text) text.

(** A connection's worth of reads. *)
Fixpoint read_all (buf : string) (chunks : list string) : list string * string :=
  match chunks with
  | [] => ([], buf)
  | c :: cs =>
      let '(ls, buf) := on_read buf c in
      let '(ls', buf) := read_all buf cs in
      (ls ++ ls', buf)
  end.

(** ** Reader lemmas *)
Lemma split_at_length c s l r :
  split_at c s = Some (l, r) -> (String.length r < String.length s)%nat.
Proof.
  revert l. induction s as [|a s IH]; intros l; simpl; [done|].
  destruct (Ascii.eqb a c); [intros [= _ ->]; lia|].
  destruct (split_at c s) as [[l' r']|]; [|done]. intros [= _ <-].
  specialize (IH l' eq_refl). lia.
Qed.

Lemma split_at_extend c s t l r :
  split_at c s = Some (l, r) -> split_at c (s +:+ t)%string = Some (l, (r +:+ t)%string).
Proof.
  revert l. induction s as [|a s IH]; intros l; simpl; [done|].
  destruct (Ascii.eqb a c); [by intros [= <- <-]|].
  destruct (split_at c s) as [[l' r']|]; [|done]. intros [= <- <-].
  by rewrite (IH l' eq_refl).
Qed.

(** Enough fuel is the length of the buffer. *)
Lemma take_lines_fuel n m s :
  (String.length s <= n)%nat -> (String.length s <= m)%nat -> take_lines n s = take_lines m s.
Proof.
  revert m s. induction n as [|n IH]; intros m s Hn Hm.
  - destruct s; [|simpl in Hn; lia]. by destruct m.
  - destruct m as [|m]; [destruct s; [done|simpl in Hm; lia]|]. simpl.
    destruct (split_at newline s) as [[l r]|] eqn:E; [|done].
    pose proof (split_at_length _ _ _ _ E). rewrite (IH m); [done|lia..].
Qed.

(** All lines of a text at once. *)
Definition lines (s : string) : list string * string := take_lines (String.length s) s.

Lemma lines_step s :
  lines s = match split_at newline s with
            | None => ([], s)
            | Some (l, r) =>
                let '(ls, kept) := lines r in
                ((if decide (l = ""%string) then ls else l :: ls), kept)
            end.
Proof.
  unfold lines. destruct (split_at newline s) as [[l r]|] eqn:E.
  - pose proof (split_at_length _ _ _ _ E) as Hl.
    destruct (String.length s) as [|n] eqn:En; [lia|]. cbn [take_lines]. rewrite E.
    by rewrite (take_lines_fuel n (String.length r)) by lia.
  - destruct (String.length s); simpl; [done|]. by rewrite E.
Qed.

Lemma lines_app_fuel n a b :
  (String.length a <= n)%nat ->
  lines (a +:+ b)%string = let '(la, ra) := lines a in
                           let '(lb, rb) := lines (ra +:+ b)%string in (la ++ lb, rb).
Proof.
  revert a. induction n as [|n IH]; intros a Hn.
  - destruct a; [|simpl in Hn; lia]. simpl. by destruct (lines b).
  - rewrite (lines_step a). destruct (split_at newline a) as [[l r]|] eqn:E.
    + rewrite lines_step, (split_at_extend _ _ _ _ _ E), (IH r).
      2: { pose proof (split_at_length _ _ _ _ E). lia. }
      destruct (lines r) as [la ra], (lines (ra +:+ b)%string) as [lb rb].
      by destruct (decide (l = ""%string)).
    + by destruct (lines (a +:+ b)%string).
Qed.

Lemma lines_app a b :
  lines (a +:+ b)%string = let '(la, ra) := lines a in
                           let '(lb, rb) := lines (ra +:+ b)%string in (la ++ lb, rb).
Proof. by apply (lines_app_fuel (String.length a)). Qed.

(** [lines] leaves nothing to read in what it leaves. *)
Lemma lines_rest_fuel n s : (String.length s <= n)%nat -> lines (lines s).2 = ([], (lines s).2).
Proof.
  revert s. induction n as [|n IH]; intros s Hn.
  - by destruct s; [|simpl in Hn; lia].
  - rewrite (lines_step s). destruct (split_at newline s) as [[l r]|] eqn:E.
    + pose proof (split_at_length _ _ _ _ E). specialize (IH r). destruct (lines r) as [ls kept].
      apply IH. lia.
    + cbn [snd]. by rewrite lines_step, E.
Qed.

Definition concat_chunks (chunks : list string) : string := foldr String.app ""%string chunks.

Lemma read_all_lines buf chunks :
  lines buf = ([], buf) -> read_all buf chunks = lines (buf +:+ concat_chunks chunks)%string.
Proof.
  revert buf. induction chunks as [|c cs IH]; intros buf Hb; simpl.
  - by rewrite string_app_nil_r, Hb.
  - rewrite <- string_app_assoc, lines_app. unfold on_read, lines at 1.
    change (take_lines _ _) with (lines (buf +:+ c)%string).
    pose proof (lines_rest_fuel _ (buf +:+ c)%string (le_n _)) as Hr.
    destruct (lines (buf +:+ c)%string) as [ls rest]. cbn [snd] in Hr. by rewrite IH.
Qed.

(** A message the framing can carry: not empty, no line break inside. *)
Definition clean (m : string) : Prop :=
  m <> ""%string /\ forall a, In a (String.list_ascii_of_string m) -> a <> newline.

Lemma lines_frame m s :
  clean m -> lines (frame m +:+ s)%string = let '(ls, r) := lines s in (m :: ls, r).
Proof.
  intros [Hne Hm]. unfold frame. rewrite string_app_assoc. simpl.
  rewrite lines_step, split_at_app by done. destruct (lines s).
  by destruct (decide (m = ""%string)).
Qed.

Lemma lines_frames ms : Forall clean ms -> lines (frames ms) = (ms, ""%string).
Proof.
  induction 1 as [|m ms Hm _ IH]; [done|]. simpl. by rewrite lines_frame, IH.
Qed.

(** The link's framing is a round trip: however TCP slices the byte stream of a list of
    messages, the reader hands out exactly those messages, in order, and keeps nothing
    back. *)
Theorem framing_round_trip ms chunks :
  Forall clean ms -> concat_chunks chunks = frames ms ->
  read_all "" chunks = (ms, ""%string).
Proof.
  intros Hms Hc. rewrite read_all_lines by done. simpl. rewrite Hc. by apply lines_frames.
Qed.

Lemma framing_round_trip_witness :
  read_all "" ["[1,"; "2]" +:+ String newline "[3"; "]" +:+ String newline ""]%string =
  (["[1,2]"; "[3]"]%string, ""%string).
Proof.
  apply framing_round_trip; [|vm_compute; reflexivity].
  repeat constructor; try discriminate; simpl;
    intros a Ha; repeat destruct Ha as [<-|Ha]; done.
Defined.

(** ** The writer of a [TcpSession]

    [send_message] runs on any thread: it enqueues, then posts a closure to the socket's
    executor.  The closure, the completion handler and [close] run on the executor.  The
    ghost list [ss_accepted] is everything [send_message] took, with the thread that sent
    it.  A dequeue comes first to the stream of any thread. *)
Record Session := {
  ss_active : bool; ss_writing : bool;
  ss_queue : list (Thread * string);   (* write_queue_ *)
  ss_inflight : option string;         (* write_buffer_, while its async_write is pending *)
  ss_posting : nat;                    (* send_message calls between enqueue and post *)
  ss_kicks : nat;                      (* posted closures that have not run yet *)
  ss_wire : list string;               (* buffers written, oldest first *)
  ss_accepted : list (Thread * string) }.
Definition Session_new : Session := {|
  ss_active := true; ss_writing := false; ss_queue := []; ss_inflight := None;
  ss_posting := 0; ss_kicks := 0; ss_wire := []; ss_accepted := [] |}.

Definition send_message (k : Thread) (m : string) (s : Session) : Session :=
  if ss_active s then
    {| ss_active := ss_active s; ss_writing := ss_writing s; ss_queue := mp_enqueue k m (ss_queue s);
       ss_inflight := ss_inflight s; ss_posting := S (ss_posting s); ss_kicks := ss_kicks s;
       ss_wire := ss_wire s; ss_accepted := ss_accepted s ++ [(k, m)] |}
  else s.

Definition set_writing (b : bool) (s : Session) : Session :=
  {| ss_active := ss_active s; ss_writing := b; ss_queue := ss_queue s;
     ss_inflight := ss_inflight s; ss_posting := ss_posting s; ss_kicks := ss_kicks s;
     ss_wire := ss_wire s; ss_accepted := ss_accepted s |}.

Definition do_write (first : Thread) (s : Session) : Session :=
  if ss_active s then
    match try_dequeue first (ss_queue s) with
    | None => set_writing false s
    | Some (_, m, q) =>
        {| ss_active := ss_active s; ss_writing := ss_writing s; ss_queue := q;
           ss_inflight := Some (frame m); ss_posting := ss_posting s; ss_kicks := ss_kicks s;
           ss_wire := ss_wire s; ss_accepted := ss_accepted s |}
    end
  else set_writing false s.

(** The posted closure: start a write unless one is already running. *)
Definition kick (first : Thread) (s : Session) : Session :=
  let s := {| ss_active := ss_active s; ss_writing := ss_writing s; ss_queue := ss_queue s;
    ss_inflight := ss_inflight s; ss_posting := ss_posting s; ss_kicks := pred (ss_kicks s);
    ss_wire := ss_wire s; ss_accepted := ss_accepted s |} in
  if ss_writing s then s else do_write first (set_writing true s).

Definition post_kick (s : Session) : Session :=
  {| ss_active := ss_active s; ss_writing := ss_writing s; ss_queue := ss_queue s;
     ss_inflight := ss_inflight s; ss_posting := pred (ss_posting s);
     ss_kicks := S (ss_kicks s); ss_wire := ss_wire s; ss_accepted := ss_accepted s |}.

Definition close_session (s : Session) : Session :=
  {| ss_active := false; ss_writing := ss_writing s; ss_queue := ss_queue s;
     ss_inflight := ss_inflight s; ss_posting := ss_posting s; ss_kicks := ss_kicks s;
     ss_wire := ss_wire s; ss_accepted := ss_accepted s |}.

(** The completion handler of the pending write, which reached the wire or failed. *)
Definition write_done (first : Thread) (ok : bool) (s : Session) : Session :=
  let s := {| ss_active := ss_active s; ss_writing := ss_writing s; ss_queue := ss_queue s;
    ss_inflight := None; ss_posting := ss_posting s; ss_kicks := ss_kicks s;
    ss_wire := if ok then ss_wire s ++ option_list (ss_inflight s) else ss_wire s;
    ss_accepted := ss_accepted s |} in
  if ok && ss_active s then do_write first s else close_session (set_writing false s).

Inductive session_step : Session -> Session -> Prop :=
  | sstep_send k m s : session_step s (send_message k m s)
  | sstep_post s : (0 < ss_posting s)%nat -> session_step s (post_kick s)
  | sstep_kick first s : (0 < ss_kicks s)%nat -> session_step s (kick first s)
  | sstep_written first ok b s : ss_inflight s = Some b -> session_step s (write_done first ok s)
  | sstep_close s : session_step s (close_session s).

(** The messages [taken] off the queue are written, lost to a failed write, or in flight, in
    the order they were taken; with what is queued they have the streams of what was
    accepted; a write is in flight exactly while [writing_] is set; and an open session
    with something queued has a write or a wake-up under way. *)
Record session_inv (s : Session) : Prop := {
  si_wire : exists taken lost,
    ss_wire s ++ lost ++ option_list (ss_inflight s) = map frame taken.*2 /\
    same_streams (taken ++ ss_queue s) (ss_accepted s) /\
    (ss_active s = true \/ is_Some (ss_inflight s) -> lost = []);
  si_inflight : ss_writing s = true <-> is_Some (ss_inflight s);
  si_awake : ss_active s = true -> ss_queue s <> [] ->
    ss_writing s = true \/ (0 < ss_posting s + ss_kicks s)%nat }.

Lemma do_write_inv first s taken lost :
  ss_wire s ++ lost = map frame taken.*2 ->
  same_streams (taken ++ ss_queue s) (ss_accepted s) ->
  (ss_active s = true -> lost = []) ->
  ss_inflight s = None -> session_inv (do_write first (set_writing true s)).
Proof.
  intros Hw Hs Hl Hi. unfold do_write, set_writing. cbn [ss_active ss_queue].
  destruct (ss_active s) eqn:Ea.
  2: { split; simpl; rewrite ?Hi, ?Ea; try done; try (by split; [|intros []]).
       exists taken, lost. rewrite app_nil_r. split_and!; [done..|]. by intros [|[]]. }
  rewrite Hl, app_nil_r in Hw by done.
  destruct (try_dequeue first (ss_queue s)) as [[[k m] q]|] eqn:Eq.
  - split; simpl; rewrite ?Ea; try done; [|by left].
    exists (taken ++ [(k, m)]), []. rewrite fmap_app, map_app, Hw. split_and!; [done| |done].
    rewrite <- app_assoc. simpl. by rewrite (try_dequeue_streams _ _ _ _ _ Eq).
  - apply try_dequeue_none in Eq. split; simpl; rewrite ?Hi, ?Ea, ?Eq; try done; try (by split; [|intros []]).
    exists taken, []. rewrite app_nil_r, Hw. rewrite Eq in Hs. by split_and!.
Qed.

Lemma session_step_inv s s' : session_step s s' -> session_inv s -> session_inv s'.
Proof.
  intros Hstep [(taken&lost&Hw&Hs&Hl) Hi Ha].
  destruct Hstep as [k m s|s Hp|first s Hk|first ok b s Hb|s].
  - unfold send_message. destruct (ss_active s) eqn:Ea;
      [|split; [exists taken, lost|..]; by rewrite ?Ea].
    split; simpl; rewrite ?Ea; try done; [|right; lia].
    exists taken, lost. split_and!; [done| |by auto].
    unfold mp_enqueue. by rewrite app_assoc, Hs.
  - split; simpl; eauto. intros H1 H2. destruct (Ha H1 H2); [by left|right; lia].
  - unfold kick. cbn [ss_writing]. destruct (ss_writing s) eqn:Ewr.
    + split; simpl; rewrite ?Ewr; eauto.
    + assert (ss_inflight s = None) as Hn.
      { apply eq_None_not_Some. by intros H%Hi. }
      rewrite Hn, app_nil_r in Hw. apply do_write_inv with taken lost; simpl; by auto.
  - assert (ss_writing s = true) as Ewr by (apply Hi; by eexists).
    rewrite (Hl (or_intror (mk_is_Some _ _ Hb))), Hb in Hw. simpl in Hw.
    unfold write_done. rewrite Hb. destruct ok; cbn [andb ss_active option_list].
    + destruct (ss_active s) eqn:Ea.
      * match goal with |- session_inv (do_write _ ?x) =>
          assert (x = set_writing true x) as -> by (unfold set_writing; cbn; by rewrite Ewr) end.
        apply do_write_inv with taken []; simpl; [by rewrite app_nil_r|done..].
      * split; simpl; try done; try (by split; [|intros []]).
        exists taken, []. by rewrite !app_nil_r.
    + split; simpl; try done; try (by split; [|intros []]).
      exists taken, [b]. split_and!; [done..|]. by intros [|[]].
  - split; simpl; try done. exists taken, lost. split_and!; [done..|]. intros [|?]; [done|by auto].
Qed.

Lemma session_reach_inv s : rtc session_step Session_new s -> session_inv s.
Proof.
  intros H. assert (session_inv Session_new) as H0.
  { split; simpl; try done; try (by exists [], []); by split; [|intros []]. }
  induction H as [|s1 s2 s3 Hs _ IH]; [done|]. by apply IH, (session_step_inv s1).
Qed.

Lemma concat_frames ms : concat_chunks (map frame ms) = frames ms.
Proof. induction ms as [|m ms IH]; [done|]. simpl. by rewrite <- IH. Qed.

(** Nothing is under way in the writer. *)
Definition quiet (s : Session) : Prop :=
  ss_active s = true /\ ss_posting s = 0%nat /\ ss_kicks s = 0%nat /\ ss_inflight s = None.

(** What is on the wire, and what of each thread's messages is not. *)
Lemma session_sent s :
  rtc session_step Session_new s ->
  exists sent left, same_streams (sent ++ left) (ss_accepted s) /\
    ss_wire s = map frame sent.*2 /\ (quiet s -> left = []).
Proof.
  intros Hr. destruct (session_reach_inv s Hr) as [(taken&lost&Hw&Hs&Hl) Hwr Ha].
  symmetry in Hw. apply map_eq_app in Hw as (ms&ms'&Hms&Hw&Hw').
  apply fmap_app_inv in Hms as (sent&rest&->&->&->).
  exists sent, (rest ++ ss_queue s). split_and!; [by rewrite app_assoc|done|].
  intros (Hact&Hp&Hk&Hn). rewrite (Hl (or_introl Hact)), Hn in Hw'. simpl in Hw'.
  destruct rest as [|x rest]; [|done].
  destruct (decide (ss_queue s = [])) as [->|Hq]; [done|].
  destruct (Ha Hact Hq) as [H|H]; [|lia]. apply Hwr in H as [? H]. by rewrite Hn in H.
Qed.

Lemma session_read s chunks :
  rtc session_step Session_new s -> Forall clean (ss_accepted s).*2 ->
  concat_chunks chunks = concat_chunks (ss_wire s) ->
  exists sent, read_all "" chunks = (sent.*2, ""%string) /\
    (forall k, from k sent `prefix_of` from k (ss_accepted s)) /\
    (quiet s -> same_streams sent (ss_accepted s)).
Proof.
  intros Hr Hc Hw. destruct (session_sent s Hr) as (sent&left&Hs&Hms&Hq). exists sent. split_and!.
  - rewrite read_all_lines, Hw, Hms, concat_frames by done. apply lines_frames.
    rewrite Forall_fmap in *. symmetry in Hs.
    apply (same_streams_Forall _ _ _ Hs) in Hc. by apply Forall_app in Hc as [? _].
  - intros k. rewrite <- (Hs k), from_app. by apply prefix_app_r.
  - intros H. by rewrite <- Hs, (Hq H), app_nil_r.
Qed.

(** C7: What a session sends is what its peer reads, in each sending thread's order.  In
    every reachable state of the writer -- sends from any threads, posted closures,
    completions, failures and closes in any order, each dequeue from any thread's stream --
    a reader of the bytes on the wire gets, however TCP slices them, a list of whole
    messages, of which each thread's are a prefix of what that thread sent: none is dropped
    in between, doubled, broken or moved before an earlier one of its thread.  An open
    session with nothing left to run has sent every thread's messages, all of them. *)
Theorem session_delivers_in_order s chunks :
  rtc session_step Session_new s ->
  Forall clean (ss_accepted s).*2 ->
  concat_chunks chunks = concat_chunks (ss_wire s) ->
  exists sent : list (Thread * string), read_all "" chunks = (sent.*2, ""%string) /\
    (forall k, from k sent `prefix_of` from k (ss_accepted s)) /\
    (ss_active s = true -> ss_posting s = 0%nat -> ss_kicks s = 0%nat -> ss_inflight s = None ->
     forall k, from k sent = from k (ss_accepted s)).
Proof.
  intros Hr Hc Hw. destruct (session_read s chunks Hr Hc Hw) as (sent&H1&H2&H3).
  exists sent. split_and!; [done..|]. intros. by apply H3.
Qed.

(** An acknowledgement and a broadcast, sent by two threads and taken the other way round. *)
Definition sample_session : Session :=
  write_done Worker true (write_done IoThread true (kick Worker (post_kick (send_message Worker "[2]"
    (post_kick (send_message IoThread "[1]" Session_new)))))).

Lemma session_delivers_in_order_witness :
  ss_accepted (kick IoThread sample_session) = [(IoThread, "[1]"); (Worker, "[2]")]%string /\
  exists sent,
    read_all "" ["[2]" +:+ String newline "[";  "1]" +:+ String newline ""]%string = (sent.*2, ""%string) /\
    from IoThread sent = ["[1]"]%string /\ from Worker sent = ["[2]"]%string.
Proof.
  split; [by vm_compute|].
  destruct (session_delivers_in_order (kick IoThread sample_session)
    ["[2]" +:+ String newline "[";  "1]" +:+ String newline ""]%string) as (sent&H1&_&H3).
  - unfold sample_session. eapply rtc_l; [apply (sstep_send IoThread "[1]")|].
    eapply rtc_l; [apply sstep_post; vm_compute; lia|].
    eapply rtc_l; [apply (sstep_send Worker "[2]")|].
    eapply rtc_l; [apply sstep_post; vm_compute; lia|].
    eapply rtc_l; [apply (sstep_kick Worker); vm_compute; lia|].
    eapply rtc_l; [by eapply (sstep_written IoThread true)|].
    eapply rtc_l; [by eapply (sstep_written Worker true)|].
    eapply rtc_l; [apply (sstep_kick IoThread); vm_compute; lia|].
    apply rtc_refl.
  - repeat constructor; try discriminate; simpl;
      intros a Ha; repeat destruct Ha as [<-|Ha]; done.
  - vm_compute. reflexivity.
  - exists sent. split; [done|]. by split; apply H3; vm_compute.
Defined.
