(* ===== verification/TcpServer.v ===== *)
(** * TcpServer: the subscribe/broadcast server

    [connection_handlers/tcp/tcp_server.{hpp,cpp}]: the session registry that the
    broadcast worker owns, and one definition per task it runs.  A session is known by its
    identity (a [shared_ptr]); what a task does to sessions is a list of outputs.  The
    registry is specified by its history: who is subscribed is what the last relevant
    command says. *)
From S2P Require Import Prelude Double Messages.

Abbreviation SessionId := nat.

Inductive ServerTask :=
  | ADD_SESSION (s : SessionId)
  | REMOVE_SESSION (s : SessionId)
  | SUBSCRIBE_PRODUCT (s : SessionId) (product : string)
  | UNSUBSCRIBE_PRODUCT (s : SessionId) (product : string)
  | BroadcastMessage (product json : string)
  | ProductInfoUpdate (product : string) (d : ProductInfoData).

Inductive ServerOutput :=
  | SessionSend (s : SessionId) (json : string)
  | SubscribeHook (product : string).
#[export] Instance server_output_eq_dec : EqDecision ServerOutput.
Proof. solve_decision. Defined.

Record TcpServer := {
  session_to_products : gmap SessionId (gset string);
  product_to_sessions : gmap string (gset SessionId);
  product_infos : gmap string ProductInfoData }.
Definition TcpServer_new : TcpServer :=
  {| session_to_products := ∅; product_to_sessions := ∅; product_infos := ∅ |}.

(** Members of a keyed set, absent keys being empty. *)
Definition members {K A} `{Countable K} `{Countable A} (m : gmap K (gset A)) (k : K) : gset A :=
  default ∅ (m !! k).

(** [it->second.erase(session)], and the entry itself once empty. *)
Definition drop_subscriber (s : SessionId) (product : string)
    (m : gmap string (gset SessionId)) : gmap string (gset SessionId) :=
  match m !! product with
  | None => m
  | Some ss =>
      let ss := ss ∖ {[s]} in
      if decide (ss = ∅) then delete product m else <[product := ss]> m
  end.

(** What the server sent a session. *)
Definition sent_to (s : SessionId) (outs : list ServerOutput) : list string :=
  omap (fun o => match o with
                 | SessionSend s' json => if decide (s' = s) then Some json else None
                 | SubscribeHook _ => None end) outs.

Section server.
(** glaze's writer for a [ProductInfoMsg], and whether a subscribe hook is installed. *)
Context (write_json : string -> ProductInfoData -> option string) (has_hook : bool).

(** One turn of [broadcast_worker]. *)
Definition handle_server_task (t : ServerTask) (srv : TcpServer) : TcpServer * list ServerOutput :=
  match t with
  | ADD_SESSION s =>
      ({| session_to_products := <[s := ∅]> (session_to_products srv);
          product_to_sessions := product_to_sessions srv;
          product_infos := product_infos srv |}, [])
  | REMOVE_SESSION s =>
      match session_to_products srv !! s with
      | None => (srv, [])
      | Some products =>
          ({| session_to_products := delete s (session_to_products srv);
              product_to_sessions :=
                foldr (drop_subscriber s) (product_to_sessions srv) (elements products);
              product_infos := product_infos srv |}, [])
      end
  | SUBSCRIBE_PRODUCT s p =>
      ({| session_to_products :=
            <[s := {[p]} ∪ members (session_to_products srv) s]> (session_to_products srv);
          product_to_sessions :=
            <[p := {[s]} ∪ members (product_to_sessions srv) p]> (product_to_sessions srv);
          product_infos := product_infos srv |},
       match d ← product_infos srv !! p; write_json p d with
       | Some json => [SessionSend s json]
       | None => []
       end ++ (if has_hook then [SubscribeHook p] else []))
  | UNSUBSCRIBE_PRODUCT s p =>
      ({| session_to_products := alter (fun ps => ps ∖ {[p]}) s (session_to_products srv);
          product_to_sessions := drop_subscriber s p (product_to_sessions srv);
          product_infos := product_infos srv |}, [])
  | BroadcastMessage p json =>
      (srv, (fun s => SessionSend s json) <$> elements (members (product_to_sessions srv) p))
  | ProductInfoUpdate p d =>
      ({| session_to_products := session_to_products srv;
          product_to_sessions := product_to_sessions srv;
          product_infos := <[p := d]> (product_infos srv) |}, [])
  end.

(** The worker on a queue of tasks, oldest first. *)
Fixpoint run_server (ts : list ServerTask) (srv : TcpServer) : TcpServer * list ServerOutput :=
  match ts with
  | [] => (srv, [])
  | t :: ts =>
      let '(srv, o) := handle_server_task t srv in
      let '(srv, o') := run_server ts srv in (srv, o ++ o')
  end.

(** ** The abstract registry: the history decides *)

(** What one task says about [s] being subscribed to [p]. *)
Definition says (t : ServerTask) (s : SessionId) (p : string) : option bool :=
  match t with
  | ADD_SESSION s' | REMOVE_SESSION s' => if decide (s = s') then Some false else None
  | SUBSCRIBE_PRODUCT s' p' => if decide (s = s' /\ p = p') then Some true else None
  | UNSUBSCRIBE_PRODUCT s' p' => if decide (s = s' /\ p = p') then Some false else None
  | _ => None
  end.
Definition subscribed (hist : list ServerTask) (s : SessionId) (p : string) : bool :=
  foldl (fun b t => default b (says t s p)) false hist.

(** The last product info of the history. *)
Definition retained (hist : list ServerTask) (p : string) : option ProductInfoData :=
  foldl (fun o t => match t with
                    | ProductInfoUpdate p' d => if decide (p = p') then Some d else o
                    | _ => o
                    end) None hist.

(** A session object is added once, by its own [start()], before it can be named in any
    other task. *)
Definition names (t : ServerTask) (s : SessionId) : Prop :=
  match t with
  | ADD_SESSION s' | REMOVE_SESSION s' | SUBSCRIBE_PRODUCT s' _ | UNSUBSCRIBE_PRODUCT s' _ =>
      s = s'
  | _ => False
  end.
Fixpoint added_first (seen : list ServerTask) (hist : list ServerTask) : Prop :=
  match hist with
  | [] => True
  | t :: hist =>
      (forall s, t = ADD_SESSION s -> Forall (fun t' => ~ names t' s) seen) /\
      added_first (seen ++ [t]) hist
  end.

(** The registry agrees with the history: both directions of the relation, no empty
    product entries, and the retained infos. *)
Record agrees (hist : list ServerTask) (srv : TcpServer) : Prop := {
  ag_sessions : forall s p, p ∈ members (session_to_products srv) s <-> subscribed hist s p = true;
  ag_products : forall s p, s ∈ members (product_to_sessions srv) p <-> subscribed hist s p = true;
  ag_nonempty : forall p, product_to_sessions srv !! p <> Some ∅;
  ag_infos : forall p, product_infos srv !! p = retained hist p }.

(** ** Lemmas *)
Lemma members_insert {K A} `{Countable K} `{Countable A} (m : gmap K (gset A)) k k' v :
  members (<[k := v]> m) k' = if decide (k' = k) then v else members m k'.
Proof.
  unfold members. destruct (decide (k' = k)) as [->|Hne].
  - by rewrite lookup_insert_eq.
  - by rewrite lookup_insert_ne.
Qed.

Lemma members_delete {K A} `{Countable K} `{Countable A} (m : gmap K (gset A)) k k' :
  members (delete k m) k' = if decide (k' = k) then ∅ else members m k'.
Proof.
  unfold members. destruct (decide (k' = k)) as [->|Hne].
  - by rewrite lookup_delete_eq.
  - by rewrite lookup_delete_ne.
Qed.

Lemma members_drop s p m p' :
  members (drop_subscriber s p m) p' =
    if decide (p' = p) then members m p ∖ {[s]} else members m p'.
Proof.
  unfold drop_subscriber. destruct (m !! p) as [ss|] eqn:E.
  - assert (members m p = ss) as -> by (unfold members; by rewrite E).
    destruct (decide (ss ∖ {[s]} = ∅)) as [->|_].
    + rewrite members_delete. done.
    + rewrite members_insert. done.
  - assert (members m p = ∅) as Hm by (unfold members; by rewrite E).
    destruct (decide (p' = p)) as [->|]; [rewrite Hm; set_solver|done].
Qed.

Lemma drop_nonempty s p m :
  (forall q, m !! q <> Some ∅) -> forall q, drop_subscriber s p m !! q <> Some ∅.
Proof.
  intros Hm q. unfold drop_subscriber. destruct (m !! p) as [ss|] eqn:E; [|apply Hm].
  destruct (decide _) as [|Hne].
  - destruct (decide (q = p)) as [->|]; [by rewrite lookup_delete_eq|].
    by rewrite lookup_delete_ne.
  - destruct (decide (q = p)) as [->|]; [rewrite lookup_insert_eq; by intros [=]|].
    by rewrite lookup_insert_ne.
Qed.

Lemma members_drop_all s ps m p :
  members (foldr (drop_subscriber s) m ps) p =
    if decide (p ∈ ps) then members m p ∖ {[s]} else members m p.
Proof.
  induction ps as [|q ps IH]; simpl; [done|]. rewrite members_drop, !IH.
  repeat case_decide; subst; set_solver.
Qed.

Lemma drop_all_nonempty s ps m :
  (forall q, m !! q <> Some ∅) -> forall q, foldr (drop_subscriber s) m ps !! q <> Some ∅.
Proof. intros Hm. induction ps as [|p ps IH]; simpl; [done|]. by apply drop_nonempty. Qed.

Lemma subscribed_snoc hist t s p :
  subscribed (hist ++ [t]) s p = default (subscribed hist s p) (says t s p).
Proof. unfold subscribed. by rewrite foldl_app. Qed.

Lemma unnamed_not_subscribed hist s p :
  Forall (fun t => ~ names t s) hist -> subscribed hist s p = false.
Proof.
  induction hist as [|t hist IH] using rev_ind; [done|].
  rewrite Forall_app, Forall_singleton. intros [Hh Ht]. rewrite subscribed_snoc, IH by done.
  destruct t; simpl in *; try done; case_decide; naive_solver.
Qed.

Section handle.
Context (hist : list ServerTask) (srv : TcpServer) (Hag : agrees hist srv).

Lemma handle_infos t q :
  product_infos (handle_server_task t srv).1 !! q = retained (hist ++ [t]) q.
Proof.
  destruct Hag as [_ _ _ Hi]. unfold retained. rewrite foldl_app. fold (retained hist q). simpl.
  destruct t as [s|s|s p|s p|p j|p d]; simpl; try apply Hi.
  - destruct (session_to_products srv !! s); apply Hi.
  - destruct (decide (q = p)) as [->|]; simpl.
    + by rewrite lookup_insert_eq.
    + rewrite lookup_insert_ne by done. apply Hi.
Qed.

Lemma handle_nonempty t q : product_to_sessions (handle_server_task t srv).1 !! q <> Some ∅.
Proof.
  destruct Hag as [_ _ Hn _]. destruct t as [s|s|s p|s p|p j|p d]; simpl; try apply Hn.
  - destruct (session_to_products srv !! s); [by apply drop_all_nonempty|done].
  - destruct (decide (q = p)) as [->|].
    + rewrite lookup_insert_eq. intros [=]. set_solver.
    + by rewrite lookup_insert_ne.
  - by apply drop_nonempty.
Qed.

Lemma handle_sessions t s' q :
  q ∈ members (session_to_products (handle_server_task t srv).1) s' <->
  subscribed (hist ++ [t]) s' q = true.
Proof.
  destruct Hag as [Hs _ _ _]. rewrite subscribed_snoc.
  destruct t as [s|s|s p|s p|p j|p d]; simpl; try apply Hs.
  - rewrite members_insert. destruct (decide (s' = s)); [set_solver|apply Hs].
  - destruct (session_to_products srv !! s) as [ps|] eqn:E; simpl.
    + rewrite members_delete. destruct (decide (s' = s)); [set_solver|apply Hs].
    + destruct (decide (s' = s)) as [->|]; [|apply Hs].
      unfold members. rewrite E. set_solver.
  - rewrite members_insert.
    destruct (decide (s' = s)) as [->|]; [|rewrite decide_False by naive_solver; apply Hs].
    destruct (decide (q = p)) as [->|]; [rewrite decide_True by done; set_solver|].
    rewrite decide_False by naive_solver. simpl. rewrite <- Hs. set_solver.
  - unfold members in Hs |- *. destruct (decide (s' = s)) as [->|].
    + rewrite lookup_alter_eq. specialize (Hs s q). destruct (decide (q = p)) as [->|].
      * rewrite decide_True by done. destruct (session_to_products srv !! s); set_solver.
      * rewrite decide_False by naive_solver. simpl. rewrite <- Hs.
        destruct (session_to_products srv !! s); set_solver.
    + rewrite lookup_alter_ne, decide_False by naive_solver. apply Hs.
Qed.

Lemma handle_products t s' q :
  (forall s, t = ADD_SESSION s -> Forall (fun t' => ~ names t' s) hist) ->
  s' ∈ members (product_to_sessions (handle_server_task t srv).1) q <->
  subscribed (hist ++ [t]) s' q = true.
Proof.
  intros Hadd. destruct Hag as [Hs Hp _ _]. rewrite subscribed_snoc.
  destruct t as [s|s|s p|s p|p j|p d]; simpl; try apply Hp.
  - rewrite Hp. destruct (decide (s' = s)) as [->|]; [|done].
    by rewrite (unnamed_not_subscribed hist s) by auto.
  - destruct (session_to_products srv !! s) as [ps|] eqn:E; simpl.
    + rewrite members_drop_all. destruct (decide (q ∈ elements ps)) as [Hq|Hq].
      * destruct (decide (s' = s)); simpl; [set_solver|]. rewrite <- Hp. set_solver.
      * rewrite Hp. destruct (decide (s' = s)) as [->|]; [|done]. simpl.
        rewrite <- Hs. unfold members. rewrite E. simpl. set_solver.
    + rewrite Hp. destruct (decide (s' = s)) as [->|]; [|done]. simpl.
      rewrite <- Hs. unfold members. rewrite E. set_solver.
  - rewrite members_insert.
    destruct (decide (q = p)) as [->|]; [|rewrite decide_False by naive_solver; apply Hp].
    destruct (decide (s' = s)) as [->|]; [rewrite decide_True by done; set_solver|].
    rewrite decide_False by naive_solver. simpl. rewrite <- Hp. set_solver.
  - rewrite members_drop.
    destruct (decide (q = p)) as [->|]; [|rewrite decide_False by naive_solver; apply Hp].
    destruct (decide (s' = s)) as [->|]; [rewrite decide_True by done; set_solver|].
    rewrite decide_False by naive_solver. simpl. rewrite <- Hp. set_solver.
Qed.
End handle.

Lemma handle_agrees hist t srv :
  agrees hist srv -> (forall s, t = ADD_SESSION s -> Forall (fun t' => ~ names t' s) hist) ->
  agrees (hist ++ [t]) (handle_server_task t srv).1.
Proof.
  intros Hag Hadd. split; intros.
  - by apply handle_sessions.
  - by apply handle_products.
  - by apply (handle_nonempty hist).
  - by apply handle_infos.
Qed.

Lemma run_agrees hist seen srv :
  agrees seen srv -> added_first seen hist -> agrees (seen ++ hist) (run_server hist srv).1.
Proof.
  revert seen srv. induction hist as [|t hist IH]; intros seen srv Hag Hadd; simpl.
  - by rewrite app_nil_r.
  - destruct Hadd as [Ht Hadd]. pose proof (handle_agrees seen t srv Hag Ht) as H1.
    destruct (handle_server_task t srv) as [srv1 o1]. cbn [fst] in H1.
    specialize (IH (seen ++ [t]) srv1 H1 Hadd). rewrite <- app_assoc in IH. simpl in IH.
    by destruct (run_server hist srv1).
Qed.

Lemma agrees_new : agrees [] TcpServer_new.
Proof. split; intros; unfold members; simpl; rewrite ?lookup_empty; set_solver. Qed.

(** C12: The registry refines its history: after any sequence of tasks the two maps are
    exactly the relation "the last command about this session and product was a
    subscribe", in both directions, with no empty product entry left behind, and the
    retained infos are the last ones published. *)
Theorem registry_refines_history hist :
  added_first [] hist -> agrees hist (run_server hist TcpServer_new).1.
Proof. apply (run_agrees hist [] TcpServer_new agrees_new). Qed.

(** A broadcast reaches every current subscriber of the product exactly once, nobody
    else, and changes no subscription. *)
Theorem broadcast_reaches_subscribers hist p json :
  added_first [] hist ->
  let srv := (run_server hist TcpServer_new).1 in
  let '(srv', o) := handle_server_task (BroadcastMessage p json) srv in
  srv' = srv /\ NoDup o /\
  forall x, x ∈ o <-> exists s, x = SessionSend s json /\ subscribed hist s p = true.
Proof.
  intros Hadd. destruct (run_agrees hist [] TcpServer_new agrees_new Hadd) as [_ Hp _ _].
  simpl in Hp |- *. split_and!; [done| |].
  - apply NoDup_fmap_2; [by intros ?? [=]|apply NoDup_elements].
  - intros x. rewrite list_elem_of_fmap. setoid_rewrite elem_of_elements. naive_solver.
Qed.

(** A session that subscribes late is sent the product's last published grid, if there
    is one, before anything else, and the owner is told it arrived. *)
Theorem late_subscriber_gets_grid hist s p :
  added_first [] hist ->
  let srv := (run_server hist TcpServer_new).1 in
  let '(srv', o) := handle_server_task (SUBSCRIBE_PRODUCT s p) srv in
  o = match d ← retained hist p; write_json p d with
      | Some json => [SessionSend s json]
      | None => []
      end ++ (if has_hook then [SubscribeHook p] else []) /\
  s ∈ members (product_to_sessions srv') p.
Proof.
  intros Hadd. destruct (run_agrees hist [] TcpServer_new agrees_new Hadd) as [_ _ _ Hi].
  simpl in Hi |- *. split; [by rewrite Hi|]. rewrite members_insert, decide_True by done. set_solver.
Qed.
End server.

(** ** What a session is sent *)
Lemma sent_to_app s a b : sent_to s (a ++ b) = sent_to s a ++ sent_to s b.
Proof. apply omap_app. Qed.

Lemma sent_to_broadcast s json (l : list SessionId) :
  NoDup l -> sent_to s ((fun s' => SessionSend s' json) <$> l) = if decide (s ∈ l) then [json] else [].
Proof.
  induction 1 as [|s' l Hn Hl IH].
  - destruct (decide (s ∈ [])) as [?%elem_of_nil|]; done.
  - csimpl. unfold sent_to in *. simpl. destruct (decide (s' = s)) as [->|Hne].
    + rewrite IH, (decide_False (P := s ∈ l)), decide_True by set_solver. done.
    + rewrite IH. by destruct (decide (s ∈ l)), (decide (s ∈ s' :: l)); set_solver.
Qed.

Lemma run_server_app wj hook ts1 ts2 srv :
  run_server wj hook (ts1 ++ ts2) srv =
  (let '(srv1, o1) := run_server wj hook ts1 srv in
   let '(srv2, o2) := run_server wj hook ts2 srv1 in (srv2, o1 ++ o2)).
Proof.
  revert srv. induction ts1 as [|t ts1 IH]; intros srv; simpl.
  - by destruct (run_server _ _ ts2 srv).
  - destruct (handle_server_task _ _ t srv) as [srv1 o1]. rewrite IH.
    destruct (run_server _ _ ts1 srv1) as [srv2 o2]. destruct (run_server _ _ ts2 srv2) as [srv3 o3].
    by rewrite app_assoc.
Qed.

(** What the history owes a session at one task: the retained grid on subscribing, and
    every broadcast of a product it is subscribed to. *)
Definition delivered_one (write_json : string -> ProductInfoData -> option string)
    (seen : list ServerTask) (s : SessionId) (t : ServerTask) : list string :=
  match t with
  | SUBSCRIBE_PRODUCT s' p =>
      if decide (s' = s) then option_list (d ← retained seen p; write_json p d) else []
  | BroadcastMessage p json => if subscribed seen s p then [json] else []
  | _ => []
  end.
Fixpoint delivered write_json (seen hist : list ServerTask) (s : SessionId) : list string :=
  match hist with
  | [] => []
  | t :: hist => delivered_one write_json seen s t ++ delivered write_json (seen ++ [t]) hist s
  end.

Lemma delivered_snoc wj seen hist t s :
  delivered wj seen (hist ++ [t]) s = delivered wj seen hist s ++ delivered_one wj (seen ++ hist) s t.
Proof.
  revert seen. induction hist as [|t' hist IH]; intros seen; simpl; [by rewrite !app_nil_r|].
  by rewrite IH, <- !app_assoc.
Qed.

Lemma unnamed_delivered wj hist s :
  Forall (fun t => ~ names t s) hist -> delivered wj [] hist s = [].
Proof.
  induction hist as [|t hist IH] using rev_ind; [done|].
  rewrite Forall_app, Forall_singleton. intros [Hh Ht].
  rewrite delivered_snoc, IH by done. simpl. destruct t; simpl in *; try done.
  - by rewrite decide_False.
  - by rewrite unnamed_not_subscribed.
Qed.

Lemma handle_sends wj hook hist srv t s :
  agrees hist srv -> sent_to s (handle_server_task wj hook t srv).2 = delivered_one wj hist s t.
Proof.
  intros [_ Hp _ Hi]. destruct t as [s'|s'|s' p|s' p|p json|p d]; simpl; try done.
  - by destruct (session_to_products srv !! s').
  - rewrite sent_to_app, Hi.
    assert (sent_to s (if hook then [SubscribeHook p] else []) = []) as -> by by destruct hook.
    rewrite app_nil_r. destruct (retained hist p) as [d|]; simpl; [|by case_decide].
    destruct (wj p d); simpl; [|by case_decide]. unfold sent_to. simpl. by case_decide.
  - rewrite sent_to_broadcast by apply NoDup_elements. specialize (Hp s p).
    destruct (subscribed hist s p), (decide (s ∈ elements (members (product_to_sessions srv) p))) as [H|H];
      rewrite elem_of_elements in H; naive_solver.
Qed.

(** ** Concrete histories *)
Definition sample_history : list ServerTask :=
  [ADD_SESSION 1%nat; ADD_SESSION 2%nat; SUBSCRIBE_PRODUCT 1%nat "BTC";
   SUBSCRIBE_PRODUCT 2%nat "BTC"; ProductInfoUpdate "BTC" ProductInfoData_default;
   UNSUBSCRIBE_PRODUCT 1%nat "BTC"].
Definition sample_writer (p : string) (_ : ProductInfoData) : option string := Some p.

Lemma sample_history_ok : added_first [] sample_history.
Proof.
  unfold sample_history. repeat (split; [intros s [=]; subst; repeat constructor; simpl; lia|]).
  exact I.
Qed.

Lemma registry_refines_history_witness :
  agrees sample_history (run_server sample_writer true sample_history TcpServer_new).1.
Proof. apply registry_refines_history, sample_history_ok. Defined.

Lemma broadcast_reaches_subscribers_witness :
  let srv := (run_server sample_writer true sample_history TcpServer_new).1 in
  let '(srv', o) := handle_server_task sample_writer true (BroadcastMessage "BTC" "x") srv in
  o = [SessionSend 2%nat "x"] /\ (srv' = srv /\ NoDup o /\
  forall x, x ∈ o <-> exists s, x = SessionSend s "x" /\ subscribed sample_history s "BTC" = true).
Proof.
  split; [vm_compute; reflexivity|].
  apply (broadcast_reaches_subscribers sample_writer true sample_history "BTC" "x").
  apply sample_history_ok.
Defined.

Lemma late_subscriber_gets_grid_witness :
  let srv := (run_server sample_writer true sample_history TcpServer_new).1 in
  let '(srv', o) := handle_server_task sample_writer true (SUBSCRIBE_PRODUCT 3%nat "BTC") srv in
  o = [SessionSend 3%nat "BTC"; SubscribeHook "BTC"] /\
  3%nat ∈ members (product_to_sessions srv') "BTC".
Proof.
  apply (late_subscriber_gets_grid sample_writer true sample_history 3%nat "BTC").
  apply sample_history_ok.
Defined.
