(* ===== verification/TcpNode.v ===== *)
(** * TcpNode: the whole TCP server

    [connection_handlers/tcp/tcp_server.cpp] put together: the sessions' readers and writers
    (Framing), the registry (TcpServer), the task queue between them, and the threads that
    interleave -- the io thread, which runs one handler at a time, the broadcast worker, the
    owners that broadcast, and whoever stops the server.  The task queue and each session's
    write queue keep the order of each thread that feeds them and no other (MpQueue).  A read handler gives up the
    processor between enqueueing a subscription and sending its acknowledgement, so that the
    worker may act in between, as it may in the program. *)
From S2P Require Import Prelude MpQueue Double Messages Text Framing TcpServer.

#[local] Open Scope list_scope.

(** A [TcpSession]: the writer, the reader's buffer, and (ghosts) the requests it has read
    and the chunks they came in. *)
Record SessionIo := { sio : Session; read_message : string;
  sio_requests : list SubscribeRequestMsg; sio_received : list string }.
Definition SessionIo_new : SessionIo :=
  {| sio := Session_new; read_message := ""; sio_requests := []; sio_received := [] |}.

(** The read handler the io thread is inside of: its session, the lines it has still to
    handle, and the acknowledgement it is about to send. *)
Record Handling := { ha_session : SessionId; ha_lines : list string; ha_ack : option string }.

Record Node := {
  nd_running : bool;
  nd_queue : list (Thread * ServerTask);       (* task_queue_ *)
  nd_done : list ServerTask;                   (* ghost: what the worker has dequeued *)
  nd_server : TcpServer;
  nd_sessions : gmap SessionId SessionIo;      (* every session ever accepted *)
  nd_handling : option Handling;
  nd_hooks : list string }.                    (* the calls of subscribe_hook_ *)
(** [start()]. *)
Definition Node_new : Node := {|
  nd_running := true; nd_queue := []; nd_done := []; nd_server := TcpServer_new;
  nd_sessions := ∅; nd_handling := None; nd_hooks := [] |}.

Definition set_queue q nd := {| nd_running := nd_running nd; nd_queue := q; nd_done := nd_done nd;
  nd_server := nd_server nd; nd_sessions := nd_sessions nd; nd_handling := nd_handling nd;
  nd_hooks := nd_hooks nd |}.
Definition set_sessions m nd := {| nd_running := nd_running nd; nd_queue := nd_queue nd;
  nd_done := nd_done nd; nd_server := nd_server nd; nd_sessions := m;
  nd_handling := nd_handling nd; nd_hooks := nd_hooks nd |}.
Definition set_handling h nd := {| nd_running := nd_running nd; nd_queue := nd_queue nd;
  nd_done := nd_done nd; nd_server := nd_server nd; nd_sessions := nd_sessions nd;
  nd_handling := h; nd_hooks := nd_hooks nd |}.
Definition enqueue (k : Thread) (t : ServerTask) (nd : Node) : Node :=
  set_queue (mp_enqueue k t (nd_queue nd)) nd.
Definition on_session (s : SessionId) (f : SessionIo -> SessionIo) (nd : Node) : Node :=
  set_sessions (alter f s (nd_sessions nd)) nd.
Definition on_writer (f : Session -> Session) (io : SessionIo) : SessionIo :=
  {| sio := f (sio io); read_message := read_message io; sio_requests := sio_requests io;
     sio_received := sio_received io |}.

(** [TcpSession::send_message] and [close], on thread [k]. *)
Definition session_send (k : Thread) (s : SessionId) (m : string) : Node -> Node :=
  on_session s (on_writer (send_message k m)).
Definition session_close (k : Thread) (s : SessionId) (nd : Node) : Node :=
  enqueue k (REMOVE_SESSION s) (on_session s (on_writer close_session) nd).

(** [do_accept]'s handler: [start()]. *)
Definition accept (s : SessionId) (nd : Node) : Node :=
  enqueue IoThread (ADD_SESSION s) (set_sessions (<[s := SessionIo_new]> (nd_sessions nd)) nd).

(** [broadcast_to_subscribers] and [set_product_info]. *)
Definition broadcast_to_subscribers (k : Thread) (product json : string) (nd : Node) : Node :=
  if nd_running nd then enqueue k (BroadcastMessage product json) nd else nd.
Definition set_product_info (k : Thread) (product : string) (d : ProductInfoData) (nd : Node) : Node :=
  if nd_running nd then enqueue k (ProductInfoUpdate product d) nd else nd.

Section node.
(** glaze: a subscribe request read, a response and a grid written. *)
Context (read_json : string -> option SubscribeRequestMsg).
Context (write_response : SubscribeResponseMsg -> option string).
Context (write_json : string -> ProductInfoData -> option string) (has_hook : bool).

(** [do_read]'s handler: the lines it will handle, or the end of the session. *)
Definition read_handler (s : SessionId) (chunk : option string) (nd : Node) : Node :=
  match chunk, nd_sessions nd !! s with
  | Some chunk, Some io =>
      if ss_active (sio io) then
        let '(ls, kept) := on_read (read_message io) chunk in
        set_handling (Some {| ha_session := s; ha_lines := ls; ha_ack := None |})
          (on_session s (fun io => {| sio := sio io; read_message := kept;
             sio_requests := sio_requests io; sio_received := sio_received io ++ [chunk] |}) nd)
      else session_close IoThread s nd
  | _, _ => session_close IoThread s nd
  end.

Definition response (r : SubscribeRequestMsg) : SubscribeResponseMsg := {|
  sres_subscribe := sreq_subscribe r; sres_success := true; sres_product := sreq_product r;
  sres_category := sreq_category r |}.
(** [notify_subscribe] / [notify_unsubscribe]. *)
Definition command (s : SessionId) (r : SubscribeRequestMsg) : ServerTask :=
  if sreq_subscribe r then SUBSCRIBE_PRODUCT s (sreq_product r)
  else UNSUBSCRIBE_PRODUCT s (sreq_product r).

(** [handle_message] up to the acknowledgement. *)
Definition handle_message (s : SessionId) (line : string) (nd : Node) : Node * option string :=
  match read_json line with
  | None => (nd, None)
  | Some r =>
      (enqueue IoThread (command s r) (on_session s (fun io => {| sio := sio io;
         read_message := read_message io; sio_requests := sio_requests io ++ [r];
         sio_received := sio_received io |}) nd),
       write_response (response r))
  end.
(** The io thread goes on with the handler it is in. *)
Definition continue_handler (h : Handling) (nd : Node) : Node :=
  match ha_ack h with
  | Some ack =>
      set_handling (Some {| ha_session := ha_session h; ha_lines := ha_lines h; ha_ack := None |})
        (session_send IoThread (ha_session h) ack nd)
  | None =>
      match ha_lines h with
      | [] => set_handling None nd
      | line :: lines =>
          let '(nd, ack) := handle_message (ha_session h) line nd in
          set_handling (Some {| ha_session := ha_session h; ha_lines := lines; ha_ack := ack |}) nd
      end
  end.

(** The completion of a write, which closes the session on an error. *)
Definition write_handler (first : Thread) (s : SessionId) (ok : bool) (nd : Node) : Node :=
  match nd_sessions nd !! s with
  | Some io =>
      if ok && ss_active (sio io) then on_session s (on_writer (write_done first ok)) nd
      else session_close IoThread s (on_session s (on_writer (write_done first ok)) nd)
  | None => nd
  end.

Definition run_output (nd : Node) (o : ServerOutput) : Node :=
  match o with
  | SessionSend s m => session_send Worker s m nd
  | SubscribeHook p => {| nd_running := nd_running nd; nd_queue := nd_queue nd;
      nd_done := nd_done nd; nd_server := nd_server nd; nd_sessions := nd_sessions nd;
      nd_handling := nd_handling nd; nd_hooks := nd_hooks nd ++ [p] |}
  end.
(** One turn of [broadcast_worker], which comes to the stream of [first] first. *)
Definition worker_turn (first : Thread) (nd : Node) : Node :=
  if nd_running nd then
    match try_dequeue first (nd_queue nd) with
    | None => nd
    | Some (_, t, q) =>
        let '(srv, outs) := handle_server_task write_json has_hook t (nd_server nd) in
        foldl run_output {| nd_running := nd_running nd; nd_queue := q; nd_done := nd_done nd ++ [t];
          nd_server := srv; nd_sessions := nd_sessions nd; nd_handling := nd_handling nd;
          nd_hooks := nd_hooks nd |} outs
    end
  else nd.

(** [stop()] on thread [k], whose join waits for the worker. *)
Definition stop (k : Thread) (nd : Node) : Node :=
  if nd_running nd then
    let nd := foldr (session_close k) nd (elements (dom (session_to_products (nd_server nd)))) in
    {| nd_running := false; nd_queue := nd_queue nd; nd_done := nd_done nd;
       nd_server := {| session_to_products := ∅; product_to_sessions := ∅;
                       product_infos := product_infos (nd_server nd) |};
       nd_sessions := nd_sessions nd; nd_handling := nd_handling nd; nd_hooks := nd_hooks nd |}
  else nd.

(** The threads, interleaved.  The io thread starts a handler only when it is in none. *)
Inductive node_step : Node -> Node -> Prop :=
  | ns_accept s nd : nd_handling nd = None -> nd_sessions nd !! s = None -> node_step nd (accept s nd)
  | ns_read s chunk nd : nd_handling nd = None -> is_Some (nd_sessions nd !! s) ->
      node_step nd (read_handler s chunk nd)
  | ns_continue h nd : nd_handling nd = Some h -> node_step nd (continue_handler h nd)
  | ns_post s io nd : nd_sessions nd !! s = Some io -> (0 < ss_posting (sio io))%nat ->
      node_step nd (on_session s (on_writer post_kick) nd)
  | ns_kick first s io nd : nd_handling nd = None -> nd_sessions nd !! s = Some io ->
      (0 < ss_kicks (sio io))%nat -> node_step nd (on_session s (on_writer (kick first)) nd)
  | ns_written first s ok io b nd : nd_handling nd = None -> nd_sessions nd !! s = Some io ->
      ss_inflight (sio io) = Some b -> node_step nd (write_handler first s ok nd)
  | ns_broadcast n p json nd : node_step nd (broadcast_to_subscribers (Owner n) p json nd)
  | ns_info n p d nd : node_step nd (set_product_info (Owner n) p d nd)
  | ns_worker first nd : node_step nd (worker_turn first nd)
  | ns_stop n nd : node_step nd (stop (Owner n) nd).
Definition reached (nd : Node) : Prop := rtc node_step Node_new nd.

(** ** What a client has asked for *)

(** Whether the last request about [p] was to subscribe. *)
Definition wants (reqs : list SubscribeRequestMsg) (p : string) : bool :=
  foldl (fun b r => if decide (sreq_product r = p) then sreq_subscribe r else b) false reqs.
Definition acks (reqs : list SubscribeRequestMsg) : list string :=
  omap (fun r => write_response (response r)) reqs.


(** ** The invariant *)
(** The tasks done, and those queued in the order they were put there. *)
Abbreviation history nd := (nd_done nd ++ (nd_queue nd).*2).
(** The acknowledgement the io thread still owes session [s]. *)
Definition pending (nd : Node) (s : SessionId) : list string :=
  match nd_handling nd with
  | Some h => if decide (ha_session h = s) then option_list (ha_ack h) else []
  | None => []
  end.
(** The lines it has read from [s] and not handled yet. *)
Definition unread (nd : Node) (s : SessionId) : list string :=
  match nd_handling nd with
  | Some h => if decide (ha_session h = s) then ha_lines h else []
  | None => []
  end.

(** What holds of a session while the server runs. *)
Record session_ok (nd : Node) (s : SessionId) (io : SessionIo) : Prop := {
  so_subscribed : forall p,
    subscribed (history nd) s p = ss_active (sio io) && wants (sio_requests io) p;
  so_sent : ss_active (sio io) = true ->
    acks (sio_requests io) = from IoThread (ss_accepted (sio io)) ++ pending nd s /\
    from Worker (ss_accepted (sio io)) = delivered write_json [] (nd_done nd) s /\
    Forall (fun km => km.1 = IoThread \/ km.1 = Worker) (ss_accepted (sio io));
  so_read : exists ls, lines (concat_chunks (sio_received io)) = (ls, read_message io) /\
    omap read_json ls = sio_requests io ++ omap read_json (unread nd s) }.
(** While the server runs, what is said of sessions is said by the io thread. *)
Definition is_command (t : ServerTask) : bool :=
  match t with BroadcastMessage _ _ | ProductInfoUpdate _ _ => false | _ => true end.
Definition commands (h : list ServerTask) : list ServerTask := filter (fun t => is_command t = true) h.
Definition io_commands (q : list (Thread * ServerTask)) : Prop :=
  Forall (fun kt => kt.1 = IoThread \/ is_command kt.2 = false) q.
Record node_inv (nd : Node) : Prop := {
  ni_io : nd_running nd = true -> io_commands (nd_queue nd);
  ni_first : added_first [] (history nd);
  ni_fresh : forall s, nd_sessions nd !! s = None -> Forall (fun t => ~ names t s) (history nd);
  ni_writer : forall s io, nd_sessions nd !! s = Some io -> rtc session_step Session_new (sio io);
  ni_handling : forall h, nd_handling nd = Some h -> is_Some (nd_sessions nd !! ha_session h);
  ni_active : nd_running nd = true -> forall h io, nd_handling nd = Some h ->
    nd_sessions nd !! ha_session h = Some io -> ss_active (sio io) = true;
  ni_session : nd_running nd = true -> forall s io, nd_sessions nd !! s = Some io -> session_ok nd s io;
  ni_server : nd_running nd = true -> agrees (nd_done nd) (nd_server nd);
  ni_known : nd_running nd = true -> forall s, is_Some (session_to_products (nd_server nd) !! s) ->
    is_Some (nd_sessions nd !! s) }.

Lemma added_first_snoc seen h t :
  added_first seen h -> (forall s, t = ADD_SESSION s -> Forall (fun t' => ~ names t' s) (seen ++ h)) ->
  added_first seen (h ++ [t]).
Proof.
  revert seen. induction h as [|t' h IH]; intros seen; simpl.
  - rewrite app_nil_r. by split.
  - intros [H1 H2] H. split; [done|]. apply IH; [done|]. by rewrite <- app_assoc.
Qed.
Lemma added_first_mid seen h t h' :
  added_first seen (h ++ t :: h') ->
  forall s, t = ADD_SESSION s -> Forall (fun t' => ~ names t' s) (seen ++ h).
Proof.
  revert seen. induction h as [|t' h IH]; intros seen; simpl.
  - rewrite app_nil_r. by intros [H _].
  - intros [_ H] s Hs. specialize (IH _ H s Hs). by rewrite <- app_assoc in IH.
Qed.
(** Who is subscribed, who was added and who is named are up to the commands alone. *)
Lemma commands_app h h' : commands (h ++ h') = commands h ++ commands h'.
Proof. apply filter_app. Qed.
Lemma commands_cons t h : commands (t :: h) = if is_command t then t :: commands h else commands h.
Proof. unfold commands. rewrite filter_cons. by destruct (is_command t). Qed.
Lemma commands_one t : commands [t] = if is_command t then [t] else [].
Proof. apply commands_cons. Qed.
Lemma subscribed_commands h s p : subscribed (commands h) s p = subscribed h s p.
Proof.
  induction h as [|t h IH] using rev_ind; [done|]. rewrite commands_app, commands_one, subscribed_snoc.
  destruct (is_command t) eqn:E; [by rewrite subscribed_snoc, IH|]. rewrite app_nil_r, IH.
  by destruct t.
Qed.
Lemma unnamed_commands h s :
  Forall (fun t => ~ names t s) (commands h) <-> Forall (fun t => ~ names t s) h.
Proof.
  induction h as [|t h IH]; [done|]. rewrite commands_cons, Forall_cons.
  destruct (is_command t) eqn:E; [by rewrite Forall_cons, IH|]. destruct t; naive_solver.
Qed.
Lemma added_first_commands seen h : added_first (commands seen) (commands h) <-> added_first seen h.
Proof.
  revert seen. induction h as [|t h IH]; intros seen; [done|].
  specialize (IH (seen ++ [t])). rewrite commands_app, commands_one in IH.
  rewrite commands_cons. destruct (is_command t) eqn:E; simpl; rewrite <- IH.
  - by setoid_rewrite unnamed_commands.
  - rewrite app_nil_r. split; [|naive_solver]. intros H. split; [|done]. intros s ->. done.
Qed.
Section same_commands.
Context (h h' : list ServerTask) (Hh : commands h = commands h').
Lemma same_subscribed s p : subscribed h s p = subscribed h' s p.
Proof. by rewrite <- subscribed_commands, Hh, subscribed_commands. Qed.
Lemma same_unnamed s : Forall (fun t => ~ names t s) h -> Forall (fun t => ~ names t s) h'.
Proof. by rewrite <- unnamed_commands, Hh, unnamed_commands. Qed.
Lemma same_added_first : added_first [] h -> added_first [] h'.
Proof. rewrite <- (added_first_commands [] h), Hh. apply (added_first_commands [] h'). Qed.
End same_commands.

(** A dequeue keeps the order of the commands, all of one thread. *)
Lemma dequeue_commands first q k t q' :
  io_commands q -> try_dequeue first q = Some (k, t, q') ->
  commands q.*2 = commands (t :: q'.*2) /\ io_commands q'.
Proof.
  intros Hq (q1&q2&->&->&Hn)%try_dequeue_split. unfold io_commands in *.
  rewrite Forall_app, Forall_cons in Hq. destruct Hq as (H1&Hk&H2). split; [|by apply Forall_app].
  rewrite !fmap_app, fmap_cons, commands_cons, !commands_app, commands_cons. simpl in Hk |- *.
  destruct (is_command t) eqn:E; [|done]. destruct Hk as [->|]; [|done].
  assert (commands q1.*2 = []) as ->; [|done].
  clear -H1 Hn. induction H1 as [|[k t'] q1 [Hk|Hk] _ IH]; [done|..]; rewrite from_cons in Hn; simpl in *.
  - by rewrite Hk, decide_True in Hn.
  - rewrite commands_cons, Hk. apply IH. by case_decide.
Qed.

Lemma wants_snoc reqs r p :
  wants (reqs ++ [r]) p = if decide (sreq_product r = p) then sreq_subscribe r else wants reqs p.
Proof. unfold wants. by rewrite foldl_app. Qed.
Lemma says_command s r s' p :
  says (command s r) s' p = if decide (s' = s /\ p = sreq_product r) then Some (sreq_subscribe r) else None.
Proof. unfold command. destruct (sreq_subscribe r); simpl; by case_decide. Qed.

(** A session after the worker sent it [l], and after steps of its writer that neither open
    nor close it. *)
Record fed (l : list string) (io io' : SessionIo) : Prop := {
  fd_active : ss_active (sio io') = ss_active (sio io);
  fd_requests : sio_requests io' = sio_requests io;
  fd_received : sio_received io' = sio_received io;
  fd_read : read_message io' = read_message io;
  fd_accepted : ss_active (sio io) = true -> ss_accepted (sio io') = ss_accepted (sio io) ++ (pair Worker <$> l);
  fd_writer : rtc session_step (sio io) (sio io') }.
Definition all_fed (f : SessionId -> list string) (m m' : gmap SessionId SessionIo) : Prop :=
  forall s, match m !! s, m' !! s with
            | Some io, Some io' => fed (f s) io io' | None, None => True | _, _ => False
            end.

Lemma fed_refl io : fed [] io io.
Proof. split; try done. by rewrite app_nil_r. Qed.
Lemma all_fed_refl m : all_fed (fun _ => []) m m.
Proof. intros s. destruct (m !! s); [apply fed_refl|done]. Qed.
Lemma fed_trans l1 l2 io1 io2 io3 : fed l1 io1 io2 -> fed l2 io2 io3 -> fed (l1 ++ l2) io1 io3.
Proof.
  intros [A1 Q1 C1 M1 P1 W1] [A2 Q2 C2 M2 P2 W2]. split; try congruence; [|by etrans].
  intros H. rewrite P2, P1 by congruence. by rewrite fmap_app, app_assoc.
Qed.
Lemma all_fed_trans f g h m1 m2 m3 :
  (forall s, h s = f s ++ g s) -> all_fed f m1 m2 -> all_fed g m2 m3 -> all_fed h m1 m3.
Proof.
  intros Hh H1 H2 s. specialize (H1 s). specialize (H2 s).
  destruct (m1 !! s), (m2 !! s), (m3 !! s); try done. rewrite Hh. by eapply fed_trans.
Qed.
Lemma all_fed_alter m s f l :
  (forall io, m !! s = Some io -> fed l io (f io)) ->
  all_fed (fun s' => if decide (s = s') then l else []) m (alter f s m).
Proof.
  intros Hf s'. rewrite lookup_alter. destruct (decide (s = s')) as [<-|Hne].
  - destruct (m !! s) as [io|]; [by apply Hf|done].
  - destruct (m !! s'); [apply fed_refl|done].
Qed.
Lemma fed_send m io : fed [m] io (on_writer (send_message Worker m) io).
Proof.
  split; simpl; try (unfold send_message; destruct (ss_active (sio io)) eqn:E; simpl; by rewrite ?E).
  apply rtc_once. constructor.
Qed.

Lemma session_ok_fed nd nd' s io io' l :
  (forall p, subscribed (history nd') s p = subscribed (history nd) s p) ->
  pending nd' s = pending nd s -> unread nd' s = unread nd s ->
  delivered write_json [] (nd_done nd') s = delivered write_json [] (nd_done nd) s ++ l ->
  fed l io io' -> session_ok nd s io -> session_ok nd' s io'.
Proof.
  intros Hh Hp Hu Hd [Ga Gr Gc Gm Gp _] [H1 H2 (ls&H4&H5)]. split.
  - intros p. by rewrite Hh, Ga, Gr.
  - rewrite Ga. intros Hact. destruct (H2 Hact) as (H3&H6&H7).
    rewrite Gr, Hp, Hd, Gp, !from_app, !from_pairs, Forall_app by done. simpl. rewrite app_nil_r, H6.
    split_and!; [done..|]. apply Forall_fmap, Forall_true. by right.
  - exists ls. by rewrite Gc, Gm, Gr, Hu.
Qed.
(** ... nothing having happened to [s]. *)
Lemma session_ok_same nd nd' s io :
  (forall p, subscribed (history nd') s p = subscribed (history nd) s p) ->
  pending nd' s = pending nd s -> unread nd' s = unread nd s -> nd_done nd' = nd_done nd ->
  session_ok nd s io -> session_ok nd' s io.
Proof.
  intros Hh Hp Hu Hd. apply (session_ok_fed _ _ _ _ _ []); try done; [|apply fed_refl].
  by rewrite Hd, app_nil_r.
Qed.

Lemma inv_fed nd nd' f :
  nd_running nd' = nd_running nd -> commands (history nd) = commands (history nd') ->
  (nd_running nd = true -> io_commands (nd_queue nd')) ->
  (nd_running nd = true -> agrees (nd_done nd') (nd_server nd')) ->
  (nd_running nd = true -> forall s, is_Some (session_to_products (nd_server nd') !! s) ->
     is_Some (nd_sessions nd !! s)) ->
  nd_handling nd' = nd_handling nd -> all_fed f (nd_sessions nd) (nd_sessions nd') ->
  (nd_running nd = true -> forall s,
     delivered write_json [] (nd_done nd') s = delivered write_json [] (nd_done nd) s ++ f s) ->
  node_inv nd -> node_inv nd'.
Proof.
  intros Hr Hh Hio Hag Hk Hha Hg Hd [H0 H1 H2 H3 H4 H5 H6 H7 H8].
  split; rewrite ?Hr, ?Hha; try done.
  - by apply (same_added_first _ _ Hh).
  - intros s Hs. apply (same_unnamed _ _ Hh), H2. specialize (Hg s). rewrite Hs in Hg. by destruct (nd_sessions nd !! s).
  - intros s io Hs. specialize (Hg s). rewrite Hs in Hg.
    destruct (nd_sessions nd !! s) as [io0|] eqn:E; [|done]. etrans; [by eapply H3|apply Hg].
  - intros h Hh'. specialize (Hg (ha_session h)). destruct (H4 h Hh') as [io E]. rewrite E in Hg.
    destruct (nd_sessions nd' !! ha_session h); [by eexists|done].
  - intros Hrun h io' Hh' Hs. specialize (Hg (ha_session h)). rewrite Hs in Hg.
    destruct (nd_sessions nd !! ha_session h) as [io|] eqn:E; [|done].
    rewrite (fd_active _ _ _ Hg). by eapply H5.
  - intros Hrun s io' Hs. specialize (Hg s). rewrite Hs in Hg.
    destruct (nd_sessions nd !! s) as [io|] eqn:E; [|done].
    apply (session_ok_fed nd _ s io _ (f s)); [by intros; symmetry; apply same_subscribed| | |by apply Hd|done|by apply H6];
      unfold pending, unread; by rewrite Hha.
  - intros Hrun s Hs. destruct (Hk Hrun s Hs) as [io E]. specialize (Hg s). rewrite E in Hg.
    destruct (nd_sessions nd' !! s); [by eexists|done].
Qed.

(** *** Each step *)
Lemma concat_chunks_snoc cs c : concat_chunks (cs ++ [c]) = (concat_chunks cs +:+ c)%string.
Proof.
  induction cs as [|c' cs IH]; simpl; [by rewrite string_app_nil_r|]. by rewrite IH, string_app_assoc.
Qed.

Lemma history_enqueue k t nd : history (enqueue k t nd) = history nd ++ [t].
Proof. simpl. unfold mp_enqueue. by rewrite fmap_app, app_assoc. Qed.
Lemma io_enqueue k t q : io_commands q -> k = IoThread \/ is_command t = false -> io_commands (mp_enqueue k t q).
Proof. intros Hq Hk. apply Forall_app. split; [done|]. by apply Forall_singleton. Qed.

(** A task that says nothing of sessions goes on the queue. *)
Lemma inv_enqueue_quiet nd k t :
  is_command t = false -> node_inv nd -> node_inv (enqueue k t nd).
Proof.
  intros Ht [H0 H1 H2 H3 H4 H5 H6 H7 H8].
  assert (forall s, ~ names t s) as Hn by (intros s; destruct t; naive_solver).
  assert (forall s p, says t s p = None) as Hs by (intros s p; by destruct t).
  pose proof (history_enqueue k t nd) as Hh. simpl in Hh.
  split; simpl; rewrite ?Hh; try done.
  - intros Hr. apply io_enqueue; auto.
  - apply added_first_snoc; [done|]. intros s ->. by destruct (Hn s).
  - intros s E. apply Forall_app. split; [by apply H2|]. by repeat constructor.
  - intros Hr s io E. apply (session_ok_same nd); [|done..|by apply H6].
    intros p. simpl. by rewrite Hh, subscribed_snoc, Hs.
Qed.

Lemma inv_accept nd s :
  nd_handling nd = None -> nd_sessions nd !! s = None -> node_inv nd -> node_inv (accept s nd).
Proof.
  intros Hha Hs [H0 H1 H2 H3 H4 H5 H6 H7 H8]. unfold accept.
  pose proof (history_enqueue IoThread (ADD_SESSION s) nd) as Hh. simpl in Hh.
  split; simpl; rewrite ?Hh; try done; rewrite ?Hha; try done.
  - intros Hr. apply io_enqueue; auto.
  - apply added_first_snoc; [done|]. intros s' [= <-]. by apply H2.
  - intros s' [E Hne]%lookup_insert_None. apply Forall_app. split; [by apply H2|].
    repeat constructor. simpl. congruence.
  - intros s' io. rewrite lookup_insert. case_decide; [intros [= <-]; apply rtc_refl|apply H3].
  - intros Hr s' io. rewrite lookup_insert. case_decide as E.
    + intros [= <-]. subst s'. split;
        [|intros _; unfold pending; simpl; rewrite Hha; split; [done|]; split; [|done]|].
      * intros p. simpl. rewrite Hh, subscribed_snoc. simpl. by rewrite decide_True.
      * rewrite unnamed_delivered; [done|]. by apply H2, Forall_app in Hs as [? _].
      * exists []. unfold unread. simpl. by rewrite Hha.
    + intros E'. apply (session_ok_same nd); [|done..|by apply H6].
      intros p. simpl. rewrite Hh, subscribed_snoc. simpl. by rewrite decide_False.
  - intros Hr s' H. destruct (H8 Hr s' H) as [io E]. rewrite lookup_insert. case_decide; by eexists.
Qed.

Lemma close_again s : close_session (close_session s) = close_session s.
Proof. done. Qed.

Lemma inv_close nd k s :
  is_Some (nd_sessions nd !! s) -> (nd_running nd = true -> nd_handling nd = None) ->
  (nd_running nd = true -> k = IoThread) -> node_inv nd -> node_inv (session_close k s nd).
Proof.
  intros [io0 Hs] Hha Hk [H0 H1 H2 H3 H4 H5 H6 H7 H8]. unfold session_close.
  pose proof (history_enqueue k (REMOVE_SESSION s) nd) as Hh. simpl in Hh.
  split; simpl; rewrite ?Hh; try done.
  - intros Hr. apply io_enqueue; auto.
  - by apply added_first_snoc.
  - intros s' E. rewrite lookup_alter in E. apply Forall_app.
    destruct (decide (s = s')) as [<-|Hne]; [by rewrite Hs in E|]. split; [by apply H2|].
    repeat constructor. simpl. congruence.
  - intros s' io E. rewrite lookup_alter in E. case_decide; [|by eapply H3]. subst s'.
    rewrite Hs in E. injection E as <-. simpl. eapply rtc_r; [by eapply H3|constructor].
  - intros h E. rewrite lookup_alter. case_decide as Heq; [rewrite Hs; by eexists|by apply H4].
  - intros Hr h io E. rewrite (Hha Hr) in E. done.
  - intros Hr s' io E. rewrite lookup_alter in E. case_decide as Heq.
    + subst s'. rewrite Hs in E. injection E as <-. destruct (H6 Hr s io0 Hs) as [Ha _ Hrd].
      split; [|done..]. intros p. simpl. rewrite Hh, subscribed_snoc. simpl. by rewrite decide_True.
    + apply (session_ok_same nd); [|done..|by apply H6].
      intros p. simpl. rewrite Hh, subscribed_snoc. simpl. by rewrite decide_False.
  - intros Hr s' H. destruct (H8 Hr s' H) as [io E]. rewrite lookup_alter. case_decide as Heq; [|by eexists].
    subst s'. rewrite Hs. by eexists.
Qed.

(** The handler moves on without owing or paying an acknowledgement. *)
Lemma inv_set_handling nd h :
  (forall h', h = Some h' -> is_Some (nd_sessions nd !! ha_session h')) ->
  (nd_running nd = true -> forall h' io, h = Some h' ->
     nd_sessions nd !! ha_session h' = Some io -> ss_active (sio io) = true) ->
  (forall s, pending (set_handling h nd) s = pending nd s) ->
  (forall s, omap read_json (unread (set_handling h nd) s) = omap read_json (unread nd s)) ->
  node_inv nd -> node_inv (set_handling h nd).
Proof.
  intros He Ha Hp Hu [H0 H1 H2 H3 H4 H5 H6 H7 H8]. split; simpl; try done.
  intros Hr s io E. destruct (H6 Hr s io E) as [Hs Hk Hrd].
  split; [done| |by setoid_rewrite Hu]. intros Hact. rewrite Hp. by apply Hk.
Qed.

Lemma inv_read nd s chunk :
  nd_handling nd = None -> is_Some (nd_sessions nd !! s) ->
  node_inv nd -> node_inv (read_handler s chunk nd).
Proof.
  intros Hha Hs Hi. unfold read_handler.
  destruct chunk as [chunk|]; [|by apply inv_close].
  pose proof Hs as [io E]. rewrite E.
  destruct (ss_active (sio io)) eqn:Ea; [|by apply inv_close].
  destruct (on_read _ _) as [ls kept] eqn:Er. destruct Hi as [H0 H1 H2 H3 H4 H5 H6 H7 H8].
  split; simpl; try done.
  - intros s'. rewrite lookup_alter_None. apply H2.
  - intros s' io'. rewrite lookup_alter. case_decide as Heq; [|apply H3]. subst s'. rewrite E.
    intros [= <-]. simpl. by eapply H3.
  - intros h [= <-]. simpl. rewrite lookup_alter_eq, E. by eexists.
  - intros _ h io' [= <-]. simpl. rewrite lookup_alter_eq, E. by intros [= <-].
  - intros Hr s' io'. rewrite lookup_alter. case_decide as Heq.
    + subst s'. rewrite E. intros [= <-]. destruct (H6 Hr s io E) as [Hs1 Hk (rd&Hl&Hq)].
      unfold pending, unread in *. rewrite Hha in *. split; simpl; [done|by unfold pending; simpl; rewrite decide_True|].
      unfold unread. simpl. rewrite decide_True by done. exists (rd ++ ls).
      split; [|by rewrite omap_app, Hq; simpl; rewrite app_nil_r].
      rewrite concat_chunks_snoc, lines_app, Hl. unfold lines. unfold on_read in Er. by rewrite Er.
    + intros E'. destruct (H6 Hr s' io' E') as [Hs1 Hk Hrd]. unfold pending, unread in *.
      rewrite Hha in *. split; [done|..]; unfold pending, unread; simpl; by rewrite decide_False.
  - intros Hr s' Hs'. rewrite lookup_alter. case_decide; [|by apply H8]. by apply fmap_is_Some.
Qed.

(** The acknowledgement is sent. *)
Lemma inv_ack nd h ack :
  nd_handling nd = Some h -> ha_ack h = Some ack -> node_inv nd ->
  node_inv (set_handling (Some {| ha_session := ha_session h; ha_lines := ha_lines h; ha_ack := None |})
    (session_send IoThread (ha_session h) ack nd)).
Proof.
  intros Hh Hack [H0 H1 H2 H3 H4 H5 H6 H7 H8]. destruct (H4 h Hh) as [io0 E0].
  split; simpl; try done.
  - intros s. rewrite lookup_alter_None. apply H2.
  - intros s io. rewrite lookup_alter. case_decide as Heq; [|apply H3]. subst s. rewrite E0.
    intros [= <-]. eapply rtc_r; [by eapply H3|constructor].
  - intros h' [= <-]. simpl. rewrite lookup_alter_eq, E0. by eexists.
  - intros Hr h' io [= <-]. simpl. rewrite lookup_alter_eq, E0. intros [= <-]. simpl.
    unfold send_message. pose proof (H5 Hr h io0 Hh E0) as Ha. by rewrite Ha.
  - intros Hr s io E. rewrite lookup_alter in E. case_decide as Heq.
    + subst s. rewrite E0 in E. injection E as <-. destruct (H6 Hr _ io0 E0) as [Hs Hk (ls&Hl&Hq)].
      pose proof (H5 Hr h io0 Hh E0) as Hact. destruct (Hk Hact) as (Hk1&Hk2&Hk3).
      unfold pending, unread in *. rewrite Hh, !decide_True, Hack in * by done.
      split; simpl; unfold pending, unread, send_message; simpl; rewrite ?Hact, ?decide_True by done.
      * intros p. simpl. by rewrite Hs, Hact.
      * intros _. simpl in Hk1 |- *. rewrite !from_app, !from_one, !app_nil_r, Hk1. simpl.
        split_and!; [done..|]. apply Forall_app. split; [done|]. by repeat constructor.
      * by exists ls.
    + apply (session_ok_same nd); [done| | |done|by apply H6];
        unfold pending, unread; simpl; by rewrite Hh, !decide_False.
  - intros Hr s Hs. rewrite lookup_alter. case_decide; [|by apply H8]. subst s. rewrite E0. by eexists.
Qed.

(** A request is read, its command queued and its acknowledgement owed. *)
Lemma inv_request nd h r line lines :
  nd_handling nd = Some h -> ha_ack h = None -> ha_lines h = line :: lines ->
  read_json line = Some r -> node_inv nd ->
  node_inv (set_handling
    (Some {| ha_session := ha_session h; ha_lines := lines; ha_ack := write_response (response r) |})
    (enqueue IoThread (command (ha_session h) r) (on_session (ha_session h) (fun io => {| sio := sio io;
       read_message := read_message io; sio_requests := sio_requests io ++ [r];
       sio_received := sio_received io |}) nd))).
Proof.
  intros Hh Hack Hls Hrd [H0 H1 H2 H3 H4 H5 H6 H7 H8]. destruct (H4 h Hh) as [io0 E0].
  assert (forall s, names (command (ha_session h) r) s -> s = ha_session h) as Hn
    by (intros s; unfold command; by destruct (sreq_subscribe r)).
  pose proof (history_enqueue IoThread (command (ha_session h) r) nd) as Hhist. simpl in Hhist.
  split; simpl; rewrite ?Hhist; try done.
  - intros Hr. apply io_enqueue; auto.
  - apply added_first_snoc; [done|]. intros s. unfold command. by destruct (sreq_subscribe r).
  - intros s E. rewrite lookup_alter in E. case_decide as Heq; [by subst; rewrite E0 in E|].
    apply Forall_app. split; [by apply H2|]. repeat constructor. by intros ->%Hn.
  - intros s io. rewrite lookup_alter. destruct (decide _) as [<-|]; [|apply H3]. rewrite E0.
    intros [= <-]. simpl. by eapply H3.
  - intros h' [= <-]. simpl. rewrite lookup_alter_eq, E0. by eexists.
  - intros Hr h' io [= <-]. simpl. rewrite lookup_alter_eq, E0. intros [= <-].
    by apply (H5 Hr h io0).
  - intros Hr s io E. rewrite lookup_alter in E. case_decide as Heq.
    + subst s. rewrite E0 in E. injection E as <-. destruct (H6 Hr _ io0 E0) as [Hs Hk0 (ls&Hl&Hq)].
      pose proof (H5 Hr h io0 Hh E0) as Hact. destruct (Hk0 Hact) as (Hk&Hsub). split; simpl.
      * intros p. simpl. rewrite Hhist, subscribed_snoc, says_command, wants_snoc, Hact, Hs, Hact.
        destruct (decide (sreq_product r = p)) as [<-|Hne]; [by rewrite decide_True|].
        rewrite decide_False by naive_solver. done.
      * intros _. unfold acks, pending in *. simpl. rewrite Hh, decide_True, Hack in Hk by done.
        rewrite omap_app, Hk, decide_True by done. simpl. rewrite app_nil_r.
        split; [|done]. by destruct (write_response (response r)).
      * exists ls. split; [done|]. rewrite Hq. unfold unread. simpl. rewrite Hh, Hls.
        rewrite !decide_True by done. simpl. by rewrite Hrd, <- app_assoc.
    + apply (session_ok_same nd); [| | |done|by apply H6].
      * intros p. simpl. by rewrite Hhist, subscribed_snoc, says_command, decide_False by naive_solver.
      * unfold pending. simpl. by rewrite Hh, !decide_False.
      * unfold unread. simpl. by rewrite Hh, !decide_False.
  - intros Hr s Hs. rewrite lookup_alter. case_decide as Heq; [|by apply H8].
    subst s. rewrite E0. by eexists.
Qed.

Lemma inv_continue nd h :
  nd_handling nd = Some h -> node_inv nd -> node_inv (continue_handler h nd).
Proof.
  intros Hh Hi. unfold continue_handler. destruct (ha_ack h) as [ack|] eqn:Hack; [by apply inv_ack|].
  assert (forall s, pending nd s = []) as Hp
    by (intros s; unfold pending; rewrite Hh, Hack; by case_decide).
  destruct (ha_lines h) as [|line lines] eqn:Hls.
  { apply inv_set_handling; try done. intros s. unfold unread. simpl. rewrite Hh, Hls. by case_decide. }
  unfold handle_message. destruct (read_json line) as [r|] eqn:Hrd; [by eapply inv_request|].
  apply inv_set_handling; try done.
  - intros h' [= <-]. by apply (ni_handling _ Hi h).
  - intros Hr h' io [= <-]. simpl. by apply (ni_active _ Hi Hr h).
  - intros s. rewrite Hp. unfold pending. simpl. by case_decide.
  - intros s. unfold unread. simpl. rewrite Hh, Hls. case_decide; [|done]. simpl. by rewrite Hrd.
Qed.

(** A step of a writer that leaves it as open as it was. *)
Lemma fed_writer f io :
  session_step (sio io) (f (sio io)) -> ss_active (f (sio io)) = ss_active (sio io) ->
  ss_accepted (f (sio io)) = ss_accepted (sio io) -> fed [] io (on_writer f io).
Proof. intros H1 H2 H3. split; simpl; [done..| |by apply rtc_once]. by rewrite H3, app_nil_r. Qed.

Lemma inv_writer nd s f :
  (forall io, nd_sessions nd !! s = Some io -> fed [] io (on_writer f io)) ->
  node_inv nd -> node_inv (on_session s (on_writer f) nd).
Proof.
  intros Hf Hi. apply (inv_fed nd _ (fun s' => if decide (s = s') then [] else [])); try done;
    [by apply (ni_io nd)|by apply (ni_server nd)|by apply (ni_known nd)|by apply all_fed_alter|].
  intros _ s'. simpl. by case_decide; rewrite app_nil_r.
Qed.

Lemma kick_keeps k s : ss_active (kick k s) = ss_active s /\ ss_accepted (kick k s) = ss_accepted s.
Proof.
  unfold kick, do_write, set_writing. simpl. destruct (ss_writing s); simpl; [done|].
  destruct (ss_active s); simpl; [|done]. by destruct (try_dequeue k (ss_queue s)) as [[[]]|].
Qed.

(** A completion is the good kind, or ends in a close. *)
Lemma write_done_ok k s : ss_active s = true ->
  ss_active (write_done k true s) = true /\ ss_accepted (write_done k true s) = ss_accepted s.
Proof.
  intros Ha. unfold write_done, do_write. simpl. rewrite Ha. simpl. rewrite ?Ha.
  by destruct (try_dequeue k (ss_queue s)) as [[[]]|].
Qed.
Lemma close_written k s ok : ok && ss_active s = false ->
  close_session (write_done k ok s) = write_done k ok s.
Proof. intros H. unfold write_done. cbn [ss_active]. by rewrite H. Qed.

Lemma inv_written nd k s ok io b :
  nd_handling nd = None -> nd_sessions nd !! s = Some io -> ss_inflight (sio io) = Some b ->
  node_inv nd -> node_inv (write_handler k s ok nd).
Proof.
  intros Hha E Hb Hi. unfold write_handler. rewrite E.
  destruct (ok && ss_active (sio io)) eqn:Eok.
  { apply andb_prop in Eok as [-> Ha]. apply inv_writer; [|done].
    rewrite E. intros io' [= <-]. destruct (write_done_ok k _ Ha).
    apply fed_writer; [by econstructor|congruence|done]. }
  destruct (inv_close nd IoThread s) as [H0 H1 H2 H3 H4 H5 H6 H7 H8]; [by eexists|done..|].
  (* the closed writer only lost its buffer *)
  assert (forall io', alter (on_writer close_session) s (alter (on_writer (write_done k ok)) s
            (nd_sessions nd)) !! s = Some io' -> io' = on_writer (write_done k ok) io) as Hcl.
  { intros io'. rewrite !lookup_alter_eq, E. simpl. intros [= <-]. unfold on_writer. simpl.
    by rewrite close_written. }
  assert (ss_active (write_done k ok (sio io)) = false /\
          ss_accepted (write_done k ok (sio io)) = ss_accepted (sio io)) as [Hoff Hacc].
  { rewrite <- (close_written k _ _ Eok). split; [done|]. simpl. unfold write_done.
    cbn [ss_active]. by rewrite Eok. }
  split; try done; simpl in *.
  - intros s' Hs'. apply H2. apply lookup_alter_None. by do 2 apply lookup_alter_None in Hs'.
  - intros s' io' Hs'. destruct (decide (s' = s)) as [->|Hne].
    + rewrite (Hcl _ Hs'). simpl. eapply rtc_r; [by eapply (ni_writer _ Hi)|by econstructor].
    + rewrite !lookup_alter_ne in Hs' by done. by eapply (ni_writer _ Hi).
  - intros h Hh. by rewrite Hha in Hh.
  - intros _ h io' Hh. by rewrite Hha in Hh.
  - intros Hr s' io' Hs'. destruct (decide (s' = s)) as [->|Hne].
    + destruct (H6 Hr s (on_writer close_session io)) as [Hs Hk Hrd].
      { rewrite lookup_alter_eq. by rewrite E. }
      rewrite (Hcl _ Hs'). split; simpl; [intros p; rewrite Hoff; apply Hs|..].
      { by rewrite Hoff. }
      exact Hrd.
    + rewrite !lookup_alter_ne in Hs' by done.
      destruct (H6 Hr s' io') as [Hs Hk Hrd]; [by rewrite lookup_alter_ne|by split].
  - intros Hr s' Hs'. destruct (ni_known _ Hi Hr s' Hs') as [io' E'].
    destruct (decide (s' = s)) as [->|];
      [rewrite !lookup_alter_eq, E|rewrite !lookup_alter_ne, E' by done]; by eexists.
Qed.

(** What the worker's turn does to the sessions. *)
Lemma run_outputs_keep outs nd :
  let nd' := foldl run_output nd outs in
  nd_running nd' = nd_running nd /\ nd_queue nd' = nd_queue nd /\ nd_done nd' = nd_done nd /\
  nd_server nd' = nd_server nd /\ nd_handling nd' = nd_handling nd /\
  all_fed (fun s => sent_to s outs) (nd_sessions nd) (nd_sessions nd').
Proof.
  revert nd. induction outs as [|o outs IH]; intros nd; simpl.
  { split_and!; try done. apply all_fed_refl. }
  destruct (IH (run_output nd o)) as (->&->&->&->&->&Hg).
  destruct o as [s m|p]; simpl in *; split_and!; try done.
  eapply all_fed_trans; [|apply (all_fed_alter _ s (on_writer (send_message Worker m)) [m]); intros; apply fed_send|exact Hg].
  intros s'. simpl. unfold sent_to. simpl. by case_decide.
Qed.

Lemma handle_known t srv s :
  is_Some (session_to_products (handle_server_task write_json has_hook t srv).1 !! s) ->
  is_Some (session_to_products srv !! s) \/ names t s.
Proof.
  destruct t as [s'|s'|s' p|s' p|p j|p d]; simpl; try (by left).
  - destruct (decide (s = s')) as [->|]; [by right|]. rewrite lookup_insert_ne by done. by left.
  - destruct (session_to_products srv !! s') eqn:E; simpl; [|by left].
    intros H. left. by apply lookup_delete_is_Some in H as [_ H].
  - destruct (decide (s = s')) as [->|]; [by right|]. rewrite lookup_insert_ne by done. by left.
  - rewrite lookup_alter. case_decide; [|by left]. subst s'. rewrite fmap_is_Some. by left.
Qed.

Lemma inv_worker nd first : node_inv nd -> node_inv (worker_turn first nd).
Proof.
  intros Hi. unfold worker_turn. destruct (nd_running nd) eqn:Hr; [|done].
  destruct (try_dequeue first (nd_queue nd)) as [[[k t] q]|] eqn:Hq; [|done].
  destruct (dequeue_commands _ _ _ _ _ (ni_io _ Hi Hr) Hq) as [Hcm Hio].
  assert (commands (history nd) = commands (nd_done nd ++ t :: q.*2)) as Hch
    by (by rewrite !commands_app, Hcm).
  destruct (handle_server_task write_json has_hook t (nd_server nd)) as [srv outs] eqn:Ht.
  pose proof (f_equal fst Ht) as Hsrv. cbn [fst] in Hsrv.
  match goal with |- node_inv (foldl _ ?x _) =>
    destruct (run_outputs_keep outs x) as (Hr'&Hq'&Hd'&Hs'&Hh'&Hg) end.
  cbn [nd_running nd_queue nd_done nd_server nd_handling nd_sessions] in *.
  pose proof (same_added_first _ _ Hch (ni_first _ Hi)) as Hf.
  apply (inv_fed nd _ (fun s => sent_to s outs)); rewrite ?Hr', ?Hq', ?Hd', ?Hs', ?Hh'; try done.
  - by rewrite Hch, <- app_assoc.
  - intros _. rewrite <- Hsrv. apply handle_agrees; [by apply ni_server|].
    by apply (added_first_mid [] _ _ _ Hf).
  - intros _ s Hs. rewrite <- Hsrv in Hs. apply handle_known in Hs as [Hs|Hs]; [by apply (ni_known nd)|].
    destruct (nd_sessions nd !! s) eqn:E; [by eexists|].
    apply (ni_fresh nd Hi), (same_unnamed _ _ Hch), Forall_app in E as [_ E].
    inversion E; subst. done.
  - intros _ s. rewrite delivered_snoc. simpl. f_equal. symmetry.
    rewrite <- (handle_sends write_json has_hook (nd_done nd) (nd_server nd)) by (by apply ni_server).
    by rewrite Ht.
Qed.

(** Shutdown: the registry's sessions are closed with the worker joined. *)
Lemma inv_down nd : node_inv nd -> forall r srv,
  r = false -> node_inv {| nd_running := r; nd_queue := nd_queue nd; nd_done := nd_done nd;
    nd_server := srv; nd_sessions := nd_sessions nd; nd_handling := nd_handling nd;
    nd_hooks := nd_hooks nd |}.
Proof. intros [H0 H1 H2 H3 H4 H5 H6 H7 H8] r srv ->. by split. Qed.

Lemma inv_close_all k ss nd :
  nd_running nd = false -> Forall (fun s => is_Some (nd_sessions nd !! s)) ss ->
  node_inv nd -> node_inv (foldr (session_close k) nd ss).
Proof.
  intros Hr Hss Hi. assert (forall ss' s, nd_running (foldr (session_close k) nd ss') = false /\
    (is_Some (nd_sessions nd !! s) -> is_Some (nd_sessions (foldr (session_close k) nd ss') !! s))) as Hk.
  { induction ss' as [|s' ss' IH]; intros s; simpl; [done|].
    split; [by apply IH|]. intros Hs. rewrite lookup_alter.
    destruct (proj2 (IH s) Hs) as [io E]. case_decide; [subst|]; rewrite E; by eexists. }
  induction Hss as [|s ss Hs _ IH]; simpl; [done|].
  apply inv_close; [by apply Hk|by rewrite (proj1 (Hk ss s))..|done].
Qed.

Lemma close_all_down k ss nd srv r r' srv' :
  let set r srv nd := {| nd_running := r; nd_queue := nd_queue nd; nd_done := nd_done nd;
    nd_server := srv; nd_sessions := nd_sessions nd; nd_handling := nd_handling nd;
    nd_hooks := nd_hooks nd |} in
  set r srv (foldr (session_close k) nd ss) = set r srv (foldr (session_close k) (set r' srv' nd) ss).
Proof.
  simpl. induction ss as [|s ss IH]; simpl; [done|]. injection IH as H1 H2 H3 H4 H5.
  by rewrite H1, H2, H3, H4, H5.
Qed.

Lemma inv_stop nd k : node_inv nd -> node_inv (stop k nd).
Proof.
  intros Hi. unfold stop. destruct (nd_running nd) eqn:Hr; [|done].
  rewrite (close_all_down k _ _ _ _ false TcpServer_new).
  apply inv_down; [|done]. apply inv_close_all; [done| |by apply inv_down].
  apply Forall_forall. intros s Hs%elem_of_elements%elem_of_dom. by apply (ni_known nd).
Qed.

Lemma node_step_inv nd nd' : node_step nd nd' -> node_inv nd -> node_inv nd'.
Proof.
  intros Hstep Hi. destruct Hstep as [s nd Hh Hs|s c nd Hh Hs|h nd Hh|s io nd Hs Hp|k s io nd Hh Hs Hk
    |k s ok io b nd Hh Hs Hb|n p json nd|n p d nd|k nd|n nd].
  - by apply inv_accept.
  - by apply inv_read.
  - by apply inv_continue.
  - apply inv_writer; [|done]. rewrite Hs. intros io' [= <-]. by apply fed_writer; [constructor|..].
  - apply inv_writer; [|done]. rewrite Hs. intros io' [= <-].
    destruct (kick_keeps k (sio io)). by apply fed_writer; [constructor|..].
  - by eapply inv_written.
  - unfold broadcast_to_subscribers. destruct (nd_running nd); [|done].
    by apply inv_enqueue_quiet.
  - unfold set_product_info. destruct (nd_running nd); [|done].
    by apply inv_enqueue_quiet.
  - by apply inv_worker.
  - by apply inv_stop.
Qed.

Lemma reached_inv nd : reached nd -> node_inv nd.
Proof.
  assert (node_inv Node_new) as H0.
  { split; simpl; try done; try (intros; apply agrees_new); try (intros; by constructor); intros _ s H.
    rewrite lookup_empty in H. by destruct H. }
  intros H. induction H as [|nd1 nd2 nd3 Hs _ IH]; [done|]. by apply IH, (node_step_inv nd1).
Qed.

(** C11: The server, whole, with its threads in any order, and its two kinds of queue keeping
    only the order of each thread that feeds them.  While it runs, a session's requests are
    exactly the lines its client's bytes carry; once the worker has caught up the registry
    lists the session under the products its last request subscribed, and under nothing
    after a close.  The client reads whole messages, of which each thread's are a gapless
    prefix, in order, of what that thread sent it: while its session is open, the io thread
    the acknowledgements of its requests, and the worker everything the tasks done owe it --
    each grid retained when it subscribed and each broadcast made while it was subscribed --
    in the order they were done.  With nothing under way in the open session it has read the
    two in full, shuffled. *)
Theorem server_serves_its_clients nd s io chunks :
  reached nd -> nd_running nd = true -> nd_handling nd = None -> nd_sessions nd !! s = Some io ->
  Forall clean (ss_accepted (sio io)).*2 ->
  concat_chunks chunks = concat_chunks (ss_wire (sio io)) ->
  sio_requests io = omap read_json (lines (concat_chunks (sio_received io))).1 /\
  (nd_queue nd = [] -> forall p, s ∈ members (product_to_sessions (nd_server nd)) p <->
     ss_active (sio io) = true /\ wants (sio_requests io) p = true) /\
  exists sent : list (Thread * string), read_all "" chunks = (sent.*2, ""%string) /\
    (forall k, from k sent `prefix_of` from k (ss_accepted (sio io))) /\
    (ss_active (sio io) = true ->
     from IoThread (ss_accepted (sio io)) = acks (sio_requests io) /\
     from Worker (ss_accepted (sio io)) = delivered write_json [] (nd_done nd) s) /\
    (quiet (sio io) ->
     merges (acks (sio_requests io)) (delivered write_json [] (nd_done nd) s) sent.*2).
Proof.
  intros Hreach Hr Hh Hs Hc Hw. pose proof (reached_inv nd Hreach) as Hi.
  destruct (ni_session _ Hi Hr s io Hs) as [Hsub Hk (ls&Hl&Hq)].
  unfold pending, unread in *. rewrite Hh, ?app_nil_r in *. simpl in Hq. split_and!.
  - by rewrite Hl.
  - intros He p. rewrite (ag_products _ _ (ni_server _ Hi Hr)).
    rewrite <- andb_true_iff, <- (Hsub p), He. by rewrite app_nil_r.
  - destruct (session_read _ chunks (ni_writer _ Hi s io Hs) Hc Hw) as (sent&H1&H2&H3).
    exists sent. split_and!; [done..| |].
    { intros Hact. by destruct (Hk Hact) as (->&->&_). }
    intros Hqt. destruct (Hk (proj1 Hqt)) as (Ha&Hd&Hth).
    rewrite Ha, <- Hd. by apply same_streams_merges; [|apply H3|].
Qed.
End node.

(** A client that subscribes to [P], is acknowledged, and gets the retained grid. *)
Definition demo_grid : ProductInfoData := {| tick_size := Some (of_Z 1); lot_size := Some (of_Z 1) |}.
Section demo.
Context (read_json : string -> option SubscribeRequestMsg).
Context (write_response : SubscribeResponseMsg -> option string).
Context (write_json : string -> ProductInfoData -> option string).
Definition demo_continue (nd : Node) : Node :=
  match nd_handling nd with
  | Some h => continue_handler read_json write_response h nd
  | None => nd
  end.
Definition demo_turn := worker_turn write_json false (Owner 0).
Definition demo_asked : Node :=
  demo_continue (demo_continue (demo_continue (read_handler 0 (Some ("sub" +:+ String newline "")%string)
    (accept 0 (set_product_info (Owner 0) "P" demo_grid Node_new))))).
Definition demo_sent : Node := demo_turn (demo_turn (demo_turn demo_asked)).
Definition demo_node : Node :=
  on_session 0 (on_writer (kick Worker)) (write_handler Worker 0 true (write_handler Worker 0 true
    (on_session 0 (on_writer (kick IoThread)) (on_session 0 (on_writer post_kick)
      (on_session 0 (on_writer post_kick) demo_sent))))).
End demo.

Ltac demo_step c := eapply rtc_r; [|c; [> (vm_compute; (reflexivity || lia || by eexists)) ..]].
Ltac demo_reached :=
  unfold reached, demo_node;
  demo_step ltac:(eapply ns_kick); demo_step ltac:(eapply ns_written);
  demo_step ltac:(eapply ns_written);
  demo_step ltac:(eapply ns_kick); demo_step ltac:(eapply ns_post); demo_step ltac:(eapply ns_post);
  do 3 (eapply rtc_r; [|apply ns_worker]);
  demo_step ltac:(eapply ns_continue); demo_step ltac:(eapply ns_continue);
  demo_step ltac:(eapply ns_continue); demo_step ltac:(eapply ns_read);
  demo_step ltac:(eapply ns_accept); eapply rtc_r; [|apply ns_info]; apply rtc_refl.

Definition demo_read (line : string) : option SubscribeRequestMsg :=
  if decide (line = "sub"%string)
  then Some {| sreq_subscribe := true; sreq_product := "P"; sreq_category := futures |} else None.
Definition demo_response (r : SubscribeResponseMsg) : option string := Some "ok"%string.
Definition demo_info (_ : string) (_ : ProductInfoData) : option string := Some "grid"%string.
Abbreviation demo := (demo_node demo_read demo_response demo_info).

Lemma server_serves_its_clients_witness :
  0%nat ∈ members (product_to_sessions (nd_server demo)) "P" /\
  exists ms, read_all "" ["ok" +:+ String newline "gr"; "id" +:+ String newline ""]%string = (ms, ""%string) /\
    merges ["ok"%string] ["grid"%string] ms.
Proof.
  assert (reached demo_read demo_response demo_info false demo) as Hr by demo_reached.
  destruct (server_serves_its_clients demo_read demo_response demo_info false demo 0
    (default SessionIo_new (nd_sessions demo !! 0%nat))
    ["ok" +:+ String newline "gr"; "id" +:+ String newline ""]%string Hr) as (_&H2&sent&H3&_&_&H4);
    try (vm_compute; reflexivity).
  - repeat constructor; try discriminate; simpl; intros a Ha; repeat destruct Ha as [<-|Ha]; done.
  - split; [apply H2; by vm_compute|]. exists sent.*2. split; [done|]. by apply H4.
Defined.
