(* ===== verification/TcpClient.v ===== *)
(** * TcpClient: the reconnecting feed client

    [connection_handlers/tcp/tcp_client_base.cpp] and its two subclasses,
    [market_feed_client.hpp] and [fair_price_client.hpp].  The client's callbacks (dial,
    read, write, timer, posted requests) are operations on its members; they may run in
    any order the io context allows, which is the step relation [client_step].  What the
    client tells its consumer is the list of virtual hook calls; a subclass turns each
    call into tasks through the [FeedClient] interface. *)
From S2P Require Import Prelude Double Messages Framing OrderState Pricer.

Inductive HookCall :=
  | HStatus (connecting connected : bool)
  | HSubscribeResponse (subscribe success : bool) (product : string)
  | HDataLine (feed line : string).

Record Client := {
  cl_running : bool; cl_connected : bool;
  cl_posted : bool;             (* start()'s do_connect, posted and not run yet *)
  cl_dialing : bool;            (* an async_connect is pending *)
  cl_timer : bool;              (* the reconnect timer is armed *)
  cl_reading : bool;            (* an async_read_some is pending *)
  cl_inflight : bool;           (* an async_write is pending *)
  cl_writing : bool; cl_queue : list string; cl_text : string;
  cl_wire : list string; cl_calls : list HookCall }.
Definition Client_new : Client := {|
  cl_running := false; cl_connected := false; cl_posted := false; cl_dialing := false;
  cl_timer := false; cl_reading := false; cl_inflight := false; cl_writing := false;
  cl_queue := []; cl_text := ""; cl_wire := []; cl_calls := [] |}.

(** Field updates. *)
Definition set_link running connected posted dialing timer (c : Client) : Client := {|
  cl_running := running; cl_connected := connected; cl_posted := posted;
  cl_dialing := dialing; cl_timer := timer; cl_reading := cl_reading c;
  cl_inflight := cl_inflight c; cl_writing := cl_writing c; cl_queue := cl_queue c;
  cl_text := cl_text c; cl_wire := cl_wire c; cl_calls := cl_calls c |}.
Definition set_io reading inflight writing queue text wire (c : Client) : Client := {|
  cl_running := cl_running c; cl_connected := cl_connected c; cl_posted := cl_posted c;
  cl_dialing := cl_dialing c; cl_timer := cl_timer c; cl_reading := reading;
  cl_inflight := inflight; cl_writing := writing; cl_queue := queue;
  cl_text := text; cl_wire := wire; cl_calls := cl_calls c |}.
Definition call (hs : list HookCall) (c : Client) : Client := {|
  cl_running := cl_running c; cl_connected := cl_connected c; cl_posted := cl_posted c;
  cl_dialing := cl_dialing c; cl_timer := cl_timer c; cl_reading := cl_reading c;
  cl_inflight := cl_inflight c; cl_writing := cl_writing c; cl_queue := cl_queue c;
  cl_text := cl_text c; cl_wire := cl_wire c; cl_calls := cl_calls c ++ hs |}.

Section client.
(** [make_address] accepts the configured address. *)
Context (addr_ok : bool).
(** glaze: the feed tag of a line, and a subscribe response; [None] is a parse failure. *)
Context (classify : string -> option string).
Context (read_subscribe_response : string -> option SubscribeResponseMsg).

Definition handle_line (line : string) : list HookCall :=
  match classify line with
  | None => []
  | Some feed =>
      if decide (feed = "subscribe"%string) then
        match read_subscribe_response line with
        | None => []
        | Some r => [HSubscribeResponse (sres_subscribe r) (sres_success r) (sres_product r)]
        end
      else [HDataLine feed line]
  end.

Definition client_start (c : Client) : Client :=
  if cl_running c then c
  else set_link true (cl_connected c) true (cl_dialing c) (cl_timer c) c.

Definition do_connect (c : Client) : Client :=
  if negb (cl_running c) then c
  else if negb addr_ok then c
  else call [HStatus true false]
    (set_link true (cl_connected c) (cl_posted c) true (cl_timer c)
      (set_io (cl_reading c) (cl_inflight c) false [] "" (cl_wire c) c)).

Definition arm_reconnect_timer (c : Client) : Client :=
  if negb (cl_running c) then c
  else set_link true (cl_connected c) (cl_posted c) (cl_dialing c) true c.

Definition close_socket (c : Client) : Client :=
  if cl_connected c then
    let c := set_link (cl_running c) false (cl_posted c) (cl_dialing c) (cl_timer c) c in
    if cl_running c then call [HStatus false false] c else c
  else c.

Definition do_read (c : Client) : Client :=
  set_io true (cl_inflight c) (cl_writing c) (cl_queue c) (cl_text c) (cl_wire c) c.

(** The connect handler. *)
Definition connect_done (ok : bool) (c : Client) : Client :=
  let c := set_link (cl_running c) (cl_connected c) (cl_posted c) false (cl_timer c) c in
  if negb (cl_running c) then c
  else if negb ok then arm_reconnect_timer (call [HStatus false false] c)
  else
    do_read (call [HStatus false true]
      (set_link (cl_running c) true (cl_posted c) (cl_dialing c) (cl_timer c) c)).

(** The read handler; [None] is an error code. *)
Definition read_done (r : option string) (c : Client) : Client :=
  let c := set_io false (cl_inflight c) (cl_writing c) (cl_queue c) (cl_text c) (cl_wire c) c in
  if negb (cl_running c) then c
  else match r with
  | None => if cl_connected c then arm_reconnect_timer (close_socket c) else c
  | Some chunk =>
      let '(ls, text) := on_read (cl_text c) chunk in
      do_read (call (ls ≫= handle_line)
        (set_io (cl_reading c) (cl_inflight c) (cl_writing c) (cl_queue c) text (cl_wire c) c))
  end.

Definition cl_do_write (c : Client) : Client :=
  match cl_queue c with
  | [] => set_io (cl_reading c) (cl_inflight c) false [] (cl_text c) (cl_wire c) c
  | _ => set_io (cl_reading c) true (cl_writing c) (cl_queue c) (cl_text c) (cl_wire c) c
  end.

Definition enqueue_write (m : string) (c : Client) : Client :=
  let c := set_io (cl_reading c) (cl_inflight c) (cl_writing c) (cl_queue c ++ [m])
             (cl_text c) (cl_wire c) c in
  if cl_writing c then c
  else cl_do_write (set_io (cl_reading c) (cl_inflight c) true (cl_queue c) (cl_text c) (cl_wire c) c).

(** The write handler. *)
Definition cl_write_done (ok : bool) (c : Client) : Client :=
  if ok then
    cl_do_write (set_io (cl_reading c) false (cl_writing c) (tail (cl_queue c)) (cl_text c)
      (cl_wire c ++ option_list (head (cl_queue c))) c)
  else
    let c := set_io (cl_reading c) false false (cl_queue c) (cl_text c) (cl_wire c) c in
    if cl_connected c then arm_reconnect_timer (close_socket c) else c.

(** The posted half of [send_subscribe_request]. *)
Definition post_request (json : string) (c : Client) : Client :=
  if cl_connected c then enqueue_write (frame json) c else c.

(** The timer handler. *)
Definition timer_fired (c : Client) : Client :=
  let c := set_link (cl_running c) (cl_connected c) (cl_posted c) (cl_dialing c) false c in
  do_connect c.

(** [stop()]: lower the flag, then tear down on the io thread. *)
Definition client_stop (c : Client) : Client :=
  if cl_running c then
    let c := set_link false (cl_connected c) (cl_posted c) (cl_dialing c) false c in
    close_socket c
  else c.

(** What the io context can run; a client is started once.  The timer waits for the handlers of the closed socket to
    drain: it is armed for seconds, they complete at once with an error. *)
Inductive client_step : Client -> Client -> Prop :=
  | cstep_start : client_step Client_new (client_start Client_new)
  | cstep_posted c : cl_posted c = true ->
      client_step c (do_connect (set_link (cl_running c) (cl_connected c) false
                                   (cl_dialing c) (cl_timer c) c))
  | cstep_connect ok c : cl_dialing c = true -> client_step c (connect_done ok c)
  | cstep_read r c : cl_reading c = true -> client_step c (read_done r c)
  | cstep_write ok c : cl_inflight c = true -> client_step c (cl_write_done ok c)
  | cstep_request json c : client_step c (post_request json c)
  | cstep_timer c : cl_timer c = true -> cl_reading c = false -> cl_inflight c = false ->
      client_step c (timer_fired c)
  | cstep_stop c : client_step c (client_stop c).
End client.

(** ** The link state machine *)

(** The last status the consumer was given. *)
Definition last_status (hs : list HookCall) : option (bool * bool) :=
  foldl (fun o h => match h with HStatus a b => Some (a, b) | _ => o end) None hs.

Definition b2n (b : bool) : nat := if b then 1 else 0.

(** While running, the link is in exactly one of four places, and the consumer has been told
    which; an open link is being read; the writer flag says whether a write is pending. *)
Record client_inv (c : Client) : Prop := {
  ci_place : cl_running c = true ->
    (b2n (cl_posted c) + b2n (cl_dialing c) + b2n (cl_connected c) + b2n (cl_timer c) = 1)%nat;
  ci_idle : cl_running c = false -> cl_connected c = false /\ cl_timer c = false;
  ci_status : cl_running c = true ->
    (cl_connected c = true -> last_status (cl_calls c) = Some (false, true)) /\
    (cl_dialing c = true -> last_status (cl_calls c) = Some (true, false)) /\
    (cl_timer c = true -> last_status (cl_calls c) = Some (false, false));
  ci_fresh : cl_running c = true -> cl_posted c = true \/ cl_dialing c = true ->
    cl_reading c = false /\ cl_inflight c = false /\ (cl_dialing c = true -> cl_writing c = false);
  ci_posted : cl_running c = true -> cl_posted c = true -> last_status (cl_calls c) = None;
  ci_reading : cl_connected c = true -> cl_reading c = true;
  ci_writing : cl_connected c = true -> cl_writing c = cl_inflight c /\
    (cl_inflight c = true -> cl_queue c <> []);
  ci_text : lines (cl_text c) = ([], cl_text c) }.

Lemma last_status_app hs hs' :
  last_status (hs ++ hs') = foldl (fun o h => match h with HStatus a b => Some (a, b) | _ => o end)
    (last_status hs) hs'.
Proof. apply foldl_app. Qed.

Section client_proofs.
Context (addr_ok : bool) (classify : string -> option string).
Context (read_subscribe_response : string -> option SubscribeResponseMsg).

Lemma handle_line_keeps_status line o :
  foldl (fun o h => match h with HStatus a b => Some (a, b) | _ => o end) o
    (handle_line classify read_subscribe_response line) = o.
Proof.
  unfold handle_line. destruct (classify line); [|done].
  destruct (decide _); [|done]. by destruct (read_subscribe_response line).
Qed.

Lemma lines_keep_status ls hs :
  last_status (hs ++ (ls ≫= handle_line classify read_subscribe_response)) = last_status hs.
Proof.
  revert hs. induction ls as [|l ls IH]; intros hs; [by rewrite app_nil_r|]. simpl.
  rewrite app_assoc, IH, last_status_app. apply handle_line_keeps_status.
Qed.

#[local] Arguments last_status : simpl never.
#[local] Arguments lines : simpl never.
Ltac client_inv_tac :=
  split; cbn; rewrite ?last_status_app; cbn; first [done | lia | intuition congruence | idtac].
(** Only one place is possible: the others are not. *)
Ltac one_place Hp :=
  repeat match type of Hp with
  | context [b2n ?x] => is_var x; destruct x; cbn in Hp; try lia
  end.

Lemma client_step_inv c c' :
  addr_ok = true ->
  client_step addr_ok classify read_subscribe_response c c' -> client_inv c -> client_inv c'.
Proof.
  intros Hok Hstep [Hp Hidle Hs Hf Hn Hr Hw Ht]. subst addr_ok.
  destruct Hstep as [|c Hc|ok c Hc|r c Hc|ok c Hc|json c|c Hc Hc1 Hc2|c];
    [|destruct c as [run con pos dia tim rea inf wri que txt wir cal]; cbn in *; subst..].
  - client_inv_tac.
  - unfold do_connect. cbn. destruct run; cbn; [specialize (Hp eq_refl); one_place Hp|];
      client_inv_tac.
  - unfold connect_done. cbn. destruct run; cbn; [specialize (Hp eq_refl); one_place Hp|].
    + destruct ok; cbn; client_inv_tac.
    + client_inv_tac.
  - unfold read_done. cbn. destruct run; cbn; [specialize (Hp eq_refl)|client_inv_tac].
    destruct r as [chunk|]; cbn.
    + destruct (on_read txt chunk) as [ls txt'] eqn:E. cbn.
      split; cbn; rewrite ?lines_keep_status; try done.
      unfold on_read in E. change (lines (txt +:+ chunk)%string = (ls, txt')) in E.
      pose proof (lines_rest_fuel _ (txt +:+ chunk)%string (le_n _)) as H. by rewrite E in H.
    + one_place Hp; cbn; client_inv_tac.
  - unfold cl_write_done. cbn. destruct ok; cbn.
    + unfold cl_do_write. cbn. destruct que as [|m que]; cbn; [client_inv_tac|].
      destruct que; cbn; client_inv_tac.
    + unfold close_socket. cbn. destruct run, con; cbn; try (specialize (Hp eq_refl); one_place Hp);
        cbn; client_inv_tac.
  - unfold post_request. cbn. destruct con; [|client_inv_tac].
    unfold enqueue_write. cbn. destruct wri; cbn.
    { client_inv_tac. intros _. destruct (Hw eq_refl). split; [done|]. intros _. by destruct que. }
    unfold cl_do_write. cbn. destruct que; cbn; client_inv_tac.
  - unfold timer_fired, do_connect. cbn. destruct run; cbn;
      [specialize (Hp eq_refl); one_place Hp|]; client_inv_tac.
  - unfold client_stop. cbn. destruct run; cbn; [|client_inv_tac].
    unfold close_socket. cbn. destruct con; cbn; client_inv_tac.
Qed.
End client_proofs.

Lemma client_reach_inv addr_ok classify rsr c :
  addr_ok = true -> rtc (client_step addr_ok classify rsr) Client_new c -> client_inv c.
Proof.
  intros Hok H. assert (client_inv Client_new) as H0 by (split; cbn; intuition congruence).
  induction H as [|c1 c2 c3 Hs _ IH]; [done|]. by eapply IH, client_step_inv.
Qed.

(** With an address that does not parse, the posted dial ends in an early return. *)
Definition undiallable (c : Client) : Prop :=
  cl_connected c = false /\ cl_dialing c = false /\ cl_timer c = false /\
  cl_reading c = false /\ cl_inflight c = false /\ cl_calls c = [].
Lemma undiallable_step classify rsr c c' :
  client_step false classify rsr c c' -> undiallable c -> undiallable c'.
Proof.
  intros Hs (H1&H2&H3&H4&H5&H6). destruct Hs as [|c Hc|ok c Hc|r c Hc|ok c Hc|json c|c Hc Hc1 Hc2|c];
    try congruence; unfold undiallable.
  - done.
  - unfold do_connect. cbn. by destruct (cl_running c).
  - unfold post_request. by rewrite H1.
  - unfold client_stop, close_socket. cbn. destruct (cl_running c); [|done]. by rewrite H1.
Qed.

(** C22: The link is never abandoned and never doubled, as long as the configured address is
    one.  In every reachable state of a running client -- whatever order dials, reads,
    writes, errors, timers and requests complete in -- exactly one of these holds: a dial is
    posted or pending, the socket is open and being read, or the reconnect timer is armed;
    and the consumer's last status says which.  With an address that does not parse,
    [do_connect] returns at once and leaves the link down: nothing is ever dialled, timed or
    read, and the consumer is told nothing. *)
Theorem link_never_abandoned addr_ok classify rsr c :
  rtc (client_step addr_ok classify rsr) Client_new c -> cl_running c = true ->
  if addr_ok then
    (b2n (cl_posted c) + b2n (cl_dialing c) + b2n (cl_connected c) + b2n (cl_timer c) = 1)%nat /\
    (cl_connected c = true -> cl_reading c = true /\ last_status (cl_calls c) = Some (false, true)) /\
    (cl_dialing c = true -> last_status (cl_calls c) = Some (true, false)) /\
    (cl_timer c = true -> last_status (cl_calls c) = Some (false, false))
  else
    cl_connected c = false /\ cl_dialing c = false /\ cl_timer c = false /\ cl_reading c = false /\
    cl_calls c = [].
Proof.
  intros H Hrun. destruct addr_ok.
  - destruct (client_reach_inv _ _ _ c eq_refl H) as [Hp _ Hs _ _ Hr _ _].
    destruct (Hs Hrun) as (?&?&?). split_and!; auto.
  - assert (undiallable c) as (?&?&?&?&?&?); [|done]. assert (undiallable Client_new) as H0 by done.
    clear Hrun. induction H as [|c1 c2 c3 Hs _ IH]; [done|]. by eapply IH, undiallable_step.
Qed.

(** Serve a connection's chunks to the read handler. *)
Definition read_chunks classify rsr (chunks : list string) (c : Client) : Client :=
  foldl (fun c chunk => read_done classify rsr (Some chunk) c) c chunks.

Lemma read_chunks_spec classify rsr chunks c :
  cl_running c = true ->
  let '(ls, text) := read_all (cl_text c) chunks in
  let c' := read_chunks classify rsr chunks c in
  cl_calls c' = cl_calls c ++ (ls ≫= handle_line classify rsr) /\ cl_text c' = text /\
  cl_running c' = true.
Proof.
  revert c. induction chunks as [|ch chunks IH]; intros c Hc; simpl.
  - by rewrite app_nil_r.
  - assert (cl_calls (read_done classify rsr (Some ch) c) =
      cl_calls c ++ ((on_read (cl_text c) ch).1 ≫= handle_line classify rsr) /\
      cl_text (read_done classify rsr (Some ch) c) = (on_read (cl_text c) ch).2 /\
      cl_running (read_done classify rsr (Some ch) c) = true) as (E1&E2&E3).
    { unfold read_done. cbn. rewrite Hc. cbn. by destruct (on_read (cl_text c) ch). }
    specialize (IH _ E3). rewrite E1, E2 in IH.
    destruct (on_read (cl_text c) ch) as [ls text]. cbn [fst snd] in *.
    destruct (read_all text chunks) as [ls' text']. destruct IH as (?&?&?).
    split_and!; try done. by rewrite bind_app, app_assoc.
Qed.

(** What the server frames is what the hooks see: a client on a fresh connection turns
    the byte stream of a list of messages, however TCP slices it, into the hook calls of
    those messages, in order, with nothing left half-read. *)
Theorem client_reads_messages classify rsr ms chunks c :
  cl_running c = true -> cl_text c = ""%string ->
  Forall clean ms -> concat_chunks chunks = frames ms ->
  let c' := read_chunks classify rsr chunks c in
  cl_calls c' = cl_calls c ++ (ms ≫= handle_line classify rsr) /\ cl_text c' = ""%string.
Proof.
  intros Hc Ht Hms Hch. pose proof (read_chunks_spec classify rsr chunks c Hc) as H.
  rewrite Ht, (framing_round_trip ms chunks Hms Hch) in H. by destruct H as (?&?&_).
Qed.

(** ** The subclasses *)

(** What a subclass of [TcpClientBase] supplies: the task each hook puts on the consumer's
    queue, if any. *)
Class FeedClient (T : Type) := {
  on_status : bool -> bool -> T;
  on_subscribe_response : bool -> bool -> string -> T;
  on_data_line : string -> string -> option T }.

Definition dispatch {T} `{!FeedClient T} (h : HookCall) : list T :=
  match h with
  | HStatus a b => [on_status a b]
  | HSubscribeResponse a b p => [on_subscribe_response a b p]
  | HDataLine feed line => option_list (on_data_line feed line)
  end.

(** A consumer's task type, as [MarketFeedClient] needs it. *)
Class MarketTask (T : Type) := {
  of_listener_status : ListenerStatusUpdate -> T;
  of_listener_subscribe : ListenerSubscribeUpdate -> T;
  of_market_data : MarketDataResponse -> T }.
#[export] Instance trader_market_task : MarketTask Task := {|
  of_listener_status := TListenerStatus; of_listener_subscribe := TListenerSubscribe;
  of_market_data := TMarketData |}.
#[export] Instance pricer_market_task : MarketTask PricerTask := {|
  of_listener_status := PTListenerStatus; of_listener_subscribe := PTListenerSubscribe;
  of_market_data := PTMarketData |}.

Section market_feed.
Context {T : Type} `{!MarketTask T}.
(** glaze's readers of the feed messages: product and payload. *)
Context (read_orderbook : string -> option (string * OrderbookData)).
Context (read_trade : string -> option (string * TradeData)).
Context (read_execution : string -> option (string * ExecutionData)).
Context (read_position : string -> option (string * PositionData)).
Context (read_product_info : string -> option (string * ProductInfoData)).

(** [emit<MsgT>]. *)
Definition emit_feed {A} (read : string -> option (string * A)) (kind : A -> MarketFeed)
    (line : string) : option T :=
  (fun '(p, d) => of_market_data {| md_product := p; md_data := kind d |}) <$> read line.

Definition market_on_data_line (feed line : string) : option T :=
  if decide (feed = "orderbook"%string) then emit_feed read_orderbook Orderbook line
  else if decide (feed = "trade"%string) then emit_feed read_trade Trade line
  else if decide (feed = "execution"%string) then emit_feed read_execution Execution line
  else if decide (feed = "position"%string) then emit_feed read_position Position line
  else if decide (feed = "product_info"%string) then emit_feed read_product_info ProductInfo line
  else None.

Definition MarketFeedClient : FeedClient T := {|
  on_status := fun a b => of_listener_status {| ls_connecting := a; ls_connected := b |};
  on_subscribe_response := fun a b p => of_listener_subscribe
    {| lsu_subscribe := a; lsu_success := b; lsu_product := p |};
  on_data_line := market_on_data_line |}.
End market_feed.

Section fair_price_feed.
Context (read_fair_price : string -> option (string * FairPriceData)).

Definition fair_price_on_data_line (feed line : string) : option Task :=
  if decide (feed = "fair_price"%string) then
    (fun '(p, d) => TFairPrice {| fpr_product := p; fpr_data := d |}) <$> read_fair_price line
  else None.

Definition FairPriceClient : FeedClient Task := {|
  on_status := fun a b => TPricerStatus {| ps_connecting := a; ps_connected := b |};
  on_subscribe_response := fun a b p => TPricerSubscribe
    {| psu_subscribe := a; psu_success := b; psu_product := p |};
  on_data_line := fair_price_on_data_line |}.
End fair_price_feed.

(** ** Client and consumer *)
Section pricer_link.
Context {F : Type} `{!BaseFactor F} (write_json : string -> FairPriceData -> option string).
Context (clock : nat -> Z) (conf : PricerConfig).
Context (ro : string -> option (string * OrderbookData)) (rt : string -> option (string * TradeData)).
Context (re : string -> option (string * ExecutionData)).
Context (rp : string -> option (string * PositionData)).
Context (ri : string -> option (string * ProductInfoData)).

Abbreviation tasks_of hs :=
  (hs ≫= dispatch (T := PricerTask) (FeedClient0 := MarketFeedClient ro rt re rp ri)).

(** A line that is not a status never touches the pricer's link flag. *)
Lemma run_keeps_link (w : Pricer (F := F)) t :
  (forall u, t <> PTListenerStatus u) ->
  pz_connected (pricer_run write_json clock conf t w).2 = pz_connected w.
Proof.
  intros Ht. destruct t as [u|u|r|p]; [by destruct (Ht u)|done|..]; simpl.
  - unfold pz_process_market_data. destruct (md_data r); try done.
    + unfold pz_on_orderbook, mbind, st_bind. cbn [gets fst snd id].
      destruct (pz_products w !! _); [|done]. cbn. by destruct (pz_top _), (pz_top _).
    + unfold pz_on_trade, mbind, st_bind. cbn [gets fst snd id].
      by destruct (pz_products w !! _).
  - unfold publish_fair_price, mbind, st_bind. cbn [gets fst snd id].
    destruct (pz_products w !! _) as [p0|]; [|done].
    destruct (pz_connected w) eqn:E; [|done]. cbn [negb].
    destruct (book_seen p0); [|done]. cbn.
    destruct (calc_compute _ _) as [r c]. cbn. destruct (priceable r); [|done]. cbn.
    by destruct (write_json _ _).
Qed.

Lemma run_status (w : Pricer (F := F)) u :
  pz_connected (pricer_run write_json clock conf (PTListenerStatus u) w).2 = ls_connected u.
Proof. done. Qed.

Lemma feed_tracks_status hs (w : Pricer (F := F)) :
  pz_connected (pricer_feed write_json clock conf (tasks_of hs) w) =
  default (pz_connected w) (snd <$> last_status hs).
Proof.
  induction hs as [|h hs IH] using rev_ind; [done|].
  rewrite bind_app, last_status_app. unfold pricer_feed in *. rewrite foldl_app. simpl.
  rewrite app_nil_r. destruct h as [a b|a b p|feed line]; simpl; [done|..].
  - by rewrite <- IH.
  - rewrite <- IH. destruct (market_on_data_line ro rt re rp ri feed line) as [t|] eqn:E; [|done].
    simpl. apply run_keeps_link. intros u ->. unfold market_on_data_line, emit_feed in E.
    repeat case_decide; try done; by destruct (_ line) as [[]|].
Qed.

(** The pricer's link flag is the client's: once the pricer has handled everything its
    listener client queued, it believes the link up exactly when the socket is open, so
    the rule "quiet while down" is about the real link. *)
Theorem pricer_tracks_link classify rsr c (w : Pricer (F := F)) :
  rtc (client_step true classify rsr) Client_new c ->
  cl_running c = true -> pz_connected w = false -> last_status (cl_calls c) <> None ->
  pz_connected (pricer_feed write_json clock conf (tasks_of (cl_calls c)) w) = cl_connected c.
Proof.
  intros H Hrun Hw Hn. rewrite feed_tracks_status.
  destruct (client_reach_inv _ _ _ c eq_refl H) as [Hp _ Hs _ Hpost _ _ _].
  destruct (Hs Hrun) as (H1&H2&H3). specialize (Hp Hrun).
  destruct (cl_connected c) eqn:Ec; [by rewrite H1|].
  destruct (cl_dialing c) eqn:Ed; [by rewrite H2|].
  destruct (cl_timer c) eqn:Et; [by rewrite H3|].
  destruct (cl_posted c) eqn:Eq; [by destruct Hn; auto|done].
Qed.
End pricer_link.

(** ** Concrete runs *)
Module SampleClient.
Definition classify (line : string) : option string := Some line.
Definition no_response (_ : string) : option SubscribeResponseMsg := None.
Definition none {A} (_ : string) : option (string * A) := None.
(** Started, dialled, connected; then the peer went away. *)
Definition up : Client :=
  connect_done true (do_connect true
    (set_link true false false false false (client_start Client_new))).
Definition down : Client := read_done classify no_response None up.
Definition running_pricer : Pricer (F := MicropriceFactor) :=
  {| pz_products := pz_products SamplePricer.world; pz_connected := false; pz_clk := 0;
     pz_out := [] |}.
End SampleClient.

Lemma sample_up_steps classify rsr : rtc (client_step true classify rsr) Client_new SampleClient.up.
Proof.
  unfold SampleClient.up. eapply rtc_l; [apply cstep_start|].
  eapply rtc_l; [by apply cstep_posted|]. eapply rtc_l; [by apply (cstep_connect _ _ _ true)|].
  apply rtc_refl.
Qed.

Lemma link_never_abandoned_witness :
  let c := SampleClient.down in
  (b2n (cl_posted c) + b2n (cl_dialing c) + b2n (cl_connected c) + b2n (cl_timer c) = 1)%nat /\
  (cl_connected c = true -> cl_reading c = true /\ last_status (cl_calls c) = Some (false, true)) /\
  (cl_dialing c = true -> last_status (cl_calls c) = Some (true, false)) /\
  (cl_timer c = true -> last_status (cl_calls c) = Some (false, false)).
Proof.
  cbv zeta. apply (link_never_abandoned true SampleClient.classify SampleClient.no_response
    SampleClient.down); [|reflexivity].
  eapply rtc_r; [apply sample_up_steps|]. by apply cstep_read.
Defined.

Lemma client_reads_messages_witness :
  let c' := read_chunks SampleClient.classify SampleClient.no_response
    ["tra"; "de" +:+ String newline "x"; String newline ""]%string SampleClient.up in
  cl_calls c' = cl_calls SampleClient.up ++ [HDataLine "trade" "trade"; HDataLine "x" "x"] /\
  cl_text c' = ""%string.
Proof.
  apply (client_reads_messages SampleClient.classify SampleClient.no_response
    ["trade"; "x"]%string ["tra"; "de" +:+ String newline "x"; String newline ""]%string
    SampleClient.up); [reflexivity|reflexivity| |reflexivity].
  repeat constructor; try discriminate; simpl; intros a Ha; repeat destruct Ha as [<-|Ha]; done.
Defined.

Lemma pricer_tracks_link_witness :
  pz_connected (pricer_feed (F := MicropriceFactor)
    (BaseFactor0 := Microprice SamplePricer.pow1) SamplePricer.json Z.of_nat SamplePricer.conf
    (cl_calls SampleClient.up ≫= dispatch (FeedClient0 :=
       MarketFeedClient SampleClient.none SampleClient.none SampleClient.none
         SampleClient.none SampleClient.none)) SampleClient.running_pricer) = true.
Proof.
  apply (pricer_tracks_link (F := MicropriceFactor) (BaseFactor0 := Microprice SamplePricer.pow1)
    SamplePricer.json Z.of_nat SamplePricer.conf SampleClient.none SampleClient.none
    SampleClient.none SampleClient.none SampleClient.none SampleClient.classify
    SampleClient.no_response SampleClient.up SampleClient.running_pricer);
    [apply sample_up_steps|reflexivity|reflexivity|discriminate].
Defined.
