(* ===== verification/OrderBook.v ===== *)
(** * OrderBook: one product's full book from a snapshot and a diff stream

    [market_listener/exchange/binance/order_book.{hpp,cpp}].  A [std::map<double, double>]
    is the list of its bindings in iteration order, with the map's own notion of key
    equality (neither key precedes the other).  The second half shows what the sequence
    numbers are for: a book that still calls itself synced has missed nothing. *)
From S2P Require Import Prelude Double Messages.

Definition PriceLevel : Type := double * double.

(** ** The ordered map *)
Section omap.
Context (lt : double -> double -> bool).

Fixpoint om_insert (k v : double) (l : list PriceLevel) : list PriceLevel :=
  match l with
  | [] => [(k, v)]
  | (k', v') :: l' =>
      if lt k k' then (k, v) :: l
      else if lt k' k then (k', v') :: om_insert k v l'
      else (k', v) :: l'
  end.

Fixpoint om_erase (k : double) (l : list PriceLevel) : list PriceLevel :=
  match l with
  | [] => []
  | (k', v') :: l' =>
      if lt k k' then l
      else if lt k' k then (k', v') :: om_erase k l'
      else l'
  end.

Fixpoint om_find (k : double) (l : list PriceLevel) : option double :=
  match l with
  | [] => None
  | (k', v') :: l' =>
      if lt k k' then None else if lt k' k then om_find k l' else Some v'
  end.

(** [apply_side]. *)
Definition apply_level (book : list PriceLevel) (l : PriceLevel) : list PriceLevel :=
  if fle l.2 fzero then om_erase l.1 book else om_insert l.1 l.2 book.
Definition apply_side (book levels : list PriceLevel) : list PriceLevel :=
  foldl apply_level book levels.

(** One side of [apply_snapshot]: cleared, then every positive level. *)
Definition snapshot_side (levels : list PriceLevel) : list PriceLevel :=
  foldl (fun book l => if flt fzero l.2 then om_insert l.1 l.2 book else book) [] levels.
End omap.

(** [std::greater] for bids, [std::less] for asks. *)
Definition bid_lt (a b : double) : bool := flt b a.
Definition ask_lt (a b : double) : bool := flt a b.

(** ** The book *)
Record OrderBook := {
  synced : bool; last_update_id : Z; bids : list PriceLevel; asks : list PriceLevel }.
Definition OrderBook_new : OrderBook :=
  {| synced := false; last_update_id := 0; bids := []; asks := [] |}.
Definition mark_desynced (b : OrderBook) : OrderBook :=
  {| synced := false; last_update_id := last_update_id b; bids := bids b; asks := asks b |}.

Definition apply_snapshot (id : Z) (bs az : list PriceLevel) (b : OrderBook) : OrderBook :=
  {| synced := true; last_update_id := id;
     bids := snapshot_side bid_lt bs; asks := snapshot_side ask_lt az |}.

Definition apply_diff (U u pu : Z) (bs az : list PriceLevel) (b : OrderBook) : bool * OrderBook :=
  if negb (synced b) then (false, b)
  else if u <? last_update_id b then (true, b)
  else
    let next := wrap_s 64 (last_update_id b + 1) in
    let first_ok := (U <=? next) && (next <=? u) in
    let chain_ok := pu =? last_update_id b in
    if negb first_ok && negb chain_ok then (false, mark_desynced b)
    else (true, {| synced := synced b; last_update_id := u;
                   bids := apply_side bid_lt (bids b) bs;
                   asks := apply_side ask_lt (asks b) az |}).

(** The top [levels] of one side. *)
Definition top_levels (levels : Z) (side : list PriceLevel) : list OrderbookLevel :=
  (fun l => {| lvl_price := Some l.1; lvl_qty := Some l.2 |}) <$> take (Z.to_nat levels) side.
Definition to_data (levels : Z) (b : OrderBook) : OrderbookData :=
  {| bid_book := top_levels levels (bids b); ask_book := top_levels levels (asks b);
     ob_server_tstamp_ms := None |}.

(** ** Order on keys *)

(** Equal keys of a double-keyed map: the same number (zeros of either sign included). *)
Lemma SFcompare_Eq_cases x y :
  SFcompare x y = Some Eq ->
  x = y \/ exists s t, x = S754_zero s /\ y = S754_zero t.
Proof.
  destruct x as [s|s| |s m e], y as [t|t| |t n f]; simpl; try done;
    try (by destruct s); try (by destruct t); try (destruct s, t; naive_solver).
  change (Pos.compare_cont Eq m n) with (Pos.compare m n).
  destruct s, t; try done; destruct (Z.compare_spec e f) as [->|?|?]; try done;
    destruct (Pos.compare_spec m n) as [->|?|?]; try done; by left.
Qed.

Lemma SFcompare_Eq_l x y z : SFcompare x y = Some Eq -> SFcompare x z = SFcompare y z.
Proof.
  intros [->|(s&t&->&->)]%SFcompare_Eq_cases; [done|]. by destruct z.
Qed.

Lemma SFcompare_Eq_r x y z : SFcompare x y = Some Eq -> SFcompare z x = SFcompare z y.
Proof.
  intros H. rewrite (SFcompare_swap x z), (SFcompare_swap y z). by rewrite (SFcompare_Eq_l x y z).
Qed.

Lemma flt_trans x y z : flt x y = true -> flt y z = true -> flt x z = true.
Proof.
  unfold flt, SFltb.
  destruct x as [s|s| |s m e], y as [t|t| |t n f], z as [v|v| |v k g]; simpl;
    try (destruct s); try (destruct t); try (destruct v); try done.
  all: change (Pos.compare_cont Eq) with Pos.compare;
    destruct (Z.compare_spec e f), (Z.compare_spec f g), (Z.compare_spec e g);
    try (done || lia); destruct (Pos.compare_spec m n), (Pos.compare_spec n k),
    (Pos.compare_spec m k); simpl; try (done || lia).
Qed.

(** Numbers that are not NaN, and not apart, are the same key. *)
Lemma flt_eqv x y :
  is_nan x = false -> is_nan y = false -> flt x y = false -> flt y x = false ->
  SFcompare x y = Some Eq.
Proof.
  intros Hx Hy. unfold flt, SFltb. rewrite (SFcompare_swap x y).
  destruct (SFcompare x y) as [[]|] eqn:E; try done.
  apply SFcompare_None in E. by rewrite Hx, Hy in E.
Qed.

(** What a comparator must be for the map to be a map. *)
Class KeyOrder (lt : double -> double -> bool) := {
  ko_trans x y z : lt x y = true -> lt y z = true -> lt x z = true;
  ko_asym x y : lt x y = true -> lt y x = false;
  ko_same x y : is_nan x = false -> is_nan y = false -> lt x y = false -> lt y x = false ->
    SFcompare x y = Some Eq;
  ko_respects x y z : SFcompare x y = Some Eq -> lt x z = lt y z /\ lt z x = lt z y }.
#[export] Instance ask_order : KeyOrder ask_lt.
Proof.
  split; unfold ask_lt; eauto using flt_trans, flt_asym, flt_eqv.
  intros x y z H. unfold flt, SFltb. by rewrite (SFcompare_Eq_l x y z H), (SFcompare_Eq_r x y z H).
Qed.
#[export] Instance bid_order : KeyOrder bid_lt.
Proof.
  split; unfold bid_lt; eauto using flt_trans, flt_asym, flt_eqv.
  intros x y z H. unfold flt, SFltb. by rewrite (SFcompare_Eq_l x y z H), (SFcompare_Eq_r x y z H).
Qed.

Definition num (x : double) : Prop := is_nan x = false.
Definition num_keys (l : list PriceLevel) : Prop := Forall (fun kv => num kv.1) l.

Section map_laws.
Context (lt : double -> double -> bool) `{!KeyOrder lt}.

Definition sorted (l : list PriceLevel) : Prop :=
  StronglySorted (fun a b => lt a.1 b.1 = true) l.
Definition same (q k : double) : bool := negb (lt q k) && negb (lt k q).

(** Replacing a key by an equal one changes no comparison. *)
Lemma same_lt q k z : num q -> num k -> same q k = true -> lt q z = lt k z /\ lt z q = lt z k.
Proof.
  unfold same. intros Hq Hk H. zify_bools. by apply ko_respects, ko_same.
Qed.

Lemma om_find_insert q k v l :
  num q -> num k -> num_keys l ->
  om_find lt q (om_insert lt k v l) = if same q k then Some v else om_find lt q l.
Proof.
  intros Hq Hk. induction l as [|[k' v'] l IH]; intros Hl; simpl.
  { unfold same. destruct (lt q k), (lt k q); done. }
  apply Forall_cons in Hl as [Hk' Hl]. specialize (IH Hl). simpl in Hk'.
  destruct (same q k) eqn:Es.
  - destruct (same_lt q k k' Hq Hk Es) as [E1 E2].
    destruct (lt k k') eqn:Ekk'; simpl.
    + unfold same in Es. zify_bools. by rewrite H, H0.
    + destruct (lt k' k) eqn:Ek'k; simpl; rewrite E1, E2, ?IH; [done..|]. done.
  - destruct (lt k k') eqn:Ekk'; simpl.
    + unfold same in Es. destruct (lt q k) eqn:Eqk; simpl.
      * by rewrite (ko_trans q k k').
      * destruct (lt k q); done.
    + destruct (lt k' k) eqn:Ek'k; simpl.
      * destruct (lt q k'); [done|]. destruct (lt k' q); [done|]. done.
      * assert (same k k' = true) as Ekk by (unfold same; by rewrite Ekk', Ek'k).
        destruct (same_lt k k' q Hk Hk' Ekk) as [E1 E2]. unfold same in Es.
        rewrite E1, E2 in Es. destruct (lt q k'); [done|]. by destruct (lt k' q).
Qed.

Lemma om_insert_keys k v l P :
  P k -> Forall (fun kv => P kv.1) l -> Forall (fun kv => P kv.1) (om_insert lt k v l).
Proof.
  intros Hk. induction l as [|[k' v'] l IH]; simpl; intros Hl; [by repeat constructor|].
  apply Forall_cons in Hl as [Hk' Hl].
  destruct (lt k k'); [by repeat constructor|]. destruct (lt k' k); constructor; auto.
Qed.

Lemma om_insert_vals k v l P :
  P v -> Forall (fun kv => P kv.2) l -> Forall (fun kv => P kv.2) (om_insert lt k v l).
Proof.
  intros Hk. induction l as [|[k' v'] l IH]; simpl; intros Hl; [by repeat constructor|].
  apply Forall_cons in Hl as [Hk' Hl].
  destruct (lt k k'); [by repeat constructor|]. destruct (lt k' k); constructor; auto.
Qed.

Lemma om_insert_sorted k v l :
  num k -> num_keys l -> sorted l -> sorted (om_insert lt k v l).
Proof.
  intros Hk. induction l as [|[k' v'] l IH]; simpl; intros Hn Hs; [by repeat constructor|].
  apply Forall_cons in Hn as [Hk' Hn]. simpl in Hk'.
  apply StronglySorted_inv in Hs as [Hs Hall]. simpl in Hall.
  destruct (lt k k') eqn:E1; [|destruct (lt k' k) eqn:E2].
  - constructor; [by constructor|]. constructor; [done|].
    eapply Forall_impl; [exact Hall|]. intros [z w] Hz. by apply (ko_trans k k' z).
  - constructor; [by apply IH|]. by apply (om_insert_keys k v l (fun z => lt k' z = true)).
  - by constructor.
Qed.

Lemma om_erase_Forall k l (P : PriceLevel -> Prop) : Forall P l -> Forall P (om_erase lt k l).
Proof.
  induction 1 as [|[k' v'] l Hkv Hl IH]; simpl; [done|].
  destruct (lt k k'); [by constructor|]. destruct (lt k' k); [by constructor|done].
Qed.

Lemma om_erase_sorted k l : sorted l -> sorted (om_erase lt k l).
Proof.
  induction l as [|[k' v'] l IH]; simpl; intros Hs; [done|].
  destruct (StronglySorted_inv Hs) as [Hs' Hall].
  destruct (lt k k'); [done|]. destruct (lt k' k); [|done]. constructor; [by apply IH|].
  by apply om_erase_Forall.
Qed.

Lemma om_find_above q l : Forall (fun kv => lt q kv.1 = true) l -> om_find lt q l = None.
Proof. destruct l as [|[k v] l]; [done|]. intros H%Forall_inv. simpl in *. by rewrite H. Qed.

Lemma om_find_erase q k l :
  num q -> num k -> num_keys l -> sorted l ->
  om_find lt q (om_erase lt k l) = if same q k then None else om_find lt q l.
Proof.
  intros Hq Hk. induction l as [|[k' v'] l IH]; intros Hl Hs; simpl; [by destruct (same q k)|].
  apply Forall_cons in Hl as [Hk' Hl]. simpl in Hk'.
  apply StronglySorted_inv in Hs as [Hs Hall]. simpl in Hall. specialize (IH Hl Hs).
  destruct (lt k k') eqn:E1; [|destruct (lt k' k) eqn:E2]; simpl.
  - destruct (same q k) eqn:Es; [|done].
    destruct (same_lt q k k' Hq Hk Es) as [-> _]. by rewrite E1.
  - rewrite IH. destruct (same q k) eqn:Es; [|done].
    destruct (same_lt q k k' Hq Hk Es) as [-> ->]. by rewrite E1, E2.
  - assert (same k k' = true) as Ekk by (unfold same; by rewrite E1, E2).
    destruct (same_lt k k' q Hk Hk' Ekk) as [F1 F2]. unfold same. rewrite F1, F2.
    destruct (lt q k') eqn:E3; simpl.
    + apply om_find_above. eapply Forall_impl; [exact Hall|].
      intros [z w] Hz. by apply (ko_trans q k' z).
    + destruct (lt k' q) eqn:E4; simpl; [done|].
      apply om_find_above. eapply Forall_impl; [exact Hall|]. intros [z w] Hz. simpl in *.
      assert (same q k' = true) as Eqk by (unfold same; by rewrite E3, E4).
      by destruct (same_lt q k' z Hq Hk' Eqk) as [-> _].
Qed.

(** ** Sides *)

(** What a side must be: strictly ordered, numbers for keys, no empty level. *)
Record side_ok (l : list PriceLevel) : Prop := {
  so_sorted : sorted l; so_num : num_keys l;
  so_live : Forall (fun kv => fle kv.2 fzero = false) l }.

Lemma side_ok_nil : side_ok [].
Proof. split; constructor. Qed.

Lemma side_ok_insert k v l :
  num k -> fle v fzero = false -> side_ok l -> side_ok (om_insert lt k v l).
Proof.
  intros Hk Hv [Hs Hn Hl]. split.
  - by apply om_insert_sorted.
  - by apply (om_insert_keys k v l num).
  - by apply (om_insert_vals k v l (fun x => fle x fzero = false)).
Qed.

Lemma side_ok_erase k l : side_ok l -> side_ok (om_erase lt k l).
Proof.
  intros [Hs Hn Hl]. split; [by apply om_erase_sorted|by apply om_erase_Forall..].
Qed.

Lemma side_ok_level l kv : num kv.1 -> side_ok l -> side_ok (apply_level lt l kv).
Proof.
  intros Hk Hl. unfold apply_level. destruct (fle kv.2 fzero) eqn:E.
  - by apply side_ok_erase.
  - by apply side_ok_insert.
Qed.

Lemma side_ok_apply levels l : num_keys levels -> side_ok l -> side_ok (apply_side lt l levels).
Proof.
  unfold apply_side. intros Hn. revert l. induction Hn as [|kv levels Hk _ IH]; intros l Hl; [done|].
  simpl. by apply IH, side_ok_level.
Qed.

Lemma flt_zero_live v : flt fzero v = true -> fle v fzero = false.
Proof.
  unfold flt, fle, SFltb, SFleb. rewrite (SFcompare_swap fzero v).
  by destruct (SFcompare fzero v) as [[]|].
Qed.

Lemma side_ok_snapshot levels : num_keys levels -> side_ok (snapshot_side lt levels).
Proof.
  unfold snapshot_side. intros Hn. assert (forall l, side_ok l -> side_ok (foldl (fun book l =>
    if flt fzero l.2 then om_insert lt l.1 l.2 book else book) l levels)) as H.
  { induction Hn as [|kv levels Hk _ IH]; intros l Hl; [done|]. simpl. apply IH.
    destruct (flt fzero kv.2) eqn:E; [|done]. by apply side_ok_insert, Hl; [..|apply flt_zero_live]. }
  apply H, side_ok_nil.
Qed.

(** Sizes that are numbers stay numbers. *)
Definition num_sizes (l : list PriceLevel) : Prop := Forall (fun kv => num kv.2) l.
Lemma num_sizes_apply levels l : num_sizes levels -> num_sizes l -> num_sizes (apply_side lt l levels).
Proof.
  unfold apply_side. intros Hn. revert l. induction Hn as [|kv levels Hk _ IH]; intros l Hl; [done|].
  simpl. apply IH. unfold apply_level. destruct (fle _ _); [by apply om_erase_Forall|].
  by apply (om_insert_vals _ _ _ num).
Qed.
Lemma num_sizes_snapshot levels : num_sizes levels -> num_sizes (snapshot_side lt levels).
Proof.
  unfold snapshot_side. intros Hn. assert (num_sizes []) as H0 by constructor. revert H0.
  generalize (@nil PriceLevel). induction Hn as [|kv levels Hk _ IH]; intros l Hl; [done|].
  simpl. apply IH. destruct (flt _ _); [|done]. by apply (om_insert_vals _ _ _ num).
Qed.

(** How many levels of a side are better than price [q]; cutting a side off keeps exactly the
    prices with few enough better ones. *)
Definition better (q : double) (l : list PriceLevel) : nat :=
  length (List.filter (fun kv => lt kv.1 q) l).
Lemma om_find_take q l n : num q -> num_keys l -> sorted l ->
  om_find lt q (take n l) = if (better q l <? n)%nat then om_find lt q l else None.
Proof.
  intros Hq. revert n. induction l as [|[k v] l IH]; intros n Hn Hs.
  { rewrite take_nil. simpl. by destruct (_ <? _)%nat. }
  apply Forall_cons in Hn as [Hk Hn]. apply StronglySorted_inv in Hs as [Hs Hall]. simpl in Hk, Hall.
  destruct n as [|n]; [done|]. cbn [take om_find]. unfold better. destruct (lt q k) eqn:E1.
  { by destruct (_ <? _)%nat. }
  destruct (lt k q) eqn:E2.
  - simpl. by rewrite E2, IH.
  - simpl. rewrite E2. assert (List.filter (fun kv => lt kv.1 q) l = []) as ->; [|done].
    clear IH Hs. induction Hall as [|[z w] l Hz _ IH']; [done|]. simpl in *.
    assert (same q k = true) as Eqk by (unfold same; by rewrite E1, E2).
    destruct (same_lt q k z Hq Hk Eqk) as [_ ->]. rewrite (ko_asym k z) by done.
    apply IH'. by apply Forall_cons in Hn as [_ ?].
Qed.

(** What a batch of levels says about price [q], given what was there. *)
Definition told (q : double) (o : option double) (kv : PriceLevel) : option double :=
  if same q kv.1 then (if fle kv.2 fzero then None else Some kv.2) else o.

Lemma om_find_apply q levels l :
  num q -> num_keys levels -> side_ok l ->
  om_find lt q (apply_side lt l levels) = foldl (told q) (om_find lt q l) levels.
Proof.
  intros Hq Hn. unfold apply_side. revert l.
  induction Hn as [|kv levels Hk Hn IH]; intros l Hl; [done|]. simpl.
  rewrite IH by (by apply side_ok_level). f_equal. unfold told, apply_level.
  destruct Hl as [Hs Hnum _]. destruct (fle kv.2 fzero).
  - rewrite om_find_erase by done. by destruct (same q kv.1).
  - rewrite om_find_insert by done. by destruct (same q kv.1).
Qed.
End map_laws.

(** ** The book's invariant *)
Record book_ok (b : OrderBook) : Prop := {
  bo_bids : side_ok bid_lt (bids b); bo_asks : side_ok ask_lt (asks b) }.

(** A depth update: first id, last id, previous last id, and the two sides. *)
Record DepthEvent := {
  ev_U : Z; ev_u : Z; ev_pu : Z; ev_bids : list PriceLevel; ev_asks : list PriceLevel }.
Definition apply_event (e : DepthEvent) (b : OrderBook) : OrderBook :=
  (apply_diff (ev_U e) (ev_u e) (ev_pu e) (ev_bids e) (ev_asks e) b).2.
Definition apply_events (es : list DepthEvent) (b : OrderBook) : OrderBook :=
  foldl (fun b e => apply_event e b) b es.
Definition event_num (e : DepthEvent) : Prop := num_keys (ev_bids e) /\ num_keys (ev_asks e).

Lemma book_ok_event e b : event_num e -> book_ok b -> book_ok (apply_event e b).
Proof.
  intros [Hb Ha] [Kb Ka]. unfold apply_event, apply_diff.
  destruct (negb (synced b)); [done|]. destruct (_ <? _); [done|].
  destruct (negb _ && negb _); simpl; split; simpl; try done; apply side_ok_apply; try done;
    apply _.
Qed.

Lemma book_ok_events es b : Forall event_num es -> book_ok b -> book_ok (apply_events es b).
Proof.
  intros H. revert b. induction H as [|e es He _ IH]; intros b Hb; [done|].
  simpl. by apply IH, book_ok_event.
Qed.

Lemma book_ok_snapshot id bs az b :
  num_keys bs -> num_keys az -> book_ok (apply_snapshot id bs az b).
Proof. intros. split; simpl; (apply side_ok_snapshot; [apply _|done]). Qed.

Lemma StronglySorted_take {A} (R : A -> A -> Prop) n l :
  StronglySorted R l -> StronglySorted R (take n l).
Proof.
  intros H. revert n. induction H as [|a l Hl IH Ha]; intros [|n]; simpl; constructor; auto.
  by apply Forall_take.
Qed.

(** Prices and sizes are numbers. *)
Definition num_levels (l : list PriceLevel) : Prop := num_keys l /\ num_sizes l.
Definition event_levels (e : DepthEvent) : Prop := num_levels (ev_bids e) /\ num_levels (ev_asks e).

Lemma sizes_events es b : Forall event_levels es ->
  num_sizes (bids b) -> num_sizes (asks b) ->
  num_sizes (bids (apply_events es b)) /\ num_sizes (asks (apply_events es b)).
Proof.
  intros H. revert b. induction H as [|e es [[_ Hb] [_ Ha]] _ IH]; intros b Kb Ka; [done|].
  cbn [apply_events foldl]. apply IH; unfold apply_event, apply_diff;
    (destruct (negb (synced b)); [done|]); (destruct (_ <? _); [done|]);
    (destruct (negb _ && negb _); [done|]); by apply num_sizes_apply.
Qed.

Lemma live_pos v : num v -> fle v fzero = false -> flt fzero v = true.
Proof.
  intros Hv Hl. destruct (flt fzero v) eqn:E; [done|].
  by rewrite (flt_false_fle fzero v) in Hl by done.
Qed.

(** [B] shows the side [l], best first, cut off after [n] levels. *)
Record shows (lt : double -> double -> bool) (n : nat) (l B : list PriceLevel) : Prop := {
  sh_depth : (length B <= n)%nat;
  sh_order : StronglySorted (fun x y => lt x.1 y.1 = true) B;
  sh_size : Forall (fun kv => flt fzero kv.2 = true) B;
  sh_levels p q : num p ->
    om_find lt p B = Some q <-> om_find lt p l = Some q /\ (better lt p l < n)%nat }.

Lemma take_shows lt `{!KeyOrder lt} n l : side_ok lt l -> num_sizes l -> shows lt n l (take n l).
Proof.
  intros [Hs Hn Hl] Hz. split.
  - rewrite length_take. lia.
  - by apply StronglySorted_take.
  - apply Forall_take, Forall_forall. intros kv Hkv. unfold num_sizes in Hz.
    rewrite Forall_forall in Hl, Hz. by apply live_pos; [apply Hz|apply Hl].
  - intros p q Hp. rewrite om_find_take by done. destruct (Nat.ltb_spec (better lt p l) n); [tauto|].
    split; [done|lia].
Qed.

(** C29: What a trader is sent is a book.  Let the prices and sizes of a snapshot and of the
    updates after it be numbers, not NaN.  Then what [to_data] publishes, whether the updates
    were in sequence or not, is at most as many levels per side as configured, bids strictly
    descending, asks strictly ascending, every size positive; and it is the top of the book:
    a price is published, with its size, exactly when the book has it and fewer than the
    configured number of better prices. *)
Theorem to_data_is_a_book id bs az es b0 n :
  num_levels bs -> num_levels az -> Forall event_levels es ->
  let b := apply_events es (apply_snapshot id bs az b0) in
  exists B A, to_data n b = {| bid_book := (fun l => {| lvl_price := Some l.1; lvl_qty := Some l.2 |}) <$> B;
                               ask_book := (fun l => {| lvl_price := Some l.1; lvl_qty := Some l.2 |}) <$> A;
                               ob_server_tstamp_ms := None |} /\
    shows bid_lt (Z.to_nat n) (bids b) B /\ shows ask_lt (Z.to_nat n) (asks b) A.
Proof.
  intros [Hb Zb] [Ha Za] He b.
  assert (book_ok b) as [Kb Ka].
  { apply book_ok_events, book_ok_snapshot; [|done..]. eapply Forall_impl; [exact He|].
    by intros e [[? _] [? _]]. }
  destruct (sizes_events es (apply_snapshot id bs az b0) He) as [Sb Sa];
    [by apply num_sizes_snapshot..|]. fold b in Sb, Sa.
  exists (take (Z.to_nat n) (bids b)), (take (Z.to_nat n) (asks b)).
  split_and!; [done|by apply take_shows; try apply _..].
Qed.

(** ** Sequencing *)

(** The venue's stream: ids grow, and each update names the one before it. *)
Fixpoint chained (prev : option DepthEvent) (es : list DepthEvent) : Prop :=
  match es with
  | [] => True
  | e :: es =>
      0 <= ev_pu e < ev_U e /\ ev_U e <= ev_u e < int64_max /\
      (forall p, prev = Some p -> ev_pu e = ev_u p) /\ chained (Some e) es
  end.

(** A delivery: the updates lost, then one received. *)
Definition sent (ds : list (list DepthEvent * DepthEvent)) : list DepthEvent :=
  ds ≫= fun d => d.1 ++ [d.2].
Definition received (ds : list (list DepthEvent * DepthEvent)) : list DepthEvent := ds.*2.

(** The book the venue means: every update newer than the snapshot, none lost. *)
Definition newer (id : Z) (es : list DepthEvent) : list DepthEvent :=
  filter (fun e => id < ev_u e) es.
Definition replay_bids (es : list DepthEvent) (side : list PriceLevel) : list PriceLevel :=
  foldl (fun s e => apply_side bid_lt s (ev_bids e)) side es.
Definition replay_asks (es : list DepthEvent) (side : list PriceLevel) : list PriceLevel :=
  foldl (fun s e => apply_side ask_lt s (ev_asks e)) side es.

Lemma chained_app prev es es' :
  chained prev (es ++ es') <->
  chained prev es /\ chained (match last es with Some e => Some e | None => prev end) es'.
Proof.
  revert prev. induction es as [|e es IH]; intros prev; simpl; [tauto|].
  rewrite IH. assert (match last es with Some e0 => Some e0 | None => Some e end =
    match last (e :: es) with Some e0 => Some e0 | None => prev end) as ->; [|tauto].
  rewrite last_cons. by destruct (last es).
Qed.

(** Along a chain the last ids grow. *)
Lemma chained_grows prev es e :
  chained prev es -> e ∈ es -> (forall p, prev = Some p -> ev_u p < ev_u e) /\
  (forall l, last es = Some l -> ev_u e <= ev_u l).
Proof.
  revert prev e. induction es as [|a es IH]; intros prev e Hc He; [by apply elem_of_nil in He|].
  simpl in Hc. destruct Hc as (?&?&Hp&Hc). apply elem_of_cons in He as [->|He].
  - split.
    + intros p ->. specialize (Hp p eq_refl). lia.
    + intros l. rewrite last_cons. destruct (last es) as [x|] eqn:El; [|intros [= <-]; lia].
      intros [= <-]. destruct (IH (Some a) x Hc) as [H1 _]; [by apply last_Some_elem_of|].
      specialize (H1 a eq_refl). lia.
  - destruct (IH (Some a) e Hc He) as [H1 H2]. specialize (H1 a eq_refl). split.
    + intros p ->. specialize (Hp p eq_refl). lia.
    + intros l. rewrite last_cons. destruct (last es) as [x|] eqn:El; [intros [= <-]; by apply H2|].
      destruct es; [by apply elem_of_nil in He|]. by rewrite last_cons in El; destruct (last es).
Qed.

Lemma newer_app id es es' : newer id (es ++ es') = newer id es ++ newer id es'.
Proof. apply filter_app. Qed.

(** A synced book stands exactly where the venue's stream, read up to [es], stands. *)
Definition tracks (b0 : OrderBook) (es : list DepthEvent) (b : OrderBook) : Prop :=
  synced b = true ->
  last_update_id b = match last es with Some e => Z.max (last_update_id b0) (ev_u e)
                                      | None => last_update_id b0 end /\
  bids b = replay_bids (newer (last_update_id b0) es) (bids b0) /\
  asks b = replay_asks (newer (last_update_id b0) es) (asks b0).

Lemma newer_nil id es : (forall e, e ∈ es -> ev_u e <= id) -> newer id es = [].
Proof.
  intros H. unfold newer. induction es as [|e es IH]; [done|].
  rewrite filter_cons_False.
  - apply IH. intros x Hx. apply H. by right.
  - specialize (H e ltac:(by left)). lia.
Qed.

Lemma last_app_single {A} (l l' : list A) (x : A) : last (l ++ l' ++ [x]) = Some x.
Proof. by rewrite app_assoc, last_snoc. Qed.

(** The heart: an update that is accepted right after a loss proves the lost ones old. *)
Lemma accepted_after_loss es fs e id l :
  chained None (es ++ fs ++ [e]) ->
  l = match last es with Some p => Z.max id (ev_u p) | None => id end ->
  l <= ev_u e -> ev_U e <= l + 1 <= ev_u e \/ ev_pu e = l ->
  id < ev_u e /\ (forall f, f ∈ fs -> ev_u f <= id).
Proof.
  intros Hc Hl Hle Hok. rewrite chained_app in Hc. destruct Hc as [Hc1 Hc].
  rewrite chained_app in Hc. destruct Hc as [Hc2 Hc3].
  set (prev := match last es with Some p => Some p | None => None end) in *.
  assert (0 <= ev_pu e < ev_U e /\ ev_U e <= ev_u e) as [H1 H2] by (simpl in Hc3; lia).
  assert (id <= l) as Hid by (rewrite Hl; destruct (last es); lia).
  split; [lia|]. intros f Hf. destruct (chained_grows prev fs f Hc2 Hf) as [Hg Hm].
  destruct (last fs) as [g|] eqn:Eg.
  2: { apply last_None in Eg. subst. by apply elem_of_nil in Hf. }
  specialize (Hm g eq_refl). destruct Hc3 as (_&_&Hpu&_). specialize (Hpu g eq_refl).
  destruct (decide (ev_u f <= id)) as [|Hn]; [done|]. exfalso.
  assert (l < ev_u f) as Hlf.
  { rewrite Hl. unfold prev in Hg. destruct (last es) as [p|]; [specialize (Hg p eq_refl)|]; lia. }
  lia.
Qed.

Lemma tracks_step b0 es fs e b :
  0 <= last_update_id b0 < int64_max ->
  chained None (es ++ fs ++ [e]) -> tracks b0 es b -> tracks b0 (es ++ fs ++ [e]) (apply_event e b).
Proof.
  intros Hid Hc Ht Hs. rewrite last_app_single. unfold apply_event, apply_diff in *.
  destruct (synced b) eqn:Eb; cbn [negb] in *; [|by cbn in Hs; rewrite Eb in Hs].
  destruct (Ht Eb) as (Hl&Hb&Ha). set (id := last_update_id b0) in *.
  assert (0 <= ev_u e < int64_max) as Hue.
  { rewrite !chained_app in Hc. destruct Hc as (_&_&Hc). simpl in Hc. lia. }
  assert (forall p, last es = Some p -> ev_u p < ev_u e /\ ev_u p < int64_max) as Hes.
  { intros p Hp. destruct (chained_grows None (es ++ fs ++ [e]) p Hc) as [_ H].
    { apply elem_of_app. left. by apply last_Some_elem_of. }
    rewrite last_app_single in H. specialize (H e eq_refl).
    rewrite chained_app in Hc. destruct Hc as [_ Hc]. rewrite Hp in Hc.
    destruct (chained_grows (Some p) (fs ++ [e]) e Hc) as [H' _]; [set_solver|].
    specialize (H' p eq_refl). lia. }
  assert (forall f, f ∈ fs -> ev_u f <= ev_u e) as Hfs.
  { intros f Hf. rewrite chained_app in Hc. destruct Hc as [_ Hc].
    destruct (chained_grows _ (fs ++ [e]) f Hc) as [_ H]; [set_solver|].
    rewrite last_snoc in H. by apply H. }
  assert (0 <= last_update_id b < int64_max) as Hlb.
  { rewrite Hl. destruct (last es) as [p|] eqn:Ep; [|done]. destruct (Hes p eq_refl). lia. }
  unfold int64_max in *. rewrite !newer_app.
  destruct (ev_u e <? last_update_id b) eqn:Eold; cbn [snd] in *; zify_bools.
  - assert (ev_u e < id) as He.
    { rewrite Hl in Eold. destruct (last es) as [p|] eqn:Ep; [|done]. destruct (Hes p eq_refl). lia. }
    rewrite (newer_nil id fs), (newer_nil id [e]), !app_nil_r.
    2: { intros f ->%list_elem_of_singleton. lia. }
    2: { intros f Hf. specialize (Hfs f Hf). lia. }
    split_and!; try done. rewrite Hl. destruct (last es) as [p|] eqn:Ep; [|lia].
    destruct (Hes p eq_refl). lia.
  - rewrite wrap_s_id in * by lia.
    destruct (negb _ && negb _) eqn:Eok; cbn [snd synced bids asks last_update_id] in *; [done|].
    destruct (accepted_after_loss es fs e id (last_update_id b) Hc Hl Eold) as [Hne Hold].
    { apply andb_false_iff in Eok as [E|E]; zify_bools; [left|right]; lia. }
    rewrite (newer_nil id fs) by done. simpl. unfold newer at 2 4.
    rewrite filter_cons_True, filter_nil by done.
    unfold replay_bids, replay_asks. rewrite !foldl_app. simpl.
    fold (replay_bids (newer id es) (bids b0)). fold (replay_asks (newer id es) (asks b0)).
    rewrite <- Hb, <- Ha. split_and!; [lia|done|done].
Qed.

Lemma sent_snoc ds d : sent (ds ++ [d]) = sent ds ++ d.1 ++ [d.2].
Proof. unfold sent. rewrite bind_app. simpl. by rewrite app_nil_r. Qed.

(** C6: A book that still calls itself synced has missed nothing.  Let the venue publish a
    chained stream and let any updates be lost in between: if the book did not flag a
    desync, its content is the snapshot plus every newer update of the stream up to the
    last one received, and its sequence number is that update's; so every loss that
    matters is noticed. *)
Theorem synced_book_is_complete id bs az b ds :
  0 <= id < int64_max -> chained None (sent ds) ->
  let b0 := apply_snapshot id bs az b in
  let b' := apply_events (received ds) b0 in
  synced b' = true ->
  bids b' = replay_bids (newer id (sent ds)) (bids b0) /\
  asks b' = replay_asks (newer id (sent ds)) (asks b0) /\
  last_update_id b' = match last (sent ds) with Some e => Z.max id (ev_u e) | None => id end.
Proof.
  intros Hid Hc. cbv zeta. set (b0 := apply_snapshot id bs az b).
  assert (tracks b0 (sent ds) (apply_events (received ds) b0)) as Ht.
  { induction ds as [|[fs e] ds IH] using rev_ind; [done|].
    rewrite sent_snoc in *. rewrite chained_app in Hc. destruct Hc as [Hc1 Hc2].
    unfold received, apply_events. rewrite fmap_app, foldl_app. cbn [fmap list_fmap foldl snd].
    apply tracks_step; [done| |by apply IH]. by apply chained_app. }
  intros Hs. destruct (Ht Hs) as (?&?&?). by split_and!.
Qed.

(** What "every newer update" means level by level: the quantity a synced book shows at
    a price is the last one the stream gave for it since the snapshot (none if that was
    zero), on both sides. *)
Theorem book_level_is_last_word lt `{!KeyOrder lt} q es (side : list PriceLevel)
    (pick : DepthEvent -> list PriceLevel) :
  num q -> Forall (fun e => num_keys (pick e)) es -> side_ok lt side ->
  om_find lt q (foldl (fun s e => apply_side lt s (pick e)) side es) =
  foldl (told lt q) (om_find lt q side) (es ≫= pick).
Proof.
  intros Hq Hes. revert side. induction Hes as [|e es He _ IH]; intros side Hs; [done|].
  simpl. rewrite IH by (by apply side_ok_apply). rewrite om_find_apply by done.
  by rewrite foldl_app.
Qed.

(** An update that ends exactly at the snapshot is neither dropped as old nor accepted: it
    costs a desync and a refetch although the snapshot already contains it. *)
Lemma aligned_update_forces_resync e b :
  synced b = true -> 0 <= last_update_id b < int64_max ->
  ev_u e = last_update_id b -> ev_pu e < ev_u e ->
  apply_diff (ev_U e) (ev_u e) (ev_pu e) (ev_bids e) (ev_asks e) b = (false, mark_desynced b).
Proof.
  intros Hs Hl Hu Hp. unfold apply_diff, int64_max in *. rewrite Hs. cbn [negb].
  rewrite wrap_s_id by lia. destruct (ev_u e <? last_update_id b) eqn:E1; zify_bools; [lia|].
  assert ((last_update_id b + 1 <=? ev_u e) = false) as -> by (apply Z.leb_gt; lia).
  assert ((ev_pu e =? last_update_id b) = false) as -> by (apply Z.eqb_neq; lia).
  by rewrite andb_false_r.
Qed.

(** ** Concrete streams *)
Module SampleBook.
Definition lv (p q : Z) : PriceLevel := (of_Z p, of_Z q).
Definition ev (U u pu : Z) (bs az : list PriceLevel) : DepthEvent :=
  {| ev_U := U; ev_u := u; ev_pu := pu; ev_bids := bs; ev_asks := az |}.
Definition e1 : DepthEvent := ev 95 99 90 [lv 98 1] [].
Definition e2 : DepthEvent := ev 100 105 99 [lv 99 5; lv 98 0] [lv 102 1].
Definition e3 : DepthEvent := ev 106 107 105 [lv 97 2] [lv 102 0].
Definition bs : list PriceLevel := [lv 98 4; lv 96 3].
Definition az : list PriceLevel := [lv 101 2].
End SampleBook.

(** The best bid of the sample is published, the third is not. *)
Lemma to_data_is_a_book_witness :
  let b := apply_events [SampleBook.e2; SampleBook.e3]
             (apply_snapshot 101 SampleBook.bs SampleBook.az OrderBook_new) in
  exists B, bid_book (to_data 2 b) = (fun l => {| lvl_price := Some l.1; lvl_qty := Some l.2 |}) <$> B /\
    om_find bid_lt (of_Z 99) B = Some (of_Z 5) /\ om_find bid_lt (of_Z 96) B = None /\
    om_find bid_lt (of_Z 96) (bids b) = Some (of_Z 3).
Proof.
  destruct (to_data_is_a_book 101 SampleBook.bs SampleBook.az [SampleBook.e2; SampleBook.e3]
    OrderBook_new 2) as (B&A&Hd&[_ _ _ Hl]&_); [by repeat constructor..|].
  exists B. split_and!.
  - by rewrite Hd.
  - apply Hl; [done|]. split; [by vm_compute|]. vm_compute. lia.
  - apply eq_None_not_Some. intros [q [_ Hq]%Hl]; [|done]. vm_compute in Hq. lia.
  - by vm_compute.
Defined.

(** The first update of the stream is lost; it is older than the snapshot, so the book is
    complete all the same. *)
Lemma synced_book_is_complete_witness :
  let ds := [([SampleBook.e1], SampleBook.e2); ([], SampleBook.e3)] in
  let b0 := apply_snapshot 101 SampleBook.bs SampleBook.az OrderBook_new in
  let b' := apply_events (received ds) b0 in
  synced b' = true /\
  (bids b' = replay_bids (newer 101 (sent ds)) (bids b0) /\
   asks b' = replay_asks (newer 101 (sent ds)) (asks b0) /\
   last_update_id b' = match last (sent ds) with Some e => Z.max 101 (ev_u e) | None => 101 end).
Proof.
  cbv zeta. split; [vm_compute; reflexivity|].
  apply (synced_book_is_complete 101 SampleBook.bs SampleBook.az OrderBook_new
    [([SampleBook.e1], SampleBook.e2); ([], SampleBook.e3)]).
  - unfold int64_max. lia.
  - unfold int64_max. simpl. repeat split; try lia; by intros p [= <-].
  - vm_compute. reflexivity.
Defined.

Lemma book_level_is_last_word_witness :
  om_find bid_lt (of_Z 98)
    (foldl (fun s e => apply_side bid_lt s (ev_bids e)) [] [SampleBook.e1; SampleBook.e2]) =
  foldl (told bid_lt (of_Z 98)) (om_find bid_lt (of_Z 98) [])
    ([SampleBook.e1; SampleBook.e2] ≫= ev_bids).
Proof.
  apply (book_level_is_last_word bid_lt (of_Z 98) [SampleBook.e1; SampleBook.e2] [] ev_bids);
    [reflexivity|repeat constructor|apply side_ok_nil].
Defined.
