(* ===== verification/Reconnect.v ===== *)
(** * Reconnect: websocket clients and the redial that keeps them alive

    The handlers of [connection_handlers/websocket/websocket_client.hpp] and the three
    supervisors that redial such a client: one per socket of the Binance listener
    ([on_ws_status] and the [schedule_*_reconnect] functions), the Binance order gateway's
    ([create_client], [schedule_reconnect]) and the KIS listener's ([on_ws_status],
    [on_ws_client_fail]).  The three status handlers are instances of one interface,
    [StatusHandler].  The two listeners build and store their clients on the thread that
    also runs their redial timers; that their sockets are never left dead is proved against
    the interface, with the statuses and the clients' own threads free to run between the
    building and the storing.  The gateway's first client is built on another thread: its
    slot is [GatewayClient]'s. *)
From S2P Require Import Prelude.

(** ** The client *)

(** Where the connection itself is: dialling, open, or gone (no handler of it is due). *)
Inductive WsPhase := Dialing | Open | Gone.
#[export] Instance ws_phase_eq_dec : EqDecision WsPhase.
Proof. solve_decision. Defined.

Record WsClient := {
  ws_phase : WsPhase; ws_connecting : bool; ws_opened : bool; ws_awaiting_pong : bool }.

(** A notification to the owner: (connecting, opened). *)
Definition notify (c : WsClient) : list (bool * bool) := [(ws_connecting c, ws_opened c)].

(** [init_connection], run from the constructor; [ok] is false when [connect] throws. *)
Definition init_connection (ok : bool) : WsClient * list (bool * bool) :=
  let c := {| ws_phase := if ok then Dialing else Gone; ws_connecting := true;
              ws_opened := false; ws_awaiting_pong := false |} in
  (c, notify c ++ (if ok then [] else notify c)).

(** The open handler: mark it up, ping, wait for the pong. *)
Definition on_open (c : WsClient) : WsClient * list (bool * bool) :=
  let c := {| ws_phase := Open; ws_connecting := false; ws_opened := true;
              ws_awaiting_pong := true |} in (c, notify c).

(** The close and the fail handler. *)
Definition on_down (c : WsClient) : WsClient * list (bool * bool) :=
  let c := {| ws_phase := Gone; ws_connecting := false; ws_opened := false;
              ws_awaiting_pong := ws_awaiting_pong c |} in (c, notify c).

Definition on_pong (c : WsClient) : WsClient * list (bool * bool) :=
  ({| ws_phase := ws_phase c; ws_connecting := ws_connecting c; ws_opened := ws_opened c;
      ws_awaiting_pong := false |}, []).

(** The ping timer: no pong since the last ping means the socket is dead. *)
Definition on_ping_timer (c : WsClient) : WsClient * list (bool * bool) :=
  if ws_awaiting_pong c then
    let c := {| ws_phase := ws_phase c; ws_connecting := ws_connecting c; ws_opened := false;
                ws_awaiting_pong := true |} in (c, notify c)
  else
    ({| ws_phase := ws_phase c; ws_connecting := ws_connecting c; ws_opened := ws_opened c;
        ws_awaiting_pong := ws_opened c |}, []).

(** ** The supervisor *)
Record Sup := {
  sup_client : option WsClient;
  sup_queue : list (bool * bool);    (* statuses not handled yet, oldest first *)
  sup_opened : bool;                 (* the owner's own flag *)
  sup_cnt : Z;                       (* backoff counter *)
  sup_pending : bool;                (* "a redial is already scheduled" *)
  sup_posted : bool;                 (* a schedule call is posted to the io thread *)
  sup_timer : option Z }.            (* the redial timer and its delay in seconds *)
Definition Sup_new : Sup := {|
  sup_client := None; sup_queue := []; sup_opened := false; sup_cnt := 0;
  sup_pending := false; sup_posted := false; sup_timer := None |}.

(** [std::min(1 << std::min(cnt, 5), 30)]. *)
Definition backoff (cnt : Z) : Z := Z.min (Z.shiftl 1 (Z.min cnt 5)) 30.
(** KIS: [(1 << step) - 1] with [step = min(cnt, MAX_BACKOFF_STEP)]. *)
Definition kis_backoff (cnt : Z) : Z := Z.shiftl 1 (Z.min cnt 5) - 1.

Definition set_schedule (cnt : Z) (pending posted : bool) (timer : option Z) (s : Sup) : Sup :=
  {| sup_client := sup_client s; sup_queue := sup_queue s; sup_opened := sup_opened s;
     sup_cnt := cnt; sup_pending := pending; sup_posted := posted; sup_timer := timer |}.
Definition set_opened (b : bool) (s : Sup) : Sup :=
  {| sup_client := sup_client s; sup_queue := sup_queue s; sup_opened := b;
     sup_cnt := sup_cnt s; sup_pending := sup_pending s; sup_posted := sup_posted s;
     sup_timer := sup_timer s |}.
Definition set_client (c : option WsClient) (statuses : list (bool * bool)) (s : Sup) : Sup :=
  {| sup_client := c; sup_queue := sup_queue s ++ statuses; sup_opened := sup_opened s;
     sup_cnt := sup_cnt s; sup_pending := sup_pending s; sup_posted := sup_posted s;
     sup_timer := sup_timer s |}.

(** [if (!pending.exchange(true)) post(schedule)]. *)
Definition request_redial (s : Sup) : Sup :=
  if sup_pending s then s else set_schedule (sup_cnt s) true true (sup_timer s) s.

(** [BinanceListener::on_ws_status], one socket of it. *)
Definition binance_on_ws_status (connecting opened : bool) (s : Sup) : Sup :=
  set_opened opened
    (if negb (sup_opened s) && opened
     then set_schedule 0 (sup_pending s) (sup_posted s) (sup_timer s) s
     else if negb opened && negb connecting then request_redial s
     else s).

(** [WsOrderGateway]'s status callback. *)
Definition gateway_on_status (connecting opened : bool) (s : Sup) : Sup :=
  let s := set_opened opened s in
  if opened then set_schedule 0 (sup_pending s) (sup_posted s) (sup_timer s) s
  else if connecting then s
  else request_redial s.

(** [KisListener::on_ws_client_fail]: the worker itself drops the client and arms the timer. *)
Definition on_ws_client_fail (s : Sup) : Sup :=
  set_client None []
    (set_schedule (sup_cnt s + 1) true (sup_posted s) (Some (kis_backoff (sup_cnt s))) s).

(** [KisListener::on_ws_status]. *)
Definition kis_on_ws_status (connecting opened : bool) (s : Sup) : Sup :=
  set_opened opened
    (if negb (sup_opened s) && opened
     then set_schedule 0 false (sup_posted s) (sup_timer s) s
     else if negb opened && negb connecting && negb (sup_pending s) then on_ws_client_fail s
     else s).

(** [schedule_*_reconnect]: drop the client, arm the timer. *)
Definition schedule_reconnect (s : Sup) : Sup :=
  set_client None []
    (set_schedule (sup_cnt s + 1) (sup_pending s) false (Some (backoff (sup_cnt s))) s).

(** [x_client_ = std::make_unique<...>(...)]: the constructor dials and its news is queued
    before the pointer is stored; [ok] as in [init_connection]. *)
Definition build_client (ok : bool) (s : Sup) : WsClient * Sup :=
  let '(c, n) := init_connection ok in (c, set_client (sup_client s) n s).
Definition assign_client (c : WsClient) (s : Sup) : Sup := set_client (Some c) [] s.
Definition create_client (ok : bool) (s : Sup) : Sup :=
  let '(c, s) := build_client ok s in assign_client c s.

(** The timer handler: clear the flag, then dial. *)
Definition timer_clears (s : Sup) : Sup := set_schedule (sup_cnt s) false (sup_posted s) None s.
Definition redial (ok : bool) (s : Sup) : Sup := create_client ok (timer_clears s).

(** [create_user_client] without a listenKey: back to the schedule. *)
Definition no_listen_key (s : Sup) : Sup := request_redial s.

(** ** The interface of a status handler *)

(** A redial is on its way: posted to the io thread, or waiting for its timer. *)
Definition redial_due (s : Sup) : Prop := sup_posted s = true \/ is_Some (sup_timer s).
(** The flag never claims a redial that is not on its way. *)
Definition scheduled (s : Sup) : Prop := sup_pending s = true -> redial_due s.

Class StatusHandler (on_status : bool -> bool -> Sup -> Sup) := {
  (** "Down" always ends with a redial on its way. *)
  sh_down s : scheduled s -> redial_due (on_status false false s);
  (** Any other news leaves the client and the redial alone. *)
  sh_other a o s : a || o = true ->
    sup_client (on_status a o s) = sup_client s /\
    sup_posted (on_status a o s) = sup_posted s /\ sup_timer (on_status a o s) = sup_timer s;
  sh_queue a o s : sup_queue (on_status a o s) = sup_queue s;
  sh_scheduled a o s : scheduled s -> scheduled (on_status a o s);
  sh_opened a o s : sup_opened (on_status a o s) = o }.

Ltac sup_cases :=
  unfold scheduled, redial_due, binance_on_ws_status, gateway_on_status, kis_on_ws_status,
    on_ws_client_fail, request_redial, set_opened, set_schedule, set_client in *;
  repeat match goal with
  | |- context [if ?b then _ else _] =>
      lazymatch b with context [if _ then _ else _] => fail | _ => destruct b eqn:? end
  end; simpl in *; rewrite ?app_nil_r.

#[export] Instance binance_handler : StatusHandler binance_on_ws_status.
Proof.
  split.
  - intros s H. sup_cases; try (rewrite andb_false_r in *; done); auto.
  - intros [] [] s; sup_cases; naive_solver.
  - intros a o s. by sup_cases.
  - intros a o s H. sup_cases; auto.
  - intros a o s. by sup_cases.
Qed.

#[export] Instance gateway_handler : StatusHandler gateway_on_status.
Proof.
  split.
  - intros s H. sup_cases; auto.
  - intros [] [] s; sup_cases; naive_solver.
  - intros a o s. by sup_cases.
  - intros a o s H. sup_cases; auto.
  - intros a o s. by sup_cases.
Qed.

#[export] Instance kis_handler : StatusHandler kis_on_ws_status.
Proof.
  split.
  - intros s H. sup_cases; try (rewrite ?andb_false_r in *; done); auto.
    apply H. by zify_bools.
  - intros [] [] s; sup_cases; naive_solver.
  - intros a o s. by sup_cases.
  - intros a o s H. sup_cases; auto; try done.
  - intros a o s. by sup_cases.
Qed.

(** ** The socket's life *)

(** The owner's side, and the client its io thread has built and not stored yet. *)
Record Owner := { ow_sup : Sup; ow_hand : option WsClient }.
Definition Owner_new : Owner := {| ow_sup := Sup_new; ow_hand := None |}.
Definition newest (o : Owner) : option WsClient :=
  match ow_hand o with Some c => Some c | None => sup_client (ow_sup o) end.

(** Something will still happen to this socket: its newest client is dialling or open, or the
    news of its end is queued, or a redial is on its way. *)
Definition kept_alive (o : Owner) : Prop :=
  (exists c, newest o = Some c /\ ws_phase c <> Gone) \/
  (false, false) ∈ sup_queue (ow_sup o) \/ redial_due (ow_sup o).

Definition pop (s : Sup) : Sup :=
  {| sup_client := sup_client s; sup_queue := tail (sup_queue s); sup_opened := sup_opened s;
     sup_cnt := sup_cnt s; sup_pending := sup_pending s; sup_posted := sup_posted s;
     sup_timer := sup_timer s |}.

(** A handler of the stored client runs, and its notification is queued. *)
Definition client_event (f : WsClient -> WsClient * list (bool * bool)) (c : WsClient) (s : Sup) : Sup :=
  set_client (Some (f c).1) (f c).2 s.

(** What a client's own thread can run. *)
Inductive ws_runs : WsClient -> WsClient * list (bool * bool) -> Prop :=
  | runs_open c : ws_phase c = Dialing -> ws_runs c (on_open c)
  | runs_down c : ws_phase c <> Gone -> ws_runs c (on_down c)
  | runs_pong c : ws_phase c = Open -> ws_runs c (on_pong c)
  | runs_ping c : ws_phase c <> Dialing -> ws_runs c (on_ping_timer c).

(** A client stays dialling or open, or says that it is down. *)
Lemma runs_says c c' n : ws_runs c (c', n) -> ws_phase c <> Gone ->
  ws_phase c' <> Gone \/ (false, false) ∈ n.
Proof.
  inversion 1; subst; intros Hg; [by left|by right; left|left; simpl; congruence|].
  unfold on_ping_timer in *. destruct (ws_awaiting_pong c); simplify_eq/=; by left.
Qed.

Section life.
Context (on_status : bool -> bool -> Sup -> Sup) `{!StatusHandler on_status}.
(** Whether [connect] may throw inside [init_connection]. *)
Context (may_throw : bool).

Definition own (s : Sup) (h : option WsClient) : Owner := {| ow_sup := s; ow_hand := h |}.
Definition built (x : WsClient * Sup) : Owner := own x.2 (Some x.1).

(** The io thread builds, stores, schedules and runs timers, one at a time; the worker
    handles statuses and the clients run their handlers whenever they like. *)
Inductive sup_step : Owner -> Owner -> Prop :=
  | step_start ok : ok || may_throw = true -> sup_step Owner_new (built (build_client ok Sup_new))
  | step_store c s : sup_step (own s (Some c)) (own (assign_client c s) None)
  | step_handle a o q s h : sup_queue s = (a, o) :: q -> sup_step (own s h) (own (on_status a o (pop s)) h)
  | step_client c c' n s h : sup_client s = Some c -> ws_runs c (c', n) ->
      sup_step (own s h) (own (set_client (Some c') n s) h)
  | step_hand c c' n s : ws_runs c (c', n) ->
      sup_step (own s (Some c)) (own (set_client (sup_client s) n s) (Some c'))
  | step_posted s : sup_posted s = true -> sup_step (own s None) (own (schedule_reconnect s) None)
  | step_timer ok s : ok || may_throw = true -> is_Some (sup_timer s) ->
      sup_step (own s None) (built (build_client ok (timer_clears s)))
  | step_no_key s : is_Some (sup_timer s) ->
      sup_step (own s None) (own (no_listen_key (timer_clears s)) None).

Lemma step_scheduled o o' : sup_step o o' -> scheduled (ow_sup o) -> scheduled (ow_sup o').
Proof.
  intros Hs H. destruct Hs as [[]|c s|a o q s h|c c' n s h|c c' n s|s|[] s|s]; try done.
  - by apply sh_scheduled.
  - intros _. right. by eexists.
  - intros _. by left.
Qed.

Lemma step_kept_alive o o' :
  may_throw = false -> sup_step o o' -> scheduled (ow_sup o) ->
  kept_alive o \/ o = Owner_new -> kept_alive o'.
Proof.
  intros Hmt Hs Hsch Halive. unfold kept_alive, newest, redial_due in *.
  destruct Hs as [ok Hok|c s|a o q s h Hq|c c' n s h Hc Hr|c c' n s Hr|s Hp|ok s Hok Ht|s Ht];
    cbn [ow_sup ow_hand own] in *;
    try (rewrite Hmt, orb_false_r in Hok; subst; left; eexists; split; [done|]; by simpl).
  - destruct Halive as [Ha|?]; [|done]. unfold assign_client. simpl. by rewrite app_nil_r.
  - rewrite sh_queue. destruct (a || o) eqn:Eao.
    + destruct (sh_other a o (pop s) Eao) as (E1&E2&E3). rewrite E1, E2, E3.
      destruct Halive as [[H|[H|H]]|[= -> ->]]; [by left| |by right; right|done].
      right. left. simpl. rewrite Hq in *. apply elem_of_cons in H as [[= <- <-]|H]; done.
    + apply orb_false_iff in Eao as [-> ->]. right. right. by apply sh_down.
  - destruct Halive as [[(x&Hx&Hg)|[H|H]]|[= -> ->]]; [| | |done].
    + destruct h as [hc|]; [left; by exists x|]. rewrite Hc in Hx. simplify_eq.
      destruct (runs_says _ _ _ Hr Hg) as [?|?]; [left; by exists c'|].
      right. left. simpl. set_solver.
    + right. left. simpl. set_solver.
    + by right; right.
  - destruct Halive as [[(x&[= ->]&Hg)|[H|H]]|?]; [| | |done].
    + destruct (runs_says _ _ _ Hr Hg) as [?|?]; [left; by exists c'|].
      right. left. simpl. set_solver.
    + right. left. simpl. set_solver.
    + by right; right.
  - right. right. right. by eexists.
  - right. right. by left.
Qed.

Lemma life_invariant o :
  may_throw = false -> rtc sup_step Owner_new o ->
  scheduled (ow_sup o) /\ (kept_alive o \/ o = Owner_new).
Proof.
  intros Hmt. assert (forall x, rtc sup_step x o -> scheduled (ow_sup x) /\ (kept_alive x \/ x = Owner_new) ->
    scheduled (ow_sup o) /\ (kept_alive o \/ o = Owner_new)) as H.
  { induction 1 as [|s1 s2 s3 Hs _ IH]; [done|]. intros [H1 H2]. apply IH.
    split; [by eapply step_scheduled|left; by eapply step_kept_alive]. }
  intros Hr. apply (H _ Hr). split; [done|by right].
Qed.
End life.

(** C23: A listener's socket is never left dead.  For each socket of the Binance listener and
    for the KIS listener's, which build, store and redial their clients on one thread, and
    provided no [connect] throws: in every reachable state after the start -- dials that
    fail before or after the client is stored, drops reported twice, pong timeouts, stale
    statuses, listen keys that cannot be had, in any order -- the newest client is dialling
    or open, or the news of its end is still queued, or a redial is posted or timed. *)
Theorem socket_never_stuck on_status o :
  on_status = binance_on_ws_status \/ on_status = kis_on_ws_status ->
  rtc (sup_step on_status false) Owner_new o -> o <> Owner_new -> kept_alive o.
Proof.
  intros [->| ->] H Hn; by destruct (life_invariant _ false o eq_refl H) as [_ [?|?]].
Qed.

(** ... except after a [connect] that throws.  That path reports "still connecting"
    instead of "down": both notifications are handled, no redial is scheduled by any of
    the supervisors, and the socket stays dead for good. *)
Theorem failed_init_is_never_redialled on_status `{!StatusHandler on_status} :
  let s := on_status true false (pop (on_status true false (pop (create_client false Sup_new)))) in
  rtc (sup_step on_status true) Owner_new (own s None) /\ sup_queue s = [] /\ ~ kept_alive (own s None).
Proof.
  cbv zeta. set (s0 := create_client false Sup_new). set (s1 := on_status true false (pop s0)).
  assert (sup_queue s1 = [(true, false)]) as Hq1 by (unfold s1; by rewrite sh_queue).
  assert (sup_queue (on_status true false (pop s1)) = []) as Hq2
    by (rewrite sh_queue; simpl; by rewrite Hq1).
  split_and!; [|done|].
  - eapply rtc_l; [by apply (step_start _ _ false)|]. eapply rtc_l; [apply step_store|].
    change (assign_client _ _) with s0.
    eapply rtc_l; [by apply (step_handle _ _ true false [(true, false)])|].
    eapply rtc_l; [by apply (step_handle _ _ true false [])|]. apply rtc_refl.
  - destruct (sh_other true false (pop s1) eq_refl) as (E1&E2&E3).
    destruct (sh_other true false (pop s0) eq_refl) as (F1&F2&F3).
    unfold kept_alive, newest, redial_due. cbn [ow_sup ow_hand own].
    rewrite Hq2, E1, E2, E3. simpl. fold s1 in F1, F2, F3.
    rewrite F1, F2, F3. simpl. intros [(c&[= <-]&Hc)|[H|[H|[? H]]]]; try done.
    by apply elem_of_nil in H.
Qed.

(** ** Backoff *)
Lemma shiftl_1 n : 0 <= n -> Z.shiftl 1 n = 2 ^ n.
Proof. intros. by rewrite Z.shiftl_mul_pow2, Z.mul_1_l. Qed.

(** The waits between redials double from one second and never exceed thirty, so a venue
    that comes back is found within half a minute and one that does not is not hammered;
    KIS's start at zero and stay within thirty-one. *)
Theorem backoff_bounds n :
  0 <= n ->
  1 <= backoff n <= 30 /\ (n < 5 -> backoff n = 2 ^ n) /\ (5 <= n -> backoff n = 30) /\
  0 <= kis_backoff n <= 31 /\ backoff n <= backoff (n + 1).
Proof.
  intros Hn. unfold backoff, kis_backoff.
  assert (n = 0 \/ n = 1 \/ n = 2 \/ n = 3 \/ n = 4 \/ 5 <= n) as Hc by lia.
  destruct Hc as [->|[->|[->|[->|[->|Hge]]]]];
    try by (split_and!; intros; try lia; vm_compute; congruence).
  rewrite !(Z.min_r _ 5) by lia. split_and!; intros; try lia; vm_compute; congruence.
Qed.

(** ** Concrete runs *)

(** A dial that fails while the client is still being stored, and is handled at once. *)
Definition sample_dropped : Sup :=
  assign_client (on_down (init_connection true).1).1
    (binance_on_ws_status false false (pop (binance_on_ws_status true false (pop
      (set_client None [(false, false)] (build_client true Sup_new).2))))).

Lemma socket_never_stuck_witness : kept_alive (own sample_dropped None) /\ sup_posted sample_dropped = true.
Proof.
  split; [|reflexivity].
  apply (socket_never_stuck binance_on_ws_status); [by left| |discriminate].
  eapply rtc_l; [by apply (step_start _ _ true)|].
  eapply rtc_l; [by apply (step_hand _ _ (init_connection true).1 (on_down (init_connection true).1).1
    [(false, false)]), runs_down|].
  eapply rtc_l; [by apply (step_handle _ _ true false [(false, false)])|].
  eapply rtc_l; [by apply (step_handle _ _ false false [])|].
  eapply rtc_l; [apply step_store|]. apply rtc_refl.
Defined.

Lemma failed_init_is_never_redialled_witness :
  let on_status := gateway_on_status in
  let s := on_status true false (pop (on_status true false (pop (create_client false Sup_new)))) in
  rtc (sup_step on_status true) Owner_new (own s None) /\ sup_queue s = [] /\ ~ kept_alive (own s None).
Proof. apply (failed_init_is_never_redialled gateway_on_status). Defined.

Lemma backoff_bounds_witness :
  1 <= backoff 7 <= 30 /\ (7 < 5 -> backoff 7 = 2 ^ 7) /\ (5 <= 7 -> backoff 7 = 30) /\
  0 <= kis_backoff 7 <= 31 /\ backoff 7 <= backoff (7 + 1).
Proof. apply (backoff_bounds 7). lia. Defined.
