(* ===== verification/WsClient.v ===== *)
(** * WsClient: the handlers of one websocket connection

    [BaseWebsocketClient] of [connection_handlers/websocket/websocket_client.hpp] and its two
    subclasses, whole: the handlers [set_handlers] installs with their guard, the ping timer,
    [init_connection].  Each is shown to do what [Reconnect] takes it to do; on top, the
    ping cycle: how long a dead peer goes unnoticed. *)
From S2P Require Import Prelude Reconnect.

(** What a handler does besides setting members. *)
Inductive Act := SendPing | CloseGoingAway | NotifyStatus (connecting opened : bool) | StreamMessage (m : string).

(** The members: [Reconnect.WsClient] is the connection with the three connection flags. *)
Record Ws := {
  w_conn : WsClient; destroying : bool; ping_interval_sec : Z;
  ping_timer : bool;        (* armed *)
  client_thread : bool }.   (* started *)
Definition Ws_new (ping_interval : Z) : Ws := {|
  w_conn := {| ws_phase := Gone; ws_connecting := false; ws_opened := false; ws_awaiting_pong := false |};
  destroying := false; ping_interval_sec := ping_interval; ping_timer := false; client_thread := false |}.

Definition set_conn (c : WsClient) (timer : bool) (w : Ws) : Ws := {|
  w_conn := c; destroying := destroying w; ping_interval_sec := ping_interval_sec w;
  ping_timer := timer; client_thread := client_thread w |}.
Definition flags (phase : WsPhase) (connecting opened awaiting : bool) : WsClient := {|
  ws_phase := phase; ws_connecting := connecting; ws_opened := opened; ws_awaiting_pong := awaiting |}.
(** [notify_websocket_status]: both subclasses pass the two flags on to their owner. *)
Definition notify_websocket_status (w : Ws) : list Act :=
  [NotifyStatus (ws_connecting (w_conn w)) (ws_opened (w_conn w))].

(** ** The handlers *)
Definition open_handler (w : Ws) : Ws * list Act :=
  if destroying w then (w, [])
  else
    let w := set_conn (flags Open false true true) true w in
    (w, SendPing :: notify_websocket_status w).
Definition close_handler (w : Ws) : Ws * list Act :=
  if destroying w then (w, [])
  else
    let w := set_conn (flags Gone false false (ws_awaiting_pong (w_conn w))) (ping_timer w) w in
    (w, notify_websocket_status w).
Definition fail_handler (w : Ws) : Ws * list Act :=
  if destroying w then (w, [])
  else
    let w := set_conn (flags Gone false false (ws_awaiting_pong (w_conn w))) (ping_timer w) w in
    (w, notify_websocket_status w).
Definition pong_handler (w : Ws) : Ws * list Act :=
  if destroying w then (w, [])
  else
    let c := w_conn w in
    (set_conn (flags (ws_phase c) (ws_connecting c) (ws_opened c) false) (ping_timer w) w, []).
Definition message_handler (m : string) (w : Ws) : Ws * list Act :=
  (w, if destroying w then [] else [StreamMessage m]).

(** The ping timer's handler, with the error code it is given. *)
Inductive TimerCode := Aborted | Expired | TimerError.
Definition ping_timer_handler (ec : TimerCode) (w : Ws) : Ws * list Act :=
  let c := w_conn w in
  match ec with
  | Aborted | TimerError => (set_conn c false w, [])
  | Expired =>
      if ws_awaiting_pong c then
        let w := set_conn (flags (ws_phase c) (ws_connecting c) false true) false w in
        (w, CloseGoingAway :: notify_websocket_status w)
      else if ws_opened c then
        (set_conn (flags (ws_phase c) (ws_connecting c) true true) true w, [SendPing])
      else (set_conn (flags (ws_phase c) (ws_connecting c) false false) true w, [])
  end.

(** [init_connection]: [get_connection] fails and leaves a null pointer that the next line
    follows ([None]); or [connect] throws; or the thread starts. *)
Inductive Dial := NoConnection | ConnectThrows | Dialled.
Definition ws_init_connection (d : Dial) (w : Ws) : option (Ws * list Act) :=
  let c := w_conn w in
  let w := set_conn (flags (ws_phase c) true (ws_opened c) (ws_awaiting_pong c)) (ping_timer w) w in
  let first := notify_websocket_status w in
  match d with
  | NoConnection => None
  | ConnectThrows =>
      let w := set_conn (flags Gone true false (ws_awaiting_pong c)) (ping_timer w) w in
      Some (w, first ++ notify_websocket_status w)
  | Dialled =>
      Some ({| w_conn := flags Dialing true (ws_opened c) (ws_awaiting_pong c);
               destroying := destroying w; ping_interval_sec := ping_interval_sec w;
               ping_timer := ping_timer w; client_thread := true |}, first)
  end.
(** The constructors of the two clients: members, handlers, dial. *)
Definition BinanceWebsocketClient_new (ping_interval : Z) (d : Dial) : option (Ws * list Act) :=
  ws_init_connection d (Ws_new ping_interval).
Definition KisWebsocketClient_new (d : Dial) : option (Ws * list Act) :=
  ws_init_connection d (Ws_new (24 * 60 * 60)).

(** ** What the supervisors see *)
Definition statuses (l : list Act) : list (bool * bool) :=
  omap (fun a => match a with NotifyStatus c o => Some (c, o) | _ => None end) l.

(** A handler refines what [Reconnect] runs in its place: the same flags, the same news. *)
Definition refines (f : Ws -> Ws * list Act) (g : WsClient -> WsClient * list (bool * bool)) : Prop :=
  forall w, destroying w = false ->
    (w_conn (f w).1, statuses (f w).2) = g (w_conn w) /\ destroying (f w).1 = false.

Lemma handlers_refine m ec :
  ec <> Expired ->
  refines open_handler on_open /\ refines close_handler on_down /\ refines fail_handler on_down /\
  refines pong_handler on_pong /\ refines (ping_timer_handler Expired) on_ping_timer /\
  refines (message_handler m) (fun c => (c, [])) /\
  refines (ping_timer_handler ec) (fun c => (c, [])).
Proof.
  intros Hec. split_and!; intros w Hw;
    unfold open_handler, close_handler, fail_handler, pong_handler, message_handler; rewrite ?Hw; try done.
  - unfold ping_timer_handler, on_ping_timer. destruct (w_conn w) as [p c o a]. simpl.
    destruct a; [done|]. by destruct o.
  - by destruct ec.
Qed.

(** ** The ping cycle *)

(** One interval: the peer answers, or not, and the timer goes off. *)
Definition interval (answered : bool) (w : Ws) : Ws * list Act :=
  ping_timer_handler Expired (if answered then (pong_handler w).1 else w).
Fixpoint cycle (answers : list bool) (w : Ws) : Ws * list Act :=
  match answers with
  | [] => (w, [])
  | a :: answers =>
      if ping_timer w then
        let '(w, l) := interval a w in
        let '(w, l') := cycle answers w in (w, l ++ l')
      else (w, [])
  end.

(** An open connection that waits for the answer to its last ping. *)
Definition pinged (w : Ws) : Prop :=
  destroying w = false /\ ping_timer w = true /\ w_conn w = flags Open false true true.

Lemma interval_answered w :
  pinged w -> exists w', interval true w = (w', [SendPing]) /\ pinged w'.
Proof.
  intros (Hd&Ht&Hc). unfold interval, pong_handler. rewrite Hd, Hc. simpl. eexists. split; [done|].
  unfold pinged. simpl. by rewrite ?Hd.
Qed.
Lemma interval_silent w :
  pinged w -> exists w', interval false w = (w', [CloseGoingAway; NotifyStatus false false]) /\
    ping_timer w' = false /\ ws_opened (w_conn w') = false.
Proof. intros (Hd&Ht&Hc). unfold interval, ping_timer_handler. rewrite Hc. simpl. eauto. Qed.

Lemma cycle_answered n w :
  pinged w -> exists w', cycle (replicate n true) w = (w', replicate n SendPing) /\ pinged w'.
Proof.
  revert w. induction n as [|n IH]; intros w Hw; [by exists w|]. simpl.
  destruct Hw as (Hd&Ht&Hc). rewrite Ht.
  destruct (interval_answered w) as (w1&->&H1); [done|]. destruct (IH w1 H1) as (w2&->&H2). eauto.
Qed.
Lemma cycle_app a b w :
  cycle (a ++ b) w = let '(w1, l1) := cycle a w in let '(w2, l2) := cycle b w1 in (w2, l1 ++ l2).
Proof.
  revert w. induction a as [|x a IH]; intros w; simpl; [by destruct (cycle b w)|].
  destruct (ping_timer w) eqn:E.
  - destruct (interval x w) as [w1 l1]. rewrite IH. destruct (cycle a w1) as [w2 l2].
    destruct (cycle b w2) as [w3 l3]. by rewrite app_assoc.
  - destruct b; simpl; [done|by rewrite E].
Qed.

Section timed.
Context (t0 period : Z) (pongs : list Z).
(** Whether a pong came in the [k]-th interval after the connection opened at [t0]. *)
Definition answered (k : nat) : bool :=
  existsb (fun p => (t0 + Z.of_nat k * period <? p) && (p <=? t0 + Z.of_nat (S k) * period)) pongs.
(** The connection after the timer's first [n] expiries. *)
Definition after_intervals (n : nat) (w : Ws) : Ws * list Act := cycle (answered <$> seq 0 n) w.

(** The first interval without an answer. *)
Lemma first_silent n :
  (forall k, (k < n)%nat -> answered k = true) \/
  exists m, (m < n)%nat /\ answered m = false /\ forall k, (k < m)%nat -> answered k = true.
Proof.
  induction n as [|n [IH|(m&Hm&Ha&Hk)]]; [left; lia| |right; exists m; auto].
  destruct (answered n) eqn:E; [left|right; exists n; auto].
  intros k Hk. destruct (decide (k = n)) as [->|]; [done|apply IH; lia].
Qed.

Lemma answered_all n : (forall k, (k < n)%nat -> answered k = true) ->
  answered <$> seq 0 n = replicate n true.
Proof.
  intros H. symmetry. apply replicate_as_elem_of. split; [by rewrite length_fmap, length_seq|].
  intros b (k&->&Hk)%list_elem_of_fmap. apply H. apply elem_of_seq in Hk. lia.
Qed.

Lemma silent_closes m n w :
  pinged w -> (m < n)%nat -> answered m = false -> (forall k, (k < m)%nat -> answered k = true) ->
  exists w', after_intervals n w =
      (w', replicate m SendPing ++ [CloseGoingAway; NotifyStatus false false]) /\
    ping_timer w' = false /\ ws_opened (w_conn w') = false.
Proof.
  intros Hw Hm Ha Hk. unfold after_intervals.
  replace n with (m + S (n - S m))%nat by lia. rewrite seq_app, fmap_app, cycle_app, answered_all by done.
  destruct (cycle_answered m w Hw) as (w1&->&H1). simpl. rewrite Ha.
  pose proof H1 as (_&Ht&_). rewrite Ht. destruct (interval_silent w1 H1) as (w2&->&Ht2&Ho2).
  exists w2. split; [|done]. by destruct (seq (S m) (n - S m)); simpl; rewrite ?Ht2.
Qed.
End timed.

(** C24: A dead peer is dropped within two ping intervals, and a live one never.  A
    connection opened at [t0] is pinged at once and once per interval.  As long as every
    interval has an answer it stays open and sends nothing but pings; if no answer comes
    after time [last], it is closed, with one notification of its end, at an expiry no later
    than two intervals after [last], and the timer is not armed again. *)
Theorem dead_peer_is_dropped t0 period pongs last w0 :
  0 < period -> t0 <= last -> destroying w0 = false -> (forall p, p ∈ pongs -> p <= last) ->
  let w := (open_handler w0).1 in
  (forall n, (forall k, (k < n)%nat -> answered t0 period pongs k = true) ->
    (after_intervals t0 period pongs n w).2 = replicate n SendPing /\
    ws_opened (w_conn (after_intervals t0 period pongs n w).1) = true) /\
  exists n m, t0 + Z.of_nat n * period <= last + 2 * period /\
    (after_intervals t0 period pongs n w).2 =
      replicate m SendPing ++ [CloseGoingAway; NotifyStatus false false] /\
    ws_opened (w_conn (after_intervals t0 period pongs n w).1) = false /\
    ping_timer (after_intervals t0 period pongs n w).1 = false.
Proof.
  intros Hp Hl Hd Hlast. cbv zeta. assert (pinged (open_handler w0).1) as Hw.
  { unfold open_handler. by rewrite Hd. }
  set (w := (open_handler w0).1) in *. split.
  - intros n Hn. unfold after_intervals. rewrite answered_all by done.
    destruct (cycle_answered n w Hw) as (w'&->&(_&_&Hc)). split; [done|]. simpl. by rewrite Hc.
  - set (k := Z.to_nat ((last - t0) / period)).
    assert (Z.of_nat k = (last - t0) / period) as Hk by (apply Z2Nat.id, Z.div_pos; lia).
    pose proof (Z.div_mod (last - t0) period ltac:(lia)) as Hdm.
    pose proof (Z.mod_pos_bound (last - t0) period Hp) as Hmod.
    assert (answered t0 period pongs (S k) = false) as Ha.
    { apply not_true_iff_false. unfold answered. rewrite existsb_exists.
      intros (p&Hin%list_elem_of_In&H). zify_bools. specialize (Hlast p Hin). nia. }
    destruct (first_silent t0 period pongs (S (S k))) as [H|(m&Hm&Hma&Hmk)].
    { by rewrite (H (S k)) in Ha by lia. }
    destruct (silent_closes t0 period pongs m (S m) w Hw) as (w'&E&?&?); [lia|done..|].
    exists (S m), m. rewrite E. split_and!; [nia|done..].
Qed.

(** A URI that cannot be parsed is logged and then followed through a null pointer. *)
Lemma bad_uri_is_undefined w : ws_init_connection NoConnection w = None.
Proof. done. Qed.

(** Opened at 0 with a ping a minute, answered at 0 and 61 seconds and never again. *)
Lemma dead_peer_is_dropped_witness :
  exists n m, 0 + Z.of_nat n * 60 <= 61 + 2 * 60 /\
    (after_intervals 0 60 [1; 61] n (open_handler (Ws_new 60)).1).2 =
      replicate m SendPing ++ [CloseGoingAway; NotifyStatus false false].
Proof.
  destruct (dead_peer_is_dropped 0 60 [1; 61] 61 (Ws_new 60)) as [_ (n&m&H1&H2&_)]; [done|done|done| |].
  - intros p Hp. repeat (apply elem_of_cons in Hp as [->|Hp]; [lia|]). by apply elem_of_nil in Hp.
  - by exists n, m.
Defined.
