(* ===== verification/GatewayClient.v ===== *)
(** * GatewayClient: who owns the order gateway's websocket client

    [WsOrderGateway] keeps its client in one slot that two threads fill: the constructor's
    and [io_thread_]'s redials, with the clients' own socket threads reporting to both.
    [Reconnect] shows that a lone supervisor never leaves its socket dead; here the slot is
    modelled with every client that exists, so that what [create_client] does between
    building a client and storing it can interleave with a redial.  Clients whose
    [connect] throws are left to [Reconnect]. *)
From S2P Require Import Prelude Reconnect.

#[local] Open Scope list_scope.
#[local] Open Scope Z_scope.

(** What is posted to the gateway's io context. *)
Inductive IoTask := ResetCount | ScheduleReconnect.
#[export] Instance io_task_eq_dec : EqDecision IoTask.
Proof. solve_decision. Defined.

(** The constructor: before [create_client], with a client built and not stored, returned. *)
Inductive Ctor := NotYet | Built (c : nat) | Returned.

Record Gw := {
  gw_slot : option nat;                (* [client_] *)
  gw_clients : gmap nat WsClient;      (* every client that exists *)
  gw_next : nat;
  gw_connected : bool; gw_pending : bool; gw_cnt : Z;
  gw_queue : list IoTask; gw_timer : option Z; gw_running : bool;
  gw_ctor : Ctor;
  gw_io : option nat }.                (* a client built by a redial and not stored yet *)
Definition Gw_new : Gw := {|
  gw_slot := None; gw_clients := ∅; gw_next := 0; gw_connected := false; gw_pending := false;
  gw_cnt := 0; gw_queue := []; gw_timer := None; gw_running := true; gw_ctor := NotYet; gw_io := None |}.

Definition set_flags (connected pending : bool) (cnt : Z) (q : list IoTask) (timer : option Z)
    (running : bool) (s : Gw) : Gw := {|
  gw_slot := gw_slot s; gw_clients := gw_clients s; gw_next := gw_next s; gw_connected := connected;
  gw_pending := pending; gw_cnt := cnt; gw_queue := q; gw_timer := timer; gw_running := running;
  gw_ctor := gw_ctor s; gw_io := gw_io s |}.
Definition set_owners (slot : option nat) (clients : gmap nat WsClient) (next : nat) (ctor : Ctor)
    (io : option nat) (s : Gw) : Gw := {|
  gw_slot := slot; gw_clients := clients; gw_next := next; gw_connected := gw_connected s;
  gw_pending := gw_pending s; gw_cnt := gw_cnt s; gw_queue := gw_queue s; gw_timer := gw_timer s;
  gw_running := gw_running s; gw_ctor := ctor; gw_io := io |}.

(** ** The code *)

(** The status callback, on a client's own thread. *)
Definition status_cb (s : Gw) (news : bool * bool) : Gw :=
  let '(connecting, opened) := news in
  let s := set_flags opened (gw_pending s) (gw_cnt s) (gw_queue s) (gw_timer s) (gw_running s) s in
  if opened then
    set_flags opened (gw_pending s) (gw_cnt s) (gw_queue s ++ [ResetCount]) (gw_timer s) (gw_running s) s
  else if connecting || negb (gw_running s) then s
  else if gw_pending s then s
  else set_flags opened true (gw_cnt s) (gw_queue s ++ [ScheduleReconnect]) (gw_timer s) (gw_running s) s.

(** One handler of client [c] runs, and reports. *)
Definition client_runs (f : WsClient -> WsClient * list (bool * bool)) (c : nat) (w : WsClient) (s : Gw) : Gw :=
  foldl status_cb (set_owners (gw_slot s) (<[c := (f w).1]> (gw_clients s)) (gw_next s) (gw_ctor s) (gw_io s) s)
    (f w).2.

(** [std::make_unique<BinanceWebsocketClient>]: the client dials from its constructor. *)
Definition make_client (s : Gw) : Gw :=
  let '(w, news) := init_connection true in
  foldl status_cb
    (set_owners (gw_slot s) (<[gw_next s := w]> (gw_clients s)) (S (gw_next s)) (gw_ctor s) (gw_io s) s) news.
(** [client_ = std::move(client)], under the lock: what the slot held is destroyed. *)
Definition store_client (c : nat) (s : Gw) : Gw :=
  set_owners (Some c)
    (match gw_slot s with Some old => delete old (gw_clients s) | None => gw_clients s end)
    (gw_next s) (gw_ctor s) (gw_io s) s.
Definition drop_client (s : Gw) : Gw :=
  set_owners None (match gw_slot s with Some old => delete old (gw_clients s) | None => gw_clients s end)
    (gw_next s) (gw_ctor s) (gw_io s) s.

(** [schedule_reconnect]. *)
Definition gw_schedule_reconnect (s : Gw) : Gw :=
  let s := drop_client s in
  set_flags false (gw_pending s) (gw_cnt s + 1) (gw_queue s) (Some (backoff (gw_cnt s))) (gw_running s) s.
Definition run_io_task (t : IoTask) (s : Gw) : Gw :=
  match t with
  | ResetCount => set_flags (gw_connected s) (gw_pending s) 0 (gw_queue s) (gw_timer s) (gw_running s) s
  | ScheduleReconnect => gw_schedule_reconnect s
  end.
Definition pop_task (s : Gw) : Gw :=
  set_flags (gw_connected s) (gw_pending s) (gw_cnt s) (tail (gw_queue s)) (gw_timer s) (gw_running s) s.
(** The redial timer's handler, up to the client it builds. *)
Definition redial_handler (s : Gw) : Gw :=
  let s := set_flags (gw_connected s) false (gw_cnt s) (gw_queue s) None (gw_running s) s in
  if gw_running s then
    let c := gw_next s in
    let s := make_client s in
    set_owners (gw_slot s) (gw_clients s) (gw_next s) (gw_ctor s) (Some c) s
  else s.

(** ** Threads *)
Section threads.
(** Whether [create_client] holds the lock across the construction (it does not), and
    whether the constructor can be so slow that a redial timer, which waits a second at
    least, goes off before it has stored its client. *)
Context (held slow : bool).

Definition constructing (s : Gw) : bool := match gw_ctor s with Built _ => true | _ => false end.

Inductive gw_step : Gw -> Gw -> Prop :=
  | gs_build s : gw_ctor s = NotYet -> let s' := make_client s in
      gw_step s (set_owners (gw_slot s') (gw_clients s') (gw_next s') (Built (gw_next s)) (gw_io s') s')
  | gs_store c s : gw_ctor s = Built c -> let s' := store_client c s in
      gw_step s (set_owners (gw_slot s') (gw_clients s') (gw_next s') Returned (gw_io s') s')
  | gs_open c w s : gw_clients s !! c = Some w -> ws_phase w = Dialing -> gw_step s (client_runs on_open c w s)
  | gs_down c w s : gw_clients s !! c = Some w -> ws_phase w <> Gone -> gw_step s (client_runs on_down c w s)
  | gs_pong c w s : gw_clients s !! c = Some w -> ws_phase w = Open -> gw_step s (client_runs on_pong c w s)
  | gs_ping c w s : gw_clients s !! c = Some w -> ws_phase w <> Dialing ->
      gw_step s (client_runs on_ping_timer c w s)
  | gs_task t q s : gw_io s = None -> gw_queue s = t :: q ->
      (t = ScheduleReconnect -> held && constructing s = false) -> gw_step s (run_io_task t (pop_task s))
  | gs_timer s : gw_io s = None -> is_Some (gw_timer s) -> slow = true \/ constructing s = false ->
      gw_step s (redial_handler s)
  | gs_io_store c s : gw_io s = Some c -> let s' := store_client c s in
      gw_step s (set_owners (gw_slot s') (gw_clients s') (gw_next s') (gw_ctor s') None s')
  | gs_stop s : gw_ctor s = Returned ->
      gw_step s (set_flags (gw_connected s) (gw_pending s) (gw_cnt s) (gw_queue s) (gw_timer s) false s).

(** A redial is on its way. *)
Definition gw_due (s : Gw) : Prop := ScheduleReconnect ∈ gw_queue s \/ is_Some (gw_timer s).
Definition is_gone (s : Gw) (c : nat) : Prop := exists w, gw_clients s !! c = Some w /\ ws_phase w = Gone.
(** The slot's client is dialling or open, or a redial is on its way or at work. *)
Definition gw_alive (s : Gw) : Prop :=
  (exists c w, gw_slot s = Some c /\ gw_clients s !! c = Some w /\ ws_phase w <> Gone) \/
  gw_due s \/ is_Some (gw_io s).
(** Who is responsible for client [c]. *)
Definition owned (s : Gw) (c : nat) : Prop := gw_slot s = Some c \/ gw_io s = Some c \/ gw_ctor s = Built c.
End threads.

(** ** Reports *)

(** What a status callback may do: it moves no client and takes nothing off the queue. *)
Record reports (s s' : Gw) : Prop := {
  rp_owners : (gw_slot s', gw_clients s', gw_next s', gw_ctor s', gw_io s') =
              (gw_slot s, gw_clients s, gw_next s, gw_ctor s, gw_io s);
  rp_rest : (gw_timer s', gw_running s') = (gw_timer s, gw_running s);
  rp_queue t : t ∈ gw_queue s -> t ∈ gw_queue s';
  rp_pending : (gw_pending s = true -> gw_due s) -> gw_pending s' = true -> gw_due s' }.

#[export] Instance reports_preorder : PreOrder reports.
Proof.
  split; [by intros s; split|]. intros s1 s2 s3 [A1 A2 A3 A4] [B1 B2 B3 B4].
  split; [congruence|congruence|auto|auto].
Qed.
Lemma reports_due s s' : reports s s' -> gw_due s -> gw_due s'.
Proof. intros [_ E Hq _] [H|H]; [left; auto|right]. by injection E as -> _. Qed.

Lemma status_reports s news : reports s (status_cb s news).
Proof.
  destruct news as [a o]. unfold status_cb. split; repeat split_match; simpl; try done; try set_solver.
  all: intros H Hp; try by apply H.
  all: first [left; set_solver | by destruct (H Hp) as [?|?]; [left; set_solver|right]].
Qed.
Lemma status_down s :
  gw_running s = true -> (gw_pending s = true -> gw_due s) -> gw_due (status_cb s (false, false)).
Proof.
  intros Hr Hp. unfold status_cb. simpl. rewrite Hr. simpl. destruct (gw_pending s) eqn:E.
  - by apply Hp.
  - left. simpl. set_solver.
Qed.
Lemma statuses_report l s : reports s (foldl status_cb s l).
Proof.
  revert s. induction l as [|n l IH]; intros s; [done|]. simpl. etrans; [apply status_reports|apply IH].
Qed.

(** ** The invariant *)
Section invariant.
Context (held slow : bool).

Record ok (s : Gw) : Prop := {
  ok_due : gw_pending s = true -> gw_due s;
  ok_owned c : is_Some (gw_clients s !! c) <-> owned s c;
  ok_fresh c : is_Some (gw_clients s !! c) -> (c < gw_next s)%nat;
  ok_distinct c : gw_slot s = Some c -> gw_io s = Some c -> False;
  ok_gone c : gw_running s = true -> is_gone s c ->
    gw_due s \/ (gw_slot s = Some c /\ is_Some (gw_io s));
  ok_slot : gw_running s = true -> gw_ctor s = Returned -> gw_slot s = None -> gw_due s \/ is_Some (gw_io s);
  ok_built : gw_ctor s <> Returned -> gw_slot s = None /\ gw_io s = None;
  ok_held : held = true -> gw_ctor s <> Returned -> gw_timer s = None;
  ok_not_yet : gw_ctor s = NotYet -> gw_timer s = None /\ gw_queue s = [] }.

Lemma ok_new : ok Gw_new.
Proof.
  split; simpl; try done.
  - intros c. rewrite lookup_empty. split; [by intros []|]. intros [?|[?|?]]; done.
  - intros c. rewrite lookup_empty. by intros [].
  - intros c _ (w&H&_). simpl in H. by rewrite lookup_empty in H.
Qed.

(** A handler of one client, and its reports. *)
Lemma ok_client f c w s :
  gw_clients s !! c = Some w ->
  (ws_phase (f w).1 = Gone -> ws_phase w = Gone \/ (false, false) ∈ (f w).2) ->
  (length (f w).2 <= 1)%nat -> ok s -> ok (client_runs f c w s).
Proof.
  intros Hc Hdown Hlen [H1 H2 H3 H4 H5 H6 H7 H8 H9]. unfold client_runs.
  set (s1 := set_owners _ _ _ _ _ s).
  assert (reports s1 (foldl status_cb s1 (f w).2)) as Hrep by apply statuses_report.
  assert (gw_due s -> gw_due (foldl status_cb s1 (f w).2)) as Hdue by apply (reports_due _ _ Hrep).
  assert (gw_running s = true -> ws_phase (f w).1 = Gone -> ws_phase w = Gone \/
    gw_due (foldl status_cb s1 (f w).2)) as Hg.
  { intros Hr Hph. destruct (Hdown Hph) as [?|Hin]; [by left|right].
    destruct (f w).2 as [|n [|n' l]]; [by apply elem_of_nil in Hin| |simpl in Hlen; lia].
    apply list_elem_of_singleton in Hin as <-. by apply status_down. }
  assert (forall c', is_Some (gw_clients s1 !! c') <-> is_Some (gw_clients s !! c')) as Hdom.
  { intros c'. simpl. destruct (decide (c = c')) as [->|]; [rewrite lookup_insert_eq, Hc; by split; eexists|].
    by rewrite lookup_insert_ne. }
  destruct Hrep as [E1 E2 E3 E4]. set (s' := foldl status_cb s1 (f w).2) in *.
  injection E1 as Es Ec En Ect Ei. injection E2 as Et Er. simpl in Es, En, Ect, Ei, Et, Er. change (gw_clients s' = gw_clients s1) in Ec.
  split; rewrite ?Es, ?En, ?Ect, ?Ei, ?Et, ?Er; try done.
  - intros Hp. apply E4; [done|done].
  - intros c'. rewrite Ec, Hdom, H2. unfold owned. by rewrite Es, Ei, Ect.
  - intros c' Hc'. apply H3, Hdom. by rewrite <- Ec.
  - intros c' Hr (w'&Hw'&Hph). rewrite Ec in Hw'. simpl in Hw'. destruct (decide (c = c')) as [->|Hne].
    + rewrite lookup_insert_eq in Hw'. injection Hw' as <-. destruct (Hg Hr Hph) as [Hpw|?]; [|by left].
      destruct (H5 c' Hr) as [?|?]; [by exists w|left; auto|by right].
    + rewrite lookup_insert_ne in Hw' by done. destruct (H5 c' Hr) as [?|?]; [by exists w'|left; auto|by right].
  - intros Hr Hct Hsl. destruct (H6 Hr Hct Hsl) as [?|?]; [left; auto|by right].
  - intros Hct. exfalso. destruct (proj1 (H2 c)) as [H|[H|H]]; [by eexists|..]; try congruence;
      destruct H7 as [? ?]; congruence.
Qed.

(** ** Each step keeps it *)
Lemma ok_build s :
  gw_ctor s = NotYet -> ok s ->
  ok (set_owners (gw_slot (make_client s)) (gw_clients (make_client s)) (gw_next (make_client s))
    (Built (gw_next s)) (gw_io (make_client s)) (make_client s)).
Proof.
  intros Hct [H1 H2 H3 H4 H5 H6 H7 H8 H9]. destruct H7 as [Hsl Hio]; [by rewrite Hct|].
  destruct (H9 Hct) as [Ht Hq].
  split; simpl; rewrite ?Hsl, ?Hio; try done.
  - intros c. unfold owned. simpl. rewrite ?Hsl, ?Hio. split.
    + destruct (decide (gw_next s = c)) as [<-|Hne]; [by right; right|]. rewrite lookup_insert_ne by done.
      intros Hc%H2. unfold owned in Hc. rewrite Hsl, Hio, Hct in Hc. naive_solver.
    + intros [?|[?|[= <-]]]; [done..|]. rewrite lookup_insert_eq. by eexists.
  - intros c Hc. destruct (decide (gw_next s = c)) as [<-|Hne]; [lia|].
    rewrite lookup_insert_ne in Hc by done. specialize (H3 c Hc). lia.
  - intros c Hr (w&Hw&Hph).
    change (<[gw_next s := (init_connection true).1]> (gw_clients s) !! c = Some w) in Hw. destruct (decide (gw_next s = c)) as [<-|Hne].
    + rewrite lookup_insert_eq in Hw. by injection Hw as <-.
    + rewrite lookup_insert_ne in Hw by done. assert (is_Some (gw_clients s !! c)) as Hc by by eexists.
      apply H2 in Hc. unfold owned in Hc. rewrite Hsl, Hio, Hct in Hc. naive_solver.
Qed.

Lemma ok_store c s :
  gw_ctor s = Built c -> ok s ->
  ok (set_owners (gw_slot (store_client c s)) (gw_clients (store_client c s)) (gw_next (store_client c s))
    Returned (gw_io (store_client c s)) (store_client c s)).
Proof.
  intros Hct [H1 H2 H3 H4 H5 H6 H7 H8 H9]. destruct H7 as [Hsl Hio]; [by rewrite Hct|].
  unfold store_client. rewrite Hsl. split; simpl; try done.
  - intros c'. rewrite H2. unfold owned. simpl. rewrite Hsl, Hio, Hct. naive_solver.
  - intros c'. by rewrite Hio.
  - intros c' Hr Hg. destruct (H5 c' Hr) as [?|[? _]]; [done|by left|congruence].
Qed.

(** Dropping what the slot holds, once the constructor has returned or before it stores. *)
Lemma dropped s c :
  ok s -> is_Some (match gw_slot s with Some old => delete old (gw_clients s) | None => gw_clients s end !! c) <->
    gw_io s = Some c \/ gw_ctor s = Built c.
Proof.
  intros [_ H2 _ H4 _ _ H7 _ _]. destruct (gw_slot s) as [old|] eqn:Hsl.
  - assert (gw_ctor s = Returned) as Hct.
    { destruct (gw_ctor s) as [|c'|] eqn:E; [..|done]; by destruct H7. }
    destruct (decide (old = c)) as [->|Hne].
    + rewrite lookup_delete_eq, Hct. split; [by intros []|]. intros [H|H]; [by destruct (H4 c)|done].
    + rewrite lookup_delete_ne, H2 by done. unfold owned. rewrite Hsl. naive_solver.
  - rewrite H2. unfold owned. rewrite Hsl. naive_solver.
Qed.
Lemma dropped_sub s c w :
  match gw_slot s with Some old => delete old (gw_clients s) | None => gw_clients s end !! c = Some w ->
  gw_clients s !! c = Some w.
Proof. destruct (gw_slot s); [|done]. by intros [_ ?]%lookup_delete_Some. Qed.

Lemma ok_task t q s :
  gw_queue s = t :: q -> (t = ScheduleReconnect -> held && constructing s = false) ->
  ok s -> ok (run_io_task t (pop_task s)).
Proof.
  intros Hq Hg Hok. pose proof Hok as [H1 H2 H3 H4 H5 H6 H7 H8 H9]. destruct t; simpl.
  - assert (gw_due s -> gw_due (run_io_task ResetCount (pop_task s))) as Hdue.
    { intros [H|H]; [left|by right]. rewrite Hq in H. simpl. rewrite Hq. simpl.
      apply elem_of_cons in H as [?|?]; [done|done]. }
    split; simpl; try done.
    + intros Hp. by apply Hdue, H1.
    + intros c Hr Hc. destruct (H5 c Hr Hc) as [?|?]; [left; by apply Hdue|by right].
    + intros Hr Hct Hsl. destruct (H6 Hr Hct Hsl) as [?|?]; [left; by apply Hdue|by right].
    + intros Hct. by destruct (H9 Hct) as [_ E]; rewrite Hq in E.
  - assert (gw_due (gw_schedule_reconnect (pop_task s))) as Hdue by (right; by eexists).
    split; simpl; try done.
    + intros c. rewrite (dropped s c Hok). unfold owned. simpl. naive_solver.
    + intros c [w Hw%dropped_sub]. apply H3. by eexists.
    + intros c Hr Hc. by left.
    + intros _ _ _. by left.
    + intros Hct. split; [done|by apply H7].
    + intros Hh Hct. specialize (Hg eq_refl). rewrite Hh in Hg. unfold constructing in Hg.
      destruct (gw_ctor s) eqn:E; try done. by destruct (H9 eq_refl) as [_ E']; rewrite Hq in E'.
    + intros Hct. by destruct (H9 Hct) as [_ E']; rewrite Hq in E'.
Qed.

Lemma ok_timer s :
  held || negb slow = true -> gw_io s = None -> is_Some (gw_timer s) ->
  slow = true \/ constructing s = false -> ok s -> ok (redial_handler s).
Proof.
  intros Hfast Hio [d Ht] Hg [H1 H2 H3 H4 H5 H6 H7 H8 H9].
  assert (gw_ctor s = Returned) as Hct.
  { destruct (gw_ctor s) as [|c|] eqn:E; [| |done].
    - destruct (H9 eq_refl) as [E' _]. congruence.
    - destruct Hg as [Hsl|Hc]; [|unfold constructing in Hc; by rewrite E in Hc].
      rewrite Hsl, orb_false_r in Hfast. by rewrite (H8 Hfast) in Ht. }
  unfold redial_handler. set (s0 := set_flags _ _ _ _ None _ s). simpl. destruct (gw_running s) eqn:Hr.
  - split; simpl; rewrite ?Hct; try done.
    + intros c. unfold owned. simpl. rewrite ?Hct. destruct (decide (gw_next s = c)) as [<-|Hne].
      * rewrite lookup_insert_eq. split; [by right; left|by eexists].
      * rewrite lookup_insert_ne, H2 by done. unfold owned. rewrite Hio, Hct. naive_solver.
    + intros c Hc. destruct (decide (gw_next s = c)) as [<-|Hne]; [lia|].
      rewrite lookup_insert_ne in Hc by done. specialize (H3 c Hc). lia.
    + intros c Hs [= <-]. assert (is_Some (gw_clients s !! gw_next s)) as H by (apply H2; by left).
      apply H3 in H. lia.
    + intros c _ (w&Hw&Hph). right.
      change (<[gw_next s := (init_connection true).1]> (gw_clients s) !! c = Some w) in Hw.
      destruct (decide (gw_next s = c)) as [<-|Hne].
      * rewrite lookup_insert_eq in Hw. by injection Hw as <-.
      * rewrite lookup_insert_ne in Hw by done. assert (is_Some (gw_clients s !! c)) as Hc by by eexists.
        apply H2 in Hc. unfold owned in Hc. rewrite Hio, Hct in Hc. split; [naive_solver|by eexists].
    + intros _ _ _. right. by eexists.
  - split; simpl; try done; by rewrite ?Hct, ?Hr.
Qed.

Lemma ok_io_store c s :
  gw_io s = Some c -> ok s ->
  ok (set_owners (gw_slot (store_client c s)) (gw_clients (store_client c s)) (gw_next (store_client c s))
    (gw_ctor (store_client c s)) None (store_client c s)).
Proof.
  intros Hio Hok. pose proof Hok as [H1 H2 H3 H4 H5 H6 H7 H8 H9].
  assert (gw_ctor s = Returned) as Hct.
  { destruct (gw_ctor s) as [|c'|] eqn:E; [..|done]; by destruct H7 as [_ ?]; [|congruence]. }
  split; simpl; try done; rewrite ?Hct; try done.
  - intros c'. rewrite (dropped s c' Hok). unfold owned. simpl. rewrite Hio, Hct. naive_solver.
  - intros c' [w Hw%dropped_sub]. apply H3. by eexists.
  - intros c' Hr (w&Hw&Hph). left. simpl in Hw. pose proof Hw as Hw2%dropped_sub.
    destruct (H5 c' Hr) as [?|[Hs _]]; [by exists w|done|]. rewrite Hs, lookup_delete_eq in Hw. done.
Qed.

Lemma ok_step s s' : held || negb slow = true -> gw_step held slow s s' -> ok s -> ok s'.
Proof.
  intros Hfast Hs Hok. destruct Hs as [s Hct s'|c s Hct s'|c w s Hc Hp|c w s Hc Hp|c w s Hc Hp|c w s Hc Hp
    |t q s Hio Hq Hg|s Hio Ht Hg|c s Hio s'|s Hct].
  - by apply ok_build.
  - by apply ok_store.
  - by apply ok_client.
  - apply ok_client; try done. simpl. intros _. right. by left.
  - apply ok_client; simpl; try done; [by left|lia].
  - apply ok_client; try done; unfold on_ping_timer; destruct (ws_awaiting_pong w); simpl; try lia; by left.
  - by eapply ok_task.
  - by apply ok_timer.
  - by apply ok_io_store.
  - destruct Hok as [H1 H2 H3 H4 H5 H6 H7 H8 H9]. by split.
Qed.

Lemma reachable_ok s : held || negb slow = true -> rtc (gw_step held slow) Gw_new s -> ok s.
Proof.
  intros Hfast Hs. pose proof ok_new as H0. revert H0. induction Hs as [|s1 s2 s3 H12 _ IH]; [done|].
  intros H1. by apply IH, (ok_step s1).
Qed.
End invariant.

(** ** Properties *)

(** C14: The order session is never left dead, and no client is ever forgotten.  Provided the
    constructor stores its client before the first redial timer, a second later, can go off
    -- or, were the lock held across the construction as the comment says, in any case --
    in every interleaving of the constructor, the redials, the clients' own threads and the
    stop: once the gateway is built and until it is stopped, its client is dialling or open,
    or a redial is posted, timed or at work; and every client that exists is the slot's or
    the one a redial is about to store. *)
Theorem order_session_is_kept held slow s :
  held || negb slow = true -> rtc (gw_step held slow) Gw_new s -> gw_ctor s = Returned ->
  (gw_running s = true -> gw_alive s) /\
  forall c, is_Some (gw_clients s !! c) <-> gw_slot s = Some c \/ gw_io s = Some c.
Proof.
  intros Hfast Hs Hct. destruct (reachable_ok held slow s Hfast Hs) as [_ H2 _ _ H5 H6 _ _ _]. split.
  - intros Hr. destruct (gw_slot s) as [c|] eqn:Hsl; [|right; by apply H6].
    destruct (proj2 (H2 c)) as [w Hw]; [by left|].
    destruct (decide (ws_phase w = Gone)) as [Hg|Hg].
    + destruct (H5 c Hr) as [?|[_ ?]]; [by exists w|by right; left|by right; right].
    + left. by exists c, w.
  - intros c. rewrite H2. unfold owned. rewrite Hct. naive_solver.
Qed.

(** The state the race ends in: a dead client in the slot, nothing scheduled, and the flag
    that lets orders through still up. *)
Record abandoned (s : Gw) : Prop := {
  ab_slot : gw_slot s = Some 0%nat;
  ab_clients : gw_clients s = {[0%nat := (on_down (init_connection true).1).1]};
  ab_ctor : gw_ctor s = Returned; ab_io : gw_io s = None;
  ab_queue : Forall (fun t => t = ResetCount) (gw_queue s); ab_timer : gw_timer s = None;
  ab_connected : gw_connected s = true }.

Lemma abandoned_step held slow s s' : gw_step held slow s s' -> abandoned s -> abandoned s'.
Proof.
  intros Hs [H1 H2 H3 H4 H5 H6 H7].
  assert (forall c w, gw_clients s !! c = Some w -> c = 0%nat /\ w = (on_down (init_connection true).1).1) as Hc.
  { intros c w. rewrite H2. by intros [-> ->]%lookup_singleton_Some. }
  destruct Hs as [s Hct s'|c s Hct s'|c w s Hw Hp|c w s Hw Hp|c w s Hw Hp|c w s Hw Hp
    |t q s Hio Hq Hg|s Hio [d Ht] Hg|c s Hio s'|s Hct]; try congruence;
    try (destruct (Hc c w Hw) as [-> ->]; try done).
  - unfold client_runs. split; try done; simpl. rewrite H2. by rewrite insert_singleton_eq.
  - rewrite Hq in H5. apply Forall_cons in H5 as [-> H5]. split; simpl; try done. by rewrite Hq.
  - by split.
Qed.

(** The lock is taken only to store the client.  A constructor held up between building its
    client and storing it, for longer than the first redial waits, overwrites the redial's
    live client with its own dead one.  From then on the gateway takes orders -- its flag
    is up -- for a client that is gone, and nothing redials it, ever. *)
Theorem slow_constructor_keeps_the_dead_client :
  exists s, rtc (gw_step false true) Gw_new s /\ gw_running s = true /\
    forall s', rtc (gw_step false true) s s' -> gw_connected s' = true /\ ~ gw_alive s'.
Proof.
  assert (exists s, rtc (gw_step false true) Gw_new s /\ gw_running s = true /\ abandoned s) as (s&Hs&Hr&Ha).
  { eexists. split; [|split].
    - eapply rtc_l; [by apply gs_build|].
      eapply rtc_l; [by apply (gs_down _ _ 0%nat (init_connection true).1)|].
      eapply rtc_l; [by eapply (gs_task _ _ ScheduleReconnect [])|].
      eapply rtc_l; [by apply gs_timer; [|eexists|left]|].
      eapply rtc_l; [by apply (gs_open _ _ 1%nat (init_connection true).1)|].
      eapply rtc_l; [by apply (gs_io_store _ _ 1%nat)|].
      eapply rtc_l; [by apply (gs_store _ _ 0%nat)|]. apply rtc_refl.
    - done.
    - split; try done. by repeat constructor. }
  exists s. split_and!; [done|done|]. intros s' Hs'.
  assert (abandoned s') as [H1 H2 H3 H4 H5 H6 H7].
  { clear Hs Hr. induction Hs' as [|s1 s2 s3 H12 _ IH]; [done|]. apply IH. by eapply abandoned_step. }
  split; [done|]. intros [(c&w&Hc&Hw&Hg)|[[Hq|Ht]|Hio]].
  - rewrite H2 in Hw. apply lookup_singleton_Some in Hw as [_ <-]. done.
  - rewrite Forall_forall in H5. by specialize (H5 _ Hq).
  - rewrite H6 in Ht. by destruct Ht.
  - rewrite H4 in Hio. by destruct Hio.
Qed.

(** A dial that fails before the constructor has stored its client, with a prompt
    constructor: the redial is on its way. *)
Lemma order_session_is_kept_witness : exists s,
  gw_slot s = Some 0%nat /\ is_gone s 0%nat /\ gw_alive s.
Proof.
  set (s1 := make_client Gw_new).
  set (s2 := set_owners (gw_slot s1) (gw_clients s1) (gw_next s1) (Built 0) (gw_io s1) s1).
  set (s3 := client_runs on_down 0%nat (init_connection true).1 s2).
  set (s4 := run_io_task ScheduleReconnect (pop_task s3)).
  set (s5 := set_owners (Some 0%nat) (gw_clients s4) (gw_next s4) Returned (gw_io s4) s4).
  assert (rtc (gw_step false false) Gw_new s5) as Hs.
  { eapply rtc_l; [by apply gs_build|]. fold s1 s2.
    eapply rtc_l; [by apply (gs_down _ _ 0%nat (init_connection true).1)|].
    eapply rtc_l; [by eapply (gs_task _ _ ScheduleReconnect [])|].
    eapply rtc_l; [by apply (gs_store _ _ 0%nat)|]. apply rtc_refl. }
  destruct (order_session_is_kept false false s5 eq_refl Hs eq_refl) as [H _].
  exists s5. split_and!; [done| |by apply H]. eexists. split; [by vm_compute|done].
Defined.
