(* ===== verification/WsTransport.v ===== *)
(** * WsTransport: what the websocket clients do around the sockets

    [connection_handlers/websocket/websocket_client.hpp]: the host name TLS asks for
    ([extract_host]) and the search for a trust bundle ([load_ca_trust]); and the decryption
    of KIS execution notices, [base64_decode] and [aes_cbc_decrypt] of
    [connection_handlers/websocket/kis/kis_ws_client.cpp].  OpenSSL's calls and the file
    system are parameters. *)
From Stdlib Require Import Ascii.
From S2P Require Import Prelude Double Text Messages.

#[local] Open Scope string_scope.
#[local] Open Scope list_scope.

(** ** The host of a URI *)

(** What follows the first occurrence of ["://"]: [find], then [+ 3]. *)
Fixpoint after_scheme (s : string) : option string :=
  match s with
  | String ":" (String "/" (String "/" rest)) => Some rest
  | String _ s' => after_scheme s'
  | EmptyString => None
  end.
(** Up to the first of [":/"]: [find_first_of], [substr]. *)
Fixpoint until_port_or_path (s : string) : string :=
  match s with
  | String a s' => if Ascii.eqb a ":" || Ascii.eqb a "/" then "" else String a (until_port_or_path s')
  | EmptyString => ""
  end.
Definition extract_host (uri : string) : string :=
  until_port_or_path (default uri (after_scheme uri)).

(** ** The trust bundle *)
Definition ca_candidates : list string := [
  "/etc/ssl/cert.pem"; "/opt/homebrew/etc/openssl@3/cert.pem";
  "/opt/homebrew/etc/ca-certificates/cert.pem"; "/usr/local/etc/openssl@3/cert.pem";
  "/etc/ssl/certs/ca-certificates.crt"; "/etc/pki/tls/certs/ca-bundle.crt"].
(** The first candidate that can be opened and loaded; [SSL_CERT_FILE] comes first. *)
Definition load_ca_trust (ssl_cert_file : option string) (good loads : string -> bool) : option string :=
  List.find (fun path => good path && loads path) (option_list ssl_cert_file ++ ca_candidates).

(** ** KIS execution notices *)
Section decrypt.
(** OpenSSL: the base64 filter's read, and the three calls of a decryption, [None] being a
    failure.  The first argument of [init] is whether a context could be made. *)
Context {Ctx : Type} (bio_read : string -> option string).
Context (ctx_new : bool) (decrypt_init : string -> string -> option Ctx).
Context (decrypt_update : Ctx -> string -> option (string * Ctx)) (decrypt_final : Ctx -> option string).

Definition base64_decode (cipher_b64 : string) : string := default "" (bio_read cipher_b64).
Definition aes_cbc_decrypt (ws_key ws_iv cipher_b64 : string) : string :=
  let cipher_bin := base64_decode cipher_b64 in
  if negb ctx_new then ""
  else match decrypt_init ws_key ws_iv with
  | None => ""
  | Some ctx =>
      match decrypt_update ctx cipher_bin with
      | None => ""
      | Some (out1, ctx) =>
          match decrypt_final ctx with
          | None => ""
          | Some out2 => out1 +:+ out2
          end
      end
  end.

(** A notice is decrypted when every call succeeds, and lost as an empty text otherwise. *)
Lemma decrypt_all_or_nothing key iv cipher text :
  text <> "" -> aes_cbc_decrypt key iv cipher = text ->
  exists ctx out1 ctx' out2, ctx_new = true /\ decrypt_init key iv = Some ctx /\
    decrypt_update ctx (base64_decode cipher) = Some (out1, ctx') /\
    decrypt_final ctx' = Some out2 /\ text = out1 +:+ out2.
Proof.
  intros Hne <-. unfold aes_cbc_decrypt in *. destruct ctx_new; [|done]. simpl in *.
  destruct (decrypt_init key iv) as [ctx|] eqn:E1; [|done].
  destruct (decrypt_update _ _) as [[out1 ctx']|] eqn:E2; [|done].
  destruct (decrypt_final ctx') as [out2|] eqn:E3; [|done]. by exists ctx, out1, ctx', out2.
Qed.
End decrypt.

(** ** Properties *)
Definition plain_host (h : string) : Prop :=
  forall a, In a (String.list_ascii_of_string h) -> a <> ":"%char /\ a <> "/"%char.

Lemma until_stops h s : plain_host h ->
  (s = "" \/ exists a s', s = String a s' /\ (a = ":"%char \/ a = "/"%char)) ->
  until_port_or_path (h +:+ s) = h.
Proof.
  intros Hh Hs. induction h as [|a h IH].
  - rewrite string_app_empty. destruct Hs as [->|(a&s'&->&[->| ->])]; done.
  - rewrite string_app_cons. cbn [until_port_or_path].
    destruct (Hh a (or_introl eq_refl)) as [H1 H2].
    destruct (Ascii.eqb_spec a ":"); [done|]. destruct (Ascii.eqb_spec a "/"); [done|]. simpl.
    rewrite IH; [done|]. intros b Hb. apply Hh. by right.
Qed.

Lemma after_scheme_cons a s : a <> ":"%char -> after_scheme (String a s) = after_scheme s.
Proof. intros H. destruct a as [[] [] [] [] [] [] [] []]; done. Qed.

(** The name TLS is told is the URI's host, whatever the scheme, port and path. *)
Lemma host_of_uri scheme host rest :
  plain_host scheme -> plain_host host ->
  (rest = "" \/ exists a s', rest = String a s' /\ (a = ":"%char \/ a = "/"%char)) ->
  extract_host (scheme +:+ "://" +:+ (host +:+ rest)) = host.
Proof.
  intros Hs Hh Hr. unfold extract_host.
  assert (after_scheme (scheme +:+ "://" +:+ (host +:+ rest)) = Some (host +:+ rest)) as ->.
  { induction scheme as [|a scheme IH]; [done|]. rewrite string_app_cons.
    rewrite after_scheme_cons by (by apply Hs; left). apply IH. intros b Hb. apply Hs. by right. }
  by apply until_stops.
Qed.

(** The bundle loaded is the first usable one, the caller's own before the system's. *)
Lemma ca_trust_first env good loads path :
  load_ca_trust env good loads = Some path ->
  exists before after, option_list env ++ ca_candidates = before ++ path :: after /\
    good path = true /\ loads path = true /\
    Forall (fun p => good p && loads p = false) before.
Proof.
  unfold load_ca_trust. generalize (option_list env ++ ca_candidates). intros l.
  induction l as [|p l IH]; simpl; [done|]. destruct (good p && loads p) eqn:E.
  - intros [= <-]. apply andb_prop in E as [? ?]. by exists [], l.
  - intros (before&after&->&?&?&?)%IH. exists (p :: before), after. split_and!; try done. by constructor.
Qed.

Example binance_host :
  extract_host "wss://ws-fapi.binance.com/ws-fapi/v1" = "ws-fapi.binance.com" /\
  extract_host "ws://ops.koreainvestment.com:21000" = "ops.koreainvestment.com".
Proof. by vm_compute. Qed.
