(* ===== verification/Json.v ===== *)
(** * Json: the parsed JSON document, as an interface

    The program parses JSON with libraries that are not part of it (nlohmann::json for
    launch configurations and REST bodies, glaze for the stream messages).  What the code
    asks of a parsed nlohmann value is the class below; every definition that walks a
    document takes it as a parameter.  [jv] is a plain document type with the documented
    behaviour of those calls, used to evaluate the definitions on concrete documents. *)
From S2P Require Import Prelude Double.

(** The calls the sources make on a [nlohmann::json] value.  [None] is the exception the
    call throws. *)
Class JsonValue (J : Type) := {
  j_member : J -> string -> option J;        (* find(key); None is end() *)
  j_is_object : J -> bool;
  j_is_null : J -> bool;
  j_items : J -> list (string * J);          (* items(), in key order *)
  j_elems : J -> list J;                     (* a range-for over the value *)
  j_index : J -> nat -> J;                   (* operator[](size_t) *)
  j_string : J -> option string;             (* get<std::string>() *)
  j_long : J -> option Z;                    (* get<T>() for a 64-bit integer T *)
  j_small : J -> option Z;                   (* get<T>() for a narrower T, before the cast *)
  j_double : J -> option double;             (* get<double>() *)
  j_bool : J -> option bool;                 (* get<bool>() *)
  j_strings : J -> option (list string) }.   (* get<std::vector<std::string>>() *)

Section helpers.
Context {J : Type} `{!JsonValue J}.

(** [at(key)] throws where [find] returns [end()]. *)
Definition j_at (j : J) (key : string) : option J := j_member j key.
(** [at(key).get<std::string>()] and its like, the common chains of the sources. *)
Definition at_string (j : J) (key : string) : option string := v ← j_at j key; j_string v.
Definition at_long (j : J) (key : string) : option Z := v ← j_at j key; j_long v.
(** [value(key, default)]: throws on a value that is not an object. *)
Definition value_string (j : J) (key d : string) : option string :=
  match j_member j key with
  | Some v => j_string v
  | None => if j_is_object j then Some d else None
  end.
End helpers.

(** ** A document type with the documented behaviour *)
Inductive jv :=
  | JNull | JBool (b : bool) | JInt (z : Z) | JNum (x : double) | JStr (s : string)
  | JArr (l : list jv) | JObj (m : list (string * jv)).

Fixpoint jv_find (m : list (string * jv)) (k : string) : option jv :=
  match m with
  | [] => None
  | (k', v) :: m => if decide (k' = k) then Some v else jv_find m k
  end.
Definition jv_string (j : jv) : option string := match j with JStr s => Some s | _ => None end.

#[export] Instance jv_json : JsonValue jv := {|
  j_member j k := match j with JObj m => jv_find m k | _ => None end;
  j_is_object j := match j with JObj _ => true | _ => false end;
  j_is_null j := match j with JNull => true | _ => false end;
  j_items j := match j with JObj m => m | _ => [] end;
  j_elems j := match j with JArr l => l | JObj m => m.*2 | JNull => [] | _ => [j] end;
  j_index j i := match j with JArr l => nth i l JNull | _ => JNull end;
  j_string := jv_string;
  j_long j := match j with JInt z => Some z | JNum x => Some (to_int64 x) | _ => None end;
  j_small j := match j with
    | JInt z => Some z | JNum x => Some (to_int64 x) | JBool b => Some (Z.b2z b) | _ => None end;
  j_double j := match j with JNum x => Some x | JInt z => Some (of_Z z) | _ => None end;
  j_bool j := match j with JBool b => Some b | _ => None end;
  j_strings j := match j with JArr l => mapM jv_string l | _ => None end |}.
