(* ===== verification/ListenerEvents.v ===== *)
(** * ListenerEvents: what an exchange adapter hands to the market listener

    [market_listener/market_listener_dtypes.hpp] and [exchange_listener.hpp]: the
    normalized events on the adapter's queue, and the adapter interface. *)
From S2P Require Import Prelude Double Messages.

(** [ListenerEvent], with the [*Msg] structs' product and payload as arguments. *)
Inductive ListenerEvent :=
  | StatusEvent (connection : string) (connecting opened : bool)
  | OrderbookMsg (product : string) (data : OrderbookData)
  | TradeMsg (product : string) (data : TradeData)
  | ExecutionMsg (product : string) (data : ExecutionData)
  | PositionMsg (product : string) (data : PositionData)
  | ProductInfoMsg (product : string) (data : ProductInfoData).

(** The part of [ListenerConfig] the adapters and the listener read. *)
Record ListenerConfig := {
  lc_exchange : string; lc_region : string; lc_market_type : string; lc_is_night : bool;
  lc_product_specs : list ProductSpec; lc_orderbook_levels : Z;
  lc_product_info_refresh_sec : Z; lc_domain_type : string;
  lc_no_orderbook_log : bool; lc_no_public_trade_log : bool }.
Definition lc_products (c : ListenerConfig) : list string := spec_product <$> lc_product_specs c.

(** [IExchangeListener]: what the listener asks of an adapter.  Each call may change the
    adapter, pushes events in order, and may throw after some of them (the flag). *)
Class ExchangeListener (A : Type) := {
  publish_product_info : A -> A * list ListenerEvent * bool;
  publish_user_state : A -> A * list ListenerEvent * bool }.

(** ** Views of an event, for the statements *)
Definition event_product (e : ListenerEvent) : option string :=
  match e with
  | StatusEvent _ _ _ => None
  | OrderbookMsg p _ | TradeMsg p _ | ExecutionMsg p _ | PositionMsg p _
  | ProductInfoMsg p _ => Some p
  end.
Definition OrderbookData_empty : OrderbookData :=
  {| bid_book := []; ask_book := []; ob_server_tstamp_ms := None |}.
Definition TradeData_default : TradeData :=
  {| trade_price := None; cum_trade_qty := None; cum_buy_trade_qty := None;
     td_server_tstamp_ms := None |}.
