(* ===== verification/Config.v ===== *)
(** * Config: launch configurations

    [config_handlers/json_config.cpp] ([JsonSection] and the output paths),
    [config_handlers/config_utils.cpp] (domains and credentials), and the [parse_json] of
    every configuration struct, with the file-based half of the three [main] functions.
    The parsed document is an implementation of Json's interface.  A parser is a function
    of the section and the set of keys claimed so far; [None] is the exception. *)
From Stdlib Require Import Ascii.
From S2P Require Import Prelude Double Messages Text Strategy Pricer Json ListenerEvents.

#[local] Open Scope string_scope.
#[local] Open Scope list_scope.
#[local] Open Scope Z_scope.

(** ** Command line *)
Definition is_dash (arg : string) : bool :=
  match arg with String a _ => Ascii.eqb a "-" | EmptyString => false end.
(** [argv] with the program name first. *)
Definition is_json_launch (argv : list string) : bool :=
  match argv with _ :: arg :: _ => negb (is_dash arg) | _ => false end.
Fixpoint launch_paths (args : list string) : option (list string) :=
  match args with
  | [] => Some []
  | arg :: args => if is_dash arg then None else cons arg <$> launch_paths args
  end.
Definition json_launch_paths (argv : list string) : option (list string) := launch_paths (tail argv).

(** ** Output paths *)

(** [std::filesystem::path] on POSIX: the text after the last slash, the text before it
    without its trailing slashes, and [operator/]. *)
Fixpoint last_slash (s : string) : option (string * string) :=
  match s with
  | EmptyString => None
  | String a s =>
      match last_slash s with
      | Some (d, f) => Some (String a d, f)
      | None => if Ascii.eqb a "/" then Some ("", s) else None
      end
  end.
Fixpoint strip_slashes (s : string) : string :=
  match s with
  | EmptyString => ""
  | String a s =>
      match strip_slashes s with
      | EmptyString => if Ascii.eqb a "/" then "" else String a ""
      | r => String a r
      end
  end.
Definition filename (p : string) : string := match last_slash p with Some (_, f) => f | None => p end.
Definition parent_path (p : string) : string :=
  match last_slash p with
  | None => ""
  | Some (d, _) => match strip_slashes d with EmptyString => "/" | d => d end
  end.
Definition is_absolute (p : string) : bool :=
  match p with String a _ => Ascii.eqb a "/" | EmptyString => false end.
Definition has_filename (p : string) : bool := negb (bool_decide (filename p = "")).
Definition path_join (p q : string) : string :=
  if is_absolute q then q
  else if has_filename p then p +:+ "/" +:+ q else p +:+ q.

Definition named_log_path (log_path name : string) : string :=
  if decide (name = "") then log_path
  else path_join (path_join (parent_path log_path) name) (filename log_path).
Definition named_save_path (save_path name : string) : string :=
  if decide (name = "") then save_path else path_join save_path name.

(** ** Domains and credentials: [read_config_file] is the parameter *)
Definition get_domain (read : string -> option (gmap string string)) (exchange domain_type : string)
    : bool * string :=
  match read ("./domain/" +:+ exchange +:+ ".json") with
  | None => (false, "")
  | Some domains => match domains !! domain_type with Some d => (true, d) | None => (false, "") end
  end.

(** ** JsonSection *)
Section config.
Context {J : Type} `{!JsonValue J}.

Record JsonSection := { js_obj : J; js_known : gset string }.

Definition parser (A : Type) : Type := JsonSection -> option (A * JsonSection).
#[export] Instance parser_ret : MRet parser := fun A a s => Some (a, s).
#[export] Instance parser_bind : MBind parser := fun A B f m s =>
  match m s with Some (a, s') => f a s' | None => None end.

Definition open_section (doc : J) (name : string) : option JsonSection :=
  o ← j_member doc name;
  if j_is_object o then Some {| js_obj := o; js_known := ∅ |} else None.

Definition claim (key : string) (s : JsonSection) : JsonSection :=
  {| js_obj := js_obj s; js_known := {[key]} ∪ js_known s |}.
Definition js_has (key : string) : parser bool := fun s =>
  Some (match j_member (js_obj s) key with Some v => negb (j_is_null v) | None => false end, s).
Definition js_skip (key : string) : parser unit := fun s => Some (tt, claim key s).
(** [s.get(key, out)]: what [out] is afterwards. *)
Definition js_get {T} (conv : J -> option T) (key : string) (out : T) : parser T := fun s =>
  match j_member (js_obj s) key with
  | None => Some (out, claim key s)
  | Some v =>
      if j_is_null v then Some (out, claim key s)
      else match conv v with Some t => Some (t, claim key s) | None => None end
  end.
Definition js_done : parser unit := fun s =>
  if forallb (fun kv => bool_decide (kv.1 ∈ js_known s)) (j_items (js_obj s))
  then Some (tt, s) else None.

Definition get_string := js_get j_string.
Definition get_bool := js_get j_bool.
Definition get_long := js_get j_long.
Definition get_double := js_get j_double.
Definition get_int32 := js_get (fun v => wrap_s 32 <$> j_small v).
Definition get_ushort := js_get (fun v => wrap_u 16 <$> j_small v).
Definition get_size := js_get (fun v => (fun z => Z.to_nat (wrap_u 64 z)) <$> j_long v).
Definition get_size_Z := js_get (fun v => wrap_u 64 <$> j_long v).
Definition get_strings := js_get j_strings.

(** A [SYMBOL[:category]] list: absent, the default stays. *)
Definition get_specs (key : string) (out : list ProductSpec) : parser (list ProductSpec) :=
  present ← js_has key;
  specs ← (if present : bool
           then tokens ← get_strings key []; mret (product_spec_from_token <$> tokens)
           else mret out);
  js_skip key;; mret specs.

(** Run a parser over a named section of the document. *)
Definition in_section {A} (p : parser A) (name : string) (doc : J) : option A :=
  s ← open_section doc name; fst <$> p s.

(** ** The configuration structs *)

(** [ListenerConfig]: what the components read, and the rest. *)
Record ListenerLaunch := {
  ll_config : ListenerConfig; ll_name : string; ll_timezone_minute_offset : Z;
  ll_products_db_base_path : string; ll_orderbook_save_path : string; ll_trade_save_path : string;
  ll_broadcast_host_address : string; ll_broadcast_port : Z; ll_market_end_intraday_minute : Z;
  ll_log_path : string }.
Definition ListenerLaunch_default : ListenerLaunch := {|
  ll_config := {|
    lc_exchange := "binance"; lc_region := ""; lc_market_type := "derivatives"; lc_is_night := false;
    lc_product_specs := [{| spec_product := "BTCUSDT"; spec_category := futures |}];
    lc_orderbook_levels := 20; lc_product_info_refresh_sec := 300; lc_domain_type := "real";
    lc_no_orderbook_log := false; lc_no_public_trade_log := false |};
  ll_name := ""; ll_timezone_minute_offset := 0; ll_products_db_base_path := "products";
  ll_orderbook_save_path := "logs/orderbook_record"; ll_trade_save_path := "logs/trade_record";
  ll_broadcast_host_address := "0.0.0.0"; ll_broadcast_port := 8888;
  ll_market_end_intraday_minute := -1; ll_log_path := "logs/listener/listener.log" |}.

Definition parse_listener_config (d : ListenerLaunch) : parser ListenerLaunch :=
  let c := ll_config d in
  exchange ← get_string "exchange" (lc_exchange c);
  region ← get_string "region" (lc_region c);
  market_type ← get_string "market_type" (lc_market_type c);
  is_night ← get_bool "is_night" (lc_is_night c);
  timezone ← get_long "timezone_minute_offset" (ll_timezone_minute_offset d);
  market_end ← get_long "market_end_intraday_minute" (ll_market_end_intraday_minute d);
  specs ← get_specs "products" (lc_product_specs c);
  name ← get_string "name" (ll_name d);
  db ← get_string "products_db_base_path" (ll_products_db_base_path d);
  ob_path ← get_string "orderbook_save_path" (ll_orderbook_save_path d);
  tr_path ← get_string "trade_save_path" (ll_trade_save_path d);
  no_ob ← get_bool "no_orderbook_log" (lc_no_orderbook_log c);
  no_tr ← get_bool "no_public_trade_log" (lc_no_public_trade_log c);
  levels ← get_int32 "orderbook_levels" (lc_orderbook_levels c);
  refresh ← get_long "product_info_refresh_sec" (lc_product_info_refresh_sec c);
  host ← get_string "broadcast_host_address" (ll_broadcast_host_address d);
  port ← get_ushort "broadcast_port" (ll_broadcast_port d);
  domain ← get_string "domain_type" (lc_domain_type c);
  log_path ← get_string "log_path" (ll_log_path d);
  js_done;;
  mret {|
    ll_config := {|
      lc_exchange := exchange; lc_region := region; lc_market_type := market_type;
      lc_is_night := is_night; lc_product_specs := specs; lc_orderbook_levels := levels;
      lc_product_info_refresh_sec := refresh; lc_domain_type := domain;
      lc_no_orderbook_log := no_ob; lc_no_public_trade_log := no_tr |};
    ll_name := name; ll_timezone_minute_offset := timezone; ll_products_db_base_path := db;
    ll_orderbook_save_path := named_save_path ob_path name;
    ll_trade_save_path := named_save_path tr_path name;
    ll_broadcast_host_address := host; ll_broadcast_port := port;
    ll_market_end_intraday_minute := market_end; ll_log_path := named_log_path log_path name |}.

(** [PricerConfig]. *)
Record PricerLaunch := {
  pl_config : PricerConfig; pl_name : string;
  pl_broadcast_host_address : string; pl_broadcast_port : Z;
  pl_publish_host_address : string; pl_publish_port : Z; pl_publish_interval_ms : Z;
  pl_timezone_minute_offset : Z; pl_market_end_intraday_minute : Z; pl_no_pricer_log : bool;
  pl_log_path : string }.
Definition PricerLaunch_default : PricerLaunch := {|
  pl_config := {| mode := MID; pc_products := [{| spec_product := "BTCUSDT"; spec_category := futures |}] |};
  pl_name := ""; pl_broadcast_host_address := "0.0.0.0"; pl_broadcast_port := 8888;
  pl_publish_host_address := "0.0.0.0"; pl_publish_port := 8889; pl_publish_interval_ms := 100;
  pl_timezone_minute_offset := 0; pl_market_end_intraday_minute := -1; pl_no_pricer_log := false;
  pl_log_path := "logs/pricer/pricer.log" |}.

Definition parse_pricer_config (d : PricerLaunch) : parser PricerLaunch :=
  has_mode ← js_has "fair_price_mode";
  m ← (if has_mode : bool
       then mode_name ← get_string "fair_price_mode" ""; mret (fair_price_mode_from_string mode_name)
       else mret (mode (pl_config d)));
  js_skip "fair_price_mode";;
  specs ← get_specs "products" (pc_products (pl_config d));
  host ← get_string "broadcast_host_address" (pl_broadcast_host_address d);
  port ← get_ushort "broadcast_port" (pl_broadcast_port d);
  phost ← get_string "publish_host_address" (pl_publish_host_address d);
  pport ← get_ushort "publish_port" (pl_publish_port d);
  interval ← get_long "publish_interval_ms" (pl_publish_interval_ms d);
  timezone ← get_long "timezone_minute_offset" (pl_timezone_minute_offset d);
  market_end ← get_long "market_end_intraday_minute" (pl_market_end_intraday_minute d);
  no_log ← get_bool "no_pricer_log" (pl_no_pricer_log d);
  name ← get_string "name" (pl_name d);
  log_path ← get_string "log_path" (pl_log_path d);
  js_done;;
  mret {|
    pl_config := {| mode := m; pc_products := specs |}; pl_name := name;
    pl_broadcast_host_address := host; pl_broadcast_port := port;
    pl_publish_host_address := phost; pl_publish_port := pport; pl_publish_interval_ms := interval;
    pl_timezone_minute_offset := timezone; pl_market_end_intraday_minute := market_end;
    pl_no_pricer_log := no_log; pl_log_path := named_log_path log_path name |}.

(** [TraderConfig]. *)
Record TraderConfig := {
  tc_name : string; tc_exchange : string; tc_strategy_name : string; tc_region : string;
  tc_market_type : string; tc_trade_products : list string; tc_subscribe_same_products : bool;
  tc_subscribe_products : list ProductSpec; tc_broadcast_host_address : string;
  tc_broadcast_port : Z; tc_pricer_host_address : string; tc_pricer_port : Z;
  tc_fair_price_max_age_ms : Z; tc_domain_type : string; tc_order_update_interval_ms : Z;
  tc_flatten_on_shutdown : bool; tc_shutdown_cancel_timeout_ms : Z;
  tc_shutdown_flatten_timeout_ms : Z; tc_shutdown_market_flatten : bool;
  tc_shutdown_reduce_only : bool; tc_order_record_save_path : string;
  tc_order_decision_save_path : string; tc_timezone_minute_offset : Z;
  tc_market_end_intraday_minute : Z; tc_log_base_path : string; tc_log_path : string }.
Definition TraderConfig_default : TraderConfig := {|
  tc_name := ""; tc_exchange := "binance"; tc_strategy_name := "Geuant"; tc_region := "";
  tc_market_type := "derivatives"; tc_trade_products := ["BTCUSDT"];
  tc_subscribe_same_products := true;
  tc_subscribe_products := [{| spec_product := "BTCUSDT"; spec_category := futures |}];
  tc_broadcast_host_address := "0.0.0.0"; tc_broadcast_port := 8888;
  tc_pricer_host_address := "0.0.0.0"; tc_pricer_port := 8889; tc_fair_price_max_age_ms := 1000;
  tc_domain_type := "real"; tc_order_update_interval_ms := 1000; tc_flatten_on_shutdown := true;
  tc_shutdown_cancel_timeout_ms := 5000; tc_shutdown_flatten_timeout_ms := 5000;
  tc_shutdown_market_flatten := true; tc_shutdown_reduce_only := true;
  tc_order_record_save_path := "logs/order_record";
  tc_order_decision_save_path := "logs/order_decision"; tc_timezone_minute_offset := 0;
  tc_market_end_intraday_minute := -1; tc_log_base_path := "./log";
  tc_log_path := "logs/trader/trader.log" |}.

Definition parse_trader_config (d : TraderConfig) : parser TraderConfig :=
  exchange ← get_string "exchange" (tc_exchange d);
  strategy_name ← get_string "strategy_name" (tc_strategy_name d);
  region ← get_string "region" (tc_region d);
  market_type ← get_string "market_type" (tc_market_type d);
  has_trade ← js_has "trade_products";
  trade_specs ← (if has_trade : bool
    then tokens ← get_strings "trade_products" []; mret (product_spec_from_token <$> tokens)
    else mret (product_spec_from_token <$> tc_trade_products d));
  js_skip "trade_products";;
  subscribe_tokens ← get_strings "subscribe_products" [];
  host ← get_string "broadcast_host_address" (tc_broadcast_host_address d);
  port ← get_ushort "broadcast_port" (tc_broadcast_port d);
  phost ← get_string "pricer_host_address" (tc_pricer_host_address d);
  pport ← get_ushort "pricer_port" (tc_pricer_port d);
  max_age ← get_long "fair_price_max_age_ms" (tc_fair_price_max_age_ms d);
  domain ← get_string "domain_type" (tc_domain_type d);
  interval ← get_long "order_update_interval_ms" (tc_order_update_interval_ms d);
  flatten ← get_bool "flatten_on_shutdown" (tc_flatten_on_shutdown d);
  cancel_timeout ← get_long "shutdown_cancel_timeout_ms" (tc_shutdown_cancel_timeout_ms d);
  flatten_timeout ← get_long "shutdown_flatten_timeout_ms" (tc_shutdown_flatten_timeout_ms d);
  market_flatten ← get_bool "shutdown_market_flatten" (tc_shutdown_market_flatten d);
  reduce_only ← get_bool "shutdown_reduce_only" (tc_shutdown_reduce_only d);
  name ← get_string "name" (tc_name d);
  record_path ← get_string "order_record_save_path" (tc_order_record_save_path d);
  decision_path ← get_string "order_decision_save_path" (tc_order_decision_save_path d);
  timezone ← get_long "timezone_minute_offset" (tc_timezone_minute_offset d);
  market_end ← get_long "market_end_intraday_minute" (tc_market_end_intraday_minute d);
  log_base ← get_string "log_base_path" (tc_log_base_path d);
  log_path ← get_string "log_path" (tc_log_path d);
  js_done;;
  let same := bool_decide (subscribe_tokens = []) in
  mret {|
    tc_name := name; tc_exchange := exchange; tc_strategy_name := strategy_name; tc_region := region;
    tc_market_type := market_type;
    tc_trade_products := if (has_trade : bool) then spec_product <$> trade_specs else tc_trade_products d;
    tc_subscribe_same_products := same;
    tc_subscribe_products :=
      if same then trade_specs else product_spec_from_token <$> subscribe_tokens;
    tc_broadcast_host_address := host; tc_broadcast_port := port; tc_pricer_host_address := phost;
    tc_pricer_port := pport; tc_fair_price_max_age_ms := max_age; tc_domain_type := domain;
    tc_order_update_interval_ms := interval; tc_flatten_on_shutdown := flatten;
    tc_shutdown_cancel_timeout_ms := cancel_timeout;
    tc_shutdown_flatten_timeout_ms := flatten_timeout; tc_shutdown_market_flatten := market_flatten;
    tc_shutdown_reduce_only := reduce_only;
    tc_order_record_save_path := named_save_path record_path name;
    tc_order_decision_save_path := named_save_path decision_path name;
    tc_timezone_minute_offset := timezone; tc_market_end_intraday_minute := market_end;
    tc_log_base_path := log_base; tc_log_path := named_log_path log_path name |}.

(** [MarketConfig], with the exchange the trader's own file named. *)
Definition MarketConfig_default : MarketConfig := {|
  mc_name := ""; min_tick_size := fzero; default_lot_size := fzero; mc_exchange := "";
  tick_func := None; short_sell_unable := false |}.
Definition parse_market_config (d : MarketConfig) (default_exchange : string) : parser MarketConfig :=
  name ← get_string "name" (mc_name d);
  tick ← get_double "min_tick_size" (min_tick_size d);
  lot ← get_double "default_lot_size" (default_lot_size d);
  exchange ← get_string "exchange" (mc_exchange d);
  short ← get_bool "short_sell_unable" (short_sell_unable d);
  js_done;;
  let made exchange : parser MarketConfig := mret {|
    mc_name := name; min_tick_size := tick; default_lot_size := lot; mc_exchange := exchange;
    tick_func := get_tick_func exchange; short_sell_unable := short |} in
  if decide (exchange = "") then made default_exchange
  else if negb (bool_decide (default_exchange = "")) && negb (bool_decide (exchange = default_exchange))
  then fun _ => None
  else made exchange.

(** [GeuantParams], the strategy's parameters. *)
Definition GeuantParams_default : GeuantParams := {|
  gp_name := ""; spread_const_bp := fzero; skew_ratio := fzero; use_spread_cap := false;
  spread_cap_bp := fzero; use_bbo_cap_buffer := false; bbo_cap_buffer_bp := fzero; order_lots := 0;
  order_dollar := fzero; position_limit_in_lots := 0; position_in_dollar := false;
  position_limit_in_dollar := fzero; order_buffer_bp := fzero; order_num := O;
  order_interval_bp := fzero; tick_based_order_interval := false; order_interval_ticks := 0 |}.
Definition parse_geuant_params (d : GeuantParams) : parser GeuantParams :=
  name ← get_string "name" (gp_name d);
  spread ← get_double "spread_const_bp" (spread_const_bp d);
  skew ← get_double "skew_ratio" (skew_ratio d);
  use_cap ← get_bool "use_spread_cap" (use_spread_cap d);
  cap ← get_double "spread_cap_bp" (spread_cap_bp d);
  use_bbo ← get_bool "use_bbo_cap_buffer" (use_bbo_cap_buffer d);
  bbo ← get_double "bbo_cap_buffer_bp" (bbo_cap_buffer_bp d);
  lots ← get_int32 "order_lots" (order_lots d);
  dollar ← get_double "order_dollar" (order_dollar d);
  limit_lots ← get_int32 "position_limit_in_lots" (position_limit_in_lots d);
  in_dollar ← get_bool "position_in_dollar" (position_in_dollar d);
  limit_dollar ← get_double "position_limit_in_dollar" (position_limit_in_dollar d);
  buffer ← get_double "order_buffer_bp" (order_buffer_bp d);
  num ← get_size "order_num" (order_num d);
  interval ← get_double "order_interval_bp" (order_interval_bp d);
  tick_based ← get_bool "tick_based_order_interval" (tick_based_order_interval d);
  ticks ← get_size_Z "order_interval_ticks" (order_interval_ticks d);
  js_done;;
  mret {|
    gp_name := name; spread_const_bp := spread; skew_ratio := skew; use_spread_cap := use_cap;
    spread_cap_bp := cap; use_bbo_cap_buffer := use_bbo; bbo_cap_buffer_bp := bbo;
    order_lots := lots; order_dollar := dollar; position_limit_in_lots := limit_lots;
    position_in_dollar := in_dollar; position_limit_in_dollar := limit_dollar;
    order_buffer_bp := buffer; order_num := num; order_interval_bp := interval;
    tick_based_order_interval := tick_based; order_interval_ticks := ticks |}.

(** [FactorConfig] and [MicropriceParams]. *)
Definition FactorConfig_default : FactorConfig :=
  {| factor_name := "Microprice"; fc_ema_alpha := fone; fc_cap_bp := of_Z 20 |}.
Definition parse_factor_config (d : FactorConfig) : parser FactorConfig :=
  get_string "name" "";;
  factor ← get_string "factor_name" (factor_name d);
  alpha ← get_double "ema_alpha" (fc_ema_alpha d);
  cap ← get_double "cap_bp" (fc_cap_bp d);
  js_done;;
  mret {| factor_name := factor; fc_ema_alpha := alpha; fc_cap_bp := cap |}.
Definition parse_microprice_params (d : MicropriceParams) : parser MicropriceParams :=
  exponent ← get_double "imbalance_exponent" (imbalance_exponent d);
  js_done;;
  mret {| imbalance_exponent := exponent |}.

(** ** The file-based launches of the three programs; [None] is "Config error", exit 1 *)
Definition init_strategy_from_json (strategy_name : string) (doc : J) : option (option GeuantParams) :=
  if decide (strategy_name = "Geuant")
  then Some <$> in_section (parse_geuant_params GeuantParams_default) "strategy_params" doc
  else Some None.
Definition trader_launch (load_json_file : string -> option J) (argv : list string)
    : option (TraderConfig * MarketConfig * option GeuantParams) :=
  paths ← json_launch_paths argv;
  match paths with
  | [trader; market; strategy] =>
      tdoc ← load_json_file trader;
      config ← in_section (parse_trader_config TraderConfig_default) "trader_config" tdoc;
      mdoc ← load_json_file market;
      market_config ← in_section (parse_market_config MarketConfig_default (tc_exchange config))
                        "market_config" mdoc;
      sdoc ← load_json_file strategy;
      params ← init_strategy_from_json (tc_strategy_name config) sdoc;
      Some (config, market_config, params)
  | _ => None
  end.

(** [init_factor_from_json]; [None] is the exception, [Some None] the unknown name. *)
Definition init_factor_from_json (c : FactorConfig) (doc : J) : option (option MicropriceFactor) :=
  if decide (factor_name c = "Microprice")
  then p ← in_section (parse_microprice_params {| imbalance_exponent := fone |}) "factor_params" doc;
       Some (init_factor c p)
  else Some None.
Definition pricer_launch (load_json_file : string -> option J) (argv : list string)
    : option (PricerLaunch * option (FactorConfig * J)) :=
  paths ← json_launch_paths argv;
  match paths with
  | [pricer] =>
      doc ← load_json_file pricer;
      config ← in_section (parse_pricer_config PricerLaunch_default) "pricer_config" doc;
      if decide (mode (pl_config config) = FACTOR) then None else Some (config, None)
  | [pricer; factor] =>
      doc ← load_json_file pricer;
      config ← in_section (parse_pricer_config PricerLaunch_default) "pricer_config" doc;
      fdoc ← load_json_file factor;
      factor_config ← in_section (parse_factor_config FactorConfig_default) "factor_config" fdoc;
      Some (config, Some (factor_config, fdoc))
  | _ => None
  end.
Definition listener_launch (load_json_file : string -> option J) (argv : list string) : option ListenerLaunch :=
  paths ← json_launch_paths argv;
  match paths with
  | [listener] =>
      doc ← load_json_file listener;
      in_section (parse_listener_config ListenerLaunch_default) "listener_config" doc
  | _ => None
  end.

(** ** What a parser claims *)

(** [p] leaves the section alone and claims only keys of [K]. *)
Definition reads {A} (K : list string) (p : parser A) : Prop := forall s a s',
  p s = Some (a, s') -> js_obj s' = js_obj s /\
  ((forall k, k ∈ js_known s -> k ∈ K) -> forall k, k ∈ js_known s' -> k ∈ K).
(** [p] fails on a section that has a key outside [K]. *)
Definition checks {A} (K : list string) (p : parser A) : Prop := forall s a s',
  p s = Some (a, s') -> (forall k, k ∈ js_known s -> k ∈ K) ->
  Forall (fun kv => kv.1 ∈ K) (j_items (js_obj s)).

Lemma reads_ret {A} K (a : A) : reads K (mret a).
Proof. by intros s a' s' [= <- <-]. Qed.
Lemma reads_bind {A B} K (m : parser A) (f : A -> parser B) :
  reads K m -> (forall a, reads K (f a)) -> reads K (m ≫= f).
Proof.
  intros Hm Hf s b s'. unfold mbind, parser_bind. destruct (m s) as [[a s1]|] eqn:E; [|done].
  intros Hs. destruct (Hm _ _ _ E) as [Ho Hk], (Hf a _ _ _ Hs) as [Ho' Hk'].
  split; [congruence|eauto].
Qed.
Lemma reads_has K key : reads K (js_has key).
Proof. by intros s a s' [= <- <-]. Qed.
Lemma reads_skip K key : key ∈ K -> reads K (js_skip key).
Proof. intros Hk s a s' [= <- <-]. split; [done|]. simpl. set_solver. Qed.
Lemma reads_get {T} K (conv : J -> option T) key out : key ∈ K -> reads K (js_get conv key out).
Proof.
  intros Hk s a s'. unfold js_get.
  assert (forall k, (forall k, k ∈ js_known s -> k ∈ K) -> k ∈ js_known (claim key s) -> k ∈ K) as H.
  { intros k H. simpl. set_solver. }
  repeat split_match; intros [= <- <-]; (split; [done|]); eauto.
Qed.
Lemma reads_if {A} K (b : bool) (p q : parser A) : reads K p -> reads K q -> reads K (if b then p else q).
Proof. by destruct b. Qed.
Lemma reads_specs K key out : key ∈ K -> reads K (get_specs key out).
Proof.
  intros Hk. unfold get_specs. apply reads_bind; [apply reads_has|intros present].
  apply reads_bind.
  - apply reads_if; [|apply reads_ret]. apply reads_bind; [by apply reads_get|]. intros ?. apply reads_ret.
  - intros specs. apply reads_bind; [by apply reads_skip|]. intros _. apply reads_ret.
Qed.

Lemma checks_bind {A B} K (m : parser A) (f : A -> parser B) :
  reads K m -> (forall a, checks K (f a)) -> checks K (m ≫= f).
Proof.
  intros Hm Hf s b s'. unfold mbind, parser_bind. destruct (m s) as [[a s1]|] eqn:E; [|done].
  destruct (Hm _ _ _ E) as [Ho Hk]. intros Hs H. rewrite <- Ho. by eapply Hf; [|auto].
Qed.
Lemma checks_done {B} K (f : unit -> parser B) : checks K (js_done ≫= f).
Proof.
  intros s b s'. unfold mbind, parser_bind, js_done. destruct (forallb _ _) eqn:E; [|done].
  intros _ H. rewrite forallb_forall in E. apply List.Forall_forall. intros kv Hin.
  apply H. exact (bool_decide_eq_true_1 _ (E _ Hin)).
Qed.

Lemma in_section_checks {A} K (p : parser A) name doc a :
  checks K p -> in_section p name doc = Some a ->
  exists o, j_member doc name = Some o /\ Forall (fun kv => kv.1 ∈ K) (j_items o).
Proof.
  intros Hp. unfold in_section, open_section. destruct (j_member doc name) as [o|]; simpl; [|done].
  destruct (j_is_object o); simpl; [|done]. destruct (p _) as [[b s']|] eqn:E; [|done].
  intros _. exists o. split; [done|]. apply (Hp _ _ _ E). simpl. set_solver.
Qed.
End config.

#[export] Hint Resolve reads_ret reads_has reads_if : omni.
(** Walk down a parser, discharging each key against the list of known ones. *)
Ltac getters :=
  unfold get_string, get_bool, get_long, get_double, get_int32, get_ushort, get_size, get_size_Z,
    get_strings; cbv zeta.
Ltac key_known := apply (bool_decide_unpack _); vm_compute; exact I.
Ltac reads_tac :=
  first
    [ apply reads_ret | apply reads_has
    | refine (reads_skip _ _ _); key_known | refine (reads_specs _ _ _ _); key_known
    | refine (reads_get _ _ _ _ _); key_known
    | apply reads_if; reads_tac
    | apply reads_bind; [reads_tac | intros ?; reads_tac] ].
Ltac checks_tac :=
  first [ apply checks_done | apply checks_bind; [reads_tac | intros ?; checks_tac] ].

(** The keys of a section of the document are among [K]. *)
Definition section_within {J} `{!JsonValue J} (doc : J) (name : string) (K : list string) : Prop :=
  exists o, j_member doc name = Some o /\ Forall (fun kv => kv.1 ∈ K) (j_items o).

(** Step through the [option] binds of the goal's left-hand side. *)
Ltac bind_some :=
  repeat match goal with
  | |- mbind _ ?m = Some _ -> _ => destruct m eqn:?; cbn; [|done]
  | |- (match ?m with Some _ => _ | None => None end) = Some _ -> _ => destruct m eqn:?; cbn; [|done]
  end.

(** ** The keys of each section *)
Definition listener_keys : list string := [
  "exchange"; "region"; "market_type"; "is_night"; "timezone_minute_offset";
  "market_end_intraday_minute"; "products"; "name"; "products_db_base_path"; "orderbook_save_path";
  "trade_save_path"; "no_orderbook_log"; "no_public_trade_log"; "orderbook_levels";
  "product_info_refresh_sec"; "broadcast_host_address"; "broadcast_port"; "domain_type"; "log_path"].
Definition pricer_keys : list string := [
  "fair_price_mode"; "products"; "broadcast_host_address"; "broadcast_port"; "publish_host_address";
  "publish_port"; "publish_interval_ms"; "timezone_minute_offset"; "market_end_intraday_minute";
  "no_pricer_log"; "name"; "log_path"].
Definition trader_keys : list string := [
  "exchange"; "strategy_name"; "region"; "market_type"; "trade_products"; "subscribe_products";
  "broadcast_host_address"; "broadcast_port"; "pricer_host_address"; "pricer_port";
  "fair_price_max_age_ms"; "domain_type"; "order_update_interval_ms"; "flatten_on_shutdown";
  "shutdown_cancel_timeout_ms"; "shutdown_flatten_timeout_ms"; "shutdown_market_flatten";
  "shutdown_reduce_only"; "name"; "order_record_save_path"; "order_decision_save_path";
  "timezone_minute_offset"; "market_end_intraday_minute"; "log_base_path"; "log_path"].
Definition market_keys : list string := [
  "name"; "min_tick_size"; "default_lot_size"; "exchange"; "short_sell_unable"].
Definition geuant_keys : list string := [
  "name"; "spread_const_bp"; "skew_ratio"; "use_spread_cap"; "spread_cap_bp"; "use_bbo_cap_buffer";
  "bbo_cap_buffer_bp"; "order_lots"; "order_dollar"; "position_limit_in_lots"; "position_in_dollar";
  "position_limit_in_dollar"; "order_buffer_bp"; "order_num"; "order_interval_bp";
  "tick_based_order_interval"; "order_interval_ticks"].
Definition factor_keys : list string := ["name"; "factor_name"; "ema_alpha"; "cap_bp"].

Section theorems.
Context {J : Type} `{!JsonValue J}.

Lemma parse_listener_checks d : checks listener_keys (parse_listener_config d).
Proof. unfold parse_listener_config; getters; checks_tac. Qed.
Lemma parse_pricer_checks d : checks pricer_keys (parse_pricer_config d).
Proof. unfold parse_pricer_config; getters; checks_tac. Qed.
Lemma parse_trader_checks d : checks trader_keys (parse_trader_config d).
Proof. unfold parse_trader_config; getters; checks_tac. Qed.
Lemma parse_market_checks d e : checks market_keys (parse_market_config d e).
Proof. unfold parse_market_config; getters; checks_tac. Qed.
Lemma parse_geuant_checks d : checks geuant_keys (parse_geuant_params d).
Proof. unfold parse_geuant_params; getters; checks_tac. Qed.
Lemma parse_factor_checks d : checks factor_keys (parse_factor_config d).
Proof. unfold parse_factor_config; getters; checks_tac. Qed.

Lemma launch_paths_head argv p ps : json_launch_paths argv = Some (p :: ps) -> head (tail argv) = Some p.
Proof.
  unfold json_launch_paths. destruct (tail argv) as [|a l]; simpl; [done|].
  destruct (is_dash a); [done|]. destruct (launch_paths l); simpl; [|done]. by intros [= <- _].
Qed.

(** A misspelled key never goes unnoticed.  Whatever the parser behind the document, a
    launch that is accepted had only known keys in the sections it read: for the trader
    its wiring, its market units and its strategy parameters; for the pricer its wiring
    and, when given, its factor; for the listener its one section. *)
Theorem launch_keys_known (load : string -> option J) argv :
  (forall tc mc sp, trader_launch load argv = Some (tc, mc, sp) ->
     exists td md sd t m, json_launch_paths argv = Some [td; md; sd] /\
       load td = Some t /\ load md = Some m /\
       section_within t "trader_config" trader_keys /\
       section_within m "market_config" market_keys /\
       (is_Some sp -> exists s, load sd = Some s /\ section_within s "strategy_params" geuant_keys)) /\
  (forall pc fc, pricer_launch load argv = Some (pc, fc) ->
     exists pd p, head (tail argv) = Some pd /\ load pd = Some p /\ section_within p "pricer_config" pricer_keys /\
       (forall c doc, fc = Some (c, doc) -> section_within doc "factor_config" factor_keys)) /\
  (forall lc, listener_launch load argv = Some lc ->
     exists ld l, json_launch_paths argv = Some [ld] /\ load ld = Some l /\ section_within l "listener_config" listener_keys).
Proof.
  split_and!.
  - intros tc mc sp. unfold trader_launch.
    destruct (json_launch_paths argv) as [[|td [|md [|sd [|]]]]|]; cbn; try done. bind_some.
    intros [= <- <- <-]. eexists td, md, sd, _, _. split_and!; [done|done|done|..].
    + by eapply in_section_checks; [apply parse_trader_checks|].
    + by eapply in_section_checks; [apply parse_market_checks|].
    + intros [x ->]. eexists. split; [done|].
      match goal with H : init_strategy_from_json _ _ = _ |- _ => revert H end.
      unfold init_strategy_from_json. case_decide; [|done].
      destruct (in_section (parse_geuant_params _) _ _) eqn:E; [|done]. intros _.
      by eapply in_section_checks; [apply parse_geuant_checks|].
  - intros pc fc. unfold pricer_launch.
    destruct (json_launch_paths argv) as [[|pd [|fd [|]]]|] eqn:Hpaths; cbn; try done;
      apply launch_paths_head in Hpaths; bind_some.
    + case_decide; [done|]. intros [= <- <-]. eexists pd, _. split_and!; [done|done| |done].
      by eapply in_section_checks; [apply parse_pricer_checks|].
    + intros [= <- <-]. eexists pd, _. split_and!; [done|done| |].
      * by eapply in_section_checks; [apply parse_pricer_checks|].
      * intros c doc [= <- <-]. by eapply in_section_checks; [apply parse_factor_checks|].
  - intros lc. unfold listener_launch.
    destruct (json_launch_paths argv) as [[|ld [|]]|]; cbn; try done. bind_some.
    intros H. eexists ld, _. split_and!; [done|done|].
    by eapply in_section_checks; [apply parse_listener_checks|].
Qed.
End theorems.

(** ** Output paths of two instances *)

(** A directory name: not empty, no slash in it. *)
Definition plain_name (n : string) : Prop := n <> "" /\ last_slash n = None.

Lemma last_slash_app p n : last_slash n = None -> last_slash (p +:+ String "/" n) = Some (p, n).
Proof.
  intros Hn. induction p as [|b p IH]; [simpl; by rewrite Hn|].
  change (String b p +:+ String "/" n) with (String b (p +:+ String "/" n)). simpl. by rewrite IH.
Qed.

Lemma last_slash_file s d f : last_slash s = Some (d, f) -> last_slash f = None.
Proof.
  revert d. induction s as [|a s IH]; simpl; intros d; [done|].
  destruct (last_slash s) as [[d' f']|] eqn:E; [intros [= <- <-]; by eapply IH|].
  destruct (Ascii.eqb a "/"); [|done]. by intros [= _ <-].
Qed.
Lemma filename_no_slash p : last_slash (filename p) = None.
Proof. unfold filename. destruct (last_slash p) as [[d f]|] eqn:E; [by eapply last_slash_file|done]. Qed.

Lemma no_slash_relative n : last_slash n = None -> is_absolute n = false.
Proof.
  destruct n as [|a n]; simpl; [done|]. destruct (last_slash n) as [[??]|]; [done|].
  by destruct (Ascii.eqb a "/").
Qed.

Lemma string_app_inv_l (a b c : string) : a +:+ b = a +:+ c -> b = c.
Proof. apply (inj (String.append a)). Qed.
Lemma string_app_inv_r (a b c : string) : a +:+ c = b +:+ c -> a = b.
Proof.
  intros H. assert (String.list_ascii_of_string a = String.list_ascii_of_string b) as E.
  { apply (app_inv_tail (String.list_ascii_of_string c)).
    rewrite <- !list_ascii_app. by rewrite H. }
  by rewrite <- (String.string_of_list_ascii_of_string a), E, String.string_of_list_ascii_of_string.
Qed.

(** Joining a plain name onto a directory: the directory, a separator, the name. *)
Definition separator (p : string) : string := if has_filename p then "/" else "".
Lemma path_join_plain p n :
  last_slash n = None -> path_join p n = (p +:+ separator p) +:+ n.
Proof.
  intros Hn. unfold path_join, separator. rewrite no_slash_relative by done.
  destruct (has_filename p); rewrite string_app_assoc; [done|]. by destruct p, n.
Qed.

Lemma strip_slashes_file d : strip_slashes d <> "" -> has_filename (strip_slashes d) = true.
Proof.
  unfold has_filename. rewrite negb_true_iff, bool_decide_eq_false. unfold filename.
  induction d as [|a d IH]; cbn [strip_slashes]; [done|].
  destruct (strip_slashes d) as [|b r] eqn:E.
  - destruct (Ascii.eqb a "/") eqn:Ea; [done|]. simpl. by rewrite Ea.
  - intros _. specialize (IH ltac:(done)). revert IH. generalize (String b r). intros t.
    cbn [last_slash]. destruct (last_slash t) as [[? f]|]; [done|].
    intros Ht. by destruct (Ascii.eqb a "/").
Qed.

Lemma joined_has_filename p n :
  (p = "" \/ p = "/" \/ has_filename p = true) -> plain_name n -> has_filename (path_join p n) = true.
Proof.
  intros Hp [Hn Hs]. rewrite path_join_plain by done. unfold has_filename.
  apply negb_true_iff, bool_decide_eq_false. unfold filename, separator.
  destruct Hp as [-> | [-> | ->]].
  - change (("" +:+ (if has_filename "" then "/" else "")) +:+ n) with n. by rewrite Hs.
  - change ("/" +:+ (if has_filename "/" then "/" else "")) with ("" +:+ String "/" "").
    rewrite string_app_assoc. change (String "/" "" +:+ n) with (String "/" n).
    by rewrite last_slash_app.
  - rewrite string_app_assoc. change ("/" +:+ n) with (String "/" n). by rewrite last_slash_app.
Qed.

Lemma parent_path_cases p :
  parent_path p = "" \/ parent_path p = "/" \/ has_filename (parent_path p) = true.
Proof.
  unfold parent_path. destruct (last_slash p) as [[d f]|]; [|by left]. right.
  pose proof (strip_slashes_file d) as H. destruct (strip_slashes d); [by left|right; by apply H].
Qed.

Lemma named_log_path_eq p n :
  plain_name n -> named_log_path p n =
    (parent_path p +:+ separator (parent_path p)) +:+ (n +:+ String "/" (filename p)).
Proof.
  intros Hn. pose proof (joined_has_filename _ _ (parent_path_cases p) Hn) as Hj.
  destruct Hn as [Hne Hs]. unfold named_log_path. rewrite decide_False by done.
  rewrite (path_join_plain _ (filename p)) by apply filename_no_slash.
  unfold separator at 1. rewrite Hj, path_join_plain by done. by rewrite !string_app_assoc.
Qed.

(** Two instances of a service never write to the same place: launched from the same
    paths under different plain names, their log files differ, their record directories
    differ, and each log file still has the service's own file name. *)
Theorem instances_write_apart p n1 n2 :
  plain_name n1 -> plain_name n2 -> n1 <> n2 ->
  named_log_path p n1 <> named_log_path p n2 /\
  named_save_path p n1 <> named_save_path p n2 /\
  filename (named_log_path p n1) = filename p.
Proof.
  intros H1 H2 Hne. split_and!.
  - rewrite !named_log_path_eq by done. intros H%string_app_inv_l%string_app_inv_r. done.
  - unfold named_save_path. rewrite !decide_False by apply H1 || apply H2.
    rewrite !path_join_plain by apply H1 || apply H2. by intros H%string_app_inv_l.
  - rewrite named_log_path_eq, <- string_app_assoc by done. unfold filename at 1.
    by rewrite last_slash_app by apply filename_no_slash.
Qed.

(** ** A configuration written as a document and read back *)
Definition spec_token (s : ProductSpec) : string :=
  spec_product s +:+ ":" +:+ category_name (spec_category s).
(** The [trader_config] section that states every field of [c]. *)
Definition trader_section (c : TraderConfig) : list (string * jv) := [
  ("exchange", JStr (tc_exchange c)); ("strategy_name", JStr (tc_strategy_name c));
  ("region", JStr (tc_region c)); ("market_type", JStr (tc_market_type c));
  ("trade_products", JArr (JStr <$> tc_trade_products c));
  ("subscribe_products", JArr ((JStr ∘ spec_token) <$> tc_subscribe_products c));
  ("broadcast_host_address", JStr (tc_broadcast_host_address c));
  ("broadcast_port", JInt (tc_broadcast_port c));
  ("pricer_host_address", JStr (tc_pricer_host_address c)); ("pricer_port", JInt (tc_pricer_port c));
  ("fair_price_max_age_ms", JInt (tc_fair_price_max_age_ms c)); ("domain_type", JStr (tc_domain_type c));
  ("order_update_interval_ms", JInt (tc_order_update_interval_ms c));
  ("flatten_on_shutdown", JBool (tc_flatten_on_shutdown c));
  ("shutdown_cancel_timeout_ms", JInt (tc_shutdown_cancel_timeout_ms c));
  ("shutdown_flatten_timeout_ms", JInt (tc_shutdown_flatten_timeout_ms c));
  ("shutdown_market_flatten", JBool (tc_shutdown_market_flatten c));
  ("shutdown_reduce_only", JBool (tc_shutdown_reduce_only c)); ("name", JStr (tc_name c));
  ("order_record_save_path", JStr (tc_order_record_save_path c));
  ("order_decision_save_path", JStr (tc_order_decision_save_path c));
  ("timezone_minute_offset", JInt (tc_timezone_minute_offset c));
  ("market_end_intraday_minute", JInt (tc_market_end_intraday_minute c));
  ("log_base_path", JStr (tc_log_base_path c)); ("log_path", JStr (tc_log_path c))].

(** What a trader's document can state: ports of 16 bits, at least one subscription, bare
    symbols and no colon in a product's name. *)
Definition bare (p : string) : Prop := forall a, In a (String.list_ascii_of_string p) -> a <> ":"%char.
Record statable (c : TraderConfig) : Prop := {
  st_ports : 0 <= tc_broadcast_port c < 2 ^ 16 /\ 0 <= tc_pricer_port c < 2 ^ 16;
  st_trade : Forall bare (tc_trade_products c);
  st_subscribe : Forall (fun s => bare (spec_product s)) (tc_subscribe_products c);
  st_own : tc_subscribe_same_products c = false /\ tc_subscribe_products c <> [] }.

Lemma token_round_trip s : bare (spec_product s) -> product_spec_from_token (spec_token s) = s.
Proof.
  intros Hs. unfold product_spec_from_token, spec_token. change (":" +:+ ?t) with (String ":" t).
  rewrite split_at_app by done. rewrite category_round_trip. by destruct s.
Qed.
Lemma bare_token p : bare p -> spec_product (product_spec_from_token p) = p.
Proof. intros Hp. unfold product_spec_from_token. by rewrite split_at_None. Qed.
Lemma json_strings (l : list string) : mapM jv_string (JStr <$> l) = Some l.
Proof. by apply mapM_Some, Forall2_fmap_l, Forall_Forall2_diag, Forall_true. Qed.

(** One step of a parser on a section. *)
Lemma get_step {T B} (conv : jv -> option T) key out v t s (f : T -> parser (J:=jv) B) :
  j_member (js_obj s) key = Some v -> j_is_null v = false -> conv v = Some t ->
  (js_get conv key out ≫= f) s = f t (claim key s).
Proof. intros Hv Hn Ht. unfold mbind, parser_bind, js_get. by rewrite Hv, Hn, Ht. Qed.
Lemma has_step {B} key b s (f : bool -> parser (J:=jv) B) :
  match j_member (js_obj s) key with Some v => negb (j_is_null v) | None => false end = b ->
  (js_has key ≫= f) s = f b s.
Proof. by intros <-. Qed.
Lemma skip_step {B} key s (f : unit -> parser (J:=jv) B) : (js_skip key ≫= f) s = f tt (claim key s).
Proof. done. Qed.
Lemma done_step {B} s (f : unit -> parser (J:=jv) B) :
  forallb (fun kv => bool_decide (kv.1 ∈ js_known s)) (j_items (js_obj s)) = true ->
  (js_done ≫= f) s = f tt s.
Proof. intros H. unfold mbind, parser_bind, js_done. by rewrite H. Qed.
Lemma bind_map {A B C} (p : parser (J:=jv) A) (g : A -> B) (f : B -> parser (J:=jv) C) s :
  ((x ← p; mret (g x)) ≫= f) s = (p ≫= fun x => f (g x)) s.
Proof. unfold mbind, parser_bind. by destruct (p s) as [[??]|]. Qed.

Definition placed (c : TraderConfig) : TraderConfig := {|
  tc_name := tc_name c; tc_exchange := tc_exchange c; tc_strategy_name := tc_strategy_name c;
  tc_region := tc_region c; tc_market_type := tc_market_type c;
  tc_trade_products := tc_trade_products c;
  tc_subscribe_same_products := tc_subscribe_same_products c;
  tc_subscribe_products := tc_subscribe_products c;
  tc_broadcast_host_address := tc_broadcast_host_address c; tc_broadcast_port := tc_broadcast_port c;
  tc_pricer_host_address := tc_pricer_host_address c; tc_pricer_port := tc_pricer_port c;
  tc_fair_price_max_age_ms := tc_fair_price_max_age_ms c; tc_domain_type := tc_domain_type c;
  tc_order_update_interval_ms := tc_order_update_interval_ms c;
  tc_flatten_on_shutdown := tc_flatten_on_shutdown c;
  tc_shutdown_cancel_timeout_ms := tc_shutdown_cancel_timeout_ms c;
  tc_shutdown_flatten_timeout_ms := tc_shutdown_flatten_timeout_ms c;
  tc_shutdown_market_flatten := tc_shutdown_market_flatten c;
  tc_shutdown_reduce_only := tc_shutdown_reduce_only c;
  tc_order_record_save_path := named_save_path (tc_order_record_save_path c) (tc_name c);
  tc_order_decision_save_path := named_save_path (tc_order_decision_save_path c) (tc_name c);
  tc_timezone_minute_offset := tc_timezone_minute_offset c;
  tc_market_end_intraday_minute := tc_market_end_intraday_minute c;
  tc_log_base_path := tc_log_base_path c;
  tc_log_path := named_log_path (tc_log_path c) (tc_name c) |}.

(** C34: A trader configuration written field by field as a document is read back field by
    field, from whatever defaults, with the instance's name worked into its output paths:
    no key is misspelled, crossed with another, forgotten or reported as unknown. *)
Theorem trader_config_read_back c d :
  statable c ->
  in_section (parse_trader_config d) "trader_config"
    (JObj [("trader_config", JObj (trader_section c))]) = Some (placed c).
Proof.
  intros [[Hp1 Hp2] Ht Hs [Hsame Hne]].
  assert (product_spec_from_token <$> (spec_token <$> tc_subscribe_products c) =
    tc_subscribe_products c) as Hsub.
  { rewrite <- list_fmap_compose. rewrite <- (list_fmap_id (tc_subscribe_products c)) at 2.
    apply list_fmap_ext. intros i s Hi. simpl. apply token_round_trip.
    by eapply Forall_lookup_1 in Hs. }
  assert (spec_product <$> (product_spec_from_token <$> tc_trade_products c) =
    tc_trade_products c) as Htr.
  { rewrite <- list_fmap_compose. rewrite <- (list_fmap_id (tc_trade_products c)) at 2.
    apply list_fmap_ext. intros i p Hi. simpl. apply bare_token. by eapply Forall_lookup_1 in Ht. }
  assert (bool_decide (spec_token <$> tc_subscribe_products c = []) = false) as Hb.
  { apply bool_decide_eq_false. by destruct (tc_subscribe_products c). }
  pose proof (json_strings (tc_trade_products c)) as Hj1.
  pose proof (json_strings (spec_token <$> tc_subscribe_products c)) as Hj2.
  rewrite <- list_fmap_compose in Hj2. pose proof (wrap_u_id 16 _ Hp1) as Hw1.
  pose proof (wrap_u_id 16 _ Hp2) as Hw2.
  unfold in_section, parse_trader_config. getters. cbn [option_bind mbind].
  change (open_section (JObj [("trader_config", JObj (trader_section c))]) "trader_config")
    with (Some {| js_obj := JObj (trader_section c); js_known := ∅ |}).
  cbn [mbind option_bind].
  do 4 (erewrite get_step; [|reflexivity..]).
  rewrite (has_step _ true) by done. cbn iota. rewrite bind_map.
  rewrite (get_step _ _ _ (JArr (JStr <$> tc_trade_products c)) (tc_trade_products c)) by done.
  rewrite skip_step.
  rewrite (get_step _ _ _ (JArr ((JStr ∘ spec_token) <$> tc_subscribe_products c))
    (spec_token <$> tc_subscribe_products c)) by done.
  erewrite get_step; [|reflexivity..].
  rewrite (get_step _ _ _ (JInt (tc_broadcast_port c)) (tc_broadcast_port c))
    by (simpl; rewrite ?Hw1; done).
  erewrite get_step; [|reflexivity..].
  rewrite (get_step _ _ _ (JInt (tc_pricer_port c)) (tc_pricer_port c))
    by (simpl; rewrite ?Hw2; done).
  do 15 (erewrite get_step; [|reflexivity..]).
  rewrite done_step by (by vm_compute). cbv zeta. rewrite Hb, Hsub, Htr, <- Hsame. done.
Qed.

(** ** Witnesses *)
Module SampleConfig.
Definition doc (file : string) : option jv :=
  if decide (file = "t.json") then Some (JObj [("trader_config", JObj [
      ("exchange", JStr "binance"); ("name", JStr "1"); ("pricer_port", JInt 9000)])])
  else if decide (file = "m.json") then Some (JObj [("market_config", JObj [
      ("min_tick_size", JNum (of_decimal false 1 (-1)))])])
  else if decide (file = "s.json") then Some (JObj [("strategy_params", JObj [
      ("order_lots", JInt 3)])])
  else if decide (file = "typo.json") then Some (JObj [("trader_config", JObj [("name", JStr "1");
      ("order_lts", JInt 3)])])
  else None.
Definition trader : TraderConfig := {|
  tc_name := "1"; tc_exchange := "binance"; tc_strategy_name := "Geuant"; tc_region := "";
  tc_market_type := "derivatives"; tc_trade_products := ["BTCUSDT"];
  tc_subscribe_same_products := false;
  tc_subscribe_products := [{| spec_product := "USDT"; spec_category := asset |}];
  tc_broadcast_host_address := "0.0.0.0"; tc_broadcast_port := 8888;
  tc_pricer_host_address := "0.0.0.0"; tc_pricer_port := 9000; tc_fair_price_max_age_ms := 1000;
  tc_domain_type := "test"; tc_order_update_interval_ms := 500; tc_flatten_on_shutdown := false;
  tc_shutdown_cancel_timeout_ms := 5000; tc_shutdown_flatten_timeout_ms := 5000;
  tc_shutdown_market_flatten := true; tc_shutdown_reduce_only := true;
  tc_order_record_save_path := "logs/order_record";
  tc_order_decision_save_path := "logs/order_decision"; tc_timezone_minute_offset := 540;
  tc_market_end_intraday_minute := -1; tc_log_base_path := "./log";
  tc_log_path := "logs/trader/trader.log" |}.
End SampleConfig.

Lemma launch_keys_known_witness :
  (exists tc mc sp,
     trader_launch SampleConfig.doc ["trader"; "t.json"; "m.json"; "s.json"] = Some (tc, mc, sp) /\
     tc_log_path tc = "logs/trader/1/trader.log" /\ tc_pricer_port tc = 9000) /\
  trader_launch SampleConfig.doc ["trader"; "typo.json"; "m.json"; "s.json"] = None.
Proof.
  split.
  - do 3 eexists. split; [vm_compute; reflexivity|]. by split.
  - destruct (trader_launch _ ["trader"; "typo.json"; "m.json"; "s.json"]) as [[[tc mc] sp]|] eqn:E; [|done].
    exfalso. destruct (launch_keys_known SampleConfig.doc
      ["trader"; "typo.json"; "m.json"; "s.json"]) as [H _].
    destruct (H _ _ _ E) as (td&md&sd&t&m&[= <- <- <-]&[= <-]&_&(o&[= <-]&Hk)&_).
    apply Forall_cons_1 in Hk as [_ Hk]. apply Forall_cons_1 in Hk as [Hk _].
    apply (bool_decide_pack _) in Hk. by vm_compute in Hk.
Defined.

Lemma instances_write_apart_witness :
  plain_name "0" /\ plain_name "1" /\
  named_log_path "logs/trader/trader.log" "0" <> named_log_path "logs/trader/trader.log" "1" /\
  named_log_path "logs/trader/trader.log" "1" = "logs/trader/1/trader.log".
Proof.
  split_and!; [by split..| |by vm_compute].
  by apply (instances_write_apart "logs/trader/trader.log" "0" "1").
Defined.

Lemma trader_config_read_back_witness :
  in_section (parse_trader_config TraderConfig_default) "trader_config"
    (JObj [("trader_config", JObj (trader_section SampleConfig.trader))]) =
  Some (placed SampleConfig.trader).
Proof.
  apply trader_config_read_back. split.
  - split; split; by vm_compute.
  - repeat constructor. intros a Ha. simpl in Ha. intros ->. naive_solver.
  - repeat constructor. intros a Ha. simpl in Ha. intros ->. naive_solver.
  - by split.
Defined.
