(* ===== verification/Cli.v ===== *)
(** * Cli: the flag-based launches, against the file-based ones

    The [set_parser] and [init] of every configuration struct, and the three [main]
    functions up to the point where the service is built.  argparse itself is a parameter:
    it is given the registered arguments and the command line and returns what [get] reads,
    or fails.  The theorem relates the two launch forms. *)
From S2P Require Import Prelude Double Messages Text Strategy Pricer Json ListenerEvents Config.

#[local] Open Scope string_scope.
#[local] Open Scope list_scope.
#[local] Open Scope Z_scope.

(** ** Registered arguments and what [program.get] reads *)
Inductive ArgValue :=
  | AString (s : string) | AStrings (l : list string) | AInt (z : Z) | ADouble (x : double)
  | AFlag (b : bool).
(** [add_argument]: text (with [choices], when there are any), a token list, [scan<'i', T>]
    with the range of [T], [scan<'g', double>], [flag]. *)
Inductive Argument :=
  | StringArg (name d : string) (choices : list string)
  | StringsArg (name : string) (d : list string)
  | IntArg (name : string) (lo hi d : Z)
  | DoubleArg (name : string) (d : double)
  | FlagArg (name : string).
Definition ArgMap := gmap string ArgValue.

Definition arg_name (a : Argument) : string :=
  match a with
  | StringArg n _ _ | StringsArg n _ | IntArg n _ _ _ | DoubleArg n _ | FlagArg n => n
  end.
Definition arg_default (a : Argument) : ArgValue :=
  match a with
  | StringArg _ d _ => AString d | StringsArg _ d => AStrings d | IntArg _ _ _ d => AInt d
  | DoubleArg _ d => ADouble d | FlagArg _ => AFlag false
  end.
Definition int32_arg name d := IntArg name (- 2 ^ 31) (2 ^ 31 - 1) d.
Definition int64_arg name d := IntArg name (- 2 ^ 63) (2 ^ 63 - 1) d.
Definition size_arg name d := IntArg name 0 (2 ^ 64 - 1) d.
(** What a command line without arguments leaves. *)
Definition defaults (args : list Argument) : ArgMap :=
  list_to_map ((fun a => (arg_name a, arg_default a)) <$> args).

(** [program.get<T>(name)]: [None] is the exception for another type or no such argument. *)
Definition arg_string (p : ArgMap) (n : string) : option string :=
  match p !! n with Some (AString s) => Some s | _ => None end.
Definition arg_strings (p : ArgMap) (n : string) : option (list string) :=
  match p !! n with Some (AStrings l) => Some l | _ => None end.
Definition arg_int (p : ArgMap) (n : string) : option Z :=
  match p !! n with Some (AInt z) => Some z | _ => None end.
Definition arg_double (p : ArgMap) (n : string) : option double :=
  match p !! n with Some (ADouble x) => Some x | _ => None end.
Definition arg_flag (p : ArgMap) (n : string) : option bool :=
  match p !! n with Some (AFlag b) => Some b | _ => None end.
(** [static_cast<unsigned short>(program.get<int>(name))]. *)
Definition arg_port (p : ArgMap) (n : string) : option Z := wrap_u 16 <$> arg_int p n.
Definition arg_specs (p : ArgMap) (n : string) : option (list ProductSpec) :=
  map product_spec_from_token <$> arg_strings p n.

(** ** ListenerConfig *)
Definition listener_args : list Argument := [
  StringArg "--exchange" "binance" []; StringArg "--region" "" [];
  StringArg "--market_type" "derivatives" []; FlagArg "--is_night";
  int64_arg "--timezone_minute_offset" 0; int64_arg "--market_end_intraday_minute" (-1);
  StringsArg "--products" ["BTCUSDT:futures"]; StringArg "--products_db_base_path" "products" [];
  StringArg "--orderbook_save_path" "logs/orderbook_record" [];
  StringArg "--trade_save_path" "logs/trade_record" []; StringArg "--name" "" [];
  FlagArg "--no-orderbook-log"; FlagArg "--no-public-trade-log"; int32_arg "--orderbook_levels" 20;
  int64_arg "--product_info_refresh_sec" 300; StringArg "--broadcast_host_address" "0.0.0.0" [];
  int32_arg "--broadcast_port" 8888; StringArg "--domain_type" "real" [];
  StringArg "--log_path" "logs/listener/listener.log" []].
Definition listener_init (p : ArgMap) : option ListenerLaunch :=
  exchange ← arg_string p "--exchange";
  region ← arg_string p "--region";
  market_type ← arg_string p "--market_type";
  is_night ← arg_flag p "--is_night";
  timezone ← arg_int p "--timezone_minute_offset";
  market_end ← arg_int p "--market_end_intraday_minute";
  specs ← arg_specs p "--products";
  db ← arg_string p "--products_db_base_path";
  name ← arg_string p "--name";
  ob_path ← arg_string p "--orderbook_save_path";
  tr_path ← arg_string p "--trade_save_path";
  no_ob ← arg_flag p "--no-orderbook-log";
  no_tr ← arg_flag p "--no-public-trade-log";
  levels ← arg_int p "--orderbook_levels";
  refresh ← arg_int p "--product_info_refresh_sec";
  host ← arg_string p "--broadcast_host_address";
  port ← arg_port p "--broadcast_port";
  domain ← arg_string p "--domain_type";
  log_path ← arg_string p "--log_path";
  Some {|
    ll_config := {|
      lc_exchange := exchange; lc_region := region; lc_market_type := market_type;
      lc_is_night := is_night; lc_product_specs := specs; lc_orderbook_levels := levels;
      lc_product_info_refresh_sec := refresh; lc_domain_type := domain;
      lc_no_orderbook_log := no_ob; lc_no_public_trade_log := no_tr |};
    ll_name := name; ll_timezone_minute_offset := timezone; ll_products_db_base_path := db;
    ll_orderbook_save_path := named_save_path ob_path name;
    ll_trade_save_path := named_save_path tr_path name;
    ll_broadcast_host_address := host; ll_broadcast_port := port;
    ll_market_end_intraday_minute := market_end; ll_log_path := named_log_path log_path name |}.

(** ** PricerConfig, FactorConfig, MicropriceParams *)
Definition pricer_args : list Argument := [
  StringArg "--fair_price_mode" "MID" ["MID"; "VWAP"; "FACTOR"];
  StringsArg "--products" ["BTCUSDT:futures"]; StringArg "--broadcast_host_address" "0.0.0.0" [];
  int32_arg "--broadcast_port" 8888; StringArg "--publish_host_address" "0.0.0.0" [];
  int32_arg "--publish_port" 8889; int64_arg "--publish_interval_ms" 100;
  int64_arg "--timezone_minute_offset" 0; int64_arg "--market_end_intraday_minute" (-1);
  StringArg "--name" "" []; FlagArg "--no-pricer-log";
  StringArg "--log_path" "logs/pricer/pricer.log" []].
Definition pricer_init (p : ArgMap) : option PricerLaunch :=
  mode_name ← arg_string p "--fair_price_mode";
  specs ← arg_specs p "--products";
  host ← arg_string p "--broadcast_host_address";
  port ← arg_port p "--broadcast_port";
  phost ← arg_string p "--publish_host_address";
  pport ← arg_port p "--publish_port";
  interval ← arg_int p "--publish_interval_ms";
  timezone ← arg_int p "--timezone_minute_offset";
  market_end ← arg_int p "--market_end_intraday_minute";
  no_log ← arg_flag p "--no-pricer-log";
  name ← arg_string p "--name";
  log_path ← arg_string p "--log_path";
  Some {|
    pl_config := {| mode := fair_price_mode_from_string mode_name; pc_products := specs |};
    pl_name := name; pl_broadcast_host_address := host; pl_broadcast_port := port;
    pl_publish_host_address := phost; pl_publish_port := pport; pl_publish_interval_ms := interval;
    pl_timezone_minute_offset := timezone; pl_market_end_intraday_minute := market_end;
    pl_no_pricer_log := no_log; pl_log_path := named_log_path log_path name |}.

Definition factor_header_args : list Argument := [StringArg "--factor_name" "Microprice" []].
Definition factor_args : list Argument :=
  factor_header_args ++ [DoubleArg "--factor_ema_alpha" fone; DoubleArg "--factor_cap_bp" (of_Z 20)].
Definition factor_init (p : ArgMap) : option FactorConfig :=
  factor ← arg_string p "--factor_name";
  alpha ← arg_double p "--factor_ema_alpha";
  cap ← arg_double p "--factor_cap_bp";
  Some {| factor_name := factor; fc_ema_alpha := alpha; fc_cap_bp := cap |}.
Definition microprice_args : list Argument := [DoubleArg "--imbalance_exponent" fone].
Definition microprice_init (p : ArgMap) : option MicropriceParams :=
  exponent ← arg_double p "--imbalance_exponent";
  Some {| imbalance_exponent := exponent |}.
Definition factor_specific_args (factor : string) : list Argument :=
  if decide (factor = "Microprice") then microprice_args else [].
(** [init_factor]: the exception, or [nullptr], or the factor. *)
Definition init_factor_from_args (c : FactorConfig) (p : ArgMap) : option (option MicropriceFactor) :=
  if decide (factor_name c = "Microprice")
  then m ← microprice_init p; Some (init_factor c m) else Some None.

(** ** TraderConfig, MarketConfig, GeuantParams *)
Definition trader_header_args : list Argument :=
  [StringArg "--exchange" "binance" []; StringArg "--strategy_name" "Geuant" []].
Definition trader_args : list Argument := trader_header_args ++ [
  StringArg "--region" "" []; StringArg "--market_type" "derivatives" [];
  StringsArg "--trade_products" ["BTCUSDT:futures"]; StringsArg "--subscribe_products" [];
  StringArg "--broadcast_host_address" "0.0.0.0" []; int32_arg "--broadcast_port" 8888;
  StringArg "--pricer_host_address" "0.0.0.0" []; int32_arg "--pricer_port" 8889;
  int64_arg "--fair_price_max_age_ms" 1000; StringArg "--domain_type" "real" [];
  int64_arg "--order_update_interval_ms" 1000; FlagArg "--no_flatten_on_shutdown";
  int64_arg "--shutdown_cancel_timeout_ms" 5000; int64_arg "--shutdown_flatten_timeout_ms" 5000;
  FlagArg "--no_shutdown_market_flatten"; FlagArg "--no_shutdown_reduce_only";
  StringArg "--name" "" []; StringArg "--order_record_save_path" "logs/order_record" [];
  StringArg "--order_decision_save_path" "logs/order_decision" [];
  int64_arg "--timezone_minute_offset" 0; int64_arg "--market_end_intraday_minute" (-1);
  StringArg "--log_base_path" "./log" []; StringArg "--log_path" "logs/trader/trader.log" []].
Definition trader_init (p : ArgMap) : option TraderConfig :=
  exchange ← arg_string p "--exchange";
  strategy_name ← arg_string p "--strategy_name";
  region ← arg_string p "--region";
  market_type ← arg_string p "--market_type";
  trade_specs ← arg_specs p "--trade_products";
  subscribe_tokens ← arg_strings p "--subscribe_products";
  host ← arg_string p "--broadcast_host_address";
  port ← arg_port p "--broadcast_port";
  phost ← arg_string p "--pricer_host_address";
  pport ← arg_port p "--pricer_port";
  max_age ← arg_int p "--fair_price_max_age_ms";
  domain ← arg_string p "--domain_type";
  interval ← arg_int p "--order_update_interval_ms";
  no_flatten ← arg_flag p "--no_flatten_on_shutdown";
  cancel_timeout ← arg_int p "--shutdown_cancel_timeout_ms";
  flatten_timeout ← arg_int p "--shutdown_flatten_timeout_ms";
  no_market_flatten ← arg_flag p "--no_shutdown_market_flatten";
  no_reduce_only ← arg_flag p "--no_shutdown_reduce_only";
  name ← arg_string p "--name";
  record_path ← arg_string p "--order_record_save_path";
  decision_path ← arg_string p "--order_decision_save_path";
  timezone ← arg_int p "--timezone_minute_offset";
  market_end ← arg_int p "--market_end_intraday_minute";
  log_base ← arg_string p "--log_base_path";
  log_path ← arg_string p "--log_path";
  let same := bool_decide (subscribe_tokens = []) in
  Some {|
    tc_name := name; tc_exchange := exchange; tc_strategy_name := strategy_name; tc_region := region;
    tc_market_type := market_type; tc_trade_products := spec_product <$> trade_specs;
    tc_subscribe_same_products := same;
    tc_subscribe_products :=
      if same then trade_specs else product_spec_from_token <$> subscribe_tokens;
    tc_broadcast_host_address := host; tc_broadcast_port := port; tc_pricer_host_address := phost;
    tc_pricer_port := pport; tc_fair_price_max_age_ms := max_age; tc_domain_type := domain;
    tc_order_update_interval_ms := interval; tc_flatten_on_shutdown := negb no_flatten;
    tc_shutdown_cancel_timeout_ms := cancel_timeout;
    tc_shutdown_flatten_timeout_ms := flatten_timeout;
    tc_shutdown_market_flatten := negb no_market_flatten;
    tc_shutdown_reduce_only := negb no_reduce_only;
    tc_order_record_save_path := named_save_path record_path name;
    tc_order_decision_save_path := named_save_path decision_path name;
    tc_timezone_minute_offset := timezone; tc_market_end_intraday_minute := market_end;
    tc_log_base_path := log_base; tc_log_path := named_log_path log_path name |}.

Definition market_args : list Argument := [
  DoubleArg "--min_tick_size" fzero; DoubleArg "--default_lot_size" fzero;
  FlagArg "--short_sell_unable"].
Definition market_init (p : ArgMap) : option MarketConfig :=
  tick ← arg_double p "--min_tick_size";
  lot ← arg_double p "--default_lot_size";
  exchange ← arg_string p "--exchange";
  short ← arg_flag p "--short_sell_unable";
  Some {| mc_name := ""; min_tick_size := tick; default_lot_size := lot; mc_exchange := exchange;
          tick_func := get_tick_func exchange; short_sell_unable := short |}.

Definition geuant_args : list Argument := [
  DoubleArg "--spread_const_bp" fzero; DoubleArg "--skew_ratio" fzero; FlagArg "--use_spread_cap";
  DoubleArg "--spread_cap_bp" fzero; FlagArg "--use_bbo_cap_buffer";
  DoubleArg "--bbo_cap_buffer_bp" fzero; int32_arg "--order_lots" 0;
  DoubleArg "--order_dollar" fzero; int32_arg "--position_limit_in_lots" 0;
  FlagArg "--position_in_dollar"; DoubleArg "--position_limit_in_dollar" fzero;
  DoubleArg "--order_buffer_bp" fzero; size_arg "--order_num" 0;
  DoubleArg "--order_interval_bp" fzero; FlagArg "--tick_based_order_interval";
  size_arg "--order_interval_ticks" 0].
Definition geuant_init (p : ArgMap) : option GeuantParams :=
  spread ← arg_double p "--spread_const_bp";
  skew ← arg_double p "--skew_ratio";
  use_cap ← arg_flag p "--use_spread_cap";
  cap ← arg_double p "--spread_cap_bp";
  use_bbo ← arg_flag p "--use_bbo_cap_buffer";
  bbo ← arg_double p "--bbo_cap_buffer_bp";
  lots ← arg_int p "--order_lots";
  dollar ← arg_double p "--order_dollar";
  limit_lots ← arg_int p "--position_limit_in_lots";
  in_dollar ← arg_flag p "--position_in_dollar";
  limit_dollar ← arg_double p "--position_limit_in_dollar";
  buffer ← arg_double p "--order_buffer_bp";
  num ← arg_int p "--order_num";
  interval ← arg_double p "--order_interval_bp";
  tick_based ← arg_flag p "--tick_based_order_interval";
  ticks ← arg_int p "--order_interval_ticks";
  Some {|
    gp_name := ""; spread_const_bp := spread; skew_ratio := skew; use_spread_cap := use_cap;
    spread_cap_bp := cap; use_bbo_cap_buffer := use_bbo; bbo_cap_buffer_bp := bbo;
    order_lots := lots; order_dollar := dollar; position_limit_in_lots := limit_lots;
    position_in_dollar := in_dollar; position_limit_in_dollar := limit_dollar;
    order_buffer_bp := buffer; order_num := Z.to_nat num; order_interval_bp := interval;
    tick_based_order_interval := tick_based; order_interval_ticks := ticks |}.
(** [set_strategy_specific_parser]; an unknown strategy registers nothing. *)
Definition strategy_args (strategy_name : string) : list Argument :=
  if decide (strategy_name = "Geuant") then geuant_args else [].
(** [init_strategy]: the exception, or [nullptr], or the strategy's parameters. *)
Definition init_strategy (p : ArgMap) : option (option GeuantParams) :=
  strategy_name ← arg_string p "--strategy_name";
  if decide (strategy_name = "Geuant") then Some <$> geuant_init p else Some None.

(** ** The main functions, up to building the service *)
Section main.
Context {J : Type} `{!JsonValue J} (load_json_file : string -> option J).
(** argparse: [parse_args] and [parse_known_args]; [None] prints the usage and exits. *)
Variables parse_args parse_known_args : list Argument -> list string -> option ArgMap.

Definition trader_flag_launch (argv : list string)
    : option (TraderConfig * MarketConfig * option GeuantParams) :=
  header ← parse_known_args trader_header_args argv;
  strategy_name ← arg_string header "--strategy_name";
  program ← parse_args (trader_args ++ market_args ++ strategy_args strategy_name) argv;
  config ← trader_init program;
  market_config ← market_init program;
  params ← init_strategy program;
  Some (config, market_config, params).
(** [None] is every way of not reaching the trading loop. *)
Definition trader_main (argv : list string) : option (TraderConfig * MarketConfig * GeuantParams) :=
  '(config, market_config, strategy) ← (if is_json_launch argv
    then trader_launch load_json_file argv else trader_flag_launch argv);
  params ← strategy;
  Some (config, market_config, params).

Definition pricer_flag_launch (argv : list string)
    : option (PricerLaunch * FactorConfig * option (option MicropriceFactor)) :=
  header ← parse_known_args factor_header_args argv;
  factor ← arg_string header "--factor_name";
  program ← parse_args (pricer_args ++ factor_args ++ factor_specific_args factor) argv;
  config ← pricer_init program;
  factor_config ← factor_init program;
  Some (config, factor_config, init_factor_from_args factor_config program).
(** The configuration, and what one call of [make_factor] gives. *)
Definition pricer_main (argv : list string)
    : option (PricerLaunch * FactorConfig * option (option MicropriceFactor)) :=
  if is_json_launch argv then
    '(config, factor) ← pricer_launch load_json_file argv;
    let built := match factor with
      | Some (factor_config, doc) => (factor_config, init_factor_from_json factor_config doc)
      | None => (FactorConfig_default, None)
      end in
    Some (config, built.1, built.2)
  else pricer_flag_launch argv.

Definition listener_main (argv : list string) : option ListenerLaunch :=
  if is_json_launch argv then listener_launch load_json_file argv
  else program ← parse_args listener_args argv; listener_init program.
End main.

(** ** The same configuration stated either way *)
Definition in_range (lo hi z : Z) : Prop := lo <= z <= hi.
(** What argparse can leave for a registered argument. *)
Definition admits (a : Argument) (v : ArgValue) : Prop :=
  match a, v with
  | StringArg _ _ choices, AString s => choices = [] \/ s ∈ choices
  | StringsArg _ _, AStrings _ | DoubleArg _ _, ADouble _ | FlagArg _, AFlag _ => True
  | IntArg _ lo hi _, AInt z => in_range lo hi z
  | _, _ => False
  end.
Definition parsed (args : list Argument) (p : ArgMap) : Prop :=
  Forall (fun a => exists v, p !! arg_name a = Some v /\ admits a v) args.

(** A key of a section with the flag that states it, and whether the flag states its
    opposite. *)
Definition Stated : Type := string * string * bool.
Definition json_value (opposite : bool) (v : ArgValue) : jv :=
  match v with
  | AString s => JStr s | AStrings l => JArr (JStr <$> l) | AInt z => JInt z | ADouble x => JNum x
  | AFlag b => JBool (xorb opposite b)
  end.
(** The section that states what the flags state, and a document that has it. *)
Definition section_of (keys : list Stated) (p : ArgMap) : list (string * jv) :=
  omap (fun '(key, flag, opposite) => (fun v => (key, json_value opposite v)) <$> p !! flag) keys.
Definition states (doc : jv) (section : string) (keys : list Stated) (p : ArgMap) : Prop :=
  j_member doc section = Some (JObj (section_of keys p)).

Definition listener_stated : list Stated := [
  ("exchange", "--exchange", false); ("region", "--region", false);
  ("market_type", "--market_type", false); ("is_night", "--is_night", false);
  ("timezone_minute_offset", "--timezone_minute_offset", false);
  ("market_end_intraday_minute", "--market_end_intraday_minute", false);
  ("products", "--products", false); ("name", "--name", false);
  ("products_db_base_path", "--products_db_base_path", false);
  ("orderbook_save_path", "--orderbook_save_path", false);
  ("trade_save_path", "--trade_save_path", false); ("no_orderbook_log", "--no-orderbook-log", false);
  ("no_public_trade_log", "--no-public-trade-log", false);
  ("orderbook_levels", "--orderbook_levels", false);
  ("product_info_refresh_sec", "--product_info_refresh_sec", false);
  ("broadcast_host_address", "--broadcast_host_address", false);
  ("broadcast_port", "--broadcast_port", false); ("domain_type", "--domain_type", false);
  ("log_path", "--log_path", false)].
Definition pricer_stated : list Stated := [
  ("fair_price_mode", "--fair_price_mode", false); ("products", "--products", false);
  ("broadcast_host_address", "--broadcast_host_address", false);
  ("broadcast_port", "--broadcast_port", false);
  ("publish_host_address", "--publish_host_address", false);
  ("publish_port", "--publish_port", false); ("publish_interval_ms", "--publish_interval_ms", false);
  ("timezone_minute_offset", "--timezone_minute_offset", false);
  ("market_end_intraday_minute", "--market_end_intraday_minute", false);
  ("no_pricer_log", "--no-pricer-log", false); ("name", "--name", false);
  ("log_path", "--log_path", false)].
Definition factor_stated : list Stated := [
  ("factor_name", "--factor_name", false); ("ema_alpha", "--factor_ema_alpha", false);
  ("cap_bp", "--factor_cap_bp", false)].
Definition microprice_stated : list Stated := [("imbalance_exponent", "--imbalance_exponent", false)].
Definition trader_stated : list Stated := [
  ("exchange", "--exchange", false); ("strategy_name", "--strategy_name", false);
  ("region", "--region", false); ("market_type", "--market_type", false);
  ("trade_products", "--trade_products", false);
  ("subscribe_products", "--subscribe_products", false);
  ("broadcast_host_address", "--broadcast_host_address", false);
  ("broadcast_port", "--broadcast_port", false);
  ("pricer_host_address", "--pricer_host_address", false); ("pricer_port", "--pricer_port", false);
  ("fair_price_max_age_ms", "--fair_price_max_age_ms", false);
  ("domain_type", "--domain_type", false);
  ("order_update_interval_ms", "--order_update_interval_ms", false);
  ("flatten_on_shutdown", "--no_flatten_on_shutdown", true);
  ("shutdown_cancel_timeout_ms", "--shutdown_cancel_timeout_ms", false);
  ("shutdown_flatten_timeout_ms", "--shutdown_flatten_timeout_ms", false);
  ("shutdown_market_flatten", "--no_shutdown_market_flatten", true);
  ("shutdown_reduce_only", "--no_shutdown_reduce_only", true); ("name", "--name", false);
  ("order_record_save_path", "--order_record_save_path", false);
  ("order_decision_save_path", "--order_decision_save_path", false);
  ("timezone_minute_offset", "--timezone_minute_offset", false);
  ("market_end_intraday_minute", "--market_end_intraday_minute", false);
  ("log_base_path", "--log_base_path", false); ("log_path", "--log_path", false)].
Definition market_stated : list Stated := [
  ("min_tick_size", "--min_tick_size", false); ("default_lot_size", "--default_lot_size", false);
  ("short_sell_unable", "--short_sell_unable", false)].
Definition geuant_stated : list Stated := [
  ("spread_const_bp", "--spread_const_bp", false); ("skew_ratio", "--skew_ratio", false);
  ("use_spread_cap", "--use_spread_cap", false); ("spread_cap_bp", "--spread_cap_bp", false);
  ("use_bbo_cap_buffer", "--use_bbo_cap_buffer", false);
  ("bbo_cap_buffer_bp", "--bbo_cap_buffer_bp", false); ("order_lots", "--order_lots", false);
  ("order_dollar", "--order_dollar", false);
  ("position_limit_in_lots", "--position_limit_in_lots", false);
  ("position_in_dollar", "--position_in_dollar", false);
  ("position_limit_in_dollar", "--position_limit_in_dollar", false);
  ("order_buffer_bp", "--order_buffer_bp", false); ("order_num", "--order_num", false);
  ("order_interval_bp", "--order_interval_bp", false);
  ("tick_based_order_interval", "--tick_based_order_interval", false);
  ("order_interval_ticks", "--order_interval_ticks", false)].

(** ** Steps of the two readers *)
Fixpoint stated (keys : list Stated) (key : string) : option (string * bool) :=
  match keys with
  | [] => None
  | (k, flag, opposite) :: keys => if decide (k = key) then Some (flag, opposite) else stated keys key
  end.

Lemma section_of_find keys p key flag opposite v :
  stated keys key = Some (flag, opposite) -> p !! flag = Some v ->
  jv_find (section_of keys p) key = Some (json_value opposite v).
Proof.
  intros Hk Hv. induction keys as [|[[k fl] o] keys IH]; [done|]. simpl in Hk.
  unfold section_of. cbn [omap list_omap]. case_decide as E.
  - injection Hk as -> ->. rewrite Hv. simpl. by rewrite decide_True.
  - specialize (IH Hk). destruct (p !! fl); simpl; [by rewrite decide_False|done].
Qed.

Lemma section_of_keys keys p (known : gset string) :
  forallb (fun k => bool_decide (k.1.1 ∈ known)) keys = true ->
  forallb (fun kv => bool_decide (kv.1 ∈ known)) (section_of keys p) = true.
Proof.
  induction keys as [|[[k fl] o] keys IH]; [done|]. unfold section_of.
  cbn [forallb omap list_omap]. intros [H1 H2]%andb_prop. specialize (IH H2).
  simpl in H1. destruct (p !! fl); [|done]. simpl. by rewrite H1.
Qed.

Section steps.
Context (keys : list Stated) (p : ArgMap).

Lemma stated_get {T B} (conv : jv -> option T) key out flag opposite v t s (f : T -> parser (J:=jv) B) :
  js_obj s = JObj (section_of keys p) -> stated keys key = Some (flag, opposite) ->
  p !! flag = Some v -> conv (json_value opposite v) = Some t ->
  (js_get conv key out ≫= f) s = f t (claim key s).
Proof.
  intros Hs Hk Hv Ht. apply (get_step _ _ _ (json_value opposite v)); [|by destruct v|done].
  rewrite Hs. by eapply section_of_find.
Qed.
Lemma unstated_get {T B} (conv : jv -> option T) key out s (f : T -> parser (J:=jv) B) :
  js_obj s = JObj (section_of keys p) -> forallb (fun k => negb (bool_decide (k.1.1 = key))) keys = true ->
  (js_get conv key out ≫= f) s = f out (claim key s).
Proof.
  intros Hs Hk. unfold mbind, parser_bind, js_get. rewrite Hs. simpl.
  replace (jv_find (section_of keys p) key) with (@None jv); [done|]. symmetry. revert Hk.
  clear. induction keys as [|[[k fl] o] ks IH]; [done|]. unfold section_of.
  cbn [forallb omap list_omap]. intros [H1%negb_true_iff%bool_decide_eq_false H2]%andb_prop.
  destruct (p !! fl); simpl; [by rewrite decide_False by done; apply IH|by apply IH].
Qed.
Lemma stated_has {B} key flag opposite v s (f : bool -> parser (J:=jv) B) :
  js_obj s = JObj (section_of keys p) -> stated keys key = Some (flag, opposite) ->
  p !! flag = Some v -> (js_has key ≫= f) s = f true s.
Proof.
  intros Hs Hk Hv. apply has_step. rewrite Hs. simpl. rewrite (section_of_find _ _ _ _ _ _ Hk Hv).
  by destruct v.
Qed.
Lemma stated_specs {B} key out flag l s (f : list ProductSpec -> parser (J:=jv) B) :
  js_obj s = JObj (section_of keys p) -> stated keys key = Some (flag, false) ->
  p !! flag = Some (AStrings l) ->
  (get_specs key out ≫= f) s = f (product_spec_from_token <$> l) (claim key (claim key s)).
Proof.
  intros Hs Hk Hv. pose proof (section_of_find _ _ _ _ _ _ Hk Hv) as H.
  pose proof (json_strings l) as Hj. change (j_strings (JArr (JStr <$> l)) = Some l) in Hj.
  change (j_member (JObj (section_of keys p)) key = Some (JArr (JStr <$> l))) in H.
  rewrite <- Hs in H.
  unfold get_specs, get_strings, mbind, parser_bind, js_has, js_get. rewrite H.
  cbn -[j_strings j_member claim]. rewrite H, Hj. done.
Qed.
Lemma stated_done {B} s (f : unit -> parser (J:=jv) B) :
  js_obj s = JObj (section_of keys p) ->
  forallb (fun k => bool_decide (k.1.1 ∈ js_known s)) keys = true ->
  (js_done ≫= f) s = f tt s.
Proof. intros Hs Hk. apply done_step. rewrite Hs. by apply section_of_keys. Qed.
Lemma stated_section {A} (q : parser (J:=jv) A) doc section :
  states doc section keys p ->
  in_section q section doc = fst <$> q {| js_obj := JObj (section_of keys p); js_known := ∅ |}.
Proof. intros H. unfold in_section, open_section. by rewrite H. Qed.

Lemma string_step {B} n s (f : string -> option B) :
  p !! n = Some (AString s) -> (arg_string p n ≫= f) = f s.
Proof. intros H. unfold arg_string. by rewrite H. Qed.
Lemma strings_step {B} n l (f : list string -> option B) :
  p !! n = Some (AStrings l) -> (arg_strings p n ≫= f) = f l.
Proof. intros H. unfold arg_strings. by rewrite H. Qed.
Lemma int_step {B} n z (f : Z -> option B) : p !! n = Some (AInt z) -> (arg_int p n ≫= f) = f z.
Proof. intros H. unfold arg_int. by rewrite H. Qed.
Lemma double_step {B} n x (f : double -> option B) :
  p !! n = Some (ADouble x) -> (arg_double p n ≫= f) = f x.
Proof. intros H. unfold arg_double. by rewrite H. Qed.
Lemma flag_step {B} n b (f : bool -> option B) : p !! n = Some (AFlag b) -> (arg_flag p n ≫= f) = f b.
Proof. intros H. unfold arg_flag. by rewrite H. Qed.
Lemma port_step {B} n z (f : Z -> option B) :
  p !! n = Some (AInt z) -> (arg_port p n ≫= f) = f (wrap_u 16 z).
Proof. intros H. unfold arg_port, arg_int. by rewrite H. Qed.
Lemma arg_specs_step {B} n l (f : list ProductSpec -> option B) :
  p !! n = Some (AStrings l) -> (arg_specs p n ≫= f) = f (product_spec_from_token <$> l).
Proof. intros H. unfold arg_specs, arg_strings. by rewrite H. Qed.
End steps.

(** Read the value of every registered argument off [parsed]. *)
Ltac take_args H :=
  lazymatch type of H with
  | Forall _ [] => clear H
  | Forall _ (_ :: _) =>
      let Ha := fresh "Ha" in let Hl := fresh "Hl" in
      apply Forall_cons in H as [Ha H];
      let v := fresh "v" in
      destruct Ha as (v & Hl & Ha); unfold int32_arg, int64_arg, size_arg in Ha, Hl; cbn [arg_name] in Hl;
      destruct v; cbn [admits] in Ha; try contradiction; take_args H
  end.
Ltac init_steps :=
  repeat first
    [ erewrite string_step by eassumption | erewrite int_step by eassumption
    | erewrite double_step by eassumption | erewrite flag_step by eassumption
    | erewrite port_step by eassumption | erewrite arg_specs_step by eassumption
    | erewrite strings_step by eassumption ].
Ltac parser_steps :=
  repeat lazymatch goal with
  | |- _ = fst <$> (js_get _ _ _ ≫= _) _ =>
      erewrite stated_get; [|reflexivity|reflexivity|eassumption|reflexivity]
  | |- _ = fst <$> (get_specs _ _ ≫= _) _ =>
      erewrite stated_specs; [|reflexivity|reflexivity|eassumption]
  | |- _ = fst <$> (js_skip _ ≫= _) _ => rewrite skip_step
  end.
(** The last step of a reader: every key of the section is known. *)
Ltac forms_done keys p :=
  rewrite (stated_done keys p) by first [reflexivity | by vm_compute];
  cbv zeta; cbn [fmap option_fmap option_map mret parser_ret fst];
  rewrite ?wrap_s_id by (unfold in_range in *; lia); rewrite ?wrap_u_id by (unfold in_range in *; lia);
  rewrite ?xorb_false_l, ?xorb_true_l; done.

Lemma listener_forms p doc : parsed listener_args p -> states doc "listener_config" listener_stated p ->
  listener_init p = in_section (parse_listener_config ListenerLaunch_default) "listener_config"
    doc.
Proof.
  intros H Hd. unfold parsed, listener_args in H. take_args H. rewrite (stated_section _ _ _ _ _ Hd).
  unfold listener_init, parse_listener_config. getters. init_steps. parser_steps.
  forms_done listener_stated p.
Qed.

Lemma pricer_forms p doc : parsed pricer_args p -> states doc "pricer_config" pricer_stated p ->
  pricer_init p = in_section (parse_pricer_config PricerLaunch_default) "pricer_config"
    doc.
Proof.
  intros H Hd. unfold parsed, pricer_args in H. take_args H. rewrite (stated_section _ _ _ _ _ Hd).
  unfold pricer_init, parse_pricer_config. getters. init_steps.
  rewrite (stated_has pricer_stated p _ "--fair_price_mode" false (AString s)) by done.
  cbn iota. rewrite bind_map. parser_steps. forms_done pricer_stated p.
Qed.

Lemma factor_forms p doc : parsed factor_args p -> states doc "factor_config" factor_stated p ->
  factor_init p = in_section (parse_factor_config FactorConfig_default) "factor_config"
    doc.
Proof.
  intros H Hd. unfold parsed, factor_args, factor_header_args in H. cbn [app] in H. take_args H.
  rewrite (stated_section _ _ _ _ _ Hd). unfold factor_init, parse_factor_config. getters. init_steps.
  rewrite (unstated_get factor_stated p) by done. parser_steps. forms_done factor_stated p.
Qed.

Lemma microprice_forms p doc : parsed microprice_args p -> states doc "factor_params" microprice_stated p ->
  microprice_init p = in_section (parse_microprice_params {| imbalance_exponent := fone |})
    "factor_params" doc.
Proof.
  intros H Hd. unfold parsed, microprice_args in H. take_args H. rewrite (stated_section _ _ _ _ _ Hd).
  unfold microprice_init, parse_microprice_params. getters. init_steps. parser_steps.
  forms_done microprice_stated p.
Qed.

Lemma trader_forms p doc : parsed trader_args p -> states doc "trader_config" trader_stated p ->
  trader_init p = in_section (parse_trader_config TraderConfig_default) "trader_config"
    doc.
Proof.
  intros H Hd. unfold parsed, trader_args, trader_header_args in H. cbn [app] in H. take_args H.
  rewrite (stated_section _ _ _ _ _ Hd). unfold trader_init, parse_trader_config. getters. init_steps. parser_steps.
  rewrite (stated_has trader_stated p _ "--trade_products" false (AStrings l)) by done.
  cbn iota. rewrite bind_map.
  rewrite (stated_get trader_stated p j_strings _ _ "--trade_products" false (AStrings l) l)
    by first [done | apply json_strings].
  rewrite skip_step.
  rewrite (stated_get trader_stated p j_strings _ _ "--subscribe_products" false (AStrings l0) l0)
    by first [done | apply json_strings].
  parser_steps. forms_done trader_stated p.
Qed.

Lemma market_forms p doc exchange : parsed market_args p -> p !! "--exchange" = Some (AString exchange) ->
  states doc "market_config" market_stated p ->
  market_init p = in_section (parse_market_config MarketConfig_default exchange) "market_config"
    doc.
Proof.
  intros H He Hd. unfold parsed, market_args in H. take_args H. rewrite (stated_section _ _ _ _ _ Hd).
  unfold market_init, parse_market_config. getters. init_steps.
  rewrite (unstated_get market_stated p) by done. parser_steps.
  rewrite (unstated_get market_stated p) by done. parser_steps. forms_done market_stated p.
Qed.

Lemma geuant_forms p doc : parsed geuant_args p -> states doc "strategy_params" geuant_stated p ->
  geuant_init p = in_section (parse_geuant_params GeuantParams_default) "strategy_params"
    doc.
Proof.
  intros H Hd. unfold parsed, geuant_args in H. take_args H. rewrite (stated_section _ _ _ _ _ Hd).
  unfold geuant_init, parse_geuant_params. getters. init_steps.
  rewrite (unstated_get geuant_stated p) by done. parser_steps. forms_done geuant_stated p.
Qed.

(** ** The two launch forms *)
Lemma parsed_app args args' p : parsed (args ++ args') p -> parsed args p /\ parsed args' p.
Proof. apply Forall_app. Qed.

Lemma arg_string_Some p n s : arg_string p n = Some s -> p !! n = Some (AString s).
Proof. unfold arg_string. destruct (p !! n) as [[]|]; naive_solver. Qed.
Lemma trader_init_names p c strategy : p !! "--strategy_name" = Some (AString strategy) ->
  trader_init p = Some c ->
  tc_strategy_name c = strategy /\ p !! "--exchange" = Some (AString (tc_exchange c)).
Proof.
  intros Hs. unfold trader_init. destruct (arg_string p "--exchange") as [e|] eqn:He; [|done].
  cbn [mbind option_bind]. rewrite (string_step p _ strategy) by done. intros H.
  repeat match type of H with
  | (?m ≫= _) = Some _ => destruct m; cbn [mbind option_bind] in H; [|done]
  end.
  injection H as <-. split; [done|]. by apply arg_string_Some.
Qed.

Section agree.
Context (load_json_file : string -> option jv).
Context (parse_args parse_known_args : list Argument -> list string -> option ArgMap).

(** argparse on a flag-based command line: the header parse finds [name] under [flag], the
    full parse of the arguments registered for it gives [p], of the registered types, and
    agrees with the header. *)
Record argparsed (header : list Argument) (flag : string) (args : string -> list Argument)
    (argv : list string) (name : string) (p : ArgMap) : Prop := {
  ap_flags : is_json_launch argv = false;
  ap_header : exists h, parse_known_args header argv = Some h /\ arg_string h flag = Some name;
  ap_program : parse_args (args name) argv = Some p;
  ap_parsed : parsed (args name) p;
  ap_same : p !! flag = Some (AString name) }.

Lemma launch_paths_files files :
  Forall (fun f => is_dash f = false) files -> launch_paths files = Some files.
Proof. induction 1 as [|f fs Hf _ IH]; simpl; [done|]. by rewrite Hf, IH. Qed.
Lemma json_launch_files prog files : files <> [] -> Forall (fun f => is_dash f = false) files ->
  is_json_launch (prog :: files) = true /\ json_launch_paths (prog :: files) = Some files.
Proof.
  intros Hne Hf. split; [|by apply launch_paths_files]. destruct files as [|f fs]; [done|].
  apply Forall_cons in Hf as [Hf _]. simpl. by rewrite Hf.
Qed.

Definition trader_program_args (strategy : string) : list Argument :=
  trader_args ++ market_args ++ strategy_args strategy.
Definition pricer_program_args (factor : string) : list Argument :=
  pricer_args ++ factor_args ++ factor_specific_args factor.

(** C20: A trader started with flags is the trader started with the three files that state
    the same values: every configuration field, the market's units and the strategy's
    parameters come out equal, or neither starts. *)
Theorem trader_forms_agree argv strategy p prog tf mf sf tdoc mdoc sdoc :
  argparsed trader_header_args "--strategy_name" trader_program_args argv strategy p ->
  Forall (fun f => is_dash f = false) [tf; mf; sf] ->
  load_json_file tf = Some tdoc -> load_json_file mf = Some mdoc -> load_json_file sf = Some sdoc ->
  states tdoc "trader_config" trader_stated p -> states mdoc "market_config" market_stated p ->
  states sdoc "strategy_params" geuant_stated p ->
  trader_main load_json_file parse_args parse_known_args argv =
  trader_main load_json_file parse_args parse_known_args [prog; tf; mf; sf].
Proof.
  intros [Hf (h&Hh&Hn) Hp Ht Hsame] Hfiles Hlt Hlm Hls Hst Hsm Hss.
  destruct (json_launch_files prog [tf; mf; sf]) as [Hj Hpaths]; [done..|].
  apply parsed_app in Ht as [Htr [Hma Hsa]%parsed_app].
  unfold trader_main. rewrite Hf, Hj. unfold trader_flag_launch, trader_launch.
  rewrite Hh, Hpaths. cbn [mbind option_bind]. rewrite Hn. cbn [mbind option_bind].
  fold (trader_program_args strategy). rewrite Hp, Hlt. cbn [mbind option_bind].
  rewrite (trader_forms p tdoc Htr Hst).
  destruct (in_section (parse_trader_config TraderConfig_default) "trader_config" tdoc) as [c|] eqn:Hc;
    cbn [mbind option_bind]; [|done].
  assert (tc_strategy_name c = strategy /\ p !! "--exchange" = Some (AString (tc_exchange c))) as [Hname Hex].
  { rewrite <- (trader_forms p tdoc Htr Hst) in Hc. revert Hc. by apply trader_init_names. }
  rewrite Hlm. cbn [mbind option_bind]. rewrite (market_forms p mdoc _ Hma Hex Hsm).
  destruct (in_section (parse_market_config _ _) "market_config" mdoc) as [m|];
    cbn [mbind option_bind]; [|done].
  rewrite Hls. unfold init_strategy, init_strategy_from_json, arg_string. rewrite Hsame, Hname.
  unfold strategy_args in Hsa. cbn [mbind option_bind]. case_decide; [|done].
  by rewrite (geuant_forms p sdoc Hsa Hss).
Qed.

(** The pricer likewise, its factor and the factor's own parameters in one file. *)
Theorem pricer_forms_agree argv factor p prog pf ff pdoc fdoc :
  argparsed factor_header_args "--factor_name" pricer_program_args argv factor p ->
  Forall (fun f => is_dash f = false) [pf; ff] ->
  load_json_file pf = Some pdoc -> load_json_file ff = Some fdoc ->
  states pdoc "pricer_config" pricer_stated p -> states fdoc "factor_config" factor_stated p ->
  states fdoc "factor_params" microprice_stated p ->
  pricer_main load_json_file parse_args parse_known_args argv =
  pricer_main load_json_file parse_args parse_known_args [prog; pf; ff].
Proof.
  intros [Hf (h&Hh&Hn) Hp Ht Hsame] Hfiles Hlp Hlf Hsp Hsf Hsm.
  destruct (json_launch_files prog [pf; ff]) as [Hj Hpaths]; [done..|].
  apply parsed_app in Ht as [Hpr [Hfa Hsa]%parsed_app].
  unfold pricer_main. rewrite Hf, Hj. unfold pricer_flag_launch, pricer_launch.
  rewrite Hh, Hpaths. cbn [mbind option_bind]. rewrite Hn. cbn [mbind option_bind].
  fold (pricer_program_args factor). rewrite Hp, Hlp. cbn [mbind option_bind].
  rewrite (pricer_forms p pdoc Hpr Hsp). destruct (in_section _ "pricer_config" pdoc) as [c|];
    cbn [mbind option_bind]; [|done].
  rewrite Hlf. cbn [mbind option_bind]. rewrite (factor_forms p fdoc Hfa Hsf).
  destruct (in_section _ "factor_config" fdoc) as [fc|] eqn:Hc; cbn [mbind option_bind fst snd]; [|done].
  do 2 f_equal. unfold init_factor_from_args, init_factor_from_json.
  assert (factor_name fc = factor) as ->.
  { rewrite <- (factor_forms p fdoc Hfa Hsf) in Hc. revert Hc. unfold factor_init.
    rewrite (string_step p _ factor) by done.
    destruct (arg_double p "--factor_ema_alpha"), (arg_double p "--factor_cap_bp");
      cbn [mbind option_bind]; by intros [= <-]. }
  unfold factor_specific_args in Hsa. case_decide; [|done].
  by rewrite (microprice_forms p fdoc Hsa Hsm).
Qed.

Theorem listener_forms_agree argv p prog lf ldoc :
  is_json_launch argv = false -> parse_args listener_args argv = Some p -> parsed listener_args p ->
  is_dash lf = false -> load_json_file lf = Some ldoc ->
  states ldoc "listener_config" listener_stated p ->
  listener_main load_json_file parse_args argv = listener_main load_json_file parse_args [prog; lf].
Proof.
  intros Hf Hp Ht Hd Hl Hs. destruct (json_launch_files prog [lf]) as [Hj Hpaths]; [done|by repeat constructor|].
  unfold listener_main. rewrite Hf, Hj, Hp. unfold listener_launch. rewrite Hpaths.
  cbn [mbind option_bind]. rewrite Hl. by apply listener_forms.
Qed.
End agree.

(** A program started with no flag is the program started with empty sections. *)
Lemma no_flags_no_keys :
  trader_init (defaults trader_args) = in_section (parse_trader_config TraderConfig_default)
    "trader_config" (JObj [("trader_config", JObj [])]) /\
  geuant_init (defaults geuant_args) = in_section (parse_geuant_params GeuantParams_default)
    "strategy_params" (JObj [("strategy_params", JObj [])]) /\
  listener_init (defaults listener_args) = in_section (parse_listener_config ListenerLaunch_default)
    "listener_config" (JObj [("listener_config", JObj [])]) /\
  pricer_init (defaults pricer_args) = in_section (parse_pricer_config PricerLaunch_default)
    "pricer_config" (JObj [("pricer_config", JObj [])]) /\
  factor_init (defaults factor_args) = in_section (parse_factor_config FactorConfig_default)
    "factor_config" (JObj [("factor_config", JObj [])]).
Proof. by vm_compute. Qed.

(** ** Witnesses *)
Module SampleLaunch.
(** [--name 1 --no_flatten_on_shutdown --order_lots 2 ...]: argparse with these overrides. *)
Definition overrides : ArgMap := {[
  "--name" := AString "1"; "--no_flatten_on_shutdown" := AFlag true; "--order_lots" := AInt 2;
  "--min_tick_size" := ADouble (of_decimal false 1 (-1));
  "--trade_products" := AStrings ["BTCUSDT:futures"; "ETHUSDT"] ]}.
Definition argparse (args : list Argument) (_ : list string) : option ArgMap :=
  Some (overrides ∪ defaults args).
Definition program : ArgMap := overrides ∪ defaults (trader_program_args "Geuant").
Definition file (f : string) : option jv :=
  if decide (f = "t.json") then Some (JObj [("trader_config", JObj (section_of trader_stated program))])
  else if decide (f = "m.json") then Some (JObj [("market_config", JObj (section_of market_stated program))])
  else if decide (f = "s.json") then Some (JObj [("strategy_params", JObj (section_of geuant_stated program))])
  else None.
End SampleLaunch.

Lemma sample_parsed : parsed (trader_program_args "Geuant") SampleLaunch.program.
Proof.
  repeat constructor; eexists; (split; [vm_compute; reflexivity|]); cbn; try done; try by left.
  all: unfold in_range; lia.
Qed.

Lemma trader_forms_agree_witness :
  exists c m g,
    trader_main SampleLaunch.file SampleLaunch.argparse SampleLaunch.argparse ["trader"; "--name"; "1"] =
      Some (c, m, g) /\
    trader_main SampleLaunch.file SampleLaunch.argparse SampleLaunch.argparse
      ["trader"; "t.json"; "m.json"; "s.json"] = Some (c, m, g) /\
    tc_log_path c = "logs/trader/1/trader.log" /\ tc_flatten_on_shutdown c = false /\ order_lots g = 2.
Proof.
  do 3 eexists. split; [vm_compute; reflexivity|]. split; [|by vm_compute].
  rewrite <- (trader_forms_agree SampleLaunch.file SampleLaunch.argparse SampleLaunch.argparse
    ["trader"; "--name"; "1"] "Geuant" SampleLaunch.program "trader" "t.json" "m.json" "s.json"
    (JObj [("trader_config", JObj (section_of trader_stated SampleLaunch.program))])
    (JObj [("market_config", JObj (section_of market_stated SampleLaunch.program))])
    (JObj [("strategy_params", JObj (section_of geuant_stated SampleLaunch.program))]));
    [vm_compute; reflexivity| |by repeat constructor|reflexivity..].
  split; [done| |reflexivity|exact sample_parsed|by vm_compute].
  eexists. split; [reflexivity|by vm_compute].
Defined.
