(* ===== verification/HttpClient.v ===== *)
(** * HttpClient: one HTTP exchange

    [connection_handlers/rest/rest_client.{hpp,cpp}]: the options [perform] sets on its curl
    handle, the two callbacks that collect the answer, the four methods built on it, and
    percent encoding.  libcurl is a parameter: it is given the options and gives the
    header lines and the chunks of the body, in order, with the outcome of the transfer. *)
From Stdlib Require Import Ascii.
From S2P Require Import Prelude Double Text Messages.

#[local] Open Scope string_scope.
#[local] Open Scope list_scope.
#[local] Open Scope Z_scope.

(** ** Requests and responses *)
Inductive HttpMethod := GET | POST | PUT | DELETE.
Record HttpRequest := {
  hr_method : HttpMethod; hr_url : string; hr_body : option string;
  hr_headers : gmap string string }.
Record RestResponse := {
  rr_success : bool; rr_error_msg : string; rr_status_code : Z; rr_body : string;
  rr_headers : gmap string string }.
Definition failed (error : string) : RestResponse := {|
  rr_success := false; rr_error_msg := error; rr_status_code := 0; rr_body := "";
  rr_headers := ∅ |}.
(** [response.success && response.status_code == 200]. *)
Definition rr_ok (r : RestResponse) : bool := rr_success r && (rr_status_code r =? 200).

(** [RestClient::url_encode]: RFC 3986 percent encoding. *)
Definition hex_upper (n : Z) : ascii :=
  if n <? 10 then ascii_of_N (Z.to_N (48 + n)) else ascii_of_N (Z.to_N (55 + n)).
Definition is_alnum (a : ascii) : bool :=
  let n := N_of_ascii a in
  ((48 <=? n) && (n <=? 57) || (65 <=? n) && (n <=? 90) || (97 <=? n) && (n <=? 122))%N.
Definition unreserved (a : ascii) : bool :=
  is_alnum a || Ascii.eqb a "-" || Ascii.eqb a "_" || Ascii.eqb a "." || Ascii.eqb a "~".
Fixpoint url_encode (s : string) : string :=
  match s with
  | EmptyString => ""
  | String a s =>
      if unreserved a then String a (url_encode s)
      else
        let c := Z.of_N (N_of_ascii a) in
        String "%" (String (hex_upper (c / 16)) (String (hex_upper (c mod 16)) (url_encode s)))
  end.

(** [RestClient::post] supplies a content type the caller left out. *)
Definition post_headers (headers : gmap string string) : gmap string string :=
  match headers !! "content-type" with
  | Some _ => headers
  | None => <["content-type" := "application/json"]> headers
  end.

(** ** The header callback *)

(** The characters of [" \t\r\n"], and cutting them off either end. *)
Definition blank (a : ascii) : bool :=
  Ascii.eqb a " " || Ascii.eqb a "009" || Ascii.eqb a "013" || Ascii.eqb a "010".
Fixpoint ltrim (s : string) : string :=
  match s with
  | String a s' => if blank a then ltrim s' else s
  | EmptyString => ""
  end.
Fixpoint rtrim (s : string) : string :=
  match s with
  | String a s' =>
      let r := rtrim s' in if blank a && bool_decide (r = "") then "" else String a r
  | EmptyString => ""
  end.
Definition trim (s : string) : string := rtrim (ltrim s).

Definition header_callback (line : string) (headers : gmap string string) : gmap string string :=
  match split_at ":" line with
  | None => headers
  | Some (key, value) =>
      let key := trim key in let value := trim value in
      if decide (key = "" \/ value = "") then headers else <[key := value]> headers
  end.
Definition write_callback (chunk data : string) : string := data +:+ chunk.

(** ** The transfer *)

(** The options set on the handle. *)
Record CurlOptions := {
  co_url : string; co_post : bool; co_custom_request : option string;
  co_post_fields : option string; co_http_header : list string;
  co_ssl_verify_peer : Z; co_ssl_verify_host : Z; co_timeout : Z }.
(** What a transfer calls back with, and how it ends: [None] is [CURLE_OK]. *)
Inductive CurlEvent := HeaderData (line : string) | BodyData (chunk : string).
Record CurlOutcome := {
  cu_events : list CurlEvent; cu_error : option string; cu_response_code : Z }.

Record RestClient := { curl_handle : bool; timeout_sec : Z }.
Definition set_timeout_sec (seconds : Z) (c : RestClient) : RestClient :=
  {| curl_handle := curl_handle c; timeout_sec := if 0 <? seconds then seconds else 1 |}.

Definition method_name (m : HttpMethod) : string :=
  match m with GET => "GET" | POST => "POST" | PUT => "PUT" | DELETE => "DELETE" end.
Definition options_of (timeout : Z) (r : HttpRequest) : CurlOptions := {|
  co_url := hr_url r;
  co_post := bool_decide (method_name (hr_method r) = "POST");
  co_custom_request :=
    if decide (method_name (hr_method r) = "POST") then None
    else if decide (method_name (hr_method r) = "GET") then None
    else Some (method_name (hr_method r));
  co_post_fields := hr_body r;
  co_http_header := (fun kv => kv.1 +:+ ": " +:+ kv.2) <$> skvs (hr_headers r);
  co_ssl_verify_peer := 1; co_ssl_verify_host := 2; co_timeout := timeout |}.

(** The two callbacks, over what they write to: the body and the header map. *)
Definition curl_callback (acc : string * gmap string string) (e : CurlEvent)
    : string * gmap string string :=
  match e with
  | HeaderData line => (acc.1, header_callback line acc.2)
  | BodyData chunk => (write_callback chunk acc.1, acc.2)
  end.

Section client.
Context (curl_easy_perform : CurlOptions -> CurlOutcome).

Definition perform (c : RestClient) (r : HttpRequest) : RestResponse :=
  if negb (curl_handle c) then failed "CURL not initialized"
  else
    let res := curl_easy_perform (options_of (timeout_sec c) r) in
    let '(body, headers) := foldl curl_callback ("", ∅) (cu_events res) in
    match cu_error res with
    | Some error => failed ("CURL request failed: " +:+ error)
    | None => {| rr_success := true; rr_error_msg := "";
                 rr_status_code := wrap_s 32 (cu_response_code res);
                 rr_body := body; rr_headers := headers |}
    end.

(** [RestClient::get], [post], [put], [del]. *)
Definition http_get (c : RestClient) (url : string) (headers : gmap string string) : RestResponse :=
  perform c {| hr_method := GET; hr_url := url; hr_body := None; hr_headers := headers |}.
Definition http_post (c : RestClient) (url body : string) (headers : gmap string string) : RestResponse :=
  perform c {| hr_method := POST; hr_url := url; hr_body := Some body; hr_headers := post_headers headers |}.
Definition http_put (c : RestClient) (url body : string) (headers : gmap string string) : RestResponse :=
  perform c {| hr_method := PUT; hr_url := url; hr_body := Some body; hr_headers := headers |}.
Definition http_del (c : RestClient) (url : string) (headers : gmap string string) : RestResponse :=
  perform c {| hr_method := DELETE; hr_url := url; hr_body := None; hr_headers := headers |}.
End client.

(** ** What the options ask for: libcurl's documented reading *)
Definition wire_method (o : CurlOptions) : string :=
  match co_custom_request o with
  | Some m => m
  | None => if co_post o || bool_decide (is_Some (co_post_fields o)) then "POST" else "GET"
  end.

(** ** Percent encoding *)
Definition hex_value (a : ascii) : Z :=
  let n := Z.of_N (N_of_ascii a) in if n <? 58 then n - 48 else n - 55.
Fixpoint url_decode (s : string) : string :=
  match s with
  | String a s' =>
      if Ascii.eqb a "%" then
        match s' with
        | String h (String l s'') =>
            String (ascii_of_N (Z.to_N (hex_value h * 16 + hex_value l))) (url_decode s'')
        | _ => s
        end
      else String a (url_decode s')
  | EmptyString => ""
  end.

Lemma hex_upper_value n : 0 <= n < 16 -> hex_value (hex_upper n) = n.
Proof.
  intros H. unfold hex_value, hex_upper.
  destruct (Z.ltb_spec n 10); rewrite N_ascii_embedding by lia;
    rewrite Z2N.id by lia; match goal with |- context [?x <? 58] => destruct (Z.ltb_spec x 58) end; lia.
Qed.
Lemma byte_value a : 0 <= Z.of_N (N_of_ascii a) < 256.
Proof. destruct a as [[] [] [] [] [] [] [] []]; vm_compute; split; congruence. Qed.

Lemma url_decode_encode s : url_decode (url_encode s) = s.
Proof.
  induction s as [|a s IH]; [done|]. cbn [url_encode].
  destruct (unreserved a) eqn:Hu.
  - cbn [url_decode]. destruct (Ascii.eqb_spec a "%") as [->|_]; [done|]. by rewrite IH.
  - set (c := Z.of_N (N_of_ascii a)). pose proof (byte_value a).
    assert (0 <= c / 16 < 16 /\ 0 <= c mod 16 < 16) as [H1 H2].
    { split; [|by apply Z.mod_pos_bound]. split; [apply Z.div_pos; lia|].
      apply Z.div_lt_upper_bound; lia. }
    cbn [url_decode]. rewrite Ascii.eqb_refl, !hex_upper_value, IH by done.
    f_equal. replace (c / 16 * 16 + c mod 16) with c by (rewrite (Z_div_mod_eq_full c 16) at 1; lia).
    unfold c. by rewrite N2Z.id, ascii_N_embedding.
Qed.

(** ** Header lines *)
Definition all_blank (s : string) : Prop := forall a, In a (String.list_ascii_of_string s) -> blank a = true.
(** A name or value with nothing to cut off. *)
Definition trimmed (s : string) : Prop := s <> "" /\ ltrim s = s /\ rtrim s = s.

Lemma ltrim_pad p s : all_blank p -> ltrim (p +:+ s) = ltrim s.
Proof.
  induction p as [|a p IH]; intros Hp; [done|]. rewrite string_app_cons. cbn [ltrim].
  rewrite (Hp a) by (by left). apply IH. intros b Hb. apply Hp. by right.
Qed.
Lemma ltrim_core k s : k <> "" -> ltrim k = k -> ltrim (k +:+ s) = k +:+ s.
Proof.
  destruct k as [|a k]; [done|]. intros _. rewrite string_app_cons. cbn [ltrim].
  destruct (blank a); [|done]. intros H. exfalso.
  assert (forall s, (String.length (ltrim s) <= String.length s)%nat) as Hlen.
  { clear. induction s as [|a s IH]; [done|]. simpl. destruct (blank a); simpl; lia. }
  specialize (Hlen k). rewrite H in Hlen. simpl in Hlen. lia.
Qed.
Lemma rtrim_blank p : all_blank p -> rtrim p = "".
Proof.
  induction p as [|a p IH]; intros Hp; [done|]. cbn [rtrim].
  rewrite IH by (intros b Hb; apply Hp; by right). by rewrite (Hp a) by (by left).
Qed.
Lemma rtrim_pad s p : all_blank p -> rtrim (s +:+ p) = rtrim s.
Proof.
  intros Hp. induction s as [|a s IH]; [by apply rtrim_blank|].
  rewrite string_app_cons. cbn [rtrim]. by rewrite IH.
Qed.
Lemma trim_padded p k q : all_blank p -> trimmed k -> all_blank q -> trim (p +:+ (k +:+ q)) = k.
Proof.
  intros Hp (Hne&Hl&Hr) Hq. unfold trim. by rewrite ltrim_pad, ltrim_core, rtrim_pad.
Qed.

(** What a header line says: a field, with blanks wherever they are allowed; or nothing (the
    status line, the empty line, a field without a value). *)
Inductive header_says : string -> option (string * string) -> Prop :=
  | hs_field p k q p' v q' : all_blank p -> trimmed k -> all_blank q ->
      (forall a, In a (String.list_ascii_of_string (p +:+ (k +:+ q))) -> a <> ":"%char) ->
      all_blank p' -> trimmed v -> all_blank q' ->
      header_says ((p +:+ (k +:+ q)) +:+ String ":" (p' +:+ (v +:+ q'))) (Some (k, v))
  | hs_plain line : (forall a, In a (String.list_ascii_of_string line) -> a <> ":"%char) ->
      header_says line None.
Definition add_header (m : gmap string string) (o : option (string * string)) : gmap string string :=
  match o with Some (k, v) => <[k := v]> m | None => m end.

Lemma header_callback_says line o m : header_says line o -> header_callback line m = add_header m o.
Proof.
  unfold header_callback. destruct 1 as [p k q p' v q' Hp Hk Hq Hc Hp' Hv Hq'|line Hc].
  - rewrite split_at_app, !trim_padded by done. cbv zeta.
    rewrite decide_False; [done|]. destruct Hk, Hv. by intros [].
  - assert (split_at ":" line = None) as ->; [|done].
    induction line as [|a line IH]; [done|]. simpl.
    destruct (Ascii.eqb_spec a ":") as [->|_]; [by destruct (Hc ":"%char (or_introl eq_refl))|].
    by rewrite IH by (intros b Hb; apply Hc; by right).
Qed.

(** The header lines and the body of a transfer. *)
Definition header_lines (es : list CurlEvent) : list string :=
  omap (fun e => match e with HeaderData line => Some line | _ => None end) es.
Definition body_of (es : list CurlEvent) : string :=
  foldr String.app "" (omap (fun e => match e with BodyData c => Some c | _ => None end) es).

Lemma curl_callbacks es b m :
  foldl curl_callback (b, m) es =
  (b +:+ body_of es, foldl (fun m line => header_callback line m) m (header_lines es)).
Proof.
  revert b m. induction es as [|[line|chunk] es IH]; intros b m; simpl.
  - by rewrite string_app_nil_r.
  - by rewrite IH.
  - rewrite IH. unfold write_callback, body_of. simpl. by rewrite string_app_assoc.
Qed.

Lemma headers_said lines os m :
  Forall2 header_says lines os ->
  foldl (fun m line => header_callback line m) m lines = foldl add_header m os.
Proof.
  intros H. revert m. induction H as [|line o lines os Hl _ IH]; intros m; [done|]. simpl.
  by rewrite (header_callback_says line o), IH.
Qed.

(** The value a line gives field [k]. *)
Definition field_value (k : string) (o : option (string * string)) : option string :=
  match o with Some (k', v) => if decide (k' = k) then Some v else None | None => None end.

(** The last field of a name is the one kept. *)
Lemma last_field_wins os m k :
  foldl add_header m os !! k =
  match last (omap (field_value k) os) with
  | Some v => Some v
  | None => m !! k
  end.
Proof.
  induction os as [|o os IH] using rev_ind; [done|].
  rewrite foldl_app, omap_app. simpl. destruct o as [[k' v]|]; simpl; [|by rewrite app_nil_r].
  destruct (decide (k' = k)) as [->|Hne]; [by rewrite lookup_insert_eq, last_snoc|].
  by rewrite lookup_insert_ne, app_nil_r.
Qed.

(** A header map that can be written: no name or value with blanks around it, none empty,
    no colon in a name. *)
Definition writable (m : gmap string string) : Prop := map_Forall (fun k v =>
  trimmed k /\ trimmed v /\ forall a, In a (String.list_ascii_of_string k) -> a <> ":"%char) m.

Lemma all_blank_nil : all_blank "".
Proof. by intros a []. Qed.

Lemma written_line_says k v :
  trimmed k -> trimmed v -> (forall a, In a (String.list_ascii_of_string k) -> a <> ":"%char) ->
  header_says (k +:+ ": " +:+ v) (Some (k, v)).
Proof.
  intros Hk Hv Hc.
  pose proof (hs_field "" k "" " " v "" all_blank_nil Hk all_blank_nil) as H.
  rewrite !string_app_empty, !string_app_nil_r in H. apply H; try done; try apply all_blank_nil.
  by intros a [<-|[]].
Qed.

Lemma headers_written_back m : writable m ->
  foldl (fun m line => header_callback line m) ∅ ((fun kv => kv.1 +:+ ": " +:+ kv.2) <$> skvs m) = m.
Proof.
  intros Hm. rewrite (headers_said _ (Some <$> skvs m)).
  2: { apply Forall2_fmap_l, Forall2_fmap_r, Forall_Forall2_diag, Forall_forall. intros [k v] Hkv.
       apply elem_of_kvs_by in Hkv. destruct (Hm k v Hkv) as (?&?&?). by apply written_line_says. }
  apply map_eq. intros k. rewrite last_field_wins, lookup_empty.
  assert (forall l, omap (field_value k) (Some <$> l) = (filter (fun kv => kv.1 = k) l).*2) as ->.
  { clear. intros l. induction l as [|[k' v] l IH]; [done|]. rewrite fmap_cons. csimpl.
    rewrite IH. destruct (decide (k' = k)); [by rewrite filter_cons_True|by rewrite filter_cons_False]. }
  destruct (last _) as [v|] eqn:E.
  - symmetry. apply last_Some_elem_of, list_elem_of_fmap in E as ([k' v']&->&Hin).
    apply list_elem_of_filter in Hin as [<- Hin]. by apply elem_of_kvs_by in Hin.
  - destruct (m !! k) as [v|] eqn:Ek; [|done]. exfalso. apply (elem_of_kvs_by string_le) in Ek.
    apply last_None in E. eapply (not_elem_of_nil v). rewrite <- E.
    apply list_elem_of_fmap. exists (k, v). split; [done|]. by apply list_elem_of_filter.
Qed.

(** C38: An exchange is faithful both ways.  The options ask for the method of the call, to
    its URL, with its body and no other, verified and within the client's timeout, and the
    header lines say the caller's header map.  What comes back from a transfer that succeeds
    is its status, the chunks of the body joined in order, and for each header name the last
    value a line gave it, blanks cut off; a failed transfer and a client without a handle
    are failures, and never pass for a 200. *)
Theorem http_exchange_is_faithful curl c r os :
  writable (hr_headers r) ->
  let o := options_of (timeout_sec c) r in let res := curl o in
  Forall2 header_says (header_lines (cu_events res)) os -> in_int32 (cu_response_code res) ->
  (hr_method r = GET -> hr_body r = None) ->
  wire_method o = method_name (hr_method r) /\ co_url o = hr_url r /\ co_post_fields o = hr_body r /\
  foldl (fun m line => header_callback line m) ∅ (co_http_header o) = hr_headers r /\
  (rr_ok (perform curl c r) = true <->
     curl_handle c = true /\ cu_error res = None /\ cu_response_code res = 200) /\
  (rr_success (perform curl c r) = true ->
     rr_status_code (perform curl c r) = cu_response_code res /\
     rr_body (perform curl c r) = body_of (cu_events res) /\
     forall k, rr_headers (perform curl c r) !! k = last (omap (field_value k) os)).
Proof.
  intros Hw o res Hs Hcode Hm. assert (perform curl c r = if negb (curl_handle c)
    then failed "CURL not initialized" else match cu_error res with
    | Some error => failed ("CURL request failed: " +:+ error)
    | None => {| rr_success := true; rr_error_msg := ""; rr_status_code := cu_response_code res;
        rr_body := body_of (cu_events res); rr_headers := foldl add_header ∅ os |} end) as ->.
  { unfold perform. fold o. fold res. rewrite curl_callbacks, (headers_said _ os), wrap32_id by done. done. }
  split_and!; [|done|done|by apply headers_written_back| |].
  - unfold o, wire_method, options_of. simpl. destruct (hr_method r); simpl; try done.
    by rewrite Hm.
  - destruct (curl_handle c); simpl; [|naive_solver].
    destruct (cu_error res); unfold rr_ok; simpl; [naive_solver|]. rewrite Z.eqb_eq. naive_solver.
  - destruct (curl_handle c); simpl; [|done]. destruct (cu_error res); simpl; [done|].
    intros _. split_and!; [done..|]. intros k. rewrite last_field_wins, lookup_empty. by destruct (last _).
Qed.

(** ** Witness *)
Definition crlf : string := String "013" (String "010" "").
Definition sample_curl (_ : CurlOptions) : CurlOutcome := {|
  cu_events := [HeaderData ("HTTP/1.1 200 OK" +:+ crlf); HeaderData ("Tr_Cont: M" +:+ crlf);
    BodyData "[1,"; HeaderData ("tr_id:X " +:+ crlf); BodyData "2]"];
  cu_error := None; cu_response_code := 200 |}.
Definition sample_request : HttpRequest := {|
  hr_method := DELETE; hr_url := "https://x/y"; hr_body := None;
  hr_headers := {[ "X-MBX-APIKEY" := "k"; "b" := "2 3" ]} |}.

Lemma http_exchange_is_faithful_witness :
  let r := perform sample_curl {| curl_handle := true; timeout_sec := 30 |} sample_request in
  wire_method (options_of 30 sample_request) = "DELETE" /\ rr_ok r = true /\ rr_body r = "[1,2]" /\
  rr_headers r !! "tr_id" = Some "X".
Proof.
  assert (forall s, forallb (fun a => negb (Ascii.eqb a ":")) (String.list_ascii_of_string s) = true ->
    forall a, In a (String.list_ascii_of_string s) -> a <> ":"%char) as Hc.
  { intros s Hs a Ha ->. rewrite forallb_forall in Hs. by specialize (Hs _ Ha). }
  assert (forall s, forallb blank (String.list_ascii_of_string s) = true -> all_blank s) as Hb.
  { intros s Hs a Ha. rewrite forallb_forall in Hs. by apply Hs. }
  destruct (http_exchange_is_faithful sample_curl {| curl_handle := true; timeout_sec := 30 |}
    sample_request [None; Some ("Tr_Cont", "M"); Some ("tr_id", "X")]) as (Hm&_&_&_&Hok&Hr).
  - apply map_Forall_insert_2; [split_and!; [done..|by apply Hc]|].
    apply map_Forall_singleton. split_and!; [done..|by apply Hc].
  - apply Forall2_cons; split; [apply hs_plain, Hc; by vm_compute|].
    apply Forall2_cons; split; [apply (hs_field "" "Tr_Cont" "" " " "M" crlf);
      [by apply Hb|done|by apply Hb|by apply Hc|by apply Hb|done|by apply Hb]|].
    apply Forall2_cons; split; [|done].
    apply (hs_field "" "tr_id" "" "" "X" (String " " crlf));
      [by apply Hb|done|by apply Hb|by apply Hc|by apply Hb|done|by apply Hb].
  - by vm_compute.
  - done.
  - destruct Hr as (_&Hbody&Hh); [by vm_compute|].
    split_and!; [exact Hm|by apply Hok|exact Hbody|exact (Hh "tr_id")].
Defined.
