(* ===== verification/BinanceRest.v ===== *)
(** * BinanceRest: product filters, order formatting and the REST snapshots

    [connection_handlers/rest/binance/binance_rest_client.cpp], with the signer interface of
    [config_handlers/signer.hpp] and the URL helpers of
    [market_listener/exchange/binance/binance_common.hpp].

    The network is a parameter: a function from the request the code makes to the response
    it gets, such as [HttpClient.perform] with a client.  HMAC-SHA256 (openssl) and the JSON parser (nlohmann) are parameters too. *)
From Stdlib Require Import Ascii.
From S2P Require Import Prelude Double Text Exact Messages Json ListenerEvents OrderBook HttpClient.

#[local] Open Scope string_scope.
#[local] Open Scope Z_scope.

(** ** Signatures *)

(** [ISigner] / [HmacSha256Signer]: the key, and the lower-case hex of the digest. *)
Record Signer := { api_key : string; secret_key : string }.

Definition hex_char (n : Z) : ascii :=
  if n <? 10 then ascii_of_N (Z.to_N (48 + n)) else ascii_of_N (Z.to_N (87 + n)).
Fixpoint hex (digest : list Z) : string :=
  match digest with
  | [] => ""
  | b :: digest => String (hex_char (b / 16)) (String (hex_char (b mod 16)) (hex digest))
  end.

Definition DEFAULT_RECV_WINDOW : Z := 5000.

(** ** Product filters *)
Record ProductFilter := {
  pf_tick_size : double; pf_step_size : double; price_precision : Z; qty_precision : Z }.
Definition ProductFilter_default : ProductFilter := {|
  pf_tick_size := fzero; pf_step_size := fzero; price_precision := 8; qty_precision := 8 |}.

(** The literal [1e-12]. *)
Definition f1em12 : double := of_decimal false 1 (-12).

(** [precision_from_step]: the loop runs while [s < 1.0 - 1e-12 && p < 12]. *)
Fixpoint precision_loop (fuel : nat) (s : double) (p : Z) : Z :=
  match fuel with
  | O => p
  | S fuel =>
      if flt s (fsub fone f1em12) && (p <? 12) then precision_loop fuel (fmul s (of_Z 10)) (p + 1)
      else p
  end.
Definition precision_from_step (step : double) : Z :=
  if fle step fzero then 8 else precision_loop 13 step 0.

Record BinanceRestClient := {
  rest_domain : string; rc_signer : option Signer; filters : gmap string ProductFilter }.
Definition set_filters (m : gmap string ProductFilter) (c : BinanceRestClient)
    : BinanceRestClient :=
  {| rest_domain := rest_domain c; rc_signer := rc_signer c; filters := m |}.

Definition has (c : BinanceRestClient) (product : string) : bool :=
  bool_decide (is_Some (filters c !! product)).
Definition filter (c : BinanceRestClient) (product : string) : ProductFilter :=
  default ProductFilter_default (filters c !! product).

Definition set_filter (product : string) (tick_size step_size : double)
    (c : BinanceRestClient) : BinanceRestClient :=
  let f := filter c product in
  let f := if flt fzero tick_size then {|
      pf_tick_size := tick_size; pf_step_size := pf_step_size f;
      price_precision := precision_from_step tick_size; qty_precision := qty_precision f |}
    else f in
  let f := if flt fzero step_size then {|
      pf_tick_size := pf_tick_size f; pf_step_size := step_size;
      price_precision := price_precision f; qty_precision := precision_from_step step_size |}
    else f in
  set_filters (<[product := f]> (filters c)) c.

Definition round_price (c : BinanceRestClient) (product : string) (price : double) : double :=
  let f := filter c product in
  if fle (pf_tick_size f) fzero then price
  else fmul (fround (fdiv price (pf_tick_size f))) (pf_tick_size f).
Definition round_qty (c : BinanceRestClient) (product : string) (qty : double) : double :=
  let f := filter c product in
  if fle (pf_step_size f) fzero then qty
  else fmul (fround (fdiv qty (pf_step_size f))) (pf_step_size f).

Definition format_price (c : BinanceRestClient) (product : string) (price : double) : string :=
  fixed (price_precision (filter c product)) (round_price c product price).
Definition format_qty (c : BinanceRestClient) (product : string) (qty : double) : string :=
  fixed (qty_precision (filter c product)) (round_qty c product qty).

(** ** REST calls *)
Record DepthSnapshot := {
  ok : bool; last_update_id : Z; snap_bids : list PriceLevel; snap_asks : list PriceLevel }.
Definition DepthSnapshot_default : DepthSnapshot :=
  {| ok := false; last_update_id := 0; snap_bids := []; snap_asks := [] |}.

Section rest.
Context {J : Type} `{!JsonValue J}.
Variable parse : string -> option J.
Variable hmac_sha256 : string -> string -> list Z.
Variable net : HttpRequest -> RestResponse.

Definition sign (s : Signer) (payload : string) : string :=
  hex (hmac_sha256 (secret_key s) payload).
Definition auth_header (s : Signer) : gmap string string := {[ "X-MBX-APIKEY" := api_key s ]}.
Definition sign_query (s : Signer) (query : string) : string :=
  query +:+ "&signature=" +:+ sign s query.

Definition get (url : string) (headers : gmap string string) : RestResponse :=
  net {| hr_method := GET; hr_url := url; hr_body := None; hr_headers := headers |}.
Definition post (url body : string) (headers : gmap string string) : RestResponse :=
  net {| hr_method := POST; hr_url := url; hr_body := Some body;
         hr_headers := post_headers headers |}.

(** [stod] of a string member. *)
Definition at_stod (j : J) (key : string) : option double := s ← at_string j key; stod s.

(** The body of a signed GET; [""] on any failure. *)
Definition signed_get (now_ms : Z) (path : string) (c : BinanceRestClient) : string :=
  match rc_signer c with
  | None => ""
  | Some s =>
      let params := "timestamp=" +:+ to_string now_ms +:+ "&recvWindow=" +:+
                    to_string DEFAULT_RECV_WINDOW in
      let r := get (rest_domain c +:+ path +:+ "?" +:+ sign_query s params) (auth_header s) in
      if rr_ok r then rr_body r else ""
  end.

(** One entry of a symbol's ["filters"]. *)
Definition read_filter (f : ProductFilter) (filt : J) : option ProductFilter :=
  type ← at_string filt "filterType";
  if decide (type = "PRICE_FILTER") then
    t ← at_stod filt "tickSize";
    Some {| pf_tick_size := t; pf_step_size := pf_step_size f;
            price_precision := price_precision f; qty_precision := qty_precision f |}
  else if decide (type = "LOT_SIZE") then
    t ← at_stod filt "stepSize";
    Some {| pf_tick_size := pf_tick_size f; pf_step_size := t;
            price_precision := price_precision f; qty_precision := qty_precision f |}
  else Some f.

Fixpoint fold_opt {A B} (f : A -> B -> option A) (a : A) (l : list B) : option A :=
  match l with
  | [] => Some a
  | b :: l => a' ← f a b; fold_opt f a' l
  end.

Definition read_symbol (m : gmap string ProductFilter) (sym : J)
    : option (gmap string ProductFilter) :=
  product ← at_string sym "symbol";
  filts ← j_at sym "filters";
  f ← fold_opt read_filter ProductFilter_default (j_elems filts);
  Some (<[product := {|
    pf_tick_size := pf_tick_size f; pf_step_size := pf_step_size f;
    price_precision := precision_from_step (pf_tick_size f);
    qty_precision := precision_from_step (pf_step_size f) |}]> m).

(** [load]: the filters are replaced as a whole, or kept on any failure. *)
Definition load (c : BinanceRestClient) : BinanceRestClient :=
  let r := get (rest_domain c +:+ "/fapi/v1/exchangeInfo") ∅ in
  if rr_ok r then
    match (j ← parse (rr_body r); syms ← j_at j "symbols";
           fold_opt read_symbol ∅ (j_elems syms)) with
    | Some m => set_filters m c
    | None => c
    end
  else c.

(** A loop over [l] that appends one value per element inside a [try]: what was appended
    before a throw stays. *)
Fixpoint collect {B} (f : J -> option (option B)) (l : list J) : list B :=
  match l with
  | [] => []
  | j :: l =>
      match f j with
      | None => []
      | Some None => collect f l
      | Some (Some b) => b :: collect f l
      end
  end.

(** The levels of one side, and whether all of them could be read. *)
Definition read_level (level : J) : option (option PriceLevel) :=
  p ← j_string (j_index level 0); p ← stod p;
  q ← j_string (j_index level 1); q ← stod q; Some (Some (p, q)).
Definition reads_all {B} (f : J -> option (option B)) (l : list J) : bool :=
  forallb (fun j => bool_decide (is_Some (f j))) l.

Definition fetch_depth (product : string) (limit : Z) (c : BinanceRestClient) : DepthSnapshot :=
  let r := get (rest_domain c +:+ "/fapi/v1/depth?symbol=" +:+ product +:+ "&limit=" +:+
                to_string limit) ∅ in
  if rr_ok r then
    match parse (rr_body r) with
    | None => DepthSnapshot_default
    | Some j =>
        match at_long j "lastUpdateId" with
        | None => DepthSnapshot_default
        | Some id =>
            match j_at j "bids" with
            | None => {| ok := false; last_update_id := id; snap_bids := []; snap_asks := [] |}
            | Some bs =>
                let bids := collect read_level (j_elems bs) in
                match (if reads_all read_level (j_elems bs) then j_at j "asks" else None) with
                | None => {| ok := false; last_update_id := id; snap_bids := bids; snap_asks := [] |}
                | Some az => {| ok := reads_all read_level (j_elems az); last_update_id := id;
                                snap_bids := bids; snap_asks := collect read_level (j_elems az) |}
                end
            end
        end
    end
  else DepthSnapshot_default.

(** A signed GET whose body is an array, each element translated by [f]. *)
Definition fetch_list {B} (path : string) (f : J -> option (option B)) (now_ms : Z)
    (c : BinanceRestClient) : list B :=
  let body := signed_get now_ms path c in
  if decide (body = "") then []
  else match parse body with
       | None => []
       | Some j => collect f (j_elems j)
       end.

Definition read_position (p : J) : option (option ListenerEvent) :=
  amt ← at_stod p "positionAmt";
  if feq amt fzero then Some None
  else
    product ← at_string p "symbol";
    Some (Some (PositionMsg product {| balance := Some amt; available_balance := None |})).
Definition fetch_positions : Z -> BinanceRestClient -> list ListenerEvent :=
  fetch_list "/fapi/v2/positionRisk" read_position.

Definition read_balance (b : J) : option (option ListenerEvent) :=
  product ← at_string b "asset";
  bal ← at_stod b "balance"; av ← at_stod b "availableBalance";
  Some (Some (PositionMsg product {| balance := Some bal; available_balance := Some av |})).
Definition fetch_balances : Z -> BinanceRestClient -> list ListenerEvent :=
  fetch_list "/fapi/v2/balance" read_balance.

(** A resting order as the venue lists it, as the accept event of its remaining size. *)
Definition accept_event (order_no cid : string) (bid : bool) (price qty : double)
    : ExecutionData := {|
  account_no := ""; ex_order_no := order_no; original_order_no := ""; client_order_id := cid;
  short_product := ""; full_product := ""; is_accept_data := true; is_place := true;
  is_cancel := false; ex_is_bid := bid; is_accepted := true; is_rejected := false;
  is_executed := false; update_position_on_fill := true;
  order_price := Some price; order_qty := Some qty; execute_price := None; execute_qty := None |}.

Definition read_open_order (o : J) : option (option ListenerEvent) :=
  product ← at_string o "symbol";
  id ← at_long o "orderId";
  cid ← value_string o "clientOrderId" "";
  side ← at_string o "side";
  price ← at_stod o "price"; orig ← at_stod o "origQty"; exec ← at_stod o "executedQty";
  Some (Some (ExecutionMsg product
    (accept_event (to_string id) cid (bool_decide (side = "BUY")) price (fsub orig exec)))).
Definition fetch_open_orders : Z -> BinanceRestClient -> list ListenerEvent :=
  fetch_list "/fapi/v1/openOrders" read_open_order.

(** [create_listen_key]: [""] on any failure.  The keep-alive and the close only send. *)
Definition create_listen_key (c : BinanceRestClient) : string :=
  match rc_signer c with
  | None => ""
  | Some s =>
      let r := post (rest_domain c +:+ "/fapi/v1/listenKey") "" (auth_header s) in
      if rr_ok r then default "" (j ← parse (rr_body r); at_string j "listenKey") else ""
  end.
Definition listen_key_request (m : HttpMethod) (body : option string) (c : BinanceRestClient)
    : option HttpRequest :=
  s ← rc_signer c;
  Some {| hr_method := m; hr_url := rest_domain c +:+ "/fapi/v1/listenKey"; hr_body := body;
          hr_headers := auth_header s |}.
Definition keepalive_listen_key : BinanceRestClient -> option HttpRequest :=
  listen_key_request PUT (Some "").
Definition close_listen_key : BinanceRestClient -> option HttpRequest :=
  listen_key_request DELETE None.
End rest.

(** ** Filters and the text they give *)

(** The precisions a filter formats with are those of its steps. *)
Definition filter_ok (f : ProductFilter) : Prop :=
  price_precision f = precision_from_step (pf_tick_size f) /\
  qty_precision f = precision_from_step (pf_step_size f).

(** What happens to a client: exchangeInfo is loaded, whatever the venue sends, and the
    trader feeds it the listener's grids. *)
Inductive client_step : BinanceRestClient -> BinanceRestClient -> Prop :=
  | cs_load {J} `{!JsonValue J} (parse : string -> option J) net c : client_step c (load parse net c)
  | cs_grid product tick step c : client_step c (set_filter product tick step c).
Definition client_reach (c : BinanceRestClient) : Prop :=
  exists domain signer,
    rtc client_step {| rest_domain := domain; rc_signer := signer; filters := ∅ |} c.

Definition filters_ok (m : gmap string ProductFilter) : Prop := map_Forall (fun _ => filter_ok) m.

Lemma filter_ok_lookup c product : filters_ok (filters c) -> filter_ok (filter c product).
Proof.
  intros H. unfold filter. destruct (filters c !! product) as [f|] eqn:E; [by eapply H|done].
Qed.

Lemma set_filter_ok product tick step c : filters_ok (filters c) -> filters_ok (filters (set_filter product tick step c)).
Proof.
  intros H. simpl. apply map_Forall_insert_2; [|done].
  destruct (filter_ok_lookup c product H) as [H1 H2].
  by destruct (flt fzero tick), (flt fzero step).
Qed.

Lemma read_symbols_ok {J} `{!JsonValue J} (l : list J) m m' :
  filters_ok m -> fold_opt read_symbol m l = Some m' -> filters_ok m'.
Proof.
  revert m. induction l as [|j l IH]; intros m Hm; simpl; [by intros [= <-]|].
  destruct (read_symbol m j) as [m1|] eqn:E; simpl; [|done]. apply IH. revert E. unfold read_symbol.
  destruct (at_string j "symbol"); simpl; [|done]. destruct (j_at j "filters"); simpl; [|done].
  destruct (fold_opt _ _ _); simpl; [|done]. intros [= <-]. apply map_Forall_insert_2; [by split|done].
Qed.

Lemma client_step_ok c c' : client_step c c' -> filters_ok (filters c) -> filters_ok (filters c').
Proof.
  destruct 1 as [J ? parse net c|]; [|apply set_filter_ok]. intros H. unfold load.
  destruct (rr_ok _); [|done]. destruct (parse _) as [j|]; simpl; [|done].
  destruct (j_at j "symbols"); simpl; [|done].
  destruct (fold_opt _ _ _) as [m|] eqn:E; [|done]. simpl. eapply read_symbols_ok; [apply map_Forall_empty|exact E].
Qed.

Lemma client_reach_ok c product : client_reach c -> filter_ok (filter c product).
Proof.
  intros (d&s&H). apply filter_ok_lookup. revert H.
  assert (filters_ok (filters {| rest_domain := d; rc_signer := s; filters := ∅ |})) as H0
    by apply map_Forall_empty.
  induction 1 as [|c1 c2 c3 H _ IH]; [done|]. apply IH. by eapply client_step_ok.
Qed.

Lemma precision_of_decimal k : 0 <= k <= 12 -> precision_from_step (decimal_step k) = k.
Proof.
  intros Hk. assert (forallb (fun k => precision_from_step (decimal_step k) =? k) (seqZ 0 13) = true) as H
    by (by vm_compute).
  rewrite forallb_forall in H. apply Z.eqb_eq, (H k), list_elem_of_In, elem_of_seqZ. lia.
Qed.
Lemma decimal_step_pos k : 0 <= k <= 12 -> fle (decimal_step k) fzero = false.
Proof. intros Hk. by destruct (decimal_step_spec k Hk) as (m&f&->&_). Qed.

Lemma round_price_grid c product price k n :
  pf_tick_size (filter c product) = decimal_step k -> 0 <= k <= 12 ->
  fround (fdiv price (decimal_step k)) = of_Z n ->
  round_price c product price = fmul (of_Z n) (decimal_step k).
Proof. intros Ht Hk Hn. unfold round_price. by rewrite Ht, decimal_step_pos, Hn. Qed.
Lemma round_qty_grid c product qty k n :
  pf_step_size (filter c product) = decimal_step k -> 0 <= k <= 12 ->
  fround (fdiv qty (decimal_step k)) = of_Z n ->
  round_qty c product qty = fmul (of_Z n) (decimal_step k).
Proof. intros Ht Hk Hn. unfold round_qty. by rewrite Ht, decimal_step_pos, Hn. Qed.

(** Prices and sizes go out as exact decimals.  In a client whose filters came from
    exchangeInfo and the listener's grids, whatever was in them, a product whose tick is
    [10 ^ -k] has every price written as the decimal numeral, with [k] decimals, of the
    number of ticks it rounds to -- no stray digit from the floating-point product -- and
    the same for sizes; and a price already on the grid keeps its number of ticks. *)
Theorem wire_text_is_exact c product price k n :
  client_reach c -> 0 <= k <= 12 -> 0 <= n < 2 ^ 48 ->
  (pf_tick_size (filter c product) = decimal_step k ->
   fround (fdiv price (decimal_step k)) = of_Z n -> format_price c product price = decimal_text k n) /\
  (pf_step_size (filter c product) = decimal_step k ->
   fround (fdiv price (decimal_step k)) = of_Z n -> format_qty c product price = decimal_text k n) /\
  (price = fmul (of_Z n) (decimal_step k) -> fround (fdiv price (decimal_step k)) = of_Z n).
Proof.
  intros Hc Hk Hn. destruct (client_reach_ok c product Hc) as [Hp Hq].
  split_and!; [intros Ht Hr..|].
  - unfold format_price. rewrite Hp, Ht, precision_of_decimal by done.
    rewrite (round_price_grid _ _ _ k n) by done. by apply fixed_grid.
  - unfold format_qty. rewrite Hq, Ht, precision_of_decimal by done.
    rewrite (round_qty_grid _ _ _ k n) by done. by apply fixed_grid.
  - intros ->. by apply snap_stable.
Qed.

(** A step that is not a power of ten is misprinted: fed a tick of a quarter, any
    client writes the grid price 10.25 with one decimal, as 10.2, which is no multiple of
    the tick. *)
Theorem quarter_tick_misprinted c product step :
  let tick := of_decimal false 25 (-2) in
  let price := fmul (of_Z 41) tick in
  fround (fdiv price tick) = of_Z 41 /\
  format_price (set_filter product tick step c) product price = "10.2".
Proof.
  cbv zeta. split; [by vm_compute|]. unfold format_price, round_price.
  set (f := filter (set_filter _ _ _ _) product).
  assert (pf_tick_size f = of_decimal false 25 (-2) /\ price_precision f = 1) as [-> ->];
    [|by vm_compute].
  unfold f, filter. simpl. rewrite lookup_insert_eq. simpl. by destruct (flt fzero step).
Qed.

(** ** Witness *)
Lemma wire_text_is_exact_witness :
  format_price (set_filter "BTCUSDT" (decimal_step 1) (decimal_step 3)
      {| rest_domain := ""; rc_signer := None; filters := ∅ |}) "BTCUSDT"
    (of_decimal false 6700013 (-2)) = "67000.1".
Proof.
  set (c := set_filter "BTCUSDT" (decimal_step 1) (decimal_step 3)
      {| rest_domain := ""; rc_signer := None; filters := ∅ |}).
  destruct (wire_text_is_exact c "BTCUSDT" (of_decimal false 6700013 (-2)) 1 670001) as (H&_).
  - exists "", None. apply rtc_once. apply (cs_grid "BTCUSDT").
  - lia.
  - lia.
  - rewrite H; by vm_compute.
Defined.
