(* ===== verification/Timers.v ===== *)
(** * Timers: the periodic work of the programs

    The timers that drive the trader and the pricer, [OrderHandler::set_order_update_timer]
    ([trader/order_handler/order_handler.cpp]) and [Pricer::set_publish_timer]
    ([pricer/pricer.cpp]), which aim at the multiples of their interval, and
    [BinanceListener::schedule_keepalive], which counts from its last run.  A timer is armed
    for an instant; its handler runs at that instant or later, or with an error code.  The
    steady and the system clock are taken to advance together. *)
From S2P Require Import Prelude Double Messages OrderState OrderHandler Pricer.
From S2P Require Import Json ListenerEvents OrderBook HttpClient BinanceRest.

#[local] Open Scope list_scope.
#[local] Open Scope Z_scope.

(** What a wait completes with. *)
Inductive Completion := Expired | Aborted | TimerError.

(** ** Timers on a grid *)
Section grid.
Context {T : Type} (tick : string -> T) (products : list string) (interval_ns : Z).

Record GridTimer := { gt_deadline : option Z; gt_queue : list T }.

(** [expires_after], [async_wait].  [None] is the division by an interval of zero. *)
Definition set_timer (now : Z) (t : GridTimer) : option GridTimer :=
  if interval_ns =? 0 then None
  else Some {| gt_deadline := Some (now + order_update_delay interval_ns now); gt_queue := gt_queue t |}.
(** The handler; [stopping] is [shutting_down_], which only the trader has. *)
Definition timer_handler (ec : Completion) (stopping : bool) (now : Z) (t : GridTimer)
    : option GridTimer :=
  let idle := {| gt_deadline := None; gt_queue := gt_queue t |} in
  match ec with
  | Expired =>
      if stopping then Some idle
      else set_timer now {| gt_deadline := None; gt_queue := gt_queue t ++ (tick <$> products) |}
  | Aborted | TimerError => Some idle
  end.

(** Handlers running at [nows], each not before the instant it was armed for. *)
Inductive timer_run : GridTimer -> list Z -> GridTimer -> Prop :=
  | run_none t : timer_run t [] t
  | run_one t t' t'' d now nows : gt_deadline t = Some d -> d <= now ->
      timer_handler Expired false now t = Some t' -> timer_run t' nows t'' ->
      timer_run t (now :: nows) t''.
(** ... and each before the next multiple. *)
Fixpoint prompt (k : Z) (nows : list Z) : Prop :=
  match nows with
  | [] => True
  | now :: nows => now < (k + 2) * interval_ns /\ prompt (k + 1) nows
  end.
End grid.
#[global] Arguments GridTimer : clear implicits.

Definition set_order_update_timer : Z -> Z -> GridTimer Task -> option (GridTimer Task) := set_timer.
Definition set_publish_timer : Z -> Z -> GridTimer PricerTask -> option (GridTimer PricerTask) := set_timer.
Definition order_update_handler (products : list string) : Z -> Completion -> bool -> Z ->
    GridTimer Task -> option (GridTimer Task) := timer_handler TOrderUpdate products.
Definition publish_handler (products : list string) (interval_ns : Z) (ec : Completion) :
    Z -> GridTimer PricerTask -> option (GridTimer PricerTask) :=
  timer_handler PTFairPriceUpdate products interval_ns ec false.

(** ** The keep-alive of the listen key *)
Definition keepalive_period_ns : Z := 30 * 60 * 1000000000.
Record Keepalive := { ka_deadline : option Z; ka_sent : list (Z * HttpRequest) }.
Definition schedule_keepalive (now : Z) (k : Keepalive) : Keepalive :=
  {| ka_deadline := Some (now + keepalive_period_ns); ka_sent := ka_sent k |}.
Definition keepalive_handler (c : BinanceRestClient) (running : bool) (listen_key : string)
    (ec : Completion) (now : Z) (k : Keepalive) : Keepalive :=
  match ec with
  | Expired =>
      if running then
        schedule_keepalive now {| ka_deadline := None; ka_sent := ka_sent k ++
          (if decide (listen_key = ""%string) then []
           else (fun r => (now, r)) <$> option_list (keepalive_listen_key c)) |}
      else {| ka_deadline := None; ka_sent := ka_sent k |}
  | Aborted | TimerError => {| ka_deadline := None; ka_sent := ka_sent k |}
  end.

(** ** Lemmas *)
Section grid_proofs.
Context {T : Type} (tick : string -> T) (products : list string) (interval_ns : Z).
Context (Hpos : 0 < interval_ns).

(** The instant armed for is the next multiple. *)
Lemma armed_for now (t : GridTimer T) : 0 <= now ->
  set_timer interval_ns now t =
  Some {| gt_deadline := Some ((now / interval_ns + 1) * interval_ns); gt_queue := gt_queue t |}.
Proof.
  intros Hn. unfold set_timer, order_update_delay. destruct (Z.eqb_spec interval_ns 0); [lia|].
  do 3 f_equal. rewrite Z.rem_mod_nonneg by lia. pose proof (Z_div_mod_eq_full now interval_ns). lia.
Qed.

Lemma next_multiple now : 0 <= now ->
  now < (now / interval_ns + 1) * interval_ns <= now + interval_ns.
Proof.
  intros Hn. pose proof (Z_div_mod_eq_full now interval_ns).
  pose proof (Z.mod_pos_bound now interval_ns Hpos). lia.
Qed.

Lemma run_spec t nows (t' : GridTimer T) :
  timer_run tick products interval_ns t nows t' ->
  forall k, 0 <= k -> gt_deadline t = Some ((k + 1) * interval_ns) ->
  gt_queue t' = gt_queue t ++ concat ((fun _ => tick <$> products) <$> nows) /\
  (exists k', k + Z.of_nat (length nows) <= k' /\ gt_deadline t' = Some ((k' + 1) * interval_ns) /\
     (prompt interval_ns k nows -> k' = k + Z.of_nat (length nows))).
Proof.
  induction 1 as [t|t t1 t2 d now nows Hd Hnow Hh Hrun IH]; intros k Hk Hdl.
  { split; [by rewrite app_nil_r|]. exists k. split_and!; [simpl; lia|done|simpl; lia]. }
  rewrite Hdl in Hd. injection Hd as <-. assert (0 <= now) as Hn0 by nia.
  unfold timer_handler in Hh. rewrite armed_for in Hh by done. injection Hh as <-.
  assert (k + 1 <= now / interval_ns) as Hle by (apply Z.div_le_lower_bound; lia).
  destruct (IH (now / interval_ns) ltac:(lia) eq_refl) as [Hq (k'&H1&H2&H3)]. split.
  - rewrite Hq. simpl. by rewrite <- app_assoc.
  - exists k'. split_and!; [simpl; lia|done|]. intros [Hp1 Hp2].
    assert (now / interval_ns = k + 1) as Heq.
    { assert (now / interval_ns < k + 2) by (apply Z.div_lt_upper_bound; lia). lia. }
    rewrite Heq in *. rewrite H3 by done. simpl. lia.
Qed.
End grid_proofs.

(** C39: The decision tick keeps the grid.  Armed at any instant, the timer goes off at
    multiples of the interval only, however late its handlers run, and never twice for one;
    every run queues one tick per product, in order; and if each handler runs before the
    next multiple no multiple is missed: after [n] runs the timer is armed for the
    [n + 1]st multiple after it was started. *)
Theorem ticks_keep_the_grid {T} (tick : string -> T) products interval_ns start t0 t1 nows t :
  0 < interval_ns -> 0 <= start ->
  set_timer interval_ns start t0 = Some t1 ->
  timer_run tick products interval_ns t1 nows t ->
  gt_queue t = gt_queue t0 ++ concat ((fun _ => tick <$> products) <$> nows) /\
  exists k, gt_deadline t = Some (k * interval_ns) /\
    start / interval_ns + 1 + Z.of_nat (length nows) <= k /\
    (prompt interval_ns (start / interval_ns) nows ->
     k = start / interval_ns + 1 + Z.of_nat (length nows)).
Proof.
  intros Hpos Hs Hset Hrun. rewrite armed_for in Hset by done. injection Hset as <-.
  assert (0 <= start / interval_ns) as Hk by (apply Z.div_pos; lia).
  destruct (run_spec tick products interval_ns Hpos _ _ _ Hrun _ Hk eq_refl) as [Hq (k'&H1&H2&H3)].
  split; [done|]. exists (k' + 1). split_and!; [done|lia|]. intros Hp. rewrite H3 by done. lia.
Qed.

(** Shutdown stops the ticks for good, and a zero interval is a division by zero. *)
Lemma stopped_timer_is_idle products interval_ns now t :
  order_update_handler products interval_ns Expired true now t =
  Some {| gt_deadline := None; gt_queue := gt_queue t |}.
Proof. done. Qed.
Lemma zero_interval_divides {T} now (t : GridTimer T) : set_timer 0 now t = None.
Proof. done. Qed.

Lemma ticks_keep_the_grid_witness :
  exists t, timer_run TOrderUpdate ["A"; "B"]%string 1000 {| gt_deadline := Some 6000; gt_queue := [] |}
    [6000; 7999] t /\
  gt_queue t = TOrderUpdate <$> ["A"; "B"; "A"; "B"]%string /\ gt_deadline t = Some 8000.
Proof.
  set (t := {| gt_deadline := Some 8000; gt_queue := TOrderUpdate <$> ["A"; "B"; "A"; "B"]%string |}).
  assert (timer_run TOrderUpdate ["A"; "B"]%string 1000 {| gt_deadline := Some 6000; gt_queue := [] |}
    [6000; 7999] t) as Hrun.
  { eapply (run_one _ _ _ _ _ _ 6000); [done|lia|done|].
    eapply (run_one _ _ _ _ _ _ 7000); [done|lia|done|]. constructor. }
  exists t. split; [done|].
  destruct (ticks_keep_the_grid TOrderUpdate ["A"; "B"]%string 1000 5400
    {| gt_deadline := None; gt_queue := [] |} _ [6000; 7999] t ltac:(lia) ltac:(lia) eq_refl Hrun)
    as [Hq (k&Hd&_&Hk)].
  split; [exact Hq|]. rewrite Hd, Hk; [by vm_compute|]. vm_compute. by split_and!.
Defined.
