(* ===== verification/KisConfig.v ===== *)
(** * KisConfig: the KIS session tokens

    [config_handlers/kis/kis_config.cpp]: the REST token and the websocket approval key, the
    files that keep them, and their renewal at startup.  The token files are a map from path
    to what [read_config_file] would return; nlohmann's [dump] and [parse], the credentials
    and the HTTP exchange are parameters.  [std::get_time] is the standard library's, for
    the one format used. *)
From Stdlib Require Import Ascii.
From S2P Require Import Prelude Double Text Json Calendar HttpClient BinanceRest.

#[local] Open Scope string_scope.
#[local] Open Scope list_scope.
#[local] Open Scope Z_scope.

(** ** parse_datetime *)

(** Exactly [n] digits, and the rest. *)
Fixpoint read_digits (n : nat) (s : string) (acc : Z) : option (Z * string) :=
  match n, s with
  | O, _ => Some (acc, s)
  | S n, String a s => d ← digit_of a; read_digits n s (10 * acc + d)
  | S _, EmptyString => None
  end.
(** A separator of the format: white space stands for any run of it. *)
Definition separator (c : ascii) (s : string) : option string :=
  if is_space c then Some (drop_spaces s)
  else match s with String a s => if Ascii.eqb a c then Some s else None | EmptyString => None end.

(** A conversion: its width, its range, the separator after it and the field it sets. *)
Record Conversion := {
  cv_width : nat; cv_lo : Z; cv_hi : Z; cv_sep : option ascii; cv_set : Z -> Tm -> Tm }.
Definition set_year v tm := {| tm_year := v - 1900; tm_mon := tm_mon tm; tm_mday := tm_mday tm;
  tm_hour := tm_hour tm; tm_min := tm_min tm; tm_sec := tm_sec tm |}.
Definition set_month v tm := {| tm_year := tm_year tm; tm_mon := v - 1; tm_mday := tm_mday tm;
  tm_hour := tm_hour tm; tm_min := tm_min tm; tm_sec := tm_sec tm |}.
Definition set_mday v tm := {| tm_year := tm_year tm; tm_mon := tm_mon tm; tm_mday := v;
  tm_hour := tm_hour tm; tm_min := tm_min tm; tm_sec := tm_sec tm |}.
Definition set_hour v tm := {| tm_year := tm_year tm; tm_mon := tm_mon tm; tm_mday := tm_mday tm;
  tm_hour := v; tm_min := tm_min tm; tm_sec := tm_sec tm |}.
Definition set_minute v tm := {| tm_year := tm_year tm; tm_mon := tm_mon tm; tm_mday := tm_mday tm;
  tm_hour := tm_hour tm; tm_min := v; tm_sec := tm_sec tm |}.
Definition set_second v tm := {| tm_year := tm_year tm; tm_mon := tm_mon tm; tm_mday := tm_mday tm;
  tm_hour := tm_hour tm; tm_min := tm_min tm; tm_sec := v |}.
(** "%Y-%m-%d %H:%M:%S" *)
Definition datetime_format : list Conversion := [
  {| cv_width := 4; cv_lo := 0; cv_hi := 9999; cv_sep := Some "-"%char; cv_set := set_year |};
  {| cv_width := 2; cv_lo := 1; cv_hi := 12; cv_sep := Some "-"%char; cv_set := set_month |};
  {| cv_width := 2; cv_lo := 1; cv_hi := 31; cv_sep := Some " "%char; cv_set := set_mday |};
  {| cv_width := 2; cv_lo := 0; cv_hi := 23; cv_sep := Some ":"%char; cv_set := set_hour |};
  {| cv_width := 2; cv_lo := 0; cv_hi := 59; cv_sep := Some ":"%char; cv_set := set_minute |};
  {| cv_width := 2; cv_lo := 0; cv_hi := 60; cv_sep := None; cv_set := set_second |}].
(** [std::get_time]: the fields read before the text stops matching are set. *)
Fixpoint get_time (cs : list Conversion) (s : string) (tm : Tm) : Tm :=
  match cs with
  | [] => tm
  | c :: cs =>
      match read_digits (cv_width c) s 0 with
      | Some (v, s) =>
          if (cv_lo c <=? v) && (v <=? cv_hi c) then
            let tm := cv_set c v tm in
            match cv_sep c with
            | None => tm
            | Some sep => match separator sep s with Some s => get_time cs s tm | None => tm end
            end
          else tm
      | None => tm
      end
  end.

(** [std::tm tm = {}]. *)
Definition Tm_zero : Tm :=
  {| tm_year := 0; tm_mon := 0; tm_mday := 0; tm_hour := 0; tm_min := 0; tm_sec := 0 |}.
Definition parse_datetime (text : string) (timezone_offset_hours : Z) : Z :=
  timegm (get_time datetime_format (drop_spaces text) Tm_zero) - timezone_offset_hours * 3600.

(** ** The tokens *)

(** [RestAccessConfig] and [WebsocketAccessConfig] have the same fields. *)
Record AccessConfig := { access_token : string; access_token_expire_time : Z }.
Record RestAccessResponse := {
  rar_access_token : string; rar_access_token_token_expired : string; rar_token_type : string;
  rar_expires_in : Z }.
Abbreviation TokenFiles := (gmap string AccessConfig).
Definition rest_token_path : string := "./account/kis/rest_access.json".
Definition websocket_token_path : string := "./account/kis/websocket_access.json".

(** [get_rest_access_token] / [get_websocket_access_token]: the token, expired or not. *)
Definition get_access_token (path : string) (files : TokenFiles) : bool * string :=
  match files !! path with Some c => (true, access_token c) | None => (false, "") end.

Definition is_token_expired (token_expire_time now_sec : Z) : bool := token_expire_time <? now_sec.
Definition new_token_needed (path : string) (now_sec : Z) (files : TokenFiles) : bool :=
  match files !! path with
  | Some c => is_token_expired (access_token_expire_time c) now_sec
  | None => true
  end.

Section tokens.
Context {J : Type} `{!JsonValue J} (parse : string -> option J).
Context (dump : list (string * string) -> string) (net : HttpRequest -> RestResponse).
Context (auth_keys : option Signer) (auth_domain : option string).

(** [j.get<RestAccessResponse>()]: every field must be there. *)
Definition read_rest_response (j : J) : option RestAccessResponse :=
  token ← at_string j "access_token";
  expired ← at_string j "access_token_token_expired";
  type ← at_string j "token_type";
  expires_in ← at_long j "expires_in";
  Some {| rar_access_token := token; rar_access_token_token_expired := expired;
          rar_token_type := type; rar_expires_in := expires_in |}.

(** The shape of both updates: what is posted, and the files afterwards. *)
Definition update_token (path endpoint secret_field : string) (read : J -> option AccessConfig)
    (now_sec : Z) (files : TokenFiles) : list HttpRequest * TokenFiles :=
  if negb (new_token_needed path now_sec files) then ([], files)
  else match auth_keys, auth_domain with
  | Some keys, Some domain =>
      let request := {| hr_method := POST; hr_url := domain +:+ endpoint;
        hr_body := Some (dump [("grant_type", "client_credentials"); ("appkey", api_key keys);
                               (secret_field, secret_key keys)]);
        hr_headers := post_headers ∅ |} in
      let response := net request in
      ([request],
       if rr_ok response then
         match parse (rr_body response) ≫= read with
         | Some c => <[path := c]> files
         | None => files
         end
       else files)
  | _, _ => ([], files)
  end.

Definition update_rest_access_token (now_sec : Z) : TokenFiles -> list HttpRequest * TokenFiles :=
  update_token rest_token_path "/oauth2/tokenP" "appsecret"
    (fun j => r ← read_rest_response j;
       Some {| access_token := rar_access_token r;
               access_token_expire_time := parse_datetime (rar_access_token_token_expired r) 9 |}) now_sec.
(** [later_sec] is the clock once the reply is in. *)
Definition update_websocket_access_token (now_sec later_sec : Z)
    : TokenFiles -> list HttpRequest * TokenFiles :=
  update_token websocket_token_path "/oauth2/Approval" "secretkey"
    (fun j => key ← at_string j "approval_key";
       Some {| access_token := key; access_token_expire_time := later_sec + 24 * 3600 |}) now_sec.

(** [update_access_tokens], with its three clock readings. *)
Definition update_access_tokens (now1 now2 later : Z) (files : TokenFiles)
    : list HttpRequest * TokenFiles :=
  let '(sent1, files) := update_rest_access_token now1 files in
  let '(sent2, files) := update_websocket_access_token now2 later files in
  (sent1 ++ sent2, files).
End tokens.

(** ** The venue's text of an expiry *)
Definition two_digits (n : Z) : string := String (digit_char (n / 10)) (String (digit_char (n mod 10)) "").
Definition four_digits (n : Z) : string := two_digits (n / 100) +:+ two_digits (n mod 100).
(** The Korean wall clock at [t], as KIS writes it. *)
Definition korean_text (t : Z) : string :=
  let tm := gmtime (t + 9 * 3600) in
  four_digits (year tm) +:+ String "-" (two_digits (month tm) +:+ String "-" (two_digits (tm_mday tm) +:+
  String " " (two_digits (tm_hour tm) +:+ String ":" (two_digits (tm_min tm) +:+ String ":"
  (two_digits (tm_sec tm)))))).

(** ** Reading it back *)
#[local] Ltac div_lia := Z.to_euclidean_division_equations; lia.
Lemma digit_char_not_space d : 0 <= d < 10 -> is_space (digit_char d) = false.
Proof.
  intros Hd. assert (d ∈ seqZ 0 10) as Hin by (apply elem_of_seqZ; lia). clear Hd. revert d Hin.
  apply Forall_forall. by repeat constructor.
Qed.
Lemma read_two n s acc : 0 <= n < 100 ->
  read_digits 2 (two_digits n +:+ s) acc = Some (n + 100 * acc, s).
Proof.
  intros Hn. unfold two_digits. rewrite !string_app_cons, string_app_empty. cbn [read_digits].
  rewrite !digit_char_spec by div_lia. cbn [mbind option_bind].
  do 2 f_equal. div_lia.
Qed.
Lemma read_two_0 n s : 0 <= n < 100 -> read_digits 2 (two_digits n +:+ s) 0 = Some (n, s).
Proof. intros Hn. rewrite read_two by done. do 2 f_equal. lia. Qed.
Lemma read_four n s : 0 <= n < 10000 -> read_digits 4 (four_digits n +:+ s) 0 = Some (n, s).
Proof.
  intros Hn. unfold four_digits. rewrite string_app_assoc.
  pose proof (read_two_0 (n / 100) (two_digits (n mod 100) +:+ s) ltac:(div_lia)) as H1.
  pose proof (read_two (n mod 100) s (n / 100) ltac:(div_lia)) as H2.
  change (read_digits 4 ?t 0) with (read_digits (2 + 2) t 0).
  assert (forall j k t acc, read_digits (j + k) t acc =
    match read_digits j t acc with Some (v, t) => read_digits k t v | None => None end) as Happ.
  { clear. induction j as [|j IH]; intros k t acc; [by destruct t|]. destruct t as [|a t]; [done|].
    simpl. destruct (digit_of a); simpl; [apply IH|done]. }
  rewrite Happ, H1, H2.
  do 2 f_equal. div_lia.
Qed.
Lemma two_spaces n s : 0 <= n < 100 -> drop_spaces (two_digits n +:+ s) = two_digits n +:+ s.
Proof.
  intros Hn. unfold two_digits. rewrite !string_app_cons. cbn [drop_spaces].
  rewrite digit_char_not_space; [done|div_lia].
Qed.

Lemma convert c cs text n s tm : read_digits (cv_width c) text 0 = Some (n, s) ->
  cv_lo c <= n <= cv_hi c ->
  get_time (c :: cs) text tm =
  match cv_sep c with
  | None => cv_set c n tm
  | Some sep => match separator sep s with Some s => get_time cs s (cv_set c n tm) | None => cv_set c n tm end
  end.
Proof. intros Hw Hr. cbn [get_time]. rewrite Hw. by rewrite !(proj2 (Z.leb_le _ _)) by lia. Qed.
Lemma separator_next c s : is_space c = false -> separator c (String c s) = Some s.
Proof. intros H. unfold separator. by rewrite H, Ascii.eqb_refl. Qed.
Lemma separator_space n s : 0 <= n < 100 -> separator " " (String " " (two_digits n +:+ s)) = Some (two_digits n +:+ s).
Proof.
  intros H. unfold separator. change (is_space " ") with true. cbn [drop_spaces].
  change (is_space " ") with true. cbv iota. by rewrite two_spaces.
Qed.

Lemma get_time_text t : 0 <= year (gmtime t) <= 9999 ->
  let tm := gmtime t in
  get_time datetime_format (four_digits (year tm) +:+ String "-" (two_digits (month tm) +:+
    String "-" (two_digits (tm_mday tm) +:+ String " " (two_digits (tm_hour tm) +:+ String ":"
    (two_digits (tm_min tm) +:+ String ":" (two_digits (tm_sec tm) +:+ "")))))) Tm_zero = tm.
Proof.
  intros Hy tm. destruct (gmtime_fields t) as (Hm&Hd&Hh&Hi&Hs). fold tm in Hy, Hm, Hd, Hh, Hi, Hs. clearbody tm.
  unfold datetime_format.
  erewrite convert; [|apply read_four; lia|cbn; lia].
  cbn [cv_sep cv_set]. rewrite separator_next by done.
  erewrite convert; [|apply read_two_0; lia|cbn; lia].
  cbn [cv_sep cv_set]. rewrite separator_next by done.
  erewrite convert; [|apply read_two_0; lia|cbn; lia].
  cbn [cv_sep cv_set]. rewrite separator_space by lia.
  erewrite convert; [|apply read_two_0; lia|cbn; lia].
  cbn [cv_sep cv_set]. rewrite separator_next by done.
  erewrite convert; [|apply read_two_0; lia|cbn; lia].
  cbn [cv_sep cv_set]. rewrite separator_next by done.
  erewrite convert; [|apply read_two_0; lia|cbn; lia].
  cbn [cv_sep cv_set]. destruct tm. unfold set_year, set_month, set_mday, set_hour, set_minute, set_second,
    year, month. cbn. f_equal; lia.
Qed.

Lemma parse_korean_text t : 0 <= year (gmtime (t + 9 * 3600)) <= 9999 ->
  parse_datetime (korean_text t) 9 = t.
Proof.
  intros Hy. pose proof (get_time_text _ Hy) as H. cbv zeta in H. unfold parse_datetime, korean_text.
  rewrite string_app_nil_r in H. set (tm := gmtime _) in *. unfold four_digits at 1.
  rewrite string_app_assoc, two_spaces by div_lia. rewrite <- string_app_assoc.
  change (two_digits (year tm / 100) +:+ two_digits (year tm mod 100)) with (four_digits (year tm)).
  rewrite H. unfold tm. rewrite timegm_gmtime. lia.
Qed.

(** ** The life of a token *)
Section life.
Context {J : Type} `{!JsonValue J} (parse : string -> option J).
Context (dump : list (string * string) -> string) (net : HttpRequest -> RestResponse).
Context (keys : Signer) (domain : string).

(** The venue grants a REST token that expires at [expiry], on its Korean wall clock. *)
Definition grants (token : string) (expiry : Z) : Prop := forall r,
  hr_url r = domain +:+ "/oauth2/tokenP" -> rr_ok (net r) = true /\
  exists j, parse (rr_body (net r)) = Some j /\
    exists type expires_in, read_rest_response j = Some {|
      rar_access_token := token; rar_access_token_token_expired := korean_text expiry;
      rar_token_type := type; rar_expires_in := expires_in |}.

Abbreviation update := (update_rest_access_token parse dump net (Some keys) (Some domain)).

(** C35: A granted REST token lives exactly until its expiry.  A start that finds no token, or
    a stale one, asks the venue once and keeps what it grants; every later start, at any
    time up to the instant the venue's Korean-time text names, sends nothing and keeps it;
    and the first start past that instant asks again. *)
Theorem token_lives_until_its_expiry token expiry now files :
  new_token_needed rest_token_path now files = true -> grants token expiry ->
  0 <= year (gmtime (expiry + 9 * 3600)) <= 9999 ->
  let '(sent, files') := update now files in
  length sent = 1%nat /\ get_access_token rest_token_path files' = (true, token) /\
  (forall path, path <> rest_token_path -> files' !! path = files !! path) /\
  forall later, (update later files').1 = [] <-> later <= expiry.
Proof.
  intros Hneed Hg Hy. unfold update_rest_access_token at 1, update_token. rewrite Hneed. cbn [negb].
  destruct (Hg {| hr_method := POST; hr_url := domain +:+ "/oauth2/tokenP";
    hr_body := Some (dump [("grant_type", "client_credentials"); ("appkey", api_key keys);
                           ("appsecret", secret_key keys)]);
    hr_headers := post_headers ∅ |} eq_refl) as (Hok&j&Hp&type&exp&Hr).
  rewrite Hok, Hp. cbn [mbind option_bind]. rewrite Hr.
  cbn [mbind option_bind rar_access_token rar_access_token_token_expired].
  rewrite parse_korean_text by done. split_and!; [done| | |].
  - unfold get_access_token. by rewrite lookup_insert_eq.
  - intros path Hne. by apply lookup_insert_ne.
  - intros later. unfold update_rest_access_token, update_token, new_token_needed, is_token_expired.
    rewrite lookup_insert_eq. cbn [access_token_expire_time].
    destruct (Z.ltb_spec expiry later); cbn [negb fst]; split; intros H'; done || lia.
Qed.

(** A start whose request fails, or is answered with anything else, keeps what it had. *)
Lemma failed_update_keeps now files :
  (forall r, rr_ok (net r) = false \/ parse (rr_body (net r)) ≫= read_rest_response = None) ->
  (update now files).2 = files.
Proof.
  intros H. unfold update_rest_access_token, update_token. destruct (new_token_needed _ _ _); [|done].
  cbn [negb snd]. set (r := {| hr_method := _ |}). destruct (H r) as [-> |Hr]; [done|].
  destruct (rr_ok (net r)); [|done]. revert Hr.
  destruct (parse (rr_body (net r))) as [j|]; cbn [mbind option_bind]; [|done]. intros ->. done.
Qed.
End life.

(** ** Witness *)
Module SampleToken.
Definition body : string := "body".
Definition parse (s : string) : option jv := Some (JObj [
  ("access_token", JStr "tok"); ("access_token_token_expired", JStr "2024-03-01 09:00:00");
  ("token_type", JStr "Bearer"); ("expires_in", JInt 86400)]).
Definition net (_ : HttpRequest) : RestResponse :=
  {| rr_success := true; rr_error_msg := ""; rr_status_code := 200; rr_body := body; rr_headers := ∅ |}.
Definition keys : Signer := {| api_key := "k"; secret_key := "s" |}.
End SampleToken.

(** 2024-03-01 09:00:00 in Korea is 1709251200. *)
Lemma token_lives_until_its_expiry_witness :
  let '(sent, files) := update_rest_access_token SampleToken.parse (fun _ => "") SampleToken.net
    (Some SampleToken.keys) (Some "d") 1709164800 ∅ in
  length sent = 1%nat /\ get_access_token rest_token_path files = (true, "tok") /\
  korean_text 1709251200 = "2024-03-01 09:00:00".
Proof.
  pose proof (token_lives_until_its_expiry SampleToken.parse (fun _ => "") SampleToken.net
    SampleToken.keys "d" "tok" 1709251200 1709164800 ∅) as H.
  destruct (update_rest_access_token _ _ _ _ _ _ _) as [sent files].
  destruct H as (H1&H2&_); [done| |by vm_compute|].
  - intros r _. split; [done|]. eexists. split; [reflexivity|]. by do 2 eexists.
  - split_and!; [done|done|by vm_compute].
Defined.
