(* ===== verification/BinanceListener.v ===== *)
(** * BinanceListener: the Binance market adapter

    [market_listener/exchange/binance/binance_listener.cpp] with the stream structs of
    [market_dtypes.hpp].  The adapter's state is a record, its worker's handlers are
    actions of the state monad that push events to the market listener's queue.  What
    glaze reads out of a payload is a parameter: one reader per struct, [None] for the
    error code the caller tests. *)
From Stdlib Require Import Ascii.
From S2P Require Import Prelude Double Text Messages.
From S2P Require Import Json ListenerEvents OrderBook Reconnect HttpClient BinanceRest.

#[local] Open Scope string_scope.
#[local] Open Scope Z_scope.

(** ** market_dtypes.hpp *)
Record BookTicker := {
  bt_E : Z; bt_s : string; bt_b : string; bt_B : string; bt_a : string; bt_A : string }.
Record DepthUpdate := {
  du_E : Z; du_s : string; du_U : Z; du_u : Z; du_pu : Z;
  du_b : list (string * string); du_a : list (string * string) }.
Record AggTrade := { at_E : Z; at_s : string; at_p : string; at_q : string }.
Record OrderTradeUpdate := {
  ou_s : string; ou_c : string; ou_S : string; ou_x : string; ou_i : Z; ou_p : string;
  ou_q : string; ou_z : string; ou_L : string; ou_l : string }.
Record AccountBalance := { ab_a : string; ab_wb : string }.
Record AccountPosition := { ap_s : string; ap_pa : string }.
Record AccountUpdate := { au_B : list AccountBalance; au_P : list AccountPosition }.

(** The readers of the payloads. *)
Record StreamReaders := {
  read_market_event : string -> option string;        (* data.e *)
  read_book_ticker : string -> option BookTicker;
  read_depth_update : string -> option DepthUpdate;
  read_agg_trade : string -> option AggTrade;
  read_user_event : string -> option string;          (* e *)
  read_order_update : string -> option OrderTradeUpdate;
  read_account_update : string -> option AccountUpdate }.

(** Decimals are JSON strings; an empty one is 0.0, [None] is [std::stod]'s exception. *)
Definition sd (s : string) : option double := if decide (s = "") then Some fzero else stod s.

(** ** State *)
Inductive Socket := Market | TradeSocket | User.
#[export] Instance socket_eq_dec : EqDecision Socket.
Proof. solve_decision. Defined.

Record BinanceListener := {
  bl_config : ListenerConfig;
  stream_domain : string;
  futures_products : list string;
  asset_products : list string;
  rest_client : BinanceRestClient;
  order_books : gmap string OrderBook;
  listen_key : string;
  bl_sockets : Socket -> Sup;
  bl_events : list ListenerEvent }.      (* pushed so far, oldest first *)

(** The constructor: products by category, an empty book per future; [spot] is skipped. *)
Definition with_category (c : Category) (specs : list ProductSpec) : list string :=
  spec_product <$> base.filter (fun s => spec_category s = c) specs.
Definition BinanceListener_new (config : ListenerConfig) (stream rest : string)
    (signer : option Signer) : BinanceListener :=
  let fs := with_category futures (lc_product_specs config) in {|
  bl_config := config; stream_domain := stream; futures_products := fs;
  asset_products := with_category asset (lc_product_specs config);
  rest_client := {| rest_domain := rest; rc_signer := signer; filters := ∅ |};
  order_books := list_to_map ((fun p => (p, OrderBook_new)) <$> fs);
  listen_key := ""; bl_sockets := fun _ => Sup_new; bl_events := [] |}.

Definition BL : Type -> Type := st BinanceListener.
Definition push (e : ListenerEvent) : BL unit := modify (fun w => {|
  bl_config := bl_config w; stream_domain := stream_domain w;
  futures_products := futures_products w; asset_products := asset_products w;
  rest_client := rest_client w; order_books := order_books w; listen_key := listen_key w;
  bl_sockets := bl_sockets w; bl_events := bl_events w ++ [e] |}).
Definition set_book (product : string) (b : OrderBook) : BL unit := modify (fun w => {|
  bl_config := bl_config w; stream_domain := stream_domain w;
  futures_products := futures_products w; asset_products := asset_products w;
  rest_client := rest_client w; order_books := <[product := b]> (order_books w);
  listen_key := listen_key w; bl_sockets := bl_sockets w; bl_events := bl_events w |}).
Definition set_rest (c : BinanceRestClient) : BL unit := modify (fun w => {|
  bl_config := bl_config w; stream_domain := stream_domain w;
  futures_products := futures_products w; asset_products := asset_products w;
  rest_client := c; order_books := order_books w; listen_key := listen_key w;
  bl_sockets := bl_sockets w; bl_events := bl_events w |}).
Definition set_listen_key (k : string) : BL unit := modify (fun w => {|
  bl_config := bl_config w; stream_domain := stream_domain w;
  futures_products := futures_products w; asset_products := asset_products w;
  rest_client := rest_client w; order_books := order_books w; listen_key := k;
  bl_sockets := bl_sockets w; bl_events := bl_events w |}).
Definition on_socket (k : Socket) (f : Sup -> Sup) : BL unit := modify (fun w => {|
  bl_config := bl_config w; stream_domain := stream_domain w;
  futures_products := futures_products w; asset_products := asset_products w;
  rest_client := rest_client w; order_books := order_books w; listen_key := listen_key w;
  bl_sockets := (fun k' => match k, k' with
    | Market, Market | TradeSocket, TradeSocket | User, User => f (bl_sockets w k')
    | _, _ => bl_sockets w k' end);
  bl_events := bl_events w |}).

(** ** Stream addresses *)
Fixpoint join (sep : string) (l : list string) : string :=
  match l with
  | [] => ""
  | [s] => s
  | s :: l => s +:+ sep +:+ join sep l
  end.
Definition market_stream_url (w : BinanceListener) : string :=
  stream_domain w +:+ "/public/stream?streams=" +:+
  join "/" ((fun p => to_lower p +:+ "@bookTicker/" +:+ to_lower p +:+ "@depth@100ms")
            <$> futures_products w).
Definition trade_stream_url (w : BinanceListener) : string :=
  stream_domain w +:+ "/market/stream?streams=" +:+
  join "/" ((fun p => to_lower p +:+ "@aggTrade") <$> futures_products w).
Definition user_stream_url (w : BinanceListener) : string :=
  stream_domain w +:+ "/private/ws?listenKey=" +:+ listen_key w +:+
  "&events=ORDER_TRADE_UPDATE/ACCOUNT_UPDATE".

(** ** Handlers *)
Definition stamp (E : Z) : option Z := if 0 <? E then Some E else None.
Definition with_stamp (E : Z) (d : OrderbookData) : OrderbookData :=
  {| bid_book := bid_book d; ask_book := ask_book d; ob_server_tstamp_ms := stamp E |}.
Definition read_side (levels : list (string * string)) : option (list PriceLevel) :=
  mapM (fun l => p ← sd l.1; q ← sd l.2; Some (p, q)) levels.

Definition book_ticker_msg (t : BookTicker) : option ListenerEvent :=
  b ← sd (bt_b t); bq ← sd (bt_B t); a ← sd (bt_a t); aq ← sd (bt_A t);
  Some (OrderbookMsg (bt_s t) {|
    bid_book := [{| lvl_price := Some b; lvl_qty := Some bq |}];
    ask_book := [{| lvl_price := Some a; lvl_qty := Some aq |}];
    ob_server_tstamp_ms := stamp (bt_E t) |}).

Definition agg_trade_msg (t : AggTrade) : option ListenerEvent :=
  p ← sd (at_p t); q ← sd (at_q t);
  Some (TradeMsg (at_s t) {|
    trade_price := Some p; cum_trade_qty := Some q; cum_buy_trade_qty := None;
    td_server_tstamp_ms := stamp (at_E t) |}).

(** The execution an order event stands for: [None] is an exception, [Some None] an event
    type that is not forwarded. *)
Definition order_update_data (o : OrderTradeUpdate) : option (option ExecutionData) :=
  price ← sd (ou_p o); orig_qty ← sd (ou_q o); cum_filled ← sd (ou_z o);
  let no := to_string (ou_i o) in
  let data (accept place cancel accepted executed : bool) (orig_no : string)
           (qty xp xq : option double) := {|
    account_no := ""; ex_order_no := no; original_order_no := orig_no;
    client_order_id := ou_c o; short_product := ""; full_product := "";
    is_accept_data := accept; is_place := place; is_cancel := cancel;
    ex_is_bid := bool_decide (ou_S o = "BUY"); is_accepted := accepted; is_rejected := false;
    is_executed := executed; update_position_on_fill := false;
    order_price := Some price; order_qty := qty; execute_price := xp; execute_qty := xq |} in
  if decide (ou_x o = "NEW") then
    Some (Some (data true true false true false "" (Some orig_qty) None None))
  else if decide (ou_x o = "CANCELED" \/ ou_x o = "EXPIRED") then
    Some (Some (data true false true false false no (Some (fsub orig_qty cum_filled)) None None))
  else if decide (ou_x o = "TRADE") then
    xp ← sd (ou_L o); xq ← sd (ou_l o);
    Some (Some (data false false false false true "" None (Some xp) (Some xq)))
  else Some None.

(** Position messages out of an [ACCOUNT_UPDATE], up to the first unreadable one. *)
Definition balance_msg (product amount : string) : option ListenerEvent :=
  b ← sd amount; Some (PositionMsg product {| balance := Some b; available_balance := None |}).
Fixpoint until_throw (l : list (option ListenerEvent)) : list ListenerEvent :=
  match l with Some e :: l => e :: until_throw l | _ => [] end.
Definition account_msgs (u : AccountUpdate) : list ListenerEvent :=
  until_throw (((fun b => balance_msg (ab_a b) (ab_wb b)) <$> au_B u) ++
               ((fun p => balance_msg (ap_s p) (ap_pa p)) <$> au_P u)).

Section handlers.
Context {J : Type} `{!JsonValue J}.
Variable parse : string -> option J.
Variable hmac_sha256 : string -> string -> list Z.
Variable readers : StreamReaders.
(** The venue's REST surface and the clock during this handler. *)
Variable net : HttpRequest -> RestResponse.
Variable now_ms : Z.

Definition push_all (es : list ListenerEvent) : BL unit := for_each es push.
Definition levels_of (w : BinanceListener) : Z := lc_orderbook_levels (bl_config w).

Definition resync_order_book (product : string) : BL unit :=
  w ← gets id;
  let book := mark_desynced (default OrderBook_new (order_books w !! product)) in
  let snapshot := fetch_depth parse net product 1000 (rest_client w) in
  if ok snapshot then
    let book :=
      apply_snapshot (last_update_id snapshot) (snap_bids snapshot) (snap_asks snapshot) book in
    set_book product book ;;
    push (OrderbookMsg product (to_data (levels_of w) book))
  else set_book product book.

Definition on_depth_update (d : DepthUpdate) : BL unit :=
  w ← gets id;
  match order_books w !! du_s d, read_side (du_b d), read_side (du_a d) with
  | Some book, Some bids, Some asks =>
      let '(in_sequence, book) := apply_diff (du_U d) (du_u d) (du_pu d) bids asks book in
      set_book (du_s d) book ;;
      if in_sequence
      then push (OrderbookMsg (du_s d) (with_stamp (du_E d) (to_data (levels_of w) book)))
      else resync_order_book (du_s d)
  | _, _, _ => skip
  end.

Definition handle_market_payload (payload : string) : BL unit :=
  match read_market_event readers payload with
  | None => skip
  | Some e =>
      if decide (e = "bookTicker") then
        push_all (from_option (fun m => [m]) [] (t ← read_book_ticker readers payload; book_ticker_msg t))
      else if decide (e = "depthUpdate") then
        match read_depth_update readers payload with Some d => on_depth_update d | None => skip end
      else if decide (e = "aggTrade") then
        push_all (from_option (fun m => [m]) [] (t ← read_agg_trade readers payload; agg_trade_msg t))
      else skip
  end.

Definition handle_user_payload (payload : string) : BL unit :=
  match read_user_event readers payload with
  | None => skip
  | Some e =>
      if decide (e = "ORDER_TRADE_UPDATE") then
        match (o ← read_order_update readers payload; d ← order_update_data o; d' ← d;
               Some (ExecutionMsg (ou_s o) d')) with
        | Some m => push m
        | None => skip
        end
      else if decide (e = "ACCOUNT_UPDATE") then
        push_all (from_option account_msgs [] (read_account_update readers payload))
      else skip
  end.

Definition publish_state : BL unit :=
  w ← gets id;
  when (bool_decide (futures_products w <> []))
    (push_all (fetch_positions parse hmac_sha256 net now_ms (rest_client w))) ;;
  when (bool_decide (asset_products w <> []))
    (push_all (fetch_balances parse hmac_sha256 net now_ms (rest_client w))) ;;
  push_all (fetch_open_orders parse hmac_sha256 net now_ms (rest_client w)).

Definition publish_grids : BL unit :=
  w ← gets id;
  let c := load parse net (rest_client w) in
  set_rest c ;;
  for_each (futures_products w) (fun product =>
    let f := filter c product in
    push (ProductInfoMsg product
      {| tick_size := Some (pf_tick_size f); lot_size := Some (pf_step_size f) |})).

Definition socket_name (k : Socket) : string :=
  match k with Market => "binance_market" | TradeSocket => "binance_trade" | User => "binance_user" end.

(** What a socket that just came up sets off. *)
Definition on_socket_open (k : Socket) : BL unit :=
  match k with
  | Market => w ← gets id; for_each (futures_products w) resync_order_book
  | TradeSocket => skip
  | User => publish_state
  end.

Definition on_ws_status (k : Socket) (connecting opened : bool) : BL unit :=
  w ← gets id;
  on_socket k (binance_on_ws_status connecting opened) ;;
  when (negb (sup_opened (bl_sockets w k)) && opened) (on_socket_open k) ;;
  push (StatusEvent (socket_name k) connecting opened).

(** [WsEvent] and the worker's dispatch. *)
Inductive WsEvent :=
  | WsStatus (k : Socket) (connecting opened : bool)
  | WsPayload (k : Socket) (payload : string).
Definition on_ws_event (e : WsEvent) : BL unit :=
  match e with
  | WsStatus k c o => on_ws_status k c o
  | WsPayload User p => handle_user_payload p
  | WsPayload _ p => handle_market_payload p
  end.

(** Building the clients; [dials k] is false when [connect] throws. *)
Variable dials : Socket -> bool.
Definition create_stream_client (k : Socket) : BL unit := on_socket k (create_client (dials k)).
Definition create_user_client : BL unit :=
  w ← gets id;
  let key := create_listen_key parse net (rest_client w) in
  set_listen_key key ;;
  if decide (key = "") then on_socket User no_listen_key else create_stream_client User.
Definition start : BL unit :=
  w ← gets id;
  create_stream_client Market ;; create_stream_client TradeSocket ;;
  match rc_signer (rest_client w) with Some _ => create_user_client | None => skip end.

(** The timer handler of a socket's redial. *)
Definition redial_socket (k : Socket) : BL unit :=
  match k with
  | User =>
      on_socket User (fun s => set_schedule (sup_cnt s) false (sup_posted s) None s) ;;
      create_user_client
  | _ => on_socket k (redial (dials k))
  end.

(** The adapter interface. *)
Definition pushed (m : BL unit) (w : BinanceListener) : BinanceListener * list ListenerEvent * bool :=
  let w' := (m w).2 in (w', drop (length (bl_events w)) (bl_events w'), false).
Definition BinanceAdapter : ExchangeListener BinanceListener := {|
  publish_product_info := pushed publish_grids;
  publish_user_state := pushed publish_state |}.
End handlers.

(** ** The books a listener should publish

    A reference written from the venue's rules for a local book, with no book in it.  Of a
    product it keeps the last snapshot and the updates that count since, or nothing when a
    snapshot is owed; a book is computed afresh from these when it goes out. *)
#[local] Open Scope list_scope.

(** Where an update stands to a book that has got as far as [last]. *)
Inductive Standing := Old | Next | Gap.
#[export] Instance standing_eq_dec : EqDecision Standing.
Proof. solve_decision. Defined.
Definition standing (last : Z) (e : DepthEvent) : Standing :=
  let next := wrap_s 64 (last + 1) in
  if decide (ev_u e < last) then Old
  else if decide (ev_U e <= next <= ev_u e \/ ev_pu e = last) then Next
  else Gap.
(** Each update follows on the one before it, the first on [last]. *)
Fixpoint in_turn (last : Z) (es : list DepthEvent) : Prop :=
  match es with [] => True | e :: es => standing last e = Next /\ in_turn (ev_u e) es end.

Definition Track : Type := option (DepthSnapshot * list DepthEvent).
Definition position (s : DepthSnapshot) (es : list DepthEvent) : Z :=
  match last es with Some e => ev_u e | None => last_update_id s end.
Record BookView := { v_open : bool; v_tracks : gmap string Track }.

(** What is published: a product's book, as a snapshot and the updates that count, with the
    stamp of the update that set it off; or the best quotes of a ticker. *)
Inductive Publication :=
  | Book (product : string) (s : DepthSnapshot) (es : list DepthEvent) (E : option Z)
  | Ticker (product : string) (bid ask : PriceLevel) (E : Z).
Definition render (n : Z) (x : Publication) : ListenerEvent :=
  match x with
  | Book p s es E => OrderbookMsg p {|
      bid_book := top_levels n (replay_bids es (snapshot_side bid_lt (snap_bids s)));
      ask_book := top_levels n (replay_asks es (snapshot_side ask_lt (snap_asks s)));
      ob_server_tstamp_ms := E ≫= stamp |}
  | Ticker p b a E => OrderbookMsg p {|
      bid_book := [{| lvl_price := Some b.1; lvl_qty := Some b.2 |}];
      ask_book := [{| lvl_price := Some a.1; lvl_qty := Some a.2 |}];
      ob_server_tstamp_ms := stamp E |}
  end.
(** A book in sync: its snapshot is a whole one, and nothing is missing after it. *)
Definition genuine (x : Publication) : Prop :=
  match x with Book _ s es _ => ok s = true /\ in_turn (last_update_id s) es | Ticker _ _ _ _ => True end.

(** Steps of the reference, with what they publish. *)
Definition RefStep : Type := BookView -> BookView * list Publication.
Definition ref_skip : RefStep := fun v => (v, []).
Definition ref_seq (f g : RefStep) : RefStep := fun v =>
  let '(v, o) := f v in let '(v, o') := g v in (v, o ++ o').
Definition ref_each {A} (l : list A) (f : A -> RefStep) : RefStep :=
  foldr (fun a g => ref_seq (f a) g) ref_skip l.

Section reference.
Context {J : Type} `{!JsonValue J}.
Context (parse : string -> option J) (readers : StreamReaders).
Context (client : BinanceRestClient) (products : list string).

(** Ask the venue for a snapshot. *)
Definition ref_refetch (net : HttpRequest -> RestResponse) (p : string) : RefStep := fun v =>
  let s := fetch_depth parse net p 1000 client in
  if ok s
  then ({| v_open := v_open v; v_tracks := <[p := Some (s, [])]> (v_tracks v) |}, [Book p s [] None])
  else ({| v_open := v_open v; v_tracks := <[p := None]> (v_tracks v) |}, []).

(** An update of a product that is followed. *)
Definition ref_update (net : HttpRequest -> RestResponse) (p : string) (E : Z) (e : DepthEvent) : RefStep := fun v =>
  match v_tracks v !! p with
  | None => (v, [])
  | Some None => ref_refetch net p v
  | Some (Some (s, es)) =>
      match standing (position s es) e with
      | Old => (v, [Book p s es (Some E)])
      | Next => ({| v_open := v_open v; v_tracks := <[p := Some (s, es ++ [e])]> (v_tracks v) |},
                 [Book p s (es ++ [e]) (Some E)])
      | Gap => ref_refetch net p v
      end
  end.

Definition read_event (d : DepthUpdate) : option DepthEvent :=
  bs ← read_side (du_b d); az ← read_side (du_a d);
  Some {| ev_U := du_U d; ev_u := du_u d; ev_pu := du_pu d; ev_bids := bs; ev_asks := az |}.
Definition read_ticker (t : BookTicker) : option Publication :=
  b ← sd (bt_b t); bq ← sd (bt_B t); a ← sd (bt_a t); aq ← sd (bt_A t);
  Some (Ticker (bt_s t) (b, bq) (a, aq) (bt_E t)).
Definition ref_payload (net : HttpRequest -> RestResponse) (payload : string) : RefStep :=
  match read_market_event readers payload with
  | None => ref_skip
  | Some e =>
      if decide (e = "bookTicker") then fun v =>
        (v, option_list (t ← read_book_ticker readers payload; read_ticker t))
      else if decide (e = "depthUpdate") then
        match read_depth_update readers payload with
        | Some d =>
            match read_event d with Some ev => ref_update net (du_s d) (du_E d) ev | None => ref_skip end
        | None => ref_skip
        end
      else ref_skip
  end.

(** The market socket newly up: every snapshot is fetched anew. *)
Definition ref_event (x : WsEvent * (HttpRequest -> RestResponse) * Z) : RefStep :=
  let '(e, net, _) := x in
  match e with
  | WsStatus Market _ opened => fun v =>
      let v' := {| v_open := opened; v_tracks := v_tracks v |} in
      if negb (v_open v) && opened then ref_each products (ref_refetch net) v' else (v', [])
  | WsPayload Market p | WsPayload TradeSocket p => ref_payload net p
  | _ => ref_skip
  end.
Definition ref_run (xs : list (WsEvent * (HttpRequest -> RestResponse) * Z)) : list Publication :=
  (ref_each xs ref_event
     {| v_open := false; v_tracks := list_to_map ((fun p => (p, None)) <$> products) |}).2.
End reference.

(** *** What the reference publishes is genuine *)
Definition view_ok (v : BookView) : Prop := map_Forall (fun p (t : Track) =>
  match t with Some (s, es) => genuine (Book p s es None) | None => True end) (v_tracks v).
Definition ref_ok (f : RefStep) : Prop :=
  forall v, view_ok v -> view_ok (f v).1 /\ Forall genuine (f v).2.

Lemma ref_ok_skip : ref_ok ref_skip.
Proof. by intros v Hv. Qed.
Lemma ref_ok_seq f g : ref_ok f -> ref_ok g -> ref_ok (ref_seq f g).
Proof.
  intros Hf Hg v Hv. unfold ref_seq. destruct (Hf v Hv) as [H1 H2]. destruct (f v) as [v1 o1].
  destruct (Hg v1 H1) as [H3 H4]. destruct (g v1) as [v2 o2].
  cbn [fst snd] in *. split; [done|]. by apply Forall_app.
Qed.
Lemma ref_ok_each {A} (l : list A) f : (forall a, ref_ok (f a)) -> ref_ok (ref_each l f).
Proof. intros Hf. induction l as [|a l IH]; [apply ref_ok_skip|]. by apply ref_ok_seq. Qed.

Lemma in_turn_snoc last es e :
  in_turn last (es ++ [e]) <->
  in_turn last es /\ standing (match list.last es with Some x => ev_u x | None => last end) e = Next.
Proof.
  revert last. induction es as [|x es IH]; intros last; simpl; [tauto|]. rewrite IH, last_cons.
  destruct (list.last es); tauto.
Qed.

Section reference_ok.
Context {J : Type} `{!JsonValue J}.
Context (parse : string -> option J) (readers : StreamReaders).
Context (client : BinanceRestClient) (products : list string).

Lemma ref_refetch_ok net p : ref_ok (ref_refetch parse client net p).
Proof.
  intros v Hv. unfold ref_refetch. cbv zeta. destruct (ok _) eqn:Eok.
  - split; [by apply map_Forall_insert_2|]. by repeat constructor.
  - split; [by apply map_Forall_insert_2|constructor].
Qed.

Lemma ref_update_ok net p E e : ref_ok (ref_update parse client net p E e).
Proof.
  intros v Hv. unfold ref_update. destruct (v_tracks v !! p) as [[[s es]|]|] eqn:Et.
  - pose proof (Hv _ _ Et) as [Hok Ht]. destruct (standing (position s es) e) eqn:Es.
    + by repeat constructor.
    + assert (in_turn (last_update_id s) (es ++ [e])) as Ht' by (by apply in_turn_snoc).
      split; [by apply map_Forall_insert_2|]. by repeat constructor.
    + by apply ref_refetch_ok.
  - by apply ref_refetch_ok.
  - by split.
Qed.

Lemma ref_payload_ok net p : ref_ok (ref_payload parse readers client net p).
Proof.
  unfold ref_payload. repeat case_match; try apply ref_ok_skip; try apply ref_update_ok.
  intros v Hv. split; [done|]. destruct (_ ≫= _) as [x|] eqn:E; [|constructor]. apply Forall_singleton.
  destruct (read_book_ticker readers p); [|done]. simpl in E. unfold read_ticker, mbind, option_bind in E.
  repeat case_match; try done. by injection E as <-.
Qed.

Lemma ref_event_ok x : ref_ok (ref_event parse readers client products x).
Proof.
  destruct x as [[e net] now]. destruct e as [[] c o|[] p]; try apply ref_ok_skip; try apply ref_payload_ok.
  intros v Hv. simpl. destruct (_ && _); [|by split].
  by apply ref_ok_each; [intros; apply ref_refetch_ok|].
Qed.
End reference_ok.

(** *** The adapter follows the reference *)

(** The book a track stands for. *)
Definition holds (t : Track) (b : OrderBook) : Prop :=
  match t with
  | None => synced b = false
  | Some (s, es) => b = {| synced := true; OrderBook.last_update_id := position s es;
      bids := replay_bids es (snapshot_side bid_lt (snap_bids s));
      asks := replay_asks es (snapshot_side ask_lt (snap_asks s)) |}
  end.
Definition is_book (e : ListenerEvent) : bool := match e with OrderbookMsg _ _ => true | _ => false end.
Definition book_msgs (es : list ListenerEvent) : list ListenerEvent :=
  base.filter (fun e => is_book e = true) es.
Lemma book_msgs_app es es' : book_msgs (es ++ es') = book_msgs es ++ book_msgs es'.
Proof. apply filter_app. Qed.
Lemma book_msgs_none es : Forall (fun e => is_book e = false) es -> book_msgs es = [].
Proof.
  induction 1 as [|e es He _ IH]; [done|]. unfold book_msgs in *.
  rewrite filter_cons_False; [done|by rewrite He].
Qed.

Lemma apply_diff_old e b : synced b = true ->
  standing (OrderBook.last_update_id b) e = Old ->
  apply_diff (ev_U e) (ev_u e) (ev_pu e) (ev_bids e) (ev_asks e) b = (true, b).
Proof.
  unfold standing, apply_diff. intros ->. simpl. repeat case_decide; try done.
  by rewrite (proj2 (Z.ltb_lt _ _)).
Qed.
Lemma apply_diff_gap e b : synced b = true ->
  standing (OrderBook.last_update_id b) e = Gap ->
  apply_diff (ev_U e) (ev_u e) (ev_pu e) (ev_bids e) (ev_asks e) b = (false, mark_desynced b).
Proof.
  unfold standing, apply_diff. intros ->. simpl. repeat case_decide; try done. intros _.
  rewrite (proj2 (Z.ltb_ge _ _)) by lia.
  destruct (_ <=? _) eqn:E1, (_ <=? ev_u e) eqn:E2, (ev_pu e =? _) eqn:E3; simpl; zify_bools; try done; lia.
Qed.
Lemma apply_diff_next e b : synced b = true ->
  standing (OrderBook.last_update_id b) e = Next ->
  apply_diff (ev_U e) (ev_u e) (ev_pu e) (ev_bids e) (ev_asks e) b =
  (true, {| synced := true; OrderBook.last_update_id := ev_u e;
            bids := apply_side bid_lt (bids b) (ev_bids e);
            asks := apply_side ask_lt (asks b) (ev_asks e) |}).
Proof.
  unfold standing, apply_diff. intros ->. simpl. repeat case_decide; try done. intros _.
  rewrite (proj2 (Z.ltb_ge _ _)) by lia.
  destruct (_ <=? _) eqn:E1, (_ <=? ev_u e) eqn:E2, (ev_pu e =? _) eqn:E3; simpl; zify_bools; try done; lia.
Qed.

Section follows.
Context (client : BinanceRestClient) (products : list string) (n : Z).

Record agree (w : BinanceListener) (v : BookView) : Prop := {
  ar_levels : levels_of w = n; ar_client : rest_client w = client;
  ar_products : futures_products w = products;
  ar_open : sup_opened (bl_sockets w Market) = v_open v;
  ar_tracks : forall p, match order_books w !! p, v_tracks v !! p with
    | Some b, Some t => holds t b | None, None => True | _, _ => False end }.

(** [m] does what the reference step does, and publishes the books it publishes. *)
Definition at_follows (m : BL unit) (f : RefStep) (w : BinanceListener) (v : BookView) : Prop :=
  agree (m w).2 (f v).1 /\
  exists es, bl_events (m w).2 = bl_events w ++ es /\ book_msgs es = render n <$> (f v).2.
Definition ref_follows (m : BL unit) (f : RefStep) : Prop :=
  forall w v, agree w v -> at_follows m f w v.

Lemma rf_skip : ref_follows skip ref_skip.
Proof. intros w v H. split; [done|]. exists []. by rewrite app_nil_r. Qed.
Lemma at_seq m (k : unit -> BL unit) f g w v :
  at_follows m f w v -> ref_follows (k tt) g -> at_follows (m ≫= k) (ref_seq f g) w v.
Proof.
  intros (H1&es1&E1&B1) Hg. unfold at_follows, ref_seq.
  change ((m ≫= k) w) with (k (m w).1 (m w).2). destruct (m w).1. destruct (f v) as [v1 o1].
  destruct (Hg _ _ H1) as (H2&es2&E2&B2). cbn [fst snd] in *. destruct (g v1) as [v2 o2].
  cbn [fst snd] in *. split; [done|].
  exists (es1 ++ es2). rewrite E2, E1, app_assoc, book_msgs_app, fmap_app, B1, B2. done.
Qed.
Lemma rf_seq m (k : unit -> BL unit) f g :
  ref_follows m f -> ref_follows (k tt) g -> ref_follows (m ≫= k) (ref_seq f g).
Proof. intros Hm Hk w v H. by apply at_seq; [apply Hm|]. Qed.
Lemma rf_each {A} (l : list A) m f :
  (forall a, ref_follows (m a) (f a)) -> ref_follows (for_each l m) (ref_each l f).
Proof. intros H. induction l as [|a l IH]; [apply rf_skip|]. by apply rf_seq. Qed.
Lemma at_equal m f g w v : f v = g v -> at_follows m f w v -> at_follows m g w v.
Proof. unfold at_follows. by intros ->. Qed.
Lemma rf_gets (k : BinanceListener -> BL unit) f :
  (forall w v, agree w v -> at_follows (k w) f w v) -> ref_follows (gets id ≫= k) f.
Proof. intros H w v Ha. by apply H. Qed.

Lemma rf_gets_any (k : BinanceListener -> BL unit) f :
  (forall w, ref_follows (k w) f) -> ref_follows (gets id ≫= k) f.
Proof. intros H. apply rf_gets. intros w v. apply H. Qed.
(** A first part that publishes nothing. *)
Lemma at_silent m (k : unit -> BL unit) f g w v v' :
  bl_events (m w).2 = bl_events w -> f v = g v' -> at_follows (k tt) g (m w).2 v' ->
  at_follows (m ≫= k) f w v.
Proof.
  unfold at_follows. intros E ->. change ((m ≫= k) w) with (k (m w).1 (m w).2). destruct (m w).1. by rewrite E.
Qed.

(** What leaves books, client and market socket alone, and pushes no book. *)
Definition bookless (m : BL unit) : Prop := ref_follows m ref_skip.
Lemma bookless_seq m (k : unit -> BL unit) : bookless m -> bookless (k tt) -> bookless (m ≫= k).
Proof. intros Hm Hk w v H. by apply (at_equal _ (ref_seq ref_skip ref_skip)), at_seq; [|apply Hm|]. Qed.
Lemma bookless_push e : is_book e = false -> bookless (push e).
Proof.
  intros He w v [H1 H2 H3 H4 H5]. split; [by split|]. exists [e]. split; [done|].
  by apply book_msgs_none, Forall_singleton.
Qed.
Lemma bookless_push_all es : Forall (fun e => is_book e = false) es -> bookless (push_all es).
Proof.
  induction 1 as [|e es He _ IH]; [apply rf_skip|]. apply bookless_seq; [by apply bookless_push|done].
Qed.
Lemma bookless_when b m : bookless m -> bookless (when b m).
Proof. destruct b; [done|]. intros _. apply rf_skip. Qed.
Lemma at_then m (k : unit -> BL unit) f w v :
  at_follows m f w v -> bookless (k tt) -> at_follows (m ≫= k) f w v.
Proof.
  intros Hm Hk. apply (at_equal _ (ref_seq f ref_skip)); [|by apply at_seq].
  unfold ref_seq, ref_skip. destruct (f v) as [v1 o1]. by rewrite app_nil_r.
Qed.

Section steps.
Context {J : Type} `{!JsonValue J}.
Context (parse : string -> option J) (hmac : string -> string -> list Z) (readers : StreamReaders).

(** A book stored over the old one, and its track. *)
Lemma agree_set_book w v p b t :
  agree w v -> holds t b ->
  agree (set_book p b w).2 {| v_open := v_open v; v_tracks := <[p := t]> (v_tracks v) |}.
Proof.
  intros [H1 H2 H3 H4 H5] Ht. split; try done. intros q. simpl. destruct (decide (q = p)) as [->|Hne].
  - by rewrite !lookup_insert_eq.
  - rewrite !lookup_insert_ne by done. apply H5.
Qed.
Lemma at_set_push w v p b t E x :
  agree w v -> holds (Some t) b -> render n x = OrderbookMsg p (if E is Some E then with_stamp E (to_data n b) else to_data n b) ->
  at_follows (set_book p b ;; push (OrderbookMsg p (if E is Some E then with_stamp E (to_data n b) else to_data n b)))
    (fun v => ({| v_open := v_open v; v_tracks := <[p := Some t]> (v_tracks v) |}, [x])) w v.
Proof.
  intros Ha Ht Hx. pose proof (agree_set_book w v p b (Some t) Ha Ht) as [H1 H2 H3 H4 H5].
  split; [by split|]. eexists. split; [done|]. simpl. by rewrite Hx.
Qed.

Lemma rf_resync net p : ref_follows (resync_order_book parse net p) (ref_refetch parse client net p).
Proof.
  apply rf_gets. intros w v Ha. pose proof Ha as [Hn Hc _ _ _]. cbv zeta. rewrite Hc, Hn.
  unfold at_follows, ref_refetch. cbv zeta. destruct (ok _) eqn:Eok.
  - by apply (at_set_push w v p _ (fetch_depth parse net p 1000 client, []) None (Book p _ [] None)).
  - split; [by apply agree_set_book|]. exists []. by rewrite app_nil_r.
Qed.

Lemma rf_depth net d :
  ref_follows (on_depth_update parse net d)
    (match read_event d with Some e => ref_update parse client net (du_s d) (du_E d) e | None => ref_skip end).
Proof.
  apply rf_gets. intros w v Ha. pose proof Ha as [Hn _ _ _ Ht]. specialize (Ht (du_s d)).
  destruct (read_event d) as [e|] eqn:Ee; unfold read_event, mbind, option_bind in Ee;
    destruct (read_side (du_b d)) as [bs|]; try done; try (destruct (read_side (du_a d)) as [az|]; try done);
    try (destruct (order_books w !! du_s d); by apply rf_skip).
  injection Ee as <-. set (e := Build_DepthEvent _ _ _ _ _). unfold at_follows, ref_update.
  destruct (order_books w !! du_s d) as [b|] eqn:Eb, (v_tracks v !! du_s d) as [t|] eqn:Et; try done;
    [|by apply rf_skip].
  change (apply_diff (du_U d) (du_u d) (du_pu d) bs az b) with
    (apply_diff (ev_U e) (ev_u e) (ev_pu e) (ev_bids e) (ev_asks e) b).
  (* a book thrown away is fetched again *)
  assert (forall b', agree ((set_book (du_s d) (mark_desynced b') ;;
      resync_order_book parse net (du_s d)) w).2 (ref_refetch parse client net (du_s d) v).1 /\
    exists es, bl_events ((set_book (du_s d) (mark_desynced b') ;; resync_order_book parse net (du_s d)) w).2 =
      bl_events w ++ es /\ book_msgs es = render n <$> (ref_refetch parse client net (du_s d) v).2) as Hre.
  { intros b'. destruct (rf_resync net (du_s d) _ _ (agree_set_book w v (du_s d) (mark_desynced b') None Ha eq_refl))
      as [H1 H2]. unfold ref_refetch in *. cbv zeta in *. destruct (ok _); simpl in *; by rewrite insert_insert_eq in H1. }
  destruct t as [[s es]|].
  - simpl in Ht. rewrite Hn. destruct (standing (position s es) e) eqn:Es.
    + rewrite apply_diff_old by (by subst b). simpl in *.
      destruct (at_set_push w v (du_s d) b (s, es) (Some (du_E d)) (Book (du_s d) s es (Some (du_E d))))
        as [H1 H2]; [done|done|by subst b|]. simpl in H1. rewrite (insert_id (v_tracks v)) in H1 by done.
      destruct v as [vo vt]. simpl in *. split; [exact H1|exact H2].
    + rewrite apply_diff_next by (by subst b).
      apply (at_set_push w v (du_s d) _ (s, es ++ [e]) (Some (du_E d)) (Book (du_s d) s (es ++ [e]) (Some (du_E d))));
        [done|..]; unfold holds, render, replay_bids, replay_asks, position; subst b; simpl;
        rewrite ?last_snoc, !foldl_app; done.
    + rewrite apply_diff_gap by (by subst b). apply Hre.
  - simpl in Ht. unfold apply_diff. rewrite Ht. simpl.
    replace b with (mark_desynced b) by (destruct b; simpl in *; by subst). apply Hre.
Qed.

Lemma rf_market_payload net payload :
  ref_follows (handle_market_payload parse readers net payload) (ref_payload parse readers client net payload).
Proof.
  unfold handle_market_payload, ref_payload. destruct (read_market_event _ _) as [e|]; [|apply rf_skip].
  case_decide; [|case_decide].
  - destruct (read_book_ticker _ _) as [t|]; [|apply rf_skip].
    simpl. unfold book_ticker_msg, read_ticker, mbind, option_bind.
    repeat (destruct (sd _); [|apply rf_skip]). simpl. intros w v [A1 A2 A3 A4 A5].
    split; [by split|]. by eexists.
  - destruct (read_depth_update _ _) as [d|]; [apply rf_depth|apply rf_skip].
  - case_decide; [|apply rf_skip]. apply bookless_push_all.
    destruct (read_agg_trade _ _) as [t|]; [|constructor]. simpl. unfold agg_trade_msg, mbind, option_bind.
    repeat (destruct (sd _); [|constructor]). by repeat constructor.
Qed.
End steps.
End follows.

Section emitted.
Context {J : Type} `{!JsonValue J}.
Context (parse : string -> option J) (hmac : string -> string -> list Z) (readers : StreamReaders).

Lemma collect_Forall {B} (P : B -> Prop) (f : J -> option (option B)) l :
  (forall j b, f j = Some (Some b) -> P b) -> Forall P (collect f l).
Proof.
  intros Hf. induction l as [|j l IH]; simpl; [done|].
  destruct (f j) as [[b|]|] eqn:E; [|done|done]. constructor; [by eapply Hf|done].
Qed.

Lemma fetch_list_Forall {B} (P : B -> Prop) net path (f : J -> option (option B)) now c :
  (forall j b, f j = Some (Some b) -> P b) -> Forall P (fetch_list parse hmac net path f now c).
Proof.
  intros Hf. unfold fetch_list. case_decide; [done|]. destruct (parse _); [|done].
  by apply collect_Forall.
Qed.

Context (client : BinanceRestClient) (products : list string) (n : Z).
Abbreviation bookless := (bookless client products n).

Lemma publish_state_bookless net now_ms : bookless (publish_state parse hmac net now_ms).
Proof.
  apply rf_gets_any. intros w0.
  apply bookless_seq; [apply bookless_when|apply bookless_seq; [apply bookless_when|]];
    apply bookless_push_all, fetch_list_Forall; intros j e;
    unfold read_position, read_balance, read_open_order, mbind, option_bind;
    repeat case_match; naive_solver.
Qed.

Lemma until_throw_Forall (P : ListenerEvent -> Prop) l :
  Forall (from_option P True) l -> Forall P (until_throw l).
Proof. induction 1 as [|[e|] l He _ IH]; simpl in *; auto. Qed.
Lemma balance_msg_bookless p s : from_option (fun e => is_book e = false) True (balance_msg p s).
Proof. unfold balance_msg. by destruct (sd s). Qed.

Lemma user_payload_bookless payload : bookless (handle_user_payload readers payload).
Proof.
  unfold handle_user_payload. destruct (read_user_event _ _) as [e|]; [|apply rf_skip].
  repeat case_decide; [| |apply rf_skip].
  - destruct (_ ≫= _) as [m|] eqn:E; [|apply rf_skip]. apply bookless_push.
    destruct (read_order_update _ _) as [o|]; [|done]. simpl in E.
    destruct (order_update_data o) as [[d|]|]; [|done|done]. by injection E as <-.
  - apply bookless_push_all. destruct (read_account_update _ _) as [u|]; [|constructor]. simpl.
    apply until_throw_Forall, Forall_app. split; apply Forall_fmap, Forall_true; intros x; apply balance_msg_bookless.
Qed.

(** The market socket's flag follows the statuses; the other sockets' are nothing to the books. *)
Lemma agree_market connecting opened w v : agree client products n w v ->
  agree client products n (on_socket Market (binance_on_ws_status connecting opened) w).2
    {| v_open := opened; v_tracks := v_tracks v |}.
Proof.
  intros [H1 H2 H3 H4 H5]. by split.
Qed.
Lemma bookless_socket k f : k <> Market -> bookless (on_socket k f).
Proof.
  intros Hk w v [H1 H2 H3 H4 H5]. split; [|exists []; by rewrite app_nil_r].
  split; try done. by destruct k.
Qed.

Lemma rf_ws_event net now e :
  ref_follows client products n (on_ws_event parse hmac readers net now e)
    (ref_event parse readers client products (e, net, now)).
Proof.
  destruct e as [k c o|[] p]; [|apply rf_market_payload|apply rf_market_payload|apply user_payload_bookless].
  destruct (decide (k = Market)) as [->|Hk].
  - apply rf_gets. intros w v Ha. pose proof Ha as [_ _ _ Ho _].
    set (v' := {| v_open := o; v_tracks := v_tracks v |}).
    eapply (at_silent) with (v' := v') (g := fun v' =>
      if negb (v_open v) && o then ref_each products (ref_refetch parse client net) v' else (v', []));
      [done|done|]. rewrite Ho.
    apply at_then; [|by apply bookless_push].
    pose proof (agree_market c o w v Ha) as Ha'. destruct (_ && _); [|by apply rf_skip].
    apply rf_gets; [|done]. intros w' v0 Ha0. pose proof Ha0 as [_ _ Hp _ _]. rewrite Hp.
    by apply rf_each; [intros; apply rf_resync|].
  - apply rf_gets. intros w v Ha. assert (bookless (on_socket k (binance_on_ws_status c o) ;;
      when (negb (sup_opened (bl_sockets w k)) && o) (on_socket_open parse hmac net now k) ;;
      push (StatusEvent (socket_name k) c o))) as H.
    { apply bookless_seq; [by apply bookless_socket|]. apply bookless_seq; [|by apply bookless_push].
      apply bookless_when. destruct k; [done|apply rf_skip|apply publish_state_bookless]. }
    eapply at_equal; [|by apply H]. by destruct k.
Qed.
End emitted.

Section handled.
Context {J : Type} `{!JsonValue J}.
Context (parse : string -> option J) (hmac : string -> string -> list Z) (readers : StreamReaders).

(** The worker, one event at a time: the venue's answers and the clock at each. *)
Definition worker_step (x : WsEvent * (HttpRequest -> RestResponse) * Z) : BL unit :=
  let '(e, net, now) := x in on_ws_event parse hmac readers net now e.
Definition run_worker (es : list (WsEvent * (HttpRequest -> RestResponse) * Z)) : BL unit :=
  for_each es worker_step.

(** C16: The order books the adapter publishes are, one for one and in order, those of the
    reference, whatever arrives on the sockets and whatever the venue's REST side answers.
    That is: the best quotes of each ticker as they are; for each followed product a whole
    snapshot when the market socket comes up, or when an update does not follow on what is
    held, or none is held; and after each update that follows on, or is older, the snapshot
    with every update that followed on since, each from the one before it.  Cut off at the
    configured depth and stamped with the update's time, nothing else is published: an
    update with a gap before it never goes out, nor does a book after it, until the venue
    has given another snapshot. *)
Theorem published_books_in_sync config stream rest signer es :
  let w0 := BinanceListener_new config stream rest signer in
  let pubs := ref_run parse readers (rest_client w0) (futures_products w0) es in
  book_msgs (bl_events (run_worker es w0).2) = render (lc_orderbook_levels config) <$> pubs /\
  Forall genuine pubs.
Proof.
  cbv zeta. set (w0 := BinanceListener_new _ _ _ _). set (ps := futures_products w0).
  set (v0 := {| v_open := false; v_tracks := list_to_map ((fun p => (p, None)) <$> ps) |} : BookView).
  assert (agree (rest_client w0) ps (lc_orderbook_levels config) w0 v0) as H0.
  { split; try done. intros p. unfold v0, ps. simpl. generalize (with_category futures (lc_product_specs config)).
    intros l. clear.
    induction l as [|q l IH]; simpl; [by rewrite !lookup_empty|].
    destruct (decide (p = q)) as [->|]; [by rewrite !lookup_insert_eq|by rewrite !lookup_insert_ne]. }
  split.
  - destruct (rf_each (rest_client w0) ps (lc_orderbook_levels config) es worker_step
      (ref_event parse readers (rest_client w0) ps)) with (w := w0) (v := v0) as (_&evs&E&B); [|done|].
    + intros [[e net] now]. apply rf_ws_event.
    + unfold run_worker. by rewrite E.
  - apply (ref_ok_each es (ref_event parse readers (rest_client w0) ps)); [intros; apply ref_event_ok|].
    intros p t Ht. by apply elem_of_list_to_map_2, list_elem_of_fmap in Ht as (q&[= -> ->]&_).
Qed.

(** ** Snapshots of the account *)

(** The venue says [product] is flat: every entry of the document for it reads 0. *)
Definition flat_in (product : string) (doc : J) : Prop :=
  Forall (fun j => forall amt, at_string j "symbol" = Some product ->
    at_stod j "positionAmt" = Some amt -> feq amt fzero = true) (j_elems doc).

Lemma flat_not_collected product l :
  Forall (fun j => forall amt, at_string j "symbol" = Some product ->
    at_stod j "positionAmt" = Some amt -> feq amt fzero = true) l ->
  Forall (fun e => event_product e <> Some product) (collect read_position l).
Proof.
  induction 1 as [|j l Hj _ IH]; simpl; [done|].
  unfold read_position. destruct (at_stod j "positionAmt") as [amt|] eqn:Ea; simpl; [|done].
  destruct (feq amt fzero) eqn:Ez; [done|]. destruct (at_string j "symbol") as [s|] eqn:Es; simpl; [|done].
  constructor; [|done]. simpl. intros [= ->]. by rewrite (Hj amt) in Ez.
Qed.

(** A position that went flat is never reported.  The account state published on every
    reconnect and to every new subscriber leaves out the products the venue lists as flat,
    so a trader whose position was closed while the user stream was down keeps the old
    one: no position message for the product is among what is published. *)
Theorem flat_position_unreported net now product doc w :
  parse (signed_get hmac net now "/fapi/v2/positionRisk" (rest_client w)) = Some doc ->
  flat_in product doc -> asset_products w = [] ->
  exists es, bl_events (publish_state parse hmac net now w).2 = bl_events w ++ es /\
    forall d, PositionMsg product d ∉ es.
Proof.
  intros Hdoc Hflat Hnone. unfold publish_state.
  assert (forall es w', bl_events (push_all es w').2 = bl_events w' ++ es) as Hpush.
  { induction es as [|e es IH]; intros w'; [by rewrite app_nil_r|].
    change (bl_events (push_all es (push e w').2).2 = bl_events w' ++ e :: es).
    rewrite IH. simpl. by rewrite <- app_assoc. }
  set (ps := fetch_positions parse hmac net now (rest_client w)).
  set (os := fetch_open_orders parse hmac net now (rest_client w)).
  exists ((if bool_decide (futures_products w <> []) then ps else []) ++ os).
  assert (Forall (fun e => event_product e <> Some product) ps) as Hps.
  { unfold ps, fetch_positions, fetch_list. case_decide; [done|]. rewrite Hdoc.
    by apply flat_not_collected. }
  assert (Forall (fun e => forall p d, e <> PositionMsg p d) os) as Hos.
  { apply fetch_list_Forall. intros j e. unfold read_open_order, mbind, option_bind.
    repeat case_match; naive_solver. }
  split.
  - change (bl_events (push_all os (when (bool_decide (asset_products w <> []))
      (push_all (fetch_balances parse hmac net now (rest_client w)))
      (when (bool_decide (futures_products w <> [])) (push_all ps) w).2).2).2 =
      bl_events w ++ (if bool_decide (futures_products w <> []) then ps else []) ++ os).
    rewrite Hnone, Hpush. simpl.
    destruct (bool_decide _); simpl; rewrite ?Hpush; by rewrite <- ?app_assoc.
  - intros d [H|H]%elem_of_app.
    + destruct (bool_decide _); [|by apply elem_of_nil in H].
      rewrite Forall_forall in Hps. by apply (Hps _ H).
    + rewrite Forall_forall in Hos. by apply (Hos _ H product d).
Qed.
End handled.

(** ** A concrete adapter *)
Module SampleAdapter.
Definition config : ListenerConfig := {|
  lc_exchange := "binance"; lc_region := ""; lc_market_type := "derivatives";
  lc_is_night := false;
  lc_product_specs := [{| spec_product := "BTCUSDT"; spec_category := futures |};
                       {| spec_product := "ETHUSDT"; spec_category := futures |}];
  lc_orderbook_levels := 20; lc_product_info_refresh_sec := 300; lc_domain_type := "real";
  lc_no_orderbook_log := false; lc_no_public_trade_log := false |}.
Definition adapter : BinanceListener :=
  BinanceListener_new config "wss://x" "https://y" (Some {| api_key := "k"; secret_key := "s" |}).
(** Flat in BTCUSDT, long in ETHUSDT. *)
Definition positions : jv :=
  JArr [JObj [("symbol", JStr "BTCUSDT"); ("positionAmt", JStr "0.000")];
        JObj [("symbol", JStr "ETHUSDT"); ("positionAmt", JStr "2.500")]].
Definition net (r : HttpRequest) : RestResponse :=
  {| rr_success := true; rr_error_msg := ""; rr_status_code := 200; rr_body := hr_url r; rr_headers := ∅ |}.
Definition hmac (_ _ : string) : list Z := [].
Definition parse (body : string) : option jv :=
  if String.prefix "https://y/fapi/v2/positionRisk" body then Some positions else None.
End SampleAdapter.

Lemma flat_position_unreported_witness :
  (exists es, bl_events (publish_state SampleAdapter.parse SampleAdapter.hmac SampleAdapter.net 7
                SampleAdapter.adapter).2 = bl_events SampleAdapter.adapter ++ es /\
    forall d, PositionMsg "BTCUSDT" d ∉ es) /\
  event_product <$> bl_events (publish_state SampleAdapter.parse SampleAdapter.hmac
                SampleAdapter.net 7 SampleAdapter.adapter).2 = [Some "ETHUSDT"].
Proof.
  split; [|by vm_compute].
  apply (flat_position_unreported SampleAdapter.parse SampleAdapter.hmac SampleAdapter.net 7
    "BTCUSDT" SampleAdapter.positions); [by vm_compute| |by vm_compute].
  repeat constructor; intros amt Hs Ha; vm_compute in Hs, Ha; try done; by simplify_eq.
Defined.

(** A run of the worker: the market socket comes up, an update follows on, one does not and
    its snapshot cannot be had, and the next finds the venue answering again. *)
Module SampleStream.
Definition level (p q : string) : jv := JArr [JStr p; JStr q].
Definition depth : jv := JObj [("lastUpdateId", JInt 100);
  ("bids", JArr [level "10" "1"]); ("asks", JArr [level "11" "1"])].
Definition parse (body : string) : option jv :=
  if String.prefix "https://y/fapi/v1/depth?symbol=BTCUSDT" body then Some depth else None.
Definition update (U u pu : Z) : DepthUpdate := {|
  du_E := u; du_s := "BTCUSDT"; du_U := U; du_u := u; du_pu := pu;
  du_b := [("10", "3")]; du_a := [] |}.
Definition readers : StreamReaders := {|
  read_market_event _ := Some "depthUpdate"; read_book_ticker _ := None;
  read_depth_update s :=
    Some (if decide (s = "next") then update 99 101 98 else update 104 105 103);
  read_agg_trade _ := None; read_user_event _ := None;
  read_order_update _ := None; read_account_update _ := None |}.
Definition down (r : HttpRequest) : RestResponse :=
  {| rr_success := false; rr_error_msg := "down"; rr_status_code := 0; rr_body := ""; rr_headers := ∅ |}.
Definition events : list (WsEvent * (HttpRequest -> RestResponse) * Z) := [
  (WsStatus Market false true, SampleAdapter.net, 0); (WsPayload Market "next", down, 1);
  (WsPayload Market "gap", down, 2); (WsPayload Market "gap", down, 3);
  (WsPayload Market "gap", SampleAdapter.net, 4)].
(** Of each book published, how many updates it has and its stamp. *)
Definition outline (x : Publication) : option (nat * option Z) :=
  match x with Book _ _ es E => Some (length es, E) | Ticker _ _ _ _ => None end.
End SampleStream.

Example published_books_sample :
  SampleStream.outline <$> ref_run SampleStream.parse SampleStream.readers
    (rest_client SampleAdapter.adapter) (futures_products SampleAdapter.adapter) SampleStream.events =
    [Some (0%nat, None); Some (1%nat, Some 101); Some (0%nat, None)].
Proof. by vm_compute. Qed.
