(* ===== verification/Gateway.v ===== *)
(** * Gateway: the order gateway interface and the Binance WS-API gateway

    [trader/order_gateway/order_gateway.hpp] as a class with its contract,
    [trader/order_gateway/binance/ws_order_gateway.cpp], [order_gateway.cpp] and the wire
    structs of [order_dtypes.hpp] as its Binance instance.  glaze's reading and writing of
    the wire structs, the socket's [send] and HMAC are parameters. *)
From Stdlib Require Import Ascii.
From S2P Require Import Prelude Double Text Messages Reconnect BinanceRest.

#[local] Open Scope string_scope.
#[local] Open Scope list_scope.
#[local] Open Scope Z_scope.

(** ** The interface *)
Inductive Request :=
  | Place (i : OrderPlaceInfo) | Amend (i : OrderAmendInfo) | Cancel (i : OrderCancelInfo).
Definition request_cid (r : Request) : Z :=
  match r with Place i => opi_cid i | Amend i => oai_cid i | Cancel i => oci_cid i end.

(** An implementation: its state, what is on the wire (as the cids of the requests, in
    order), and its three request methods in one.  A call returns whether the request was
    accepted and delivers replies to the sink on the spot, or none.  [E] is what the world
    contributes to one call. *)
Class OrderGateway (E G : Type) := {
  gw_wire : G -> list Z;
  gw_request : E -> Request -> G -> bool * list OrderResponse * G;
  gw_product_grid : string -> double -> double -> G -> G }.

(** The contract: a request either goes out, once and behind everything sent before it,
    with its reply still to come; or it does not, and its failure is delivered at once. *)
Definition failed_reply (cid : Z) (r : OrderResponse) : Prop :=
  or_cid r = cid /\ or_success r = false /\ or_order_gone r = false.
Class OrderGatewayLaws (E G : Type) `{!OrderGateway E G} := {
  gw_accepted e r g :
    0 <= request_cid r < 2 ^ 64 -> (gw_request e r g).1.1 = true ->
    (gw_request e r g).1.2 = [] /\ gw_wire (gw_request e r g).2 = gw_wire g ++ [request_cid r];
  gw_refused e r g :
    (gw_request e r g).1.1 = false ->
    gw_wire (gw_request e r g).2 = gw_wire g /\
    exists rep, (gw_request e r g).1.2 = [rep] /\ failed_reply (request_cid r) rep;
  gw_grid_silent p t l g : gw_wire (gw_product_grid p t l g) = gw_wire g }.

(** ** order_dtypes.hpp *)
Record WsApiRequest := {
  wr_id : string; wr_method : string; wr_params : gmap string string }.
Record WsApiResponseClassifier := { wc_id : string; wc_status : Z }.
Record WsApiResult := { orderId : Z; updateTime : Z }.
Record WsApiError := { err_code : Z; err_msg : string }.

Record WsReaders := {
  read_classifier : string -> option WsApiResponseClassifier;
  read_success : string -> option WsApiResult;
  read_error : string -> option WsApiError }.

(** ** WsOrderGateway *)
Record WsOrderGateway := {
  wg_signer : option Signer;
  wg_rest : BinanceRestClient;
  wg_sup : Sup;                     (* client_, connected_ and the redial machinery *)
  wg_sent : list WsApiRequest }.    (* on the socket, oldest first *)
Definition set_sent (l : list WsApiRequest) (g : WsOrderGateway) : WsOrderGateway :=
  {| wg_signer := wg_signer g; wg_rest := wg_rest g; wg_sup := wg_sup g; wg_sent := l |}.
Definition on_sup (f : Sup -> Sup) (g : WsOrderGateway) : WsOrderGateway :=
  {| wg_signer := wg_signer g; wg_rest := wg_rest g; wg_sup := f (wg_sup g); wg_sent := wg_sent g |}.
Definition connected (g : WsOrderGateway) : bool := sup_opened (wg_sup g).

(** The status callback, and the scheduler it posts. *)
Definition wg_on_status (connecting opened : bool) : WsOrderGateway -> WsOrderGateway :=
  on_sup (gateway_on_status connecting opened).
Definition wg_schedule_reconnect : WsOrderGateway -> WsOrderGateway :=
  on_sup (fun s => set_opened false (schedule_reconnect s)).

(** What one call finds: the clock, and whether the socket's [send] goes through. *)
Record SendEnv := { se_now_ms : Z; se_send_ok : bool }.

Section ws.
Variable hmac_sha256 : string -> string -> list Z.
Variable write_request : WsApiRequest -> option string.
Variable readers : WsReaders.

(** The query string over the parameters in key order. *)
Definition query_of (params : gmap string string) : string :=
  foldl (fun q kv => (if decide (q = "") then "" else q +:+ "&") +:+ kv.1 +:+ "=" +:+ kv.2) ""
    (skvs params).

Definition signed_params (s : Signer) (now_ms : Z) (params : gmap string string)
    : gmap string string :=
  let params := <["apiKey" := api_key s]> params in
  let params := <["recvWindow" := to_string DEFAULT_RECV_WINDOW]> params in
  let params := <["timestamp" := to_string now_ms]> params in
  <["signature" := sign hmac_sha256 s (query_of params)]> params.

Definition send_request (e : SendEnv) (method : string) (params : gmap string string) (cid : Z)
    (g : WsOrderGateway) : bool * WsOrderGateway :=
  match connected g, wg_signer g with
  | true, Some s =>
      let req := {| wr_id := to_string cid; wr_method := method;
                    wr_params := signed_params s (se_now_ms e) params |} in
      match write_request req, sup_client (wg_sup g) with
      | Some _, Some _ => if se_send_ok e then (true, set_sent (wg_sent g ++ [req]) g) else (false, g)
      | _, _ => (false, g)
      end
  | _, _ => (false, g)
  end.

Definition place_params (c : BinanceRestClient) (i : OrderPlaceInfo) : gmap string string :=
  let params : gmap string string := {[
    "symbol" := opi_product i;
    "side" := if opi_is_bid i then "BUY" else "SELL";
    "type" := if opi_is_limit i then "LIMIT" else "MARKET";
    "quantity" := format_qty c (opi_product i) (opi_qty i);
    "newClientOrderId" := to_string (opi_cid i) ]} in
  let params := if opi_is_limit i
    then <["price" := format_price c (opi_product i) (opi_price i)]> (<["timeInForce" := "GTC"]> params)
    else params in
  if opi_reduce_only i then <["reduceOnly" := "true"]> params else params.
Definition amend_params (c : BinanceRestClient) (i : OrderAmendInfo) : gmap string string := {[
  "symbol" := oai_product i; "orderId" := oai_order_no i;
  "quantity" := format_qty c (oai_product i) (oai_qty i);
  "price" := format_price c (oai_product i) (oai_price i) ]}.
Definition cancel_params (i : OrderCancelInfo) : gmap string string :=
  {[ "symbol" := oci_product i; "orderId" := oci_order_no i ]}.

Definition request_method (r : Request) : string :=
  match r with Place _ => "order.place" | Amend _ => "order.modify" | Cancel _ => "order.cancel" end.
Definition request_params (c : BinanceRestClient) (r : Request) : gmap string string :=
  match r with Place i => place_params c i | Amend i => amend_params c i | Cancel i => cancel_params i end.
(** [WsOrderGateway::place_order], [amend_order], [cancel_order]. *)
Definition ws_request (e : SendEnv) (r : Request) (g : WsOrderGateway) : bool * WsOrderGateway :=
  send_request e (request_method r) (request_params (wg_rest g) r) (request_cid r) g.

(** [on_message]: the reply delivered, if any. *)
Definition on_message (payload : string) : option OrderResponse :=
  c ← read_classifier readers payload;
  if decide (wc_id c = "") then None else
  cid ← stoull (wc_id c);
  Some (if wc_status c =? 200 then
    match read_success readers payload with
    | Some ok => {|
        or_success := true; or_code := ""; or_msg := "";
        or_order_no := if orderId ok =? 0 then "" else to_string (orderId ok);
        or_cid := cid;
        or_server_tstamp_ms := if 0 <? updateTime ok then Some (updateTime ok) else None;
        or_order_gone := false |}
    | None => {| or_success := true; or_code := ""; or_msg := ""; or_order_no := "";
                 or_cid := cid; or_server_tstamp_ms := None; or_order_gone := false |}
    end
  else
    match read_error readers payload with
    | Some err => {|
        or_success := false; or_code := to_string (err_code err); or_msg := err_msg err;
        or_order_no := ""; or_cid := cid; or_server_tstamp_ms := None;
        or_order_gone := (err_code err =? -2011) || (err_code err =? -2013) |}
    | None => {| or_success := false; or_code := ""; or_msg := ""; or_order_no := "";
                 or_cid := cid; or_server_tstamp_ms := None; or_order_gone := false |}
    end).

(** ** BinanceOrderGateway *)
Definition report_not_sent (cid : Z) : OrderResponse := {|
  or_success := false; or_code := ""; or_msg := "Binance WS-API session unavailable";
  or_order_no := ""; or_cid := cid; or_server_tstamp_ms := None; or_order_gone := false |}.

Definition binance_request (e : SendEnv) (r : Request) (g : WsOrderGateway)
    : bool * list OrderResponse * WsOrderGateway :=
  let '(sent, g) := ws_request e r g in
  if sent then (true, [], g) else (false, [report_not_sent (request_cid r)], g).
Definition set_product_grid (product : string) (tick_size lot_size : double)
    (g : WsOrderGateway) : WsOrderGateway :=
  {| wg_signer := wg_signer g; wg_rest := set_filter product tick_size lot_size (wg_rest g);
     wg_sup := wg_sup g; wg_sent := wg_sent g |}.

(** The constructor: [None] is the throw at startup. *)
Definition BinanceOrderGateway_new (rest ws_api_domain : string) (signer : option Signer)
    (filters0 : gmap string ProductFilter) (dial_ok : bool) : option WsOrderGateway :=
  match signer with
  | None => None
  | Some s =>
      if decide (ws_api_domain = "") then None
      else Some {|
        wg_signer := Some s;
        wg_rest := {| rest_domain := rest; rc_signer := None; filters := filters0 |};
        wg_sup := create_client dial_ok Sup_new; wg_sent := [] |}
  end.

(** The id of a request on the wire, read back. *)
Definition wire_cid (r : WsApiRequest) : Z := default 0 (stoull (wr_id r)).

#[export] Instance BinanceGateway : OrderGateway SendEnv WsOrderGateway := {|
  gw_wire g := wire_cid <$> wg_sent g;
  gw_request := binance_request;
  gw_product_grid := set_product_grid |}.
End ws.

(** ** Clients of the interface *)
Section client.
Context {E G : Type} `{OrderGatewayLaws E G}.

(** A run of requests; what the world does to the gateway in between is arbitrary as long
    as it sends nothing. *)
Inductive gw_trace : G -> list (Request * bool) -> list OrderResponse -> G -> Prop :=
  | trace_nil g : gw_trace g [] [] g
  | trace_request e r g ok now g1 rs reps g' :
      0 <= request_cid r < 2 ^ 64 -> gw_request e r g = (ok, now, g1) ->
      gw_trace g1 rs reps g' -> gw_trace g ((r, ok) :: rs) (now ++ reps) g'
  | trace_silent g g1 rs reps g' :
      gw_wire g1 = gw_wire g -> gw_trace g1 rs reps g' -> gw_trace g rs reps g'.

Definition accepted (rs : list (Request * bool)) : list Z :=
  (fun p => request_cid p.1) <$> base.filter (fun p => p.2 = true) rs.
Definition refused (rs : list (Request * bool)) : list Z :=
  (fun p => request_cid p.1) <$> base.filter (fun p => p.2 = false) rs.

Lemma trace_spec g rs reps g' :
  gw_trace g rs reps g' ->
  gw_wire g' = gw_wire g ++ accepted rs /\ or_cid <$> reps = refused rs /\
  Forall (fun rep => or_success rep = false) reps.
Proof.
  induction 1 as [g|e r g ok now g1 rs reps g' Hcid Hr _ (IH1&IH2&IH3)|g g1 rs reps g' Hg _ (IH1&IH2&IH3)].
  - by rewrite app_nil_r.
  - unfold accepted, refused in *. rewrite !filter_cons. simpl.
    pose proof (gw_accepted e r g Hcid) as Hacc. pose proof (gw_refused e r g) as Href.
    rewrite Hr in Hacc, Href. simpl in Hacc, Href. destruct ok.
    + destruct (Hacc eq_refl) as [-> Hw]. rewrite decide_True, decide_False by done.
      simpl. rewrite IH1, Hw, <- app_assoc. done.
    + destruct (Href eq_refl) as [Hw (rep&->&Hc&Hs&_)].
      rewrite decide_False, decide_True by done. csimpl. rewrite IH1, Hw, Hc, IH2.
      split_and!; [done|done|by constructor].
  - by rewrite IH1, Hg.
Qed.
End client.

(** ** The Binance gateway keeps the contract *)
Section laws.
Context (hmac : string -> string -> list Z) (write_request : WsApiRequest -> option string).

#[local] Instance gateway : OrderGateway SendEnv WsOrderGateway := BinanceGateway hmac write_request.

Lemma send_request_spec e method params cid g :
  send_request hmac write_request e method params cid g =
    (false, g) \/
  exists s, wg_signer g = Some s /\ connected g = true /\ is_Some (sup_client (wg_sup g)) /\
    send_request hmac write_request e method params cid g =
      (true, set_sent (wg_sent g ++ [{| wr_id := to_string cid; wr_method := method;
        wr_params := signed_params hmac s (se_now_ms e) params |}]) g).
Proof.
  unfold send_request. destruct (connected g) eqn:Ec; [|by left].
  destruct (wg_signer g) as [s|]; [|by left]. destruct (write_request _) as [|]; [|by left].
  destruct (sup_client _) as [c|] eqn:Ek; [|by left]. destruct (se_send_ok e); [|by left].
  right. by exists s.
Qed.

#[export] Instance binance_gateway_laws : OrderGatewayLaws SendEnv WsOrderGateway.
Proof.
  split.
  - intros e r g Hcid. simpl. unfold binance_request, ws_request.
    destruct (send_request_spec e (request_method r) (request_params (wg_rest g) r) (request_cid r) g)
      as [->|(s&_&_&_&->)]; simpl; [done|]. intros _. split; [done|].
    rewrite fmap_app. simpl. unfold wire_cid at 2. simpl. by rewrite stoull_to_string.
  - intros e r g. simpl. unfold binance_request, ws_request.
    destruct (send_request_spec e (request_method r) (request_params (wg_rest g) r) (request_cid r) g)
      as [->|(s&_&_&_&->)]; simpl; [|done]. intros _. split; [done|].
    exists (report_not_sent (request_cid r)). done.
  - done.
Qed.

(** C13: The Binance gateway never loses a request and never reorders two.  Over any run of
    places, amends and cancels, whatever its session does in between, what is on the
    socket is exactly the accepted requests, each once, in the order they were made, and
    each refused one has been answered with a failure under its own id. *)
Theorem gateway_in_order g rs reps g' :
  gw_trace g rs reps g' ->
  wire_cid <$> wg_sent g' = (wire_cid <$> wg_sent g) ++ accepted rs /\
  or_cid <$> reps = refused rs /\ Forall (fun rep => or_success rep = false) reps.
Proof. intros H. by apply trace_spec in H. Qed.

(** ** Signatures *)

(** The venue's check: the signature is the HMAC of the other parameters in key order. *)
Definition signature_valid (secret : string) (req : WsApiRequest) : Prop :=
  wr_params req !! "signature" =
    Some (hex (hmac secret (query_of (delete "signature" (wr_params req))))).

Lemma request_params_unsigned c r : request_params c r !! "signature" = None.
Proof.
  destruct r as [i|i|i]; simpl; unfold place_params, amend_params, cancel_params; [|done|done].
  destruct (opi_is_limit i), (opi_reduce_only i); done.
Qed.

Definition all_signed (g : WsOrderGateway) : Prop :=
  forall s, wg_signer g = Some s -> Forall (signature_valid (secret_key s)) (wg_sent g).

(** C21: Whatever goes on the socket is signed the way the venue checks it: the signature of
    every request is the HMAC of all its other parameters sorted by name, and a request
    made while the session is down puts nothing there. *)
Theorem wire_is_signed e r g :
  all_signed g ->
  all_signed (binance_request hmac write_request e r g).2 /\
  (connected g = false -> wg_sent (binance_request hmac write_request e r g).2 = wg_sent g).
Proof.
  intros Hg. unfold binance_request, ws_request.
  destruct (send_request_spec e (request_method r) (request_params (wg_rest g) r) (request_cid r) g)
    as [->|(s&Hs&Hc&_&->)]; [by split|]. split; [|by rewrite Hc].
  intros s' Hs'. simpl in *. rewrite Hs in Hs'. simplify_eq. apply Forall_app. split; [by apply Hg|].
  repeat constructor. unfold signature_valid. simpl. unfold signed_params.
  rewrite lookup_insert, decide_True by done. rewrite delete_insert_eq.
  rewrite delete_id; [done|]. rewrite !lookup_insert_ne by done. apply request_params_unsigned.
Qed.
End laws.

(** ** Replies *)

(** A reply finds its request: the venue echoes the id of a request, and what is
    delivered carries that request's cid, succeeds exactly when the status is 200, names
    the venue's order number when there is one, and says the order is gone exactly on the
    venue's two codes for an order it does not have. *)
Theorem reply_finds_its_request hmac write_request readers e r g payload status rep :
  0 <= request_cid r < 2 ^ 64 ->
  (binance_request hmac write_request e r g).1.1 = true ->
  (forall req, last (wg_sent (binance_request hmac write_request e r g).2) = Some req ->
     read_classifier readers payload = Some {| wc_id := wr_id req; wc_status := status |}) ->
  on_message readers payload = Some rep ->
  or_cid rep = request_cid r /\ or_success rep = (status =? 200) /\
  (status = 200 -> forall ok, read_success readers payload = Some ok -> orderId ok <> 0 ->
     or_order_no rep = to_string (orderId ok)) /\
  (or_order_gone rep = true <->
     status <> 200 /\ exists err, read_error readers payload = Some err /\
       (err_code err = -2011 \/ err_code err = -2013)).
Proof.
  intros Hcid Hsent Hread. unfold on_message.
  assert (exists req, last (wg_sent (binance_request hmac write_request e r g).2) = Some req /\
                      wr_id req = to_string (request_cid r)) as (req&Hl&Hid).
  { revert Hsent. unfold binance_request, ws_request.
    destruct (send_request_spec hmac write_request e (request_method r)
      (request_params (wg_rest g) r) (request_cid r) g) as [->|(s&_&_&_&->)]; [done|].
    intros _. eexists. simpl. rewrite last_snoc. done. }
  rewrite (Hread _ Hl), Hid. simpl. rewrite decide_False by (apply to_string_nonempty; lia).
  rewrite stoull_to_string by done. simpl. destruct (status =? 200) eqn:Es; zify_bools; intros [= <-].
  - destruct (read_success _ _) as [ok'|]; simpl; (split; [done|]); (split; [done|]); split.
    + intros _ ok'' [= <-] Hne. by apply Z.eqb_neq in Hne as ->.
    + split; [done|]. by intros [? _].
    + done.
    + split; [done|]. by intros [? _].
  - destruct (read_error _ _) as [err|]; simpl; (split; [done|]); (split; [done|]);
      (split; [by intros ?|]).
    + rewrite orb_true_iff, !Z.eqb_eq. naive_solver.
    + split; [done|]. by intros (_&?&?&_).
Qed.

(** ** A concrete gateway *)
Module SampleGateway.
Definition up : Sup := gateway_on_status false true (create_client true Sup_new).
Definition gw (s : Sup) : WsOrderGateway := {|
  wg_signer := Some {| api_key := "k"; secret_key := "s" |};
  wg_rest := {| rest_domain := ""; rc_signer := None; filters := ∅ |};
  wg_sup := s; wg_sent := [] |}.
Definition hmac (secret payload : string) : list Z := [Z.of_nat (String.length payload) mod 256].
Definition write (_ : WsApiRequest) : option string := Some "{}".
Definition env : SendEnv := {| se_now_ms := 1700000000000; se_send_ok := true |}.
Definition order (cid : Z) : Request := Place {|
  opi_is_limit := true; opi_is_bid := true; opi_price := of_Z 100; opi_qty := of_Z 1;
  opi_product := "BTCUSDT"; opi_cid := cid; opi_reduce_only := false |}.
Definition readers : WsReaders := {|
  read_classifier _ := Some {| wc_id := "7"; wc_status := 200 |};
  read_success _ := Some {| orderId := 12; updateTime := 5 |}; read_error _ := None |}.
End SampleGateway.

Lemma gateway_in_order_witness :
  let g := SampleGateway.gw SampleGateway.up in
  let g1 := (binance_request SampleGateway.hmac SampleGateway.write SampleGateway.env
               (SampleGateway.order 7) g).2 in
  let g2 := on_sup (gateway_on_status false false) g1 in
  wire_cid <$> wg_sent g2 = [7] /\ refused [(SampleGateway.order 7, true); (SampleGateway.order 8, false)] = [8].
Proof.
  cbv zeta. split; [|by vm_compute].
  set (g := SampleGateway.gw SampleGateway.up).
  destruct (gateway_in_order SampleGateway.hmac SampleGateway.write g
    [(SampleGateway.order 7, true)] []
    (on_sup (gateway_on_status false false)
      (binance_request SampleGateway.hmac SampleGateway.write SampleGateway.env
        (SampleGateway.order 7) g).2)) as (H&_&_); [|exact H].
  eapply (trace_request (G := WsOrderGateway) SampleGateway.env (SampleGateway.order 7) g true []);
    [by vm_compute|by vm_compute|].
  eapply (trace_silent (G := WsOrderGateway)); [|apply trace_nil]. by vm_compute.
Defined.

Lemma wire_is_signed_witness :
  let g := SampleGateway.gw SampleGateway.up in
  all_signed SampleGateway.hmac (binance_request SampleGateway.hmac SampleGateway.write
    SampleGateway.env (SampleGateway.order 7) g).2 /\
  length (wg_sent (binance_request SampleGateway.hmac SampleGateway.write
    SampleGateway.env (SampleGateway.order 7) g).2) = 1%nat.
Proof.
  cbv zeta. split; [|by vm_compute].
  apply wire_is_signed. intros s _. apply Forall_nil_2.
Defined.

Lemma reply_finds_its_request_witness :
  let rep := {| or_success := true; or_code := ""; or_msg := ""; or_order_no := "12"; or_cid := 7;
                or_server_tstamp_ms := Some 5; or_order_gone := false |} in
  on_message SampleGateway.readers "" = Some rep /\ or_cid rep = 7.
Proof.
  cbv zeta. split; [by vm_compute|].
  eapply (reply_finds_its_request SampleGateway.hmac SampleGateway.write SampleGateway.readers
    SampleGateway.env (SampleGateway.order 7) (SampleGateway.gw SampleGateway.up) "" 200).
  - by vm_compute.
  - by vm_compute.
  - intros req Hreq. vm_compute in Hreq. injection Hreq as <-. by vm_compute.
  - by vm_compute.
Defined.
