(* ===== verification/GatewayLink.v ===== *)
(** * GatewayLink: the trader, its gateway and the venue's streams, joined

    What the components promise together: a request the Binance gateway cannot send leaves
    no trace in the trader, and an order placed through it is recognized again when the
    venue's user stream, or the snapshot of resting orders, reports it. *)
From S2P Require Import Prelude Double Text Exact Messages Strategy OrderState OrderHandler.
From S2P Require Import OrderFrame OrderInvariant Json ListenerEvents OrderBook Reconnect BinanceRest BinanceListener Gateway.

Section link.
Context (env : Env) (cfg : HandlerConfig).
Context (hmac : string -> string -> list Z) (write_request : WsApiRequest -> option string).

Lemma log_record_hs p c o t s ts m w :
  product_states (hs (log_order_record env cfg p c o t s ts m w).2) = product_states (hs w) /\
  cid_to_product (hs (log_order_record env cfg p c o t s ts m w).2) = cid_to_product (hs w).
Proof. unfold log_order_record. run_m. by case_decide. Qed.

Lemma forget_order_gone p c h :
  cid_to_product (forget_order p c h) !! c = None /\
  outstanding_orders (state_of p (forget_order p c h)) !! c = None.
Proof.
  unfold forget_order. split.
  - simpl. apply lookup_delete_eq.
  - unfold state_of at 1. simpl. rewrite lookup_alter, decide_True by done.
    destruct (_ !! p) as [s|]; simpl; [apply lookup_delete_eq|apply lookup_empty].
Qed.

(** [cid] is nowhere in what the trader decides by. *)
Definition untraced (p : string) (cid : Z) (h : Handler) : Prop :=
  cid_to_product h !! cid = None /\
  outstanding_orders (state_of p h) !! cid = None /\
  (cid ∉ response_waiting_place_orders (state_of p h)) /\
  (cid ∉ response_waiting_cancel_orders (state_of p h)).

Definition waits_of (s : ProductState) : gset Z * gset Z :=
  (response_waiting_place_orders s, response_waiting_cancel_orders s).

Lemma state_of_upd_product p f h : is_Some (product_states h !! p) ->
  state_of p (upd_product p f h) = f (state_of p h).
Proof.
  intros [s Hs]. unfold state_of. rewrite lookup_upd_product, decide_True by done. by rewrite Hs.
Qed.

Lemma forget_order_waits p c h :
  waits_of (state_of p (forget_order p c h)) = waits_of (state_of p h).
Proof.
  unfold forget_order. destruct (product_states h !! p) as [s|] eqn:Hs.
  - unfold state_of at 1. simpl. rewrite lookup_alter, decide_True by done.
    destruct (cid_to_order_no _ !! c); simpl; unfold state_of; [rewrite lookup_alter, decide_True by done|];
      by rewrite Hs.
  - unfold state_of at 1. simpl. rewrite lookup_alter, decide_True by done.
    destruct (cid_to_order_no _ !! c); simpl; unfold state_of; [rewrite lookup_alter, decide_True by done|];
      by rewrite Hs.
Qed.

Lemma touch_product_some p h : is_Some (product_states (touch_product p h) !! p).
Proof.
  unfold touch_product. destruct (product_states h !! p) eqn:E; [by eexists|].
  simpl. rewrite lookup_insert, decide_True by done. by eexists.
Qed.

Lemma state_of_touch p h : state_of p (touch_product p h) = state_of p h.
Proof.
  unfold touch_product, state_of. destruct (product_states h !! p) eqn:E; simpl; [by rewrite E|].
  by rewrite lookup_insert, decide_True by done.
Qed.

Lemma clear_waits s : waits_of (clear_waiting_if_idle s) = waits_of s.
Proof. unfold clear_waiting_if_idle. by destruct (no_waiting_orders s). Qed.

(** What is left of a place that failed. *)
Lemma failed_place_untraced p rep w :
  or_success rep = false -> cid_to_product (hs w) !! or_cid rep = Some p ->
  or_cid rep ∈ response_waiting_place_orders (state_of p (hs w)) ->
  or_cid rep ∉ response_waiting_cancel_orders (state_of p (hs w)) ->
  untraced p (or_cid rep) (hs (on_order_response env cfg rep w).2).
Proof.
  intros Hs Hc Hp Hn. set (c := or_cid rep) in *.
  set (h3 := upd_product p clear_waiting_if_idle
    (upd_product p (erase_waiting true true c) (touch_product p (hs w)))).
  assert (waits_of (state_of p h3) =
    (response_waiting_place_orders (state_of p (hs w)) ∖ {[c]},
     response_waiting_cancel_orders (state_of p (hs w)) ∖ {[c]})) as Hw.
  { unfold h3. rewrite !state_of_upd_product, clear_waits, state_of_touch;
      [done|apply touch_product_some|apply is_Some_upd_product, touch_product_some]. }
  assert ((on_order_response env cfg rep w).2 =
    (upd (forget_order p c) (log_order_record env cfg p c (or_order_no rep) "place" false
       (or_server_tstamp_ms rep) (or_msg rep) (set_hs h3 w)).2).2) as ->.
  { unfold on_order_response. run_m. fold c. rewrite Hc. cbn. fold c.
    rewrite bool_decide_eq_false_2, bool_decide_eq_true_2 by done. by rewrite Hs. }
  set (w4 := (log_order_record _ _ _ _ _ _ _ _ _ _).2).
  assert (waits_of (state_of p (hs w4)) = waits_of (state_of p h3)) as H4.
  { unfold state_of, w4. by destruct (log_record_hs p c (or_order_no rep) "place" false
      (or_server_tstamp_ms rep) (or_msg rep) (set_hs h3 w)) as [-> _]. }
  clearbody w4 h3. unfold upd, modify. cbn [snd hs set_hs]. destruct (forget_order_gone p c (hs w4)) as [H1 H2].
  pose proof (forget_order_waits p c (hs w4)) as H5. rewrite H4, Hw in H5. injection H5 as H5 H6.
  split_and!; [done|done| |]; rewrite ?H5, ?H6; set_solver.
Qed.

(** C28: A place the session cannot take leaves no trace.  The gateway answers it on the
    spot with a failure under its own id; once the trader handles that answer, the order
    is neither outstanding nor waited for nor routed, so the product is free to decide
    again at once. *)
Theorem unsendable_place_is_forgotten e g w info p :
  (binance_request hmac write_request e (Place info) g).1.1 = false ->
  cid_to_product (hs w) !! opi_cid info = Some p ->
  opi_cid info ∈ response_waiting_place_orders (state_of p (hs w)) ->
  opi_cid info ∉ response_waiting_cancel_orders (state_of p (hs w)) ->
  exists rep, (binance_request hmac write_request e (Place info) g).1.2 = [rep] /\
    untraced p (opi_cid info) (hs (handle_task env cfg (TOrderResponse rep) w).2).
Proof.
  intros Hf Hc Hp Hn. exists (report_not_sent (opi_cid info)). split.
  - revert Hf. unfold binance_request. by destruct (ws_request _ _ _ _ _) as [[] ?].
  - by apply (failed_place_untraced p (report_not_sent (opi_cid info)) w).
Qed.

(** ** The client order id, there and back *)

(** A reported execution carries the text of the venue's [c] as it is. *)
Lemma order_update_cid o d : order_update_data o = Some (Some d) -> client_order_id d = ou_c o.
Proof.
  unfold order_update_data, mbind, option_bind. intros H. repeat split_match_in H; simplify_eq; done.
Qed.

(** The venue's reports come home.  An order the trader placed carries its client order
    id as text; whatever the user stream later reports under that text -- acceptance,
    fill, cancel -- and whatever the snapshot of resting orders lists under it, the
    trader routes to the product and the id it was placed with. *)
Theorem cid_round_trip c0 info h p text :
  0 <= opi_cid info < 2 ^ 64 -> p <> ""%string ->
  cid_to_product h !! opi_cid info = Some p ->
  place_params c0 info !! "newClientOrderId"%string = Some text ->
  (forall o d product, ou_c o = text -> order_update_data o = Some (Some d) ->
     route_execution h product d = (p, Some (opi_cid info))) /\
  (forall no bid price qty product,
     route_execution h product (accept_event no text bid price qty) = (p, Some (opi_cid info))).
Proof.
  intros Hc Hp Hr Ht.
  assert (text = to_string (opi_cid info)) as ->.
  { revert Ht. unfold place_params. by destruct (opi_is_limit info), (opi_reduce_only info); intros [= <-]. }
  assert (forall product d, client_order_id d = to_string (opi_cid info) ->
    route_execution h product d = (p, Some (opi_cid info))) as H.
  { intros product d Hd. unfold route_execution, route_by_cid. rewrite Hd.
    destruct (decide (to_string (opi_cid info) = ""%string)) as [E|_];
      [by apply to_string_nonempty in E; [|lia]|].
    rewrite stoull_to_string by done. rewrite Hr. simpl. by rewrite decide_False. }
  split; [|by intros; apply H].
  intros o d product Ho Hd. apply H. by rewrite (order_update_cid o d).
Qed.

(** ** The price and size on the wire *)

(** What the trader made of a price and a size on a decimal grid, read back: the steps they
    round to. *)
Lemma snapped_steps info bid raw_price raw_qty k l n q price qty :
  tick_size info = Some (decimal_step k) -> lot_size info = Some (decimal_step l) ->
  0 <= k <= 12 -> 0 <= l <= 12 ->
  fround (fdiv raw_price (decimal_step k)) = of_Z n -> fround (fdiv raw_qty (decimal_step l)) = of_Z q ->
  snap_to_product_grid info bid raw_price raw_qty = (true, price, qty) ->
  price = fmul (of_Z n) (decimal_step k) /\ qty = fmul (of_Z q) (decimal_step l).
Proof.
  intros Ht Hl Hk Hl' Hn Hq. unfold snap_to_product_grid, snap_qty_to_product_grid. rewrite Ht, Hl.
  assert (forall k, 0 <= k <= 12 -> fpos (decimal_step k) = true) as Hpos.
  { intros k' Hk'. by destruct (decimal_step_spec k' Hk') as (m&f&->&_). }
  rewrite !Hpos, Hn, Hq by done. by intros [= _ <- <-].
Qed.

(** C31: On a decimal grid, what the trader decided is what the venue reads.  Let a product's
    tick and lot be powers of ten, from 1 down to 10^-12, and let a limit order's raw price
    and size round to fewer than 2^48 ticks and lots.  If the trader snaps it onto that grid,
    it leaves the Binance gateway, once that has been fed the same grid, with exactly the
    decimal numerals of its numbers of ticks and lots: the gateway's own rounding moves
    neither, and no floating-point residue is printed.  On a tick that is no power of ten
    this fails: see [quarter_tick_misprinted]. *)
Theorem wire_is_what_was_decided g info bid raw_price raw_qty k l n q price qty product cid reduce :
  tick_size info = Some (decimal_step k) -> lot_size info = Some (decimal_step l) ->
  0 <= k <= 12 -> 0 <= l <= 12 -> 0 <= n < 2 ^ 48 -> 0 <= q < 2 ^ 48 ->
  fround (fdiv raw_price (decimal_step k)) = of_Z n -> fround (fdiv raw_qty (decimal_step l)) = of_Z q ->
  snap_to_product_grid info bid raw_price raw_qty = (true, price, qty) ->
  let g' := set_product_grid product (decimal_step k) (decimal_step l) g in
  let params := place_params (wg_rest g') {|
    opi_is_limit := true; opi_is_bid := bid; opi_price := price; opi_qty := qty;
    opi_product := product; opi_cid := cid; opi_reduce_only := reduce |} in
  params !! "price"%string = Some (decimal_text k n) /\
  params !! "quantity"%string = Some (decimal_text l q).
Proof.
  intros Ht Hl Hk Hl' Hn Hq Hrp Hrq Hs. cbv zeta.
  destruct (snapped_steps _ _ _ _ _ _ _ _ _ _ Ht Hl Hk Hl' Hrp Hrq Hs) as [-> ->].
  set (c := wg_rest _).
  assert (pf_tick_size (filter c product) = decimal_step k /\ price_precision (filter c product) = k /\
    pf_step_size (filter c product) = decimal_step l /\ qty_precision (filter c product) = l)
    as (E1&E2&E3&E4).
  { assert (forall k, 0 <= k <= 12 -> flt fzero (decimal_step k) = true) as Hpos.
    { intros k' Hk'. by destruct (decimal_step_spec k' Hk') as (m&f&->&_). }
    unfold c, filter. simpl. rewrite lookup_insert_eq, !Hpos by done. simpl.
    by rewrite !precision_of_decimal. }
  assert (format_price c product (fmul (of_Z n) (decimal_step k)) = decimal_text k n) as <-.
  { unfold format_price. rewrite E2, (round_price_grid _ _ _ k n) by (try done; by apply snap_stable).
    by apply fixed_grid. }
  assert (format_qty c product (fmul (of_Z q) (decimal_step l)) = decimal_text l q) as <-.
  { unfold format_qty. rewrite E4, (round_qty_grid _ _ _ l q) by (try done; by apply snap_stable).
    by apply fixed_grid. }
  unfold place_params. simpl. by destruct reduce.
Qed.
End link.

(** The first order of the sample trader, at a gateway whose session is down. *)
Definition sample_info : OrderPlaceInfo := {|
  opi_is_limit := true; opi_is_bid := true; opi_price := of_Z 9987; opi_qty := of_Z 1;
  opi_product := "BTC"; opi_cid := 1001; opi_reduce_only := false |}.

Lemma unsendable_place_is_forgotten_witness :
  is_Some (outstanding_orders (state_of "BTC" (hs SampleTrader.quoting)) !! 1001) /\
  exists rep,
    (binance_request SampleGateway.hmac SampleGateway.write SampleGateway.env (Place sample_info)
       (SampleGateway.gw Sup_new)).1.2 = [rep] /\
    untraced "BTC" 1001
      (hs (handle_task (SampleTrader.env []) SampleTrader.cfg (TOrderResponse rep)
             SampleTrader.quoting).2).
Proof.
  split; [by vm_compute; eexists|].
  apply (unsendable_place_is_forgotten (SampleTrader.env []) SampleTrader.cfg SampleGateway.hmac
    SampleGateway.write SampleGateway.env (SampleGateway.gw Sup_new) SampleTrader.quoting
    sample_info "BTC").
  - by vm_compute.
  - by vm_compute.
  - apply (bool_decide_unpack _). by vm_compute.
  - apply (bool_decide_unpack _). by vm_compute.
Defined.

Lemma cid_round_trip_witness :
  route_execution (hs SampleTrader.quoting) "?" (accept_event "A9" "1001" true fone fone) =
    ("BTC"%string, Some 1001).
Proof.
  destruct (cid_round_trip
    {| rest_domain := ""; rc_signer := None; filters := ∅ |} sample_info
    (hs SampleTrader.quoting) "BTC" "1001") as [_ H]; [done|done|by vm_compute|by vm_compute|].
  apply (H "A9"%string true fone fone "?"%string).
Defined.

Lemma wire_is_what_was_decided_witness :
  let info := {| tick_size := Some (decimal_step 1); lot_size := Some (decimal_step 3) |} in
  let g' := set_product_grid "BTCUSDT" (decimal_step 1) (decimal_step 3) (SampleGateway.gw Sup_new) in
  exists price qty,
    snap_to_product_grid info true (of_decimal false 6700013 (-2)) (of_decimal false 2009 (-3)) =
      (true, price, qty) /\
    place_params (wg_rest g') {|
      opi_is_limit := true; opi_is_bid := true; opi_price := price; opi_qty := qty;
      opi_product := "BTCUSDT"; opi_cid := 7; opi_reduce_only := false |} !! "price"%string =
      Some "67000.1"%string.
Proof.
  cbv zeta. do 2 eexists. split; [vm_compute; reflexivity|].
  edestruct (wire_is_what_was_decided (SampleGateway.gw Sup_new)
    {| tick_size := Some (decimal_step 1); lot_size := Some (decimal_step 3) |} true
    (of_decimal false 6700013 (-2)) (of_decimal false 2009 (-3)) 1 3 670001 2009)
    as [H _]; [done|done|lia|lia|lia|lia|by vm_compute|by vm_compute|by vm_compute|].
  etransitivity; [exact H|]. by vm_compute.
Defined.
