(* ===== verification/MarketListener.v ===== *)
(** * MarketListener: the listener process around an exchange adapter

    [market_listener/market_listener.{hpp,cpp}]: one turn of [listen] -- broadcast, retain,
    log -- over the server of [TcpServer] and any adapter of the [ExchangeListener]
    interface, the product-info schedule, and the coalesced account snapshots a new
    subscriber sets off.  The event queue keeps the order of each thread that feeds it and
    no other (MpQueue).  glaze's writers are a parameter. *)
From S2P Require Import Prelude MpQueue Double Messages ListenerEvents TcpServer.

#[local] Open Scope string_scope.
#[local] Open Scope list_scope.
#[local] Open Scope Z_scope.

(** [create_exchange_listener]: which adapter; [None] is the throw. *)
Inductive Exchange := ExBinance | ExKis.
Definition create_exchange_listener (c : ListenerConfig) : option Exchange :=
  if decide (lc_exchange c = "binance") then Some ExBinance
  else if decide (lc_exchange c = "kis") then Some ExKis
  else None.

(** CSV rows. *)
Record OrderbookRow := {
  obr_local_tstamp : Z; obr_server_tstamp : double; obr_is_bid : bool;
  obr_price : double; obr_qty : double }.
Record TradeRow := {
  tr_local_tstamp : Z; tr_server_tstamp : double; tr_trade_price : double;
  tr_cum_trade_qty : double; tr_cum_buy_trade_qty : double }.

Record MarketListener (A : Type) := {
  ml_config : ListenerConfig;
  adapter : A;
  event_queue : list (Thread * ListenerEvent);
  pushed : list (Thread * ListenerEvent);  (* ghost: all that was ever queued *)
  handled : list (Thread * ListenerEvent); (* ghost: what [listen] has taken, in that order *)
  server_tasks : list ServerTask;          (* on the server's task queue, oldest first *)
  last_user_state_publish_ms : Z;
  user_state_posts : nat;                  (* snapshot calls posted and not run *)
  refresh_timer : option Z;                (* armed, in seconds *)
  pi_running : bool;                       (* the product-info thread is in [run()] *)
  orderbook_rows : list (string * OrderbookRow);
  trade_rows : list (string * TradeRow) }.
Arguments ml_config {A}.
Arguments adapter {A}.
Arguments event_queue {A}.
Arguments pushed {A}.
Arguments handled {A}.
Arguments server_tasks {A}.
Arguments last_user_state_publish_ms {A}.
Arguments user_state_posts {A}.
Arguments refresh_timer {A}.
Arguments pi_running {A}.
Arguments orderbook_rows {A}.
Arguments trade_rows {A}.

(** The constructor, up to the threads it starts; [None] is its throw. *)
Definition MarketListener_new {A} (c : ListenerConfig) (a : A) : option (MarketListener A) :=
  (fun _ => {| ml_config := c; adapter := a; event_queue := []; pushed := []; handled := []; server_tasks := [];
     last_user_state_publish_ms := 0; user_state_posts := 0; refresh_timer := None;
     pi_running := false; orderbook_rows := []; trade_rows := [] |}) <$> create_exchange_listener c.

(** ** Pure parts of the handlers *)
Definition MIN_USER_STATE_INTERVAL_MS : Z := 500.
Definition should_publish_user_state (now_ms last : Z) : bool * Z :=
  if negb (last =? 0) && (now_ms - last <? MIN_USER_STATE_INTERVAL_MS) then (false, last)
  else (true, now_ms).

Definition server_tstamp (o : option Z) : double := match o with Some z => of_Z z | None => fnan end.
Definition book_rows (now_ns : Z) (d : OrderbookData) : list OrderbookRow :=
  let row b (l : OrderbookLevel) := {|
    obr_local_tstamp := now_ns; obr_server_tstamp := server_tstamp (ob_server_tstamp_ms d);
    obr_is_bid := b; obr_price := value_or fnan (lvl_price l); obr_qty := value_or fnan (lvl_qty l) |} in
  (row true <$> bid_book d) ++ (row false <$> ask_book d).
Definition trade_row (now_ns : Z) (d : TradeData) : TradeRow := {|
  tr_local_tstamp := now_ns; tr_server_tstamp := server_tstamp (td_server_tstamp_ms d);
  tr_trade_price := value_or fnan (trade_price d);
  tr_cum_trade_qty := value_or fnan (cum_trade_qty d);
  tr_cum_buy_trade_qty := value_or fnan (cum_buy_trade_qty d) |}.

Section listener.
Context {A : Type} `{!ExchangeListener A}.
Variable write_json : ListenerEvent -> option string.
Abbreviation ML := (st (MarketListener A)).

Definition set_queue (q pu ha : list (Thread * ListenerEvent)) (w : MarketListener A) : MarketListener A := {|
  ml_config := ml_config w; adapter := adapter w; event_queue := q; pushed := pu; handled := ha;
  server_tasks := server_tasks w; last_user_state_publish_ms := last_user_state_publish_ms w;
  user_state_posts := user_state_posts w; refresh_timer := refresh_timer w; pi_running := pi_running w;
  orderbook_rows := orderbook_rows w; trade_rows := trade_rows w |}.
Definition set_fetch (a : A) (timer : option Z) (posts : nat) (last : Z) (w : MarketListener A) : MarketListener A := {|
  ml_config := ml_config w; adapter := a; event_queue := event_queue w; pushed := pushed w;
  handled := handled w; server_tasks := server_tasks w;
  last_user_state_publish_ms := last; user_state_posts := posts; refresh_timer := timer; pi_running := pi_running w;
  orderbook_rows := orderbook_rows w; trade_rows := trade_rows w |}.
(** Thread [k] queues events. *)
Definition push_events (k : Thread) (es : list ListenerEvent) (w : MarketListener A) : MarketListener A :=
  set_queue (event_queue w ++ (pair k <$> es)) (pushed w ++ (pair k <$> es)) (handled w) w.
Definition enqueue_server (t : ServerTask) : ML unit := modify (fun w => {|
  ml_config := ml_config w; adapter := adapter w; event_queue := event_queue w; pushed := pushed w; handled := handled w;
  server_tasks := server_tasks w ++ [t];
  last_user_state_publish_ms := last_user_state_publish_ms w;
  user_state_posts := user_state_posts w; refresh_timer := refresh_timer w;
  pi_running := pi_running w;
  orderbook_rows := orderbook_rows w; trade_rows := trade_rows w |}).
Definition log_rows (obs : list (string * OrderbookRow)) (trs : list (string * TradeRow)) : ML unit :=
  modify (fun w => {|
  ml_config := ml_config w; adapter := adapter w; event_queue := event_queue w; pushed := pushed w; handled := handled w;
  server_tasks := server_tasks w;
  last_user_state_publish_ms := last_user_state_publish_ms w;
  user_state_posts := user_state_posts w; refresh_timer := refresh_timer w;
  pi_running := pi_running w;
  orderbook_rows := orderbook_rows w ++ obs; trade_rows := trade_rows w ++ trs |}).

Definition broadcast_market_data (product : string) (e : ListenerEvent) : ML unit :=
  match write_json e with
  | Some json => enqueue_server (BroadcastMessage product json)
  | None => skip
  end.
Definition log_orderbook_data (now_ns : Z) (product : string) (d : OrderbookData) : ML unit :=
  w ← gets id;
  when (negb (lc_no_orderbook_log (ml_config w)))
    (log_rows ((fun r => (product, r)) <$> book_rows now_ns d) []).
Definition log_trade_data (now_ns : Z) (product : string) (d : TradeData) : ML unit :=
  w ← gets id;
  when (negb (lc_no_public_trade_log (ml_config w))) (log_rows [] [(product, trade_row now_ns d)]).

(** One event of [listen]. *)
Definition listen_event (now_ns : Z) (e : ListenerEvent) : ML unit :=
  match e with
  | StatusEvent _ _ _ => skip
  | OrderbookMsg p d => broadcast_market_data p e ;; log_orderbook_data now_ns p d
  | TradeMsg p d => broadcast_market_data p e ;; log_trade_data now_ns p d
  | ExecutionMsg p _ | PositionMsg p _ => broadcast_market_data p e
  | ProductInfoMsg p d => broadcast_market_data p e ;; enqueue_server (ProductInfoUpdate p d)
  end.
(** [listen]: take one event off the queue, coming to the stream of [first] first
    ([wait_dequeue] blocks on an empty one), and handle it. *)
Definition listen (first : Thread) (now_ns : Z) : ML unit :=
  w ← gets id;
  match try_dequeue first (event_queue w) with
  | None => skip
  | Some (k, e, q) =>
      modify (set_queue q (pushed w) (handled w ++ [(k, e)])) ;;
      listen_event now_ns e
  end.

(** The subscribe hook, on the server's worker: post a snapshot call, or not. *)
Definition subscribe_hook (now_ms : Z) : ML unit := modify (fun w =>
  let '(go, last) := should_publish_user_state now_ms (last_user_state_publish_ms w) in
  set_fetch (adapter w) (refresh_timer w)
    (if go then S (user_state_posts w) else user_state_posts w) last w).
(** The product-info thread. *)
Definition ProductInfoThread : Thread := Owner 1.
(** The posted call, run by that thread while it is in [run()]. *)
Definition run_user_state_post : ML unit := modify (fun w =>
  match pi_running w, user_state_posts w with
  | true, S n =>
      let '(a, es, _) := publish_user_state (adapter w) in
      set_fetch a (refresh_timer w) n (last_user_state_publish_ms w) (push_events ProductInfoThread es w)
  | _, _ => w
  end).

(** The product-info thread: publish, then arm the timer; a throw is logged and the
    schedule goes on. *)
Definition schedule_product_info_refresh (w : MarketListener A) : option Z :=
  if lc_product_info_refresh_sec (ml_config w) <=? 0 then None
  else Some (lc_product_info_refresh_sec (ml_config w)).
Definition refresh_product_info : ML unit := modify (fun w =>
  let '(a, es, _) := publish_product_info (adapter w) in
  set_fetch a (schedule_product_info_refresh w) (user_state_posts w)
    (last_user_state_publish_ms w) (push_events ProductInfoThread es w)).
Definition set_pi_running (b : bool) : ML unit := modify (fun w => {|
  ml_config := ml_config w; adapter := adapter w; event_queue := event_queue w; pushed := pushed w; handled := handled w;
  server_tasks := server_tasks w; last_user_state_publish_ms := last_user_state_publish_ms w;
  user_state_posts := user_state_posts w; refresh_timer := refresh_timer w; pi_running := b;
  orderbook_rows := orderbook_rows w; trade_rows := trade_rows w |}).
(** [start_product_info_refresh]: the thread publishes, arms the timer and enters [run()]. *)
Definition start_product_info_refresh : ML unit := refresh_product_info ;; set_pi_running true.
(** The timer's handler. *)
Definition product_info_timer_fired : ML unit :=
  w ← gets id;
  match pi_running w, refresh_timer w with
  | true, Some _ => refresh_product_info
  | _, _ => skip
  end.
(** [io_context::run] returns once nothing is posted and no timer is armed; the thread's
    function ends with it, and the context runs nothing from then on. *)
Definition product_info_run_returns : ML unit :=
  w ← gets id;
  when (pi_running w && (user_state_posts w =? 0)%nat && bool_decide (refresh_timer w = None))
    (set_pi_running false).
End listener.

(** ** From the adapter to the subscribers *)

Section pipeline.
Context {A : Type} `{!ExchangeListener A}.
Context (write_json : ListenerEvent -> option string).
Context (write_info : string -> ProductInfoData -> option string) (has_hook : bool).

(** The listener handling [es] one after the other, at the clock readings [ts]. *)
Fixpoint listen_all (es : list ListenerEvent) (now_ns : nat -> Z) : st (MarketListener A) unit :=
  match es with
  | [] => skip
  | e :: es => listen_event write_json (now_ns 0%nat) e ;; listen_all es (fun i => now_ns (S i))
  end.

(** The server tasks one event makes. *)
Definition tasks_of (e : ListenerEvent) : list ServerTask :=
  match event_product e, write_json e with
  | Some p, Some json => [BroadcastMessage p json]
  | _, _ => []
  end ++ match e with ProductInfoMsg p d => [ProductInfoUpdate p d] | _ => [] end.

Lemma listen_event_tasks now e (w : MarketListener A) :
  server_tasks (listen_event write_json now e w).2 = server_tasks w ++ tasks_of e.
Proof.
  unfold tasks_of. destruct e as [c a o|p d|p d|p d|p d|p d]; simpl;
    unfold broadcast_market_data, log_orderbook_data, log_trade_data; try (by rewrite app_nil_r);
    destruct (write_json _); unfold mbind, st_bind, gets, when; cbn; repeat split_match; cbn;
    rewrite ?app_nil_r, <- ?app_assoc; done.
Qed.

Lemma listen_all_tasks es now (w : MarketListener A) :
  server_tasks (listen_all es now w).2 = server_tasks w ++ (es ≫= tasks_of).
Proof.
  revert now w. induction es as [|e es IH]; intros now w; [by rewrite app_nil_r|].
  change (server_tasks (listen_all es (fun i => now (S i)) (listen_event write_json (now 0%nat) e w).2).2
    = server_tasks w ++ tasks_of e ++ (es ≫= tasks_of)).
  by rewrite IH, listen_event_tasks, <- app_assoc.
Qed.

(** The registry is not changed by what the listener enqueues. *)
Lemma tasks_of_registry e srv :
  product_to_sessions (run_server write_info has_hook (tasks_of e) srv).1 = product_to_sessions srv /\
  session_to_products (run_server write_info has_hook (tasks_of e) srv).1 = session_to_products srv.
Proof.
  unfold tasks_of. destruct (write_json e) as [json|] eqn:Ej; by destruct e.
Qed.

Lemma tasks_of_sent s e srv :
  sent_to s (run_server write_info has_hook (tasks_of e) srv).2 =
  match event_product e, write_json e with
  | Some p, Some json => if decide (s ∈ members (product_to_sessions srv) p) then [json] else []
  | _, _ => []
  end.
Proof.
  assert (forall p json, sent_to s ((fun s' => SessionSend s' json) <$>
    elements (members (product_to_sessions srv) p)) =
    if decide (s ∈ members (product_to_sessions srv) p) then [json] else []) as H.
  { intros p json. rewrite sent_to_broadcast by apply NoDup_elements.
    destruct (decide (s ∈ elements _)) as [H|H], (decide (s ∈ members _ _)) as [H'|H']; try done;
      by rewrite elem_of_elements in H. }
  unfold tasks_of. destruct (write_json e) as [json|]; destruct e; simpl; rewrite ?app_nil_r; by rewrite ?H.
Qed.

(** A grid can be missed.  [listen] broadcasts a new grid before it retains it, so a
    session whose subscription reaches the server between the two is sent neither: not
    the broadcast, which it was too late for, nor the new grid on subscribing, which it
    was too early for.  Without an earlier grid it is sent nothing at all. *)
Theorem grid_missed_between s p d json srv :
  write_json (ProductInfoMsg p d) = Some json ->
  product_infos srv !! p = None -> s ∉ members (product_to_sessions srv) p ->
  exists t1 t2, tasks_of (ProductInfoMsg p d) = [t1; t2] /\
    let '(srv', o) := run_server write_info has_hook [t1; SUBSCRIBE_PRODUCT s p; t2] srv in
    sent_to s o = [] /\ s ∈ members (product_to_sessions srv') p /\ product_infos srv' !! p = Some d.
Proof.
  intros Hj Hi Hs. exists (BroadcastMessage p json), (ProductInfoUpdate p d). split.
  - unfold tasks_of. simpl. by rewrite Hj.
  - simpl. rewrite Hi. simpl. split_and!.
    + rewrite app_nil_r, sent_to_app, sent_to_broadcast by apply NoDup_elements.
      rewrite decide_False by (by rewrite elem_of_elements). by destruct has_hook.
    + unfold members. rewrite lookup_insert, decide_True by done. simpl. set_solver.
    + by rewrite lookup_insert, decide_True by done.
Qed.
End pipeline.

(** ** The account snapshots, and the thread that fetches them *)
Section snapshots.
Context {A : Type} `{!ExchangeListener A}.
Context (write_json : ListenerEvent -> option string).

Definition push_event (k : Thread) (e : ListenerEvent) : st (MarketListener A) unit :=
  modify (push_events k [e]).

(** The process's threads, one handler at a time: the adapter's (any thread may push), the
    main thread, the server's worker, and the product-info thread's calls, timer and end. *)
Inductive ml_step : MarketListener A -> MarketListener A -> Prop :=
  | ml_push k e w : ml_step w (push_event k e w).2
  | ml_listen first now w : ml_step w (listen write_json first now w).2
  | ml_hook now w : ml_step w (subscribe_hook now w).2
  | ml_post w : ml_step w (run_user_state_post w).2
  | ml_timer w : ml_step w (product_info_timer_fired w).2
  | ml_returns w : ml_step w (product_info_run_returns w).2.

(** [listen] leaves the product-info thread and the adapter alone. *)
Lemma listen_event_keeps now e (w : MarketListener A) :
  let w' := (listen_event write_json now e w).2 in
  ml_config w' = ml_config w /\ adapter w' = adapter w /\ pi_running w' = pi_running w /\
  refresh_timer w' = refresh_timer w /\ user_state_posts w' = user_state_posts w /\
  event_queue w' = event_queue w /\ pushed w' = pushed w /\ handled w' = handled w.
Proof.
  destruct e as [c a o|p d|p d|p d|p d|p d]; simpl;
    unfold broadcast_market_data, log_orderbook_data, log_trade_data; try done;
    destruct (write_json _); unfold mbind, st_bind, gets, when; cbn; repeat split_match; done.
Qed.

(** *** The feed *)

(** A stretch of the process's life: what was pushed, what [listen] took of it and of what
    was queued before, and the tasks it made of that. *)
Definition carries (w w' : MarketListener A) : Prop :=
  exists new taken, pushed w' = pushed w ++ new /\ handled w' = handled w ++ taken /\
    same_streams (event_queue w ++ new) (taken ++ event_queue w') /\
    server_tasks w' = server_tasks w ++ (taken.*2 ≫= tasks_of write_json).

#[local] Instance carries_preorder : PreOrder carries.
Proof.
  split.
  - intros w. exists [], []. by rewrite !app_nil_r.
  - intros w1 w2 w3 (n1&t1&P1&H1&S1&T1) (n2&t2&P2&H2&S2&T2). exists (n1 ++ n2), (t1 ++ t2).
    rewrite P2, P1, H2, H1, T2, T1, fmap_app, bind_app, !app_assoc. split_and!; [done..| |done].
    rewrite S1, <- !app_assoc. by rewrite S2.
Qed.

Lemma carries_push k es w : carries w (push_events k es w).
Proof. exists (pair k <$> es), []. simpl. by rewrite !app_nil_r. Qed.
Lemma carries_keep w w' : event_queue w' = event_queue w -> pushed w' = pushed w ->
  handled w' = handled w -> server_tasks w' = server_tasks w -> carries w w'.
Proof. intros E1 E2 E3 E4. exists [], []. by rewrite E1, E2, E3, E4, !app_nil_r. Qed.
Lemma carries_refresh w : carries w (refresh_product_info w).2.
Proof.
  unfold refresh_product_info. simpl. destruct (publish_product_info _) as [[a es] t].
  etrans; [apply (carries_push ProductInfoThread es)|by apply carries_keep].
Qed.

Lemma ml_step_carries w w' : ml_step w w' -> carries w w'.
Proof.
  intros Hs. destruct Hs as [k e w|first now w|now w|w|w|w].
  - apply carries_push.
  - unfold listen, mbind, st_bind. cbn [gets fst snd id].
    destruct (try_dequeue first _) as [[[k e] q]|] eqn:Eq; [|done]. cbn [modify fst snd].
    set (w1 := set_queue q _ _ w). destruct (listen_event_keeps now e w1) as (_&_&_&_&_&E1&E2&E3).
    exists [], [(k, e)]. rewrite E1, E2, E3, (listen_event_tasks write_json now e w1). simpl.
    rewrite !app_nil_r. split_and!; [done..| |done]. symmetry. by eapply try_dequeue_streams.
  - unfold subscribe_hook. simpl. destruct (should_publish_user_state _ _). by apply carries_keep.
  - unfold run_user_state_post. simpl. destruct (pi_running w), (user_state_posts w); try done.
    destruct (publish_user_state _) as [[a es] t].
    etrans; [apply (carries_push ProductInfoThread es)|by apply carries_keep].
  - unfold product_info_timer_fired, mbind, st_bind. cbn [gets fst snd id].
    destruct (pi_running w), (refresh_timer w); try done. apply carries_refresh.
  - unfold product_info_run_returns, mbind, st_bind. cbn [gets fst snd id].
    destruct (_ && _); [|done]. by apply carries_keep.
Qed.

(** A turn on a queue that is not empty takes an event. *)
Lemma listen_takes first now (w : MarketListener A) : event_queue w <> [] ->
  exists x, handled (listen write_json first now w).2 = handled w ++ [x].
Proof.
  intros Hne. unfold listen, mbind, st_bind. cbn [gets fst snd id].
  destruct (try_dequeue first _) as [[[k e] q]|] eqn:Eq; [|by apply try_dequeue_none in Eq].
  exists (k, e). cbn [modify fst snd]. set (w1 := set_queue q _ _ w).
  by destruct (listen_event_keeps now e w1) as (_&_&_&_&_&_&_&->).
Qed.

(** What of an event a session of a registry is sent: its text, if it has one and the
    session is subscribed to its product. *)
Definition sent_of (s : SessionId) (srv : TcpServer) (e : ListenerEvent) : list string :=
  match event_product e, write_json e with
  | Some p, Some json => if decide (s ∈ members (product_to_sessions srv) p) then [json] else []
  | _, _ => []
  end.

Lemma tasks_sent write_info has_hook s es srv :
  sent_to s (run_server write_info has_hook (es ≫= tasks_of write_json) srv).2 = es ≫= sent_of s srv.
Proof.
  revert srv. induction es as [|e es IH]; intros srv; [done|].
  change ((e :: es) ≫= tasks_of write_json) with (tasks_of write_json e ++ (es ≫= tasks_of write_json)).
  rewrite run_server_app.
  pose proof (tasks_of_sent write_json write_info has_hook s e srv) as Hs.
  destruct (tasks_of_registry write_json write_info has_hook e srv) as [Hr _].
  destruct (run_server _ _ (tasks_of _ e) srv) as [srv1 o1]. simpl in Hs, Hr.
  specialize (IH srv1). destruct (run_server _ _ (es ≫= _) srv1) as [srv2 o2].
  simpl in IH |- *. rewrite sent_to_app, Hs, IH. unfold sent_of. by rewrite Hr.
Qed.

(** C17: The feed is complete, and in the order of each thread that pushes it.  Over any
    stretch of the listener's life, whatever its threads do: the events [listen] took are,
    for each pushing thread, the ones that thread had queued and pushed, in its order, short
    only of those still on the queue -- none lost, doubled or overtaken by a later one of
    its thread -- and a turn takes one whenever there is one; the server was handed exactly the tasks of the events taken, in the order
    taken; and of these a session is sent, as long as its subscriptions stay, the events of
    the products it is subscribed to, each once and in that order, but for those glaze
    cannot write, which are dropped. *)
Theorem feed_delivers_in_order write_info has_hook w w' :
  rtc ml_step w w' ->
  exists new taken : list (Thread * ListenerEvent),
    pushed w' = pushed w ++ new /\ handled w' = handled w ++ taken /\
    (forall k, from k (event_queue w) ++ from k new = from k taken ++ from k (event_queue w')) /\
    server_tasks w' = server_tasks w ++ (taken.*2 ≫= tasks_of write_json) /\
    (forall first now, event_queue w' <> [] ->
       exists x, handled (listen write_json first now w').2 = handled w' ++ [x]) /\
    forall s srv, sent_to s (run_server write_info has_hook (taken.*2 ≫= tasks_of write_json) srv).2 =
      taken.*2 ≫= sent_of s srv.
Proof.
  intros Hs. assert (carries w w') as (new&taken&Hp&Hh&Hq&Ht).
  { induction Hs as [|w1 w2 w3 H _ IH]; [done|]. etrans; [by apply ml_step_carries|done]. }
  exists new, taken. split_and!; [done..| |done| |].
  - intros k. rewrite <- !from_app. apply Hq.
  - intros first now Hne. by apply listen_takes.
  - intros s srv. apply tasks_sent.
Qed.

(** While the refresh is on, the thread stays in [run()] with its timer armed. *)
Definition refreshing (w : MarketListener A) : Prop :=
  0 < lc_product_info_refresh_sec (ml_config w) /\ pi_running w = true /\ refresh_timer w <> None.

Lemma refresh_arms (w : MarketListener A) :
  0 < lc_product_info_refresh_sec (ml_config w) ->
  ml_config (refresh_product_info w).2 = ml_config w /\
  pi_running (refresh_product_info w).2 = pi_running w /\
  refresh_timer (refresh_product_info w).2 <> None.
Proof.
  intros H. unfold refresh_product_info. simpl. destruct (publish_product_info _) as [[a es] t].
  simpl. unfold schedule_product_info_refresh. by destruct (Z.leb_spec (lc_product_info_refresh_sec (ml_config w)) 0); [lia|].
Qed.

Lemma refreshing_step w w' : ml_step w w' -> refreshing w -> refreshing w'.
Proof.
  intros Hs (Hc&Hr&Ht). unfold refreshing. destruct Hs as [k e w|first now w|now w|w|w|w].
  - done.
  - unfold listen, mbind, st_bind. cbn [gets fst snd id].
    destruct (try_dequeue first _) as [[[k e] q]|]; [|done]. cbn [modify fst snd].
    set (w1 := set_queue q _ _ w). destruct (listen_event_keeps now e w1) as (->&_&->&->&_). done.
  - unfold subscribe_hook. simpl. by destruct (should_publish_user_state _ _).
  - unfold run_user_state_post. simpl. rewrite Hr. destruct (user_state_posts w); [done|].
    by destruct (publish_user_state _) as [[a es] t].
  - unfold product_info_timer_fired, mbind, st_bind. cbn [gets fst snd id]. rewrite Hr.
    destruct (refresh_timer w); [|done]. destruct (refresh_arms w Hc) as (->&->&?). done.
  - unfold product_info_run_returns, mbind, st_bind. cbn [gets fst snd id].
    rewrite (bool_decide_eq_false_2 _ Ht), andb_false_r. done.
Qed.

(** Once [run()] has returned, no posted call is taken and the adapter is not asked again. *)
Lemma returned_step w w' : ml_step w w' -> pi_running w = false ->
  pi_running w' = false /\ adapter w' = adapter w /\ (user_state_posts w <= user_state_posts w')%nat.
Proof.
  intros Hs Hr. destruct Hs as [k e w|first now w|now w|w|w|w].
  - done.
  - unfold listen, mbind, st_bind. cbn [gets fst snd id].
    destruct (try_dequeue first _) as [[[k e] q]|]; [|done]. cbn [modify fst snd].
    set (w1 := set_queue q _ _ w). by destruct (listen_event_keeps now e w1) as (_&->&->&_&->&_).
  - unfold subscribe_hook. simpl. destruct (should_publish_user_state _ _) as [[] ?]; simpl; auto.
  - unfold run_user_state_post. simpl. by rewrite Hr.
  - unfold product_info_timer_fired, mbind, st_bind. cbn [gets fst snd id]. by rewrite Hr.
  - unfold product_info_run_returns, mbind, st_bind. cbn [gets fst snd id]. by rewrite Hr.
Qed.

(** C18: A new subscriber's account snapshot is fetched as long as the product-info refresh
    is on: in every state the process can reach, a posted call can be run, and puts the
    whole snapshot on the event queue. *)
Theorem snapshots_are_served (w0 w : MarketListener A) :
  0 < lc_product_info_refresh_sec (ml_config w0) ->
  rtc ml_step (start_product_info_refresh w0).2 w ->
  pi_running w = true /\
  forall n, user_state_posts w = S n -> exists w', ml_step w w' /\ user_state_posts w' = n /\
    event_queue w' = event_queue w ++ (pair ProductInfoThread <$> (publish_user_state (adapter w)).1.2).
Proof.
  intros Hc Hs. assert (refreshing (start_product_info_refresh w0).2) as H0.
  { destruct (refresh_arms w0 Hc) as (E&_&?).
    unfold start_product_info_refresh, mbind, st_bind. destruct (refresh_product_info w0) as [u w1].
    unfold refreshing. simpl in *. by rewrite E. }
  assert (refreshing w) as (_&Hr&_) by (induction Hs; eauto using refreshing_step).
  split; [done|]. intros n Hn. exists (run_user_state_post w).2. split; [apply ml_post|].
  unfold run_user_state_post. simpl. rewrite Hr, Hn.
  by destruct (publish_user_state _) as [[a es] t].
Qed.

(** With the refresh off ("startup-only") nothing keeps the thread: [run()] returns as soon
    as the first publication is done, and from then on the snapshot of no subscriber is
    ever fetched, however many are posted. *)
Theorem startup_only_starves_subscribers (w0 : MarketListener A) :
  lc_product_info_refresh_sec (ml_config w0) <= 0 -> user_state_posts w0 = 0%nat ->
  exists w, rtc ml_step (start_product_info_refresh w0).2 w /\
    forall w', rtc ml_step w w' ->
      pi_running w' = false /\ adapter w' = adapter w /\ (user_state_posts w <= user_state_posts w')%nat.
Proof.
  intros Hc Hp. set (w1 := (start_product_info_refresh w0).2).
  exists (product_info_run_returns w1).2. split; [apply rtc_once, ml_returns|].
  assert (pi_running (product_info_run_returns w1).2 = false) as Hr.
  { assert (pi_running w1 = true /\ user_state_posts w1 = 0%nat /\ refresh_timer w1 = None) as (E1&E2&E3).
    { unfold w1, start_product_info_refresh, mbind, st_bind, refresh_product_info. simpl.
      destruct (publish_product_info _) as [[a es] t]. simpl. unfold schedule_product_info_refresh.
      by destruct (Z.leb_spec (lc_product_info_refresh_sec (ml_config w0)) 0); [|lia]. }
    unfold product_info_run_returns, mbind, st_bind. cbn [gets fst snd id]. by rewrite E1, E2, E3. }
  revert Hr. generalize (product_info_run_returns w1).2. intros w Hr w' Hs. clear -Hs Hr ExchangeListener0.
  induction Hs as [|w w2 w3 Hs _ IH]; [done|]. destruct (returned_step w w2 Hs Hr) as (E1&E2&E3).
  destruct (IH E1) as (->&->&?). split_and!; [done|done|lia].
Qed.
End snapshots.

(** ** Coalescing the account snapshots *)

(** The decisions of the hook at the clock readings [ts], with the times it went ahead. *)
Fixpoint hook_publishes (ts : list Z) (last : Z) : list Z :=
  match ts with
  | [] => []
  | t :: ts =>
      let '(go, last) := should_publish_user_state t last in
      if go then t :: hook_publishes ts last else hook_publishes ts last
  end.

Definition spaced (l : list Z) : Prop := forall i a b, l !! i = Some a -> l !! S i = Some b ->
  MIN_USER_STATE_INTERVAL_MS <= b - a.

Lemma hook_publishes_lower ts last t :
  Sorted Z.le ts -> (forall x, x ∈ ts -> 0 < x) -> last <> 0 ->
  hook_publishes ts last !! 0%nat = Some t -> MIN_USER_STATE_INTERVAL_MS <= t - last.
Proof.
  intros Hs Hp Hl. induction ts as [|x ts IH]; simpl; [done|].
  unfold should_publish_user_state. destruct (negb _ && _) eqn:E; simpl.
  - apply IH; [by inversion Hs|set_solver].
  - intros [= <-]. apply andb_false_iff in E as [E|E]; zify_bools; lia.
Qed.

(** Snapshots are coalesced, and never withheld: of the moments at which clients
    subscribe, the account is fetched at moments at least half a second apart, and every
    subscription is at most half a second behind a fetch. *)
Theorem snapshots_coalesced ts :
  Sorted Z.le ts -> (forall t, t ∈ ts -> 0 < t) ->
  spaced (hook_publishes ts 0) /\
  forall t, t ∈ ts -> exists u, u ∈ hook_publishes ts 0 /\ u <= t < u + MIN_USER_STATE_INTERVAL_MS.
Proof.
  assert (forall last, Sorted Z.le ts -> (forall t, t ∈ ts -> 0 < t) -> 0 <= last ->
    (forall t, t ∈ ts -> last <= t) ->
    spaced (hook_publishes ts last) /\
    forall t, t ∈ ts -> exists u, (u = last /\ last <> 0 \/ u ∈ hook_publishes ts last) /\
      u <= t < u + MIN_USER_STATE_INTERVAL_MS) as H.
  { induction ts as [|x ts IH]; intros last Hs Hp H0 Hl; [by split; [|set_solver]|].
    assert (forall t, t ∈ ts -> x <= t) as Hx.
    { apply Sorted_StronglySorted in Hs; [|intros ???; lia]. inversion Hs as [|? ? ? Hf]; subst.
      by rewrite Forall_forall in Hf. }
    assert (0 < x /\ last <= x) as [Hx0 Hlx] by (split; [apply Hp|apply Hl]; set_solver).
    assert (Sorted Z.le ts) as Hs' by (by inversion Hs).
    simpl. destruct (should_publish_user_state x last) as [go last'] eqn:Eg.
    unfold should_publish_user_state in Eg. destruct (negb _ && _) eqn:E; injection Eg as <- <-.
    - destruct (IH last Hs') as [IH1 IH2]; [set_solver..|]. split; [done|].
      intros t [->|Ht]%elem_of_cons; [|by apply IH2]. zify_bools. exists last.
      unfold MIN_USER_STATE_INTERVAL_MS in *. split; [by left|lia].
    - destruct (IH x Hs') as [IH1 IH2]; [set_solver|lia|done|]. split.
      + intros [|i] a b; simpl; [|by apply IH1]. intros [= ->] Hb.
        by apply (hook_publishes_lower ts a b Hs'); [set_solver|lia|].
      + intros t [->|Ht]%elem_of_cons.
        * exists x. unfold MIN_USER_STATE_INTERVAL_MS. split; [right; set_solver|lia].
        * destruct (IH2 t Ht) as (u&Hu&Hut). exists u.
          split; [right|done]. destruct Hu as [[-> _]|Hu]; set_solver. }
  intros Hs Hp. destruct (H 0 Hs Hp ltac:(lia)) as [H1 H2]; [intros t Ht; specialize (Hp t Ht); lia|].
  split; [done|]. intros t Ht. destruct (H2 t Ht) as (u&[[_ ?]|Hu]&Hut); [done|]. by exists u.
Qed.

(** ** Concrete runs *)
Module SampleListener.
Definition write (e : ListenerEvent) : option string := event_product e.
Definition write_info (p : string) (_ : ProductInfoData) : option string := Some ("info " +:+ p)%string.
Definition srv : TcpServer :=
  (run_server write_info true [ADD_SESSION 1; SUBSCRIBE_PRODUCT 1 "BTC"] TcpServer_new).1.
Definition silent : ExchangeListener unit :=
  {| publish_product_info a := (a, [], false); publish_user_state a := (a, [], false) |}.
Definition ml : MarketListener unit := {|
  ml_config := {|
    lc_exchange := "binance"; lc_region := ""; lc_market_type := ""; lc_is_night := false;
    lc_product_specs := []; lc_orderbook_levels := 20; lc_product_info_refresh_sec := 0;
    lc_domain_type := "real"; lc_no_orderbook_log := false; lc_no_public_trade_log := true |};
  adapter := tt; event_queue := []; pushed := []; handled := []; server_tasks := []; last_user_state_publish_ms := 0;
  user_state_posts := 0; refresh_timer := None; pi_running := false; orderbook_rows := []; trade_rows := [] |}.
End SampleListener.

(** Two threads push, and the second one's events are taken first. *)
Definition fed_listener : MarketListener unit :=
  let listen k := fun w => (listen SampleListener.write k 0 w).2 in
  listen (Owner 0) (listen ProductInfoThread (listen ProductInfoThread
    (push_events (Owner 0) [TradeMsg "BTC" TradeData_default]
      (push_events ProductInfoThread [TradeMsg "ETH" TradeData_default]
        (push_events ProductInfoThread [ProductInfoMsg "BTC" ProductInfoData_default] SampleListener.ml))))).

Lemma feed_delivers_in_order_witness :
  exists new taken, handled fed_listener = taken /\
    from (Owner 0) new = from (Owner 0) taken /\
    from ProductInfoThread new = from ProductInfoThread taken /\
    sent_to 1 (run_server SampleListener.write_info true
      (taken.*2 ≫= tasks_of SampleListener.write) SampleListener.srv).2 = ["BTC"; "BTC"].
Proof.
  destruct (feed_delivers_in_order (ExchangeListener0 := SampleListener.silent) SampleListener.write
    SampleListener.write_info true SampleListener.ml fed_listener) as (new&taken&_&Hh&Hk&_&_&Hs).
  - unfold fed_listener. eapply rtc_r; [|apply (ml_listen _ (Owner 0) 0)].
    do 2 (eapply rtc_r; [|apply (ml_listen _ ProductInfoThread 0)]).
    eapply rtc_r; [|apply ml_push]. do 2 (eapply rtc_r; [|apply ml_push]). apply rtc_refl.
  - exists new, taken. assert (taken = handled fed_listener) as -> by (by rewrite Hh).
    pose proof (Hk (Owner 0)) as H0. pose proof (Hk ProductInfoThread) as H1. vm_compute in H0, H1.
    split_and!; [done|by vm_compute; vm_compute in H0|by vm_compute; vm_compute in H1|].
    rewrite Hs. by vm_compute.
Defined.

Lemma grid_missed_between_witness :
  exists t1 t2, tasks_of SampleListener.write (ProductInfoMsg "ETH" ProductInfoData_default) = [t1; t2] /\
    let '(srv', o) := run_server SampleListener.write_info true [t1; SUBSCRIBE_PRODUCT 1 "ETH"; t2]
                        SampleListener.srv in
    sent_to 1 o = [] /\ 1%nat ∈ members (product_to_sessions srv') "ETH" /\
    product_infos srv' !! "ETH" = Some ProductInfoData_default.
Proof.
  apply (grid_missed_between SampleListener.write SampleListener.write_info true 1 "ETH"
    ProductInfoData_default "ETH"); [done|done|].
  apply (bool_decide_unpack _). by vm_compute.
Defined.

Lemma snapshots_coalesced_witness :
  spaced (hook_publishes [1000; 1010; 1499; 1500; 2600] 0) /\
  hook_publishes [1000; 1010; 1499; 1500; 2600] 0 = [1000; 1500; 2600].
Proof.
  split; [|by vm_compute].
  apply (snapshots_coalesced [1000; 1010; 1499; 1500; 2600]).
  - repeat constructor; lia.
  - intros t Ht. repeat (apply elem_of_cons in Ht as [->|Ht]; [lia|]). by apply elem_of_nil in Ht.
Defined.

(** A listener that refreshes, one subscriber arriving: the call is posted and can be run. *)
Definition refreshing_listener : MarketListener unit := {|
  ml_config := {|
    lc_exchange := "binance"; lc_region := ""; lc_market_type := ""; lc_is_night := false;
    lc_product_specs := []; lc_orderbook_levels := 20; lc_product_info_refresh_sec := 300;
    lc_domain_type := "real"; lc_no_orderbook_log := false; lc_no_public_trade_log := true |};
  adapter := tt; event_queue := []; pushed := []; handled := []; server_tasks := []; last_user_state_publish_ms := 0;
  user_state_posts := 0; refresh_timer := None; pi_running := false;
  orderbook_rows := []; trade_rows := [] |}.
Definition subscribed_listener : MarketListener unit :=
  (subscribe_hook 1000 (start_product_info_refresh (ExchangeListener0 := SampleListener.silent)
    refreshing_listener).2).2.

Lemma snapshots_are_served_witness :
  user_state_posts subscribed_listener = 1%nat /\ pi_running subscribed_listener = true /\
  exists w', ml_step (ExchangeListener0 := SampleListener.silent) SampleListener.write subscribed_listener w' /\
    user_state_posts w' = 0%nat.
Proof.
  destruct (snapshots_are_served (ExchangeListener0 := SampleListener.silent) SampleListener.write
    refreshing_listener subscribed_listener) as [Hr Hp].
  - by vm_compute.
  - apply rtc_once, ml_hook.
  - split_and!; [by vm_compute|done|]. destruct (Hp 0%nat) as (w'&?&?&_); [by vm_compute|]. by exists w'.
Defined.

Lemma startup_only_starves_subscribers_witness :
  exists w, rtc (ml_step (ExchangeListener0 := SampleListener.silent) SampleListener.write)
      (start_product_info_refresh (ExchangeListener0 := SampleListener.silent) SampleListener.ml).2 w /\
    forall w', rtc (ml_step (ExchangeListener0 := SampleListener.silent) SampleListener.write) w w' ->
      pi_running w' = false /\ adapter w' = adapter w /\ (user_state_posts w <= user_state_posts w')%nat.
Proof. by apply startup_only_starves_subscribers; vm_compute. Defined.
