(* ===== verification/Mains.v ===== *)
(** * Mains: the pricer and the listener process from launch to exit

    The loops of [pricer_main.cpp] and [listener_main.cpp]: after the service is built, one
    turn per event while the session is open.  Unlike the trader's, these loops poll no
    flag and their turns wait for an event without a limit. *)
From S2P Require Import Prelude Double Messages ListenerEvents TcpServer Pricer MarketListener Signals.

#[local] Open Scope list_scope.
#[local] Open Scope Z_scope.

(** How a run of the loop stands: ended by the closed session; inside the wait for an event
    that does not come; or still going when the fuel ran out. *)
Inductive Ending (S : Type) := Ended (s : S) | Waiting (s : S) | StillOpen (s : S).
Arguments Ended {S}.
Arguments Waiting {S}.
Arguments StillOpen {S}.

Section loop.
Context {S T : Type} (turn : nat -> T -> S -> S) (open : nat -> bool) (rx : nat -> option T).

(** [while (open) { try { service->run(); } catch ... }] from poll [i] on; [rx i] is the
    event the [i]-th turn is given, [None] if none ever comes. *)
Fixpoint main_loop (fuel i : nat) (s : S) : Ending S :=
  match fuel with
  | O => StillOpen s
  | Datatypes.S fuel =>
      if open i then
        match rx i with
        | Some t => main_loop fuel (Datatypes.S i) (turn i t s)
        | None => Waiting s
        end
      else Ended s
  end.

(** The turns [i], [i + 1], ... on the events [ts]. *)
Fixpoint turns (i : nat) (ts : list T) (s : S) : S :=
  match ts with [] => s | t :: ts => turns (Datatypes.S i) ts (turn i t s) end.

Lemma main_loop_turns ts fuel i s :
  (forall k t, ts !! k = Some t -> open (i + k) = true /\ rx (i + k) = Some t) ->
  open (i + length ts) = false -> (length ts < fuel)%nat ->
  main_loop fuel i s = Ended (turns i ts s).
Proof.
  revert fuel i s. induction ts as [|t ts IH]; intros fuel i s Hts Hoff Hf;
    destruct fuel as [|fuel]; simpl in *; try lia.
  - rewrite Nat.add_0_r in Hoff. by rewrite Hoff.
  - destruct (Hts 0%nat t eq_refl) as [Ho Hr]. rewrite Nat.add_0_r in Ho, Hr. rewrite Ho, Hr.
    apply IH; [|by rewrite Nat.add_succ_comm in *|lia]. intros k u Hk.
    destruct (Hts (Datatypes.S k) u Hk). rewrite Nat.add_succ_comm in *. done.
Qed.
End loop.

(** ** The pricer *)
Section pricer_main.
Context {F : Type} `{!BaseFactor F}.
Context (write_json : string -> FairPriceData -> option string) (clock : nat -> Z).
Context (market_end timezone : Z) (wall : nat -> Z) (rx : nat -> option PricerTask).

(** [None]: the configuration was refused, status 1. *)
Definition pricer_process (c : PricerConfig) (make_factor : option F) (fuel : nat) : option (Ending Pricer) :=
  main_loop (fun _ t w => (pricer_run write_json clock c t w).2)
    (fun i => session_open market_end (wall i) timezone) rx fuel 0 <$> Pricer_new c make_factor.
End pricer_main.

(** ** The listener *)
Section listener_main.
Context {A : Type}.
Context (write_json : ListenerEvent -> option string) (clock : nat -> Z).
Context (market_end timezone : Z) (wall : nat -> Z) (rx : nat -> option ListenerEvent).

(** [None]: the constructor threw, which this [main] does not catch. *)
Definition listener_process (c : ListenerConfig) (a : A) (fuel : nat) : option (Ending (MarketListener A)) :=
  main_loop (fun i e w => (listen_event write_json (clock i) e w).2)
    (fun i => session_open market_end (wall i) timezone) rx fuel 0 <$> MarketListener_new c a.
End listener_main.

(** ** Properties *)
Lemma pricer_turns {F} `{!BaseFactor F} write_json clock c i ts (w : Pricer (F := F)) :
  turns (fun _ t w => (pricer_run write_json clock c t w).2) i ts w = pricer_feed write_json clock c ts w.
Proof. revert i w. induction ts as [|t ts IH]; intros i w; [done|]. simpl. apply IH. Qed.

Lemma listener_turns {A} write_json clock i es (w : MarketListener A) :
  turns (fun i e w => (listen_event write_json (clock i) e w).2) i es w =
  (listen_all write_json es (fun k => clock (i + k)%nat) w).2.
Proof.
  revert i w. induction es as [|e es IH]; intros i w; [done|]. simpl. unfold mbind, st_bind.
  rewrite Nat.add_0_r. destruct (listen_event write_json (clock i) e w) as [u w1]. simpl. rewrite IH.
  assert (forall f g : nat -> Z, (forall k, f k = g k) -> forall w0 : MarketListener A,
    listen_all write_json es f w0 = listen_all write_json es g w0) as Hext.
  { clear. induction es as [|e es IH]; intros f g Hfg w0; [done|]. simpl. unfold mbind, st_bind.
    rewrite (Hfg 0%nat). destruct (listen_event _ _ _ w0). apply IH. intros k. apply Hfg. }
  f_equal. apply Hext. intros k. f_equal. lia.
Qed.

(** C30: A session handles the events of its turns, all of them and in order.  If [ts] are
    what the polls before the first closed one are given, the pricer ends having run exactly
    these tasks, and the listener ends having handed its server exactly the tasks of these
    events; one fuel above the number of turns is enough. *)
Theorem sessions_handle_their_events {F} `{!BaseFactor F} {A}
    write_price write_json clock market_end timezone wall c (f : option F) (p : Pricer) ts prx
    lc (a : A) w es lrx fuel :
  Pricer_new c f = Some p -> MarketListener_new lc a = Some w ->
  length es = length ts -> (length ts < fuel)%nat ->
  (forall k, (k < length ts)%nat -> session_open market_end (wall k) timezone = true) ->
  session_open market_end (wall (length ts)) timezone = false ->
  (forall k t, ts !! k = Some t -> prx k = Some t) ->
  (forall k e, es !! k = Some e -> lrx k = Some e) ->
  pricer_process write_price clock market_end timezone wall prx c f fuel =
    Some (Ended (pricer_feed write_price clock c ts p)) /\
  exists w', listener_process write_json clock market_end timezone wall lrx lc a fuel = Some (Ended w') /\
    server_tasks w' = es ≫= tasks_of write_json.
Proof.
  intros Hp Hx Hlen Hf Hon Hoff Hprx Hlrx. split.
  - unfold pricer_process. rewrite Hp. simpl. f_equal. rewrite <- (pricer_turns _ _ _ 0).
    apply main_loop_turns; [|done|done]. intros k t Hk. split; [|by apply Hprx].
    apply Hon. by eapply lookup_lt_Some.
  - unfold listener_process. rewrite Hx. eexists. split.
    + simpl. f_equal. apply main_loop_turns; [|by rewrite Hlen|by rewrite Hlen].
      intros k ev Hk. split; [|by apply Hlrx]. apply Hon. rewrite <- Hlen. by eapply lookup_lt_Some.
    + rewrite listener_turns, listen_all_tasks. unfold MarketListener_new in Hx.
      destruct (create_exchange_listener lc); [|done]. by injection Hx as <-.
Qed.

(** A minute of the day [d] minutes later. *)
Lemma intraday_later now tz d :
  0 <= now -> 0 <= now ÷ 60 + tz -> 0 <= d -> intraday_minute now tz + d < 1440 ->
  intraday_minute (now + d * 60) tz = intraday_minute now tz + d.
Proof.
  unfold intraday_minute. intros Hn Ht Hd H.
  rewrite Z.quot_div_nonneg in * by lia. rewrite Z.quot_div_nonneg by lia.
  rewrite Z.div_add by lia. rewrite Z.rem_mod_nonneg in * by lia. rewrite Z.rem_mod_nonneg by lia.
  replace (now / 60 + d + tz) with ((now / 60 + tz) + d) by lia.
  pose proof (Z.mod_pos_bound (now / 60 + tz) 1440 ltac:(lia)).
  rewrite <- Z.add_mod_idemp_l by lia. by rewrite Z.mod_small by lia.
Qed.

(** The close can be missed.  Both loops look at the clock only between events.  If the
    event after the last one of a day comes only past midnight, then although the session
    was closed in between, every poll finds it open and the process goes on into the next
    day. *)
Theorem close_missed_when_quiet {A} write_json clock market_end timezone
    wall rx lc (a : A) w e0 e1 fuel :
  MarketListener_new lc a = Some w ->
  0 <= wall 0%nat -> 0 <= wall 0%nat ÷ 60 + timezone -> market_end < 1440 ->
  wall 1%nat = wall 0%nat + 86400 ->
  (forall i, (i <= 1)%nat -> intraday_minute (wall i) timezone < market_end) ->
  rx 0%nat = Some e0 -> rx 1%nat = Some e1 ->
  (exists t, wall 0%nat < t < wall 1%nat /\ session_open market_end t timezone = false) /\
  exists w', listener_process write_json clock market_end timezone wall rx lc a (S (S fuel)) =
    Some (main_loop (fun i e w => (listen_event write_json (clock i) e w).2)
            (fun i => session_open market_end (wall i) timezone) rx fuel 2 w').
Proof.
  intros Hx Hw0 Htz Hme Hday Hopen H0 H1. split.
  - set (m := intraday_minute (wall 0%nat) timezone).
    assert (0 <= m < market_end) as Hm.
    { split; [|by apply Hopen; lia]. unfold m, intraday_minute. by apply Z.rem_nonneg. }
    exists (wall 0%nat + (market_end - m) * 60). split; [lia|].
    unfold session_open. rewrite intraday_later; fold m; [|lia..].
    destruct (Z.ltb_spec market_end 0); [lia|]. by destruct (Z.ltb_spec (m + (market_end - m)) market_end); [lia|].
  - unfold listener_process. rewrite Hx. eexists. cbn [main_loop fmap option_fmap option_map].
    assert (forall i, (i <= 1)%nat -> session_open market_end (wall i) timezone = true) as Ho.
    { intros i Hi. unfold session_open. rewrite (proj2 (Z.ltb_lt _ _) (Hopen i Hi)). apply orb_true_r. }
    rewrite !Ho, H0, H1 by lia. done.
Qed.

(** ** Concrete runs: a pricer and a listener that close at minute 15 *)
Module SampleDay.
Definition wall (i : nat) : Z := 60 * (13 + Z.of_nat i).
Definition prx (i : nat) : option PricerTask := Some (PTFairPriceUpdate "BTC").
Definition lrx (i : nat) : option ListenerEvent := Some (TradeMsg "BTC" TradeData_default).
Definition pricer : Pricer (F := MicropriceFactor) := default SamplePricer.world (Pricer_new SamplePricer.conf None).
End SampleDay.

Lemma sessions_handle_their_events_witness :
  exists w', listener_process SampleListener.write
      (fun _ => 0) 15 0 SampleDay.wall SampleDay.lrx (ml_config SampleListener.ml) tt 3 = Some (Ended w') /\
    server_tasks w' = [BroadcastMessage "BTC" "BTC"; BroadcastMessage "BTC" "BTC"].
Proof.
  destruct (sessions_handle_their_events (F := MicropriceFactor)
    (BaseFactor0 := Microprice SamplePricer.pow1)
    SamplePricer.json SampleListener.write (fun _ => 0) 15 0 SampleDay.wall SamplePricer.conf None
    SampleDay.pricer [PTFairPriceUpdate "BTC"; PTFairPriceUpdate "BTC"] SampleDay.prx
    (ml_config SampleListener.ml) tt SampleListener.ml [TradeMsg "BTC" TradeData_default; TradeMsg "BTC" TradeData_default] SampleDay.lrx 3) as [_ (w'&H1&H2)].
  - reflexivity.
  - reflexivity.
  - reflexivity.
  - simpl. lia.
  - intros k Hk. simpl in Hk. destruct k as [|[|k]]; [reflexivity..|lia].
  - reflexivity.
  - intros [|[|k]] t; by intros [= <-].
  - intros [|[|k]] t; by intros [= <-].
  - exists w'. split; [exact H1|]. rewrite H2. reflexivity.
Defined.

Lemma close_missed_when_quiet_witness :
  exists w', listener_process SampleListener.write
      (fun _ => 0) 15 0 (fun i => 60 + 86400 * Z.of_nat i) SampleDay.lrx (ml_config SampleListener.ml) tt 2 =
    Some (StillOpen w').
Proof.
  destruct (close_missed_when_quiet SampleListener.write
    (fun _ => 0) 15 0 (fun i => 60 + 86400 * Z.of_nat i) SampleDay.lrx (ml_config SampleListener.ml) tt SampleListener.ml
    (TradeMsg "BTC" TradeData_default) (TradeMsg "BTC" TradeData_default) 0) as [_ (w'&H)].
  - reflexivity.
  - vm_compute. discriminate.
  - vm_compute. discriminate.
  - reflexivity.
  - reflexivity.
  - intros [|[|i]] Hi; [reflexivity..|lia].
  - reflexivity.
  - reflexivity.
  - exists w'. exact H.
Defined.
