(* ===== verification/FeedLink.v ===== *)
(** * FeedLink: from the listener's events to the consumer's task queue

    The whole of an internal link: a client asks ([send_subscribe_request]), the server's
    session reads, acknowledges and registers, the listener broadcasts and retains, and the
    client's hooks turn what arrives into tasks.  Composes [TcpNode], [TcpClient] and
    [MarketListener]; the consumer is the trader or the pricer.  glaze's writers and readers
    are parameters, with the laws that each reads what its counterpart writes. *)
From S2P Require Import Prelude MpQueue Double Text Messages ListenerEvents OrderState Pricer.
From S2P Require Import Framing TcpServer TcpNode TcpClient MarketListener.

#[local] Open Scope list_scope.

(** What the worker's queue carried, by origin: a session's command, or an event of the
    listener on its way out. *)
Inductive Happening :=
  | Commanded (t : ServerTask)
  | Published (e : ListenerEvent)
  | Retained (product : string) (d : ProductInfoData).

Section feed_link.
Context {T : Type} `{!MarketTask T}.
Context (write_event : ListenerEvent -> option string).
Context (write_request : SubscribeRequestMsg -> option string).
Context (read_request : string -> option SubscribeRequestMsg).
Context (write_response : SubscribeResponseMsg -> option string).
Context (read_response : string -> option SubscribeResponseMsg).
Context (classify : string -> option string).
Context (ro : string -> option (string * OrderbookData)) (rt : string -> option (string * TradeData)).
Context (re : string -> option (string * ExecutionData)).
Context (rp : string -> option (string * PositionData)).
Context (ri : string -> option (string * ProductInfoData)).
Context (has_hook : bool).

(** *** glaze *)
Definition feed_name (e : ListenerEvent) : string :=
  match e with
  | StatusEvent _ _ _ => ""
  | OrderbookMsg _ _ => "orderbook" | TradeMsg _ _ => "trade" | ExecutionMsg _ _ => "execution"
  | PositionMsg _ _ => "position" | ProductInfoMsg _ _ => "product_info"
  end.
Definition feed_data (e : ListenerEvent) : MarketFeed :=
  match e with
  | StatusEvent _ _ _ => Error
  | OrderbookMsg _ d => Orderbook d | TradeMsg _ d => Trade d | ExecutionMsg _ d => Execution d
  | PositionMsg _ d => Position d | ProductInfoMsg _ d => ProductInfo d
  end.
Definition reads_back (e : ListenerEvent) (json : string) : Prop :=
  match e with
  | StatusEvent _ _ _ => False
  | OrderbookMsg p d => ro json = Some (p, d) | TradeMsg p d => rt json = Some (p, d)
  | ExecutionMsg p d => re json = Some (p, d) | PositionMsg p d => rp json = Some (p, d)
  | ProductInfoMsg p d => ri json = Some (p, d)
  end.
(** One line per message, and every message read for what it was written as. *)
Record glaze_laws : Prop := {
  gl_event : forall e json, is_Some (event_product e) -> write_event e = Some json ->
    clean json /\ classify json = Some (feed_name e) /\ reads_back e json;
  gl_request : forall r json, write_request r = Some json -> clean json /\ read_request json = Some r;
  gl_response : forall r json, write_response r = Some json ->
    clean json /\ classify json = Some "subscribe"%string /\ read_response json = Some r }.

(** *** What is owed *)
Definition sendable (e : ListenerEvent) : Prop := is_Some (write_event e).
#[local] Instance sendable_dec e : Decision (sendable e).
Proof. unfold sendable. apply _. Defined.
Definition acknowledged (r : SubscribeRequestMsg) : Prop := is_Some (write_response (response r)).
#[local] Instance acknowledged_dec r : Decision (acknowledged r).
Proof. unfold acknowledged. apply _. Defined.

Definition happening_task (h : Happening) : option ServerTask :=
  match h with
  | Commanded t => Some t
  | Published e => p ← event_product e; json ← write_event e; Some (BroadcastMessage p json)
  | Retained p d => Some (ProductInfoUpdate p d)
  end.
(** An event of the listener, on its way out: broadcast, then retained. *)
Definition happenings_of (e : ListenerEvent) : list Happening :=
  Published e :: match e with ProductInfoMsg p d => [Retained p d] | _ => [] end.
Definition from_session (h : Happening) : Prop :=
  match h with Commanded (BroadcastMessage _ _) | Commanded (ProductInfoUpdate _ _) => False | _ => True end.

(** The events a session is owed: the retained grid on subscribing, and what is published of
    the products it is subscribed to at that moment. *)
Definition due_one (seen : list ServerTask) (s : SessionId) (h : Happening) : list ListenerEvent :=
  match h with
  | Commanded (SUBSCRIBE_PRODUCT s' p) =>
      if decide (s' = s) then filter sendable (option_list (ProductInfoMsg p <$> retained seen p)) else []
  | Published e =>
      match event_product e with
      | Some p => if subscribed seen s p then filter sendable [e] else []
      | None => []
      end
  | _ => []
  end.
Fixpoint due (seen : list ServerTask) (hs : list Happening) (s : SessionId) : list ListenerEvent :=
  match hs with
  | [] => []
  | h :: hs => due_one seen s h ++ due (seen ++ option_list (happening_task h)) hs s
  end.

(** The tasks the consumer gets of them. *)
Definition data_update (e : ListenerEvent) : T :=
  of_market_data {| md_product := default ""%string (event_product e); md_data := feed_data e |}.
Definition subscribe_update (r : SubscribeRequestMsg) : T :=
  of_listener_subscribe {| lsu_subscribe := sreq_subscribe r; lsu_success := true;
                           lsu_product := sreq_product r |}.
Abbreviation consumer_tasks hs :=
  (hs ≫= dispatch (T := T) (FeedClient0 := MarketFeedClient ro rt re rp ri)).
Abbreviation handle := (handle_line classify read_response).
Abbreviation write_info := (fun p d => write_event (ProductInfoMsg p d)).

(** *** Lemmas *)
Lemma listener_happenings {A} `{!ExchangeListener A} es now (w : MarketListener A) :
  server_tasks (listen_all write_event es now w).2 =
  server_tasks w ++ omap happening_task (es ≫= happenings_of).
Proof.
  rewrite listen_all_tasks. f_equal. induction es as [|e es IH]; [done|].
  cbn [mbind list_bind]. rewrite omap_app, <- IH. f_equal. unfold tasks_of, happenings_of. simpl.
  destruct e; simpl; try done; by destruct (write_event _).
Qed.

Lemma event_line (Hg : glaze_laws) e json :
  is_Some (event_product e) -> write_event e = Some json ->
  consumer_tasks (handle json) = [data_update e].
Proof.
  intros Hp Hj. destruct (gl_event Hg e json Hp Hj) as (_&Hc&Hr).
  unfold handle_line. rewrite Hc. destruct e as [?|p d|p d|p d|p d|p d]; [by destruct Hp|..];
    simpl in *; unfold market_on_data_line, emit_feed; simpl; by rewrite Hr.
Qed.
Lemma response_line (Hg : glaze_laws) r json :
  write_response (response r) = Some json -> consumer_tasks (handle json) = [subscribe_update r].
Proof.
  intros Hj. destruct (gl_response Hg _ json Hj) as (_&Hc&Hr).
  unfold handle_line. by rewrite Hc, decide_True, Hr by done.
Qed.

(** The messages of the history are the events owed, written. *)
Definition written (m : string) (e : ListenerEvent) : Prop :=
  is_Some (event_product e) /\ write_event e = Some m.
Lemma delivered_due seen hs s :
  Forall from_session hs ->
  Forall2 written (delivered write_info seen (omap happening_task hs) s) (due seen hs s).
Proof.
  intros Hhs. revert seen. induction Hhs as [|h hs Hh _ IH]; intros seen; [done|].
  assert (forall e, is_Some (event_product e) -> Forall2 written (option_list (write_event e)) (filter sendable [e])) as Hone.
  { intros e He. destruct (write_event e) as [json|] eqn:E.
    - rewrite filter_cons_True by (by eexists). rewrite filter_nil. by repeat constructor.
    - rewrite filter_cons_False by (unfold sendable; rewrite E; by intros []). done. }
  change (omap happening_task (h :: hs)) with
    (match happening_task h with Some t => t :: omap happening_task hs | None => omap happening_task hs end).
  cbn [due]. destruct h as [t|e|p d]; cbn [happening_task option_list].
  - cbn [delivered]. apply Forall2_app; [|apply IH].
    destruct t as [s'|s'|s' p|s' p|p j|p d]; try done. simpl. case_decide; [|done].
    destruct (retained seen p) as [d|]; [|done]. cbn [fmap option_fmap option_map mbind option_bind].
    by apply Hone; eexists.
  - cbn [due_one]. destruct (event_product e) as [p|] eqn:Ep; cbn [mbind option_bind];
      [|rewrite app_nil_r; apply IH].
    specialize (Hone e). rewrite Ep in Hone. specialize (Hone (mk_is_Some _ _ eq_refl)).
    destruct (write_event e) as [json|] eqn:Ej; cbn [mbind option_bind].
    + cbn [delivered]. apply Forall2_app; [|apply IH]. cbn [delivered_one].
      by destruct (subscribed seen s p).
    + apply Forall2_nil_inv_l in Hone. rewrite Hone, app_nil_r.
      destruct (subscribed seen s p); apply IH.
  - cbn [delivered delivered_one due_one app]. apply IH.
Qed.

Lemma acks_written reqs :
  Forall2 (fun m r => write_response (response r) = Some m) (acks write_response reqs)
    (filter acknowledged reqs).
Proof.
  induction reqs as [|r reqs IH]; [done|]. unfold acks. simpl.
  destruct (write_response (response r)) as [json|] eqn:E.
  - rewrite filter_cons_True by (by eexists). by constructor.
  - rewrite filter_cons_False by (unfold acknowledged; rewrite E; by intros []). done.
Qed.

(** Reading a shuffle of two kinds of lines, each worth one task. *)
Lemma merges_read {X Y} (P : string -> X -> Prop) (Q : string -> Y -> Prop) (g : X -> T) (h : Y -> T)
    (f : string -> list T) a b c xs ys :
  (forall m x, P m x -> f m = [g x]) -> (forall m y, Q m y -> f m = [h y]) ->
  merges a b c -> Forall2 P a xs -> Forall2 Q b ys -> merges (g <$> xs) (h <$> ys) (c ≫= f).
Proof.
  intros Hg Hh H. revert xs ys. induction H as [|m a b c _ IH|m a b c _ IH]; intros xs ys Hx Hy.
  - inversion Hx. inversion Hy. constructor.
  - apply Forall2_app_inv_l in Hx as (xs1&xs2&Hx1&Hx2&->).
    apply Forall2_cons_inv_l in Hx2 as (x&xs3&Hx2&Hx3&->). inversion Hx3; subst.
    rewrite fmap_app, bind_app. simpl. rewrite app_nil_r, (Hg m x) by done. constructor. by apply IH.
  - apply Forall2_app_inv_l in Hy as (ys1&ys2&Hy1&Hy2&->).
    apply Forall2_cons_inv_l in Hy2 as (y&ys3&Hy2&Hy3&->). inversion Hy3; subst.
    rewrite fmap_app, bind_app. simpl. rewrite app_nil_r, (Hh m y) by done. constructor. by apply IH.
Qed.
Lemma bind_bind {X Y Z} (l : list X) (f : X -> list Y) (g : Y -> list Z) :
  ((l ≫= f) ≫= g) = (l ≫= (fun x => f x ≫= g)).
Proof.
  induction l as [|x l IH]; [done|]. cbn [mbind list_bind] in IH |- *. rewrite <- IH. apply bind_app.
Qed.
Lemma merges_Forall {X} (P : X -> Prop) a b c : merges a b c -> Forall P a -> Forall P b -> Forall P c.
Proof.
  induction 1 as [|x a b c _ IH|x a b c _ IH]; [done|..]; rewrite !Forall_app; naive_solver.
Qed.

(** What was asked, and what arrived. *)
Lemma link_tasks nd s io c hs reqs jsons chunks :
  glaze_laws ->
  reached read_request write_response write_info has_hook nd -> nd_running nd = true ->
  nd_handling nd = None -> nd_sessions nd !! s = Some io -> quiet (sio io) ->
  nd_done nd = omap happening_task hs -> Forall from_session hs ->
  Forall2 (fun r json => write_request r = Some json) reqs jsons ->
  concat_chunks (sio_received io) = frames jsons ->
  cl_running c = true -> cl_text c = ""%string ->
  concat_chunks chunks = concat_chunks (ss_wire (sio io)) ->
  sio_requests io = reqs /\
  exists tasks,
    consumer_tasks (cl_calls (read_chunks classify read_response chunks c)) =
      consumer_tasks (cl_calls c) ++ tasks /\
    merges (subscribe_update <$> filter acknowledged reqs) (data_update <$> due [] hs s) tasks.
Proof.
  intros Hg Hreach Hr Hh Hs Hq Hd Hfrom Hjs Hrecv Hrun Htext Hch.
  pose proof (reached_inv _ _ _ _ nd Hreach) as Hi.
  destruct (ni_session _ _ _ _ Hi Hr s io Hs) as [_ Hk (ls&Hl&Hls)].
  destruct (Hk (proj1 Hq)) as (Ha&Hdl&Hth). unfold pending, unread in *.
  rewrite Hh, ?app_nil_r in *.
  (* the requests *)
  assert (Forall clean jsons /\ omap read_request jsons = reqs) as [Hcj Hreq].
  { clear -Hg Hjs. induction Hjs as [|r json reqs jsons Hj _ [IH1 IH2]]; [done|].
    destruct (gl_request Hg r json Hj) as [Hc Hrd]. split; [by constructor|].
    simpl. rewrite Hrd. by f_equal. }
  rewrite Hrecv, lines_frames in Hl by done. injection Hl as <- _. rewrite Hreq in Hls.
  rewrite <- Hls in *. split; [done|].
  (* the messages *)
  pose proof (delivered_due [] hs s Hfrom) as Hdue. rewrite <- Hd in Hdue.
  pose proof (from_merges IoThread Worker (ss_accepted (sio io)) ltac:(done) Hth) as Hm.
  rewrite <- Ha, Hdl in Hm.
  assert (Forall clean (ss_accepted (sio io)).*2) as Hc.
  { eapply merges_Forall; [exact Hm|..].
    - eapply Forall2_Forall_l; [apply acks_written|]. apply Forall_true. intros r m Hr'.
      by apply (gl_response Hg) in Hr' as [? _].
    - eapply Forall2_Forall_l; [exact Hdue|]. apply Forall_true. intros e m [Hp He].
      by apply (gl_event Hg) in He as [? _]. }
  destruct (session_read _ chunks (ni_writer _ _ _ _ Hi s io Hs) Hc Hch) as (sent&Hms&_&Hall).
  pose proof (same_streams_merges IoThread Worker sent _ ltac:(done) (Hall Hq) Hth) as Hm'.
  rewrite <- Ha, Hdl in Hm'. clear Hm. pose proof (read_chunks_spec classify read_response chunks c Hrun) as H.
  rewrite Htext, Hms in H. destruct H as (->&_&_).
  exists (sent.*2 ≫= (fun m => consumer_tasks (handle m))).
  split; [by rewrite bind_app, bind_bind|].
  eapply (merges_read (fun m r => write_response (response r) = Some m) written);
    [|by intros m e []; apply event_line|exact Hm'|apply acks_written|exact Hdue].
  intros m r. by apply response_line.
Qed.

(** C8: A link, end to end.  A consumer's requests, written on the wire, are the requests
    the server's session has read; once the worker has caught up it serves exactly the
    products whose last request subscribed them.  When the session has nothing left to
    send, the consumer's queue has got, after what was there before and with nothing else:
    an update for each acknowledged request, in order, shuffled with the events owed, in
    order -- the grid retained at each subscription and every event published while its
    product was subscribed -- with their data, whatever the threads did and however TCP
    sliced either stream. *)
Theorem feed_reaches_the_consumer nd s io c hs reqs jsons chunks :
  glaze_laws ->
  reached read_request write_response write_info has_hook nd -> nd_running nd = true ->
  nd_handling nd = None -> nd_sessions nd !! s = Some io -> quiet (sio io) ->
  nd_done nd = omap happening_task hs -> Forall from_session hs ->
  Forall2 (fun r json => write_request r = Some json) reqs jsons ->
  concat_chunks (sio_received io) = frames jsons ->
  cl_running c = true -> cl_text c = ""%string ->
  concat_chunks chunks = concat_chunks (ss_wire (sio io)) ->
  sio_requests io = reqs /\
  (nd_queue nd = [] -> forall p,
     s ∈ members (product_to_sessions (nd_server nd)) p <-> wants reqs p = true) /\
  exists tasks,
    consumer_tasks (cl_calls (read_chunks classify read_response chunks c)) =
      consumer_tasks (cl_calls c) ++ tasks /\
    merges (subscribe_update <$> filter acknowledged reqs) (data_update <$> due [] hs s) tasks.
Proof.
  intros Hg Hreach Hr Hh Hs Hq Hd Hfrom Hjs Hrecv Hrun Htext Hch.
  destruct (link_tasks nd s io c hs reqs jsons chunks) as [Hreq Htasks]; try done.
  split_and!; [done| |done]. intros He p. pose proof (reached_inv _ _ _ _ nd Hreach) as Hi.
  destruct (ni_session _ _ _ _ Hi Hr s io Hs) as [Hsub _ _].
  rewrite (ag_products _ _ (ni_server _ _ _ _ Hi Hr)). specialize (Hsub p). unfold pending, unread in Hsub.
  rewrite ?Hh, He, ?app_nil_r, (proj1 Hq) in Hsub. by rewrite Hsub, Hreq.
Qed.
End feed_link.

(** ** Witness: the run of [TcpNode], with a codec of one message of each kind *)
Module SampleLink.
#[local] Instance grid_eq_dec : EqDecision ProductInfoData.
Proof. solve_decision. Defined.
Definition write_event (e : ListenerEvent) : option string :=
  match e with
  | ProductInfoMsg p d => if decide (p = "P"%string /\ d = demo_grid) then Some "grid"%string else None
  | _ => None
  end.
Definition write_request (r : SubscribeRequestMsg) : option string :=
  match r with
  | {| sreq_subscribe := true; sreq_product := p; sreq_category := futures |} =>
      if decide (p = "P"%string) then Some "sub"%string else None
  | _ => None
  end.
Definition write_response (r : SubscribeResponseMsg) : option string :=
  match r with
  | {| sres_subscribe := true; sres_success := true; sres_product := p; sres_category := futures |} =>
      if decide (p = "P"%string) then Some "ok"%string else None
  | _ => None
  end.
Definition request : SubscribeRequestMsg :=
  {| sreq_subscribe := true; sreq_product := "P"; sreq_category := futures |}.
Definition read_response (line : string) : option SubscribeResponseMsg := Some (response request).
Definition classify (line : string) : option string :=
  Some (if decide (line = "ok"%string) then "subscribe"%string else "product_info"%string).
Definition none {A} (_ : string) : option (string * A) := None.
Definition read_info (_ : string) : option (string * ProductInfoData) := Some ("P"%string, demo_grid).
Definition info (p : string) (d : ProductInfoData) : option string := write_event (ProductInfoMsg p d).
Definition node : Node := demo_node demo_read write_response info.
Definition history : list Happening :=
  [Retained "P" demo_grid; Commanded (ADD_SESSION 0); Commanded (SUBSCRIBE_PRODUCT 0 "P")].

Lemma laws : glaze_laws write_event write_request demo_read write_response read_response classify
  none none none none read_info.
Proof.
  assert (forall m, m <> "" -> forallb (fun a => negb (Ascii.eqb a newline)) (String.list_ascii_of_string m) = true ->
    clean m)%string as Hc.
  { intros m Hne Hm. split; [done|]. intros a Ha ->. rewrite forallb_forall in Hm.
    by specialize (Hm _ Ha). }
  split.
  - intros [?|p d|p d|p d|p d|p d] json _; try done. unfold write_event.
    case_decide as E; [|done]. destruct E as [-> ->]. intros [= <-]. split_and!; [by apply Hc|done..].
  - intros [[] p []] json; try done. simpl. case_decide; [|done]. subst p. intros [= <-].
    split; [by apply Hc|done].
  - intros [[] [] p []] json; try done. simpl. case_decide; [|done]. subst p. intros [= <-].
    split_and!; [by apply Hc|done..].
Qed.
End SampleLink.

Lemma feed_reaches_the_consumer_witness :
  exists tasks,
    (cl_calls (read_chunks SampleLink.classify SampleLink.read_response
       ["o"; "k" +:+ String newline "gr"; "id" +:+ String newline ""]%string SampleClient.up) ≫=
     dispatch (T := Task) (FeedClient0 := MarketFeedClient SampleLink.none SampleLink.none
       SampleLink.none SampleLink.none SampleLink.read_info)) =
    [TListenerStatus {| ls_connecting := true; ls_connected := false |};
     TListenerStatus {| ls_connecting := false; ls_connected := true |}] ++ tasks /\
    merges [TListenerSubscribe {| lsu_subscribe := true; lsu_success := true; lsu_product := "P" |}]
      [TMarketData {| md_product := "P"; md_data := ProductInfo demo_grid |}] tasks.
Proof.
  assert (reached demo_read SampleLink.write_response SampleLink.info false SampleLink.node) as Hr
    by (unfold SampleLink.node; demo_reached).
  destruct (feed_reaches_the_consumer (T := Task) SampleLink.write_event SampleLink.write_request
    demo_read SampleLink.write_response SampleLink.read_response SampleLink.classify
    SampleLink.none SampleLink.none SampleLink.none SampleLink.none SampleLink.read_info false
    SampleLink.node 0 (default SessionIo_new (nd_sessions SampleLink.node !! 0%nat))
    SampleClient.up SampleLink.history [SampleLink.request] ["sub"%string]
    ["o"; "k" +:+ String newline "gr"; "id" +:+ String newline ""]%string
    SampleLink.laws Hr) as (_&_&tasks&H1&H2); try (vm_compute; reflexivity).
  - vm_compute. by split_and!.
  - by repeat constructor.
  - by repeat constructor.
  - exists tasks. split; [exact H1|]. exact H2.
Defined.
