(* ===== verification/TraderView.v ===== *)
(** * TraderView: what the trader knows of the market, against what was published

    The trader's picture of a product -- its grid, top of book, fair price and position --
    is spread over the handlers of [order_handler.cpp] that run between decisions, replies
    and timers.  Here it is one fold over the tasks that concern the product, whatever else
    the queue carries; composed with [FeedLink], it is a function of the events the
    listener's server owed the trader. *)
From S2P Require Import Prelude Double Messages ListenerEvents Strategy OrderState OrderHandler OrderFrame.
From S2P Require Import Framing TcpServer TcpNode TcpClient FeedLink.

#[local] Open Scope list_scope.
#[local] Open Scope Z_scope.

(** ** The picture *)
Record View := { v_grid : ProductInfoData; v_l1 : L1; v_fair : FairPriceState }.
Definition view (s : ProductState) : View :=
  {| v_grid := product_info s; v_l1 := l1 s; v_fair := fair_price_state s |}.

(** The last value [f] finds in [l], or [d]. *)
Definition latest {A B} (f : A -> option B) (d : B) (l : list A) : B := default d (last (omap f l)).

Lemma latest_nil {A B} (f : A -> option B) d : latest f d [] = d.
Proof. done. Qed.
Lemma latest_snoc {A B} (f : A -> option B) d l a :
  latest f d (l ++ [a]) = match f a with Some b => b | None => latest f d l end.
Proof. unfold latest. rewrite omap_app. simpl. destruct (f a); [by rewrite last_snoc|by rewrite app_nil_r]. Qed.

Section view.
Context (cfg : HandlerConfig) (p : string).

(** What a task says of [p]. *)
Definition top_of (d : OrderbookData) : L1 :=
  let '(bp, bq) := top_of_book cfg (bid_book d) in
  let '(ap, aq) := top_of_book cfg (ask_book d) in
  {| l1_bbid_price := bp; l1_bask_price := ap; l1_bbid_qty := bq; l1_bask_qty := aq |}.
Definition usable_grid (d : ProductInfoData) : option ProductInfoData :=
  match tick_size d, lot_size d with
  | Some tick, Some lot =>
      if fle tick fzero || fle lot fzero then None else Some {| tick_size := Some tick; lot_size := Some lot |}
  | _, _ => None
  end.
Definition fair_of (d : FairPriceData) : FairPriceState := {|
  fps_ts := fpd_ts d; fps_fair_price := value_or fnan (fpd_fair_price d);
  fps_factor := value_or fnan (fpd_factor d);
  fps_forward_vol_bp := if is_finite (fpd_forward_vol_bp d) && fpos (fpd_forward_vol_bp d)
                        then fpd_forward_vol_bp d else fone |}.

Definition book_in (t : Task) : option L1 :=
  match t with
  | TMarketData {| md_product := q; md_data := Orderbook d |} => if decide (q = p) then Some (top_of d) else None
  | _ => None
  end.
Definition grid_in (t : Task) : option ProductInfoData :=
  match t with
  | TMarketData {| md_product := q; md_data := ProductInfo d |} => if decide (q = p) then usable_grid d else None
  | _ => None
  end.
Definition fair_in (t : Task) : option FairPriceState :=
  match t with
  | TFairPrice r => if decide (fpr_product r = p) then Some (fair_of (fpr_data r)) else None
  | _ => None
  end.
Definition balance_in (t : Task) : option Z :=
  match t with
  | TMarketData {| md_product := q; md_data := Position d |} =>
      if decide (q = p) then to_qty_in_lots cfg <$> balance d else None
  | _ => None
  end.
(** Whether a task moves a position by itself: a fill of a venue that pushes no positions. *)
Definition fill_moves (t : Task) : bool :=
  match t with
  | TMarketData {| md_data := Execution d |} =>
      negb (is_accept_data d) && (is_executed d && fpos (value_or fzero (execute_qty d))) &&
      update_position_on_fill d
  | _ => false
  end.

(** ** What leaves a part of the picture alone *)
Section passive.
Context {V : Type} (f : ProductState -> V).

(** [f] does not look at the orders. *)
Record passive : Prop := {
  pv_outstanding v s : f (set_outstanding v s) = f s;
  pv_order_nos v v' s : f (set_order_nos v v' s) = f s;
  pv_waiting a b t s : f (set_waiting a b t s) = f s }.

Definition seen (h : Handler) : option V := f <$> product_states h !! p.
(** Whatever is known of [p] stays as it is. *)
Definition keeps (w w' : World) : Prop :=
  forall v, seen (hs w) = Some v -> seen (hs w') = Some v.
#[export] Instance keeps_preorder : PreOrder keeps.
Proof. split; [by intros w v|by intros w1 w2 w3 H1 H2 v H; apply H2, H1]. Qed.

Lemma keeps_upd g :
  (forall h, is_Some (product_states h !! p) -> seen (g h) = seen h) -> follows keeps (upd g).
Proof.
  intros Hg w v Hv. simpl. rewrite Hg; [done|].
  unfold seen in Hv. by destruct (product_states (hs w) !! p).
Qed.
Lemma keeps_get : follows keeps get.
Proof. by intros w v. Qed.
Lemma keeps_now env : follows keeps (now env).
Proof. by intros w v. Qed.
Lemma keeps_emit o : follows keeps (emit o).
Proof. by intros w v. Qed.

Lemma seen_upd_product q g h : (forall s, f (g s) = f s) -> seen (upd_product q g h) = seen h.
Proof.
  intros Hg. unfold seen, upd_product. simpl. destruct (decide (q = p)) as [->|Hne].
  - rewrite lookup_alter_eq. destruct (product_states h !! p); [|done]. simpl. by rewrite Hg.
  - by rewrite lookup_alter_ne.
Qed.
Lemma seen_touch q h : is_Some (product_states h !! p) -> seen (touch_product q h) = seen h.
Proof.
  intros [s Hs]. unfold seen, touch_product. destruct (product_states h !! q) eqn:E; [done|]. simpl.
  rewrite lookup_insert_ne; [done|]. intros ->. by rewrite Hs in E.
Qed.

Context (Hf : passive).
Lemma seen_routing a b h : seen (set_routing a b h) = seen h.
Proof. done. Qed.
Lemma seen_forget q c h : seen (forget_order q c h) = seen h.
Proof.
  unfold forget_order. rewrite seen_routing, seen_upd_product by (intros; apply (pv_outstanding Hf)).
  destruct (cid_to_order_no _ !! c); [|done].
  by rewrite seen_upd_product by (intros; apply (pv_order_nos Hf)).
Qed.
Lemma seen_bind q c o h : seen (bind_order_no q c o h) = seen h.
Proof.
  unfold bind_order_no. case_decide; [done|].
  by rewrite seen_routing, seen_upd_product by (intros; apply (pv_order_nos Hf)).
Qed.
Lemma f_erase a b c s : f (erase_waiting a b c s) = f s.
Proof. apply (pv_waiting Hf). Qed.
Lemma f_clear s : f (clear_waiting_if_idle s) = f s.
Proof. unfold clear_waiting_if_idle. destruct (no_waiting_orders s); [apply (pv_waiting Hf)|done]. Qed.

(** The structural walk of [OrderFrame], for [keeps]. *)
Lemma keeps_upd_product q g : (forall s, f (g s) = f s) -> follows keeps (upd (upd_product q g)).
Proof. intros Hg. apply keeps_upd. intros h _. by apply seen_upd_product. Qed.
Lemma keeps_same g : (forall h, product_states (g h) = product_states h) -> follows keeps (upd g).
Proof. intros Hg. apply keeps_upd. intros h _. unfold seen. by rewrite Hg. Qed.
Lemma keeps_handler g : (forall h, seen (g h) = seen h) -> follows keeps (upd g).
Proof. intros Hg. apply keeps_upd. auto. Qed.
End passive.

Ltac keep_step :=
  first
  [ assumption | apply keeps_get | apply keeps_now | apply keeps_emit
  | apply follows_ret; apply _ | solve [auto with keep]
  | apply keeps_upd_product; intros ?; solve [auto with keep]
  | apply keeps_handler; intros ?; solve [auto with keep]
  | apply keeps_same; intros ?; reflexivity
  | apply keeps_upd; intros ? ?; solve [auto with keep]
  | apply follows_bind; [apply _| |intros ?]
  | apply follows_when; [apply _|] | apply follows_for_each; [apply _|intros ? ?]
  | match goal with |- follows _ (match ?x with _ => _ end) => destruct x eqn:? end ].
Ltac keep := cbv zeta; repeat keep_step.

Create HintDb keep.
#[local] Hint Resolve seen_forget seen_bind seen_touch f_erase f_clear : keep.
#[local] Hint Extern 1 (?f (set_outstanding _ _) = ?f _) => solve [apply pv_outstanding; assumption] : keep.
#[local] Hint Extern 1 (?f (set_waiting _ _ _ _) = ?f _) => solve [apply pv_waiting; assumption] : keep.

Section keepers.
Context (env : Env) {V : Type} (f : ProductState -> V) (Hf : passive f).

Lemma keeps_reserve_cid q : follows (keeps f) (reserve_cid env q).
Proof. unfold reserve_cid. keep. Qed.
Hint Resolve keeps_reserve_cid : keep.
Lemma keeps_log q c o t b ts m : follows (keeps f) (log_order_record env cfg q c o t b ts m).
Proof. unfold log_order_record. keep. Qed.
Hint Resolve keeps_log : keep.
Lemma keeps_mark q b c : follows (keeps f) (mark_waiting env q b c).
Proof. unfold mark_waiting. keep. Qed.
Hint Resolve keeps_mark : keep.
Lemma keeps_update_orders q b : follows (keeps f) (update_orders env cfg q b).
Proof.
  unfold update_orders, waiting_gate, record_timed_out, decide_and_send, build_price_info,
    log_order_decision, send_decision, submit_cancel, submit_place. keep.
Qed.
Lemma keeps_order_response r : follows (keeps f) (on_order_response env cfg r).
Proof. unfold on_order_response. keep. Qed.
Lemma keeps_execution q d :
  (forall v s, f (set_position v s) = f s) \/
  fill_moves (TMarketData {| md_product := q; md_data := Execution d |}) = false ->
  follows (keeps f) (on_execution env cfg q d).
Proof.
  intros Hpos. unfold on_execution. keep_step; [apply keeps_get|]. destruct (route_execution _ _ _) as [t c].
  case_decide; [keep|]. destruct (product_states _ !! t); [|keep].
  destruct (is_accept_data d) eqn:Ea; [unfold on_accept, adopt_order; keep|].
  destruct (is_executed d && _) eqn:Ee; [|keep]. simpl. unfold on_fill.
  apply follows_bind; [apply _|keep|intros _].
  destruct Hpos as [Hp|Hm]; [apply follows_when; [apply _|]; apply keeps_upd_product; auto|].
  simpl in Hm. rewrite Ea, Ee in Hm. simpl in Hm. rewrite Hm. simpl. keep.
Qed.
Lemma keeps_status u : follows (keeps f) (on_listener_status cfg u).
Proof. unfold on_listener_status. keep. Qed.
Lemma keeps_pricer_status u : follows (keeps f) (on_pricer_status cfg u).
Proof. unfold on_pricer_status. keep. Qed.
End keepers.

(** ** One task, and many *)
Definition market_view (h : Handler) : option View := seen view h.
Definition held (h : Handler) : option Z := seen position_in_lots h.

Lemma view_passive : passive view.
Proof. done. Qed.
Lemma position_passive : passive position_in_lots.
Proof. done. Qed.

Definition look (t : Task) (v : View) : View := {|
  v_grid := default (v_grid v) (grid_in t); v_l1 := default (v_l1 v) (book_in t);
  v_fair := default (v_fair v) (fair_in t) |}.

Definition look_balance (t : Task) (z : Z) : Z := default z (balance_in t).

(** The market data handlers change exactly the part they are for. *)
Lemma at_updated q g h s :
  product_states h !! p = Some s ->
  product_states (upd_product q g h) !! p = Some (if decide (q = p) then g s else s).
Proof.
  intros Hs. simpl. case_decide as E.
  - subst q. by rewrite lookup_alter_eq, Hs.
  - by rewrite lookup_alter_ne.
Qed.
Ltac at_product q Hs :=
  run_w; destruct (product_states _ !! q) eqn:?; cbn [fst snd hs set_hs set_positions product_states];
  [try by apply at_updated|case_decide; [congruence|done]].

Lemma orderbook_at q d w s :
  product_states (hs w) !! p = Some s ->
  product_states (hs (on_orderbook cfg q d w).2) !! p =
    Some (if decide (q = p) then set_l1 (top_of d) s else s).
Proof.
  intros Hs. unfold on_orderbook, top_of.
  destruct (top_of_book _ (bid_book d)) as [? ?], (top_of_book _ (ask_book d)) as [? ?]. at_product q Hs.
Qed.
Lemma product_info_at q d w s :
  product_states (hs w) !! p = Some s ->
  product_states (hs (on_product_info q d w).2) !! p =
    Some (if decide (q = p) then match usable_grid d with Some g => OrderState.set_product_info g s | None => s end else s).
Proof.
  intros Hs. unfold on_product_info, usable_grid.
  destruct (tick_size d) as [tick|]; [|by case_decide]. destruct (lot_size d) as [lot|]; [|by case_decide].
  destruct (_ || _); [by case_decide|]. at_product q Hs.
Qed.
Lemma fair_price_at q d w s :
  product_states (hs w) !! p = Some s ->
  product_states (hs (on_fair_price q d w).2) !! p =
    Some (if decide (q = p) then set_fair_price_state (fair_of d) s else s).
Proof. intros Hs. unfold on_fair_price, fair_of. at_product q Hs. Qed.
Lemma position_at q d w s :
  product_states (hs w) !! p = Some s ->
  product_states (hs (on_position cfg q d w).2) !! p =
    Some (if decide (q = p) then match balance d with Some b => set_position (to_qty_in_lots cfg b) s | None => s end
          else s).
Proof.
  intros Hs. unfold on_position. destruct (balance d); [|by case_decide]. run_w. simpl. at_product q Hs.
Qed.

(** A handler that keeps a part, on a product the trader has. *)
Lemma kept {V} (f : ProductState -> V) {A} (m : M A) w v :
  follows (keeps f) m -> seen f (hs w) = Some v -> seen f (hs (m w).2) = Some v.
Proof. intros Hm Hv. by apply Hm. Qed.
Lemma seen_inv {V} (f : ProductState -> V) h v :
  seen f h = Some v -> exists s, product_states h !! p = Some s /\ v = f s.
Proof. unfold seen. destruct (product_states h !! p) as [s|]; [|done]. intros [= <-]. eauto. Qed.

(** What a task does to the state of [p], but for the orders. *)
Definition after (t : Task) (s : ProductState) : ProductState :=
  match t with
  | TMarketData {| md_product := q; md_data := d |} =>
      if decide (q = p) then
        match d with
        | Orderbook d => set_l1 (top_of d) s
        | Position d => match balance d with Some b => set_position (to_qty_in_lots cfg b) s | None => s end
        | ProductInfo d => match usable_grid d with Some g => OrderState.set_product_info g s | None => s end
        | Trade _ | Execution _ | Error => s
        end
      else s
  | TFairPrice r => if decide (fpr_product r = p) then set_fair_price_state (fair_of (fpr_data r)) s else s
  | _ => s
  end.

Lemma handle_task_seen {V} (f : ProductState -> V) env t w s :
  passive f -> (forall v s, f (set_position v s) = f s) \/ fill_moves t = false ->
  product_states (hs w) !! p = Some s -> seen f (hs (handle_task env cfg t w).2) = Some (f (after t s)).
Proof.
  intros Hf Hpos Hs. assert (seen f (hs w) = Some (f s)) as Hv by (unfold seen; by rewrite Hs).
  assert (forall A (m : M A), follows (keeps f) m -> seen f (hs (m w).2) = Some (f s)) as Hk
    by (intros A m Hm; by apply kept).
  destruct t as [u|u|[q d]|u|u|[q d]|q|r]; cbn [handle_task after fpr_product fpr_data];
    eauto using keeps_status, keeps_pricer_status, keeps_update_orders, keeps_order_response.
  - destruct d as [d|d|d|d|d|]; cbn [process_market_data md_data md_product]; unfold seen.
    + by rewrite (orderbook_at q d w s Hs).
    + case_decide; exact Hv.
    + case_decide; apply (Hk unit (on_execution env cfg q d)); apply keeps_execution; auto.
    + by rewrite (position_at q d w s Hs).
    + by rewrite (product_info_at q d w s Hs).
    + case_decide; exact Hv.
  - unfold seen. by rewrite (fair_price_at q d w s Hs).
Qed.

Lemma after_view t s : view (after t s) = look t (view s).
Proof.
  destruct t as [u|u|[q d]|u|u|[q d]|q|r]; try done; unfold look; simpl; [|by case_decide].
  case_decide; [|by destruct d]. destruct d as [d|d|d|d|d|]; try done; simpl.
  - by destruct (balance d).
  - by destruct (usable_grid d).
Qed.
Lemma after_position t s : position_in_lots (after t s) = look_balance t (position_in_lots s).
Proof.
  destruct t as [u|u|[q d]|u|u|[q d]|q|r]; try done; unfold look_balance; simpl; [|by case_decide].
  case_decide; [|by destruct d]. destruct d as [d|d|d|d|d|]; try done; simpl.
  - by destruct (balance d).
  - by destruct (usable_grid d).
Qed.

Lemma handle_task_view env t w v :
  market_view (hs w) = Some v -> market_view (hs (handle_task env cfg t w).2) = Some (look t v).
Proof.
  intros (s&Hs&->)%seen_inv. unfold market_view.
  rewrite (handle_task_seen view env t w s) by (done || by left). by rewrite after_view.
Qed.
Lemma handle_task_held env t w z :
  fill_moves t = false ->
  held (hs w) = Some z -> held (hs (handle_task env cfg t w).2) = Some (look_balance t z).
Proof.
  intros Hm (s&Hs&->)%seen_inv. unfold held.
  rewrite (handle_task_seen position_in_lots env t w s) by (done || by right). by rewrite after_position.
Qed.

(** The turns on the tasks [ts], one after the other. *)
Definition handle_tasks (env : Env) (ts : list Task) : M unit := for_each ts (handle_task env cfg).

Lemma handle_tasks_snoc env ts t w :
  (handle_tasks env (ts ++ [t]) w).2 = (handle_task env cfg t (handle_tasks env ts w).2).2.
Proof.
  unfold handle_tasks. revert w. induction ts as [|t' ts IH]; intros w; [done|].
  simpl. unfold mbind, st_bind. by rewrite IH.
Qed.

Lemma handle_tasks_view env ts w g :
  market_view (hs w) = Some g ->
  market_view (hs (handle_tasks env ts w).2) = Some {|
    v_grid := latest grid_in (v_grid g) ts; v_l1 := latest book_in (v_l1 g) ts;
    v_fair := latest fair_in (v_fair g) ts |}.
Proof.
  intros Hg. induction ts as [|t ts IH] using rev_ind; [by destruct g|].
  rewrite handle_tasks_snoc, (handle_task_view _ _ _ _ IH), !latest_snoc. unfold look. simpl.
  by destruct (grid_in t), (book_in t), (fair_in t).
Qed.
Lemma handle_tasks_held env ts w z :
  Forall (fun t => fill_moves t = false) ts -> held (hs w) = Some z ->
  held (hs (handle_tasks env ts w).2) = Some (latest balance_in z ts).
Proof.
  intros Hts Hz. induction ts as [|t ts IH] using rev_ind; [done|].
  apply Forall_app in Hts as [Hts [Ht _]%Forall_cons].
  rewrite handle_tasks_snoc, (handle_task_held _ _ _ _ Ht (IH Hts)), latest_snoc. unfold look_balance.
  by destruct (balance_in t).
Qed.
End view.

(** ** Shuffles *)
Lemma merges_latest_r {A B} (f : A -> option B) d (a b c : list A) :
  merges a b c -> Forall (fun x => f x = None) a -> latest f d c = latest f d b.
Proof.
  induction 1 as [|x a b c _ IH|x a b c _ IH]; [done|..]; rewrite ?Forall_app, ?Forall_singleton.
  - intros [Ha Hx]. by rewrite latest_snoc, Hx, IH.
  - intros Ha. by rewrite !latest_snoc, IH.
Qed.
Lemma merges_latest_l {A B} (f : A -> option B) d (a b c : list A) :
  merges a b c -> Forall (fun x => f x = None) b -> latest f d c = latest f d a.
Proof.
  induction 1 as [|x a b c _ IH|x a b c _ IH]; [done|..]; rewrite ?Forall_app, ?Forall_singleton.
  - intros Hb. by rewrite !latest_snoc, IH.
  - intros [Hb Hx]. by rewrite latest_snoc, Hx, IH.
Qed.
Lemma latest_fmap {A B C} (f : B -> option C) (g : A -> B) d l :
  latest f d (g <$> l) = latest (fun x => f (g x)) d l.
Proof.
  induction l as [|x l IH] using rev_ind; [done|]. rewrite fmap_app. simpl. by rewrite !latest_snoc, IH.
Qed.

(** ** The trader at the end of its link *)
Section end_to_end.
Context (write_event : ListenerEvent -> option string).
Context (write_request : SubscribeRequestMsg -> option string).
Context (read_request : string -> option SubscribeRequestMsg).
Context (write_response : SubscribeResponseMsg -> option string).
Context (read_response : string -> option SubscribeResponseMsg).
Context (classify : string -> option string).
Context (ro : string -> option (string * OrderbookData)) (rt : string -> option (string * TradeData)).
Context (re : string -> option (string * ExecutionData)).
Context (rp : string -> option (string * PositionData)).
Context (ri : string -> option (string * ProductInfoData)).
Context (has_hook : bool) (env : Env) (cfg : HandlerConfig).

Abbreviation trader_tasks hs :=
  (hs ≫= dispatch (T := Task) (FeedClient0 := MarketFeedClient ro rt re rp ri)).
Abbreviation write_info := (fun p d => write_event (ProductInfoMsg p d)).
(** The event as the trader is told of it. *)
Abbreviation told := (data_update (T := Task)).

Definition from_the_feed (t : Task) : bool := match t with TMarketData _ => true | _ => false end.

Lemma other_tasks (others : list Task) p :
  Forall (fun t => from_the_feed t = false) others ->
  Forall (fun t => grid_in p t = None) others /\ Forall (fun t => book_in cfg p t = None) others /\
  Forall (fun t => balance_in cfg p t = None) others /\ Forall (fun t => fill_moves t = false) others.
Proof. intros H. split_and!; (eapply Forall_impl; [exact H|]); by intros []. Qed.
Lemma ack_tasks (reqs : list SubscribeRequestMsg) p :
  Forall (fun t => grid_in p t = None) (subscribe_update (T := Task) <$> reqs) /\
  Forall (fun t => book_in cfg p t = None) (subscribe_update (T := Task) <$> reqs) /\
  Forall (fun t => balance_in cfg p t = None) (subscribe_update (T := Task) <$> reqs) /\
  Forall (fun t => fair_in p t = None) (subscribe_update (T := Task) <$> reqs) /\
  Forall (fun t => fill_moves t = false) (subscribe_update (T := Task) <$> reqs).
Proof. split_and!; by apply Forall_fmap, Forall_true. Qed.
Lemma told_tasks es p : Forall (fun t => fair_in p t = None) (told <$> es).
Proof. by apply Forall_fmap, Forall_true. Qed.

(** C4: The trader knows the market as it was published.  Take a trader whose link to the
    listener has delivered all that its session was sent, and whose queue shuffles that
    with anything else -- statuses, fair prices, replies, decision ticks -- in any order.
    Once it has handled its queue, for each product it trades: its grid, its top of book
    and (where fills do not move positions on their own) its position are those of the
    last such event the listener owed the session, in the units of its configuration, and
    its fair price is the last the pricer sent; what was owed none of is as it was.
    Nothing the trader decided, sent or was replied in between plays a part. *)
Theorem trader_knows_the_market nd s io c hist reqs jsons chunks tasks others ts p w v z :
  glaze_laws write_event write_request read_request write_response read_response classify ro rt re rp ri ->
  reached read_request write_response write_info has_hook nd -> nd_running nd = true ->
  nd_handling nd = None -> nd_sessions nd !! s = Some io -> quiet (sio io) ->
  nd_done nd = omap (happening_task write_event) hist -> Forall from_session hist ->
  Forall2 (fun r json => write_request r = Some json) reqs jsons ->
  concat_chunks (sio_received io) = frames jsons ->
  cl_running c = true -> cl_text c = ""%string ->
  concat_chunks chunks = concat_chunks (ss_wire (sio io)) ->
  trader_tasks (cl_calls (read_chunks classify read_response chunks c)) =
    trader_tasks (cl_calls c) ++ tasks ->
  Forall (fun t => from_the_feed t = false) others -> merges tasks others ts ->
  market_view p (hs w) = Some v -> held p (hs w) = Some z ->
  let w' := (handle_tasks cfg env ts w).2 in
  let owed := told <$> due write_event [] hist s in
  market_view p (hs w') = Some {| v_grid := latest (grid_in p) (v_grid v) owed;
    v_l1 := latest (book_in cfg p) (v_l1 v) owed; v_fair := latest (fair_in p) (v_fair v) others |} /\
  (Forall (fun t => fill_moves t = false) owed ->
   held p (hs w') = Some (latest (balance_in cfg p) z owed)).
Proof.
  intros Hg Hreach Hr Hh Hs Hq Hd Hfrom Hjs Hrecv Hrun Htext Hch Ht Hoth Hm Hv Hz w' owed.
  destruct (link_tasks (T := Task) _ _ _ _ _ _ _ _ _ _ _ _ nd s io c hist reqs jsons chunks Hg Hreach Hr
    Hh Hs Hq Hd Hfrom Hjs Hrecv Hrun Htext Hch) as (_&tasks'&E&Hsh).
  rewrite Ht in E. apply app_inv_head in E. subst tasks'.
  destruct (other_tasks others p Hoth) as (O1&O2&O3&O4).
  destruct (ack_tasks (filter (acknowledged write_response) reqs) p) as (A1&A2&A3&A4&A5).
  pose proof (told_tasks (due write_event [] hist s) p) as F. fold owed in Hsh, F.
  split.
  - unfold w'. rewrite (handle_tasks_view cfg p env ts w v Hv). do 2 f_equal.
    + by rewrite (merges_latest_l _ _ _ _ _ Hm O1), (merges_latest_r _ _ _ _ _ Hsh A1).
    + by rewrite (merges_latest_l _ _ _ _ _ Hm O2), (merges_latest_r _ _ _ _ _ Hsh A2).
    + apply (merges_latest_r _ _ _ _ _ Hm). by apply (merges_Forall _ _ _ _ Hsh).
  - intros Hfm. unfold w'. rewrite (handle_tasks_held cfg p env ts w z); [|
      by apply (merges_Forall _ _ _ _ Hm); [apply (merges_Forall _ _ _ _ Hsh)|]|done].
    by rewrite (merges_latest_l _ _ _ _ _ Hm O3), (merges_latest_r _ _ _ _ _ Hsh A3).
Qed.
End end_to_end.

(** ** Witness: the link of [FeedLink], into a trader of its product *)
Module SampleView.
Definition cfg : HandlerConfig := {|
  exchange := "binance"; market_config := Sample.mc;
  strategy := GeuantStrategy Sample.mc Sample.params;
  trade_products := ["P"]; subscribe_products := [{| spec_product := "P"; spec_category := futures |}];
  fair_price_max_age_ns := 1000000000; order_update_interval_ns := 1000000000;
  flatten_on_shutdown := true; shutdown_cancel_timeout_ns := 20; shutdown_flatten_timeout_ns := 20;
  shutdown_market_flatten := true; shutdown_reduce_only := true;
  order_record_save_path := "logs"; order_decision_save_path := "logs" |}.
Definition w0 : World := {| hs := Handler_init cfg; clk_i := 0; rx_i := 0; out := [] |}.
Definition fair : FairPriceData :=
  {| fpd_ts := 5; fpd_fair_price := Some (of_Z 7); fpd_factor := Some fone; fpd_forward_vol_bp := fone |}.
Definition grid_task : Task := TMarketData {| md_product := "P"; md_data := ProductInfo demo_grid |}.
Definition ack_task : Task :=
  TListenerSubscribe {| lsu_subscribe := true; lsu_success := true; lsu_product := "P" |}.
Definition others : list Task :=
  [SampleTrader.up; TFairPrice {| fpr_product := "P"; fpr_data := fair |}; TOrderUpdate "P"].
End SampleView.

Lemma trader_knows_the_market_witness :
  let w' := (handle_tasks SampleView.cfg (SampleTrader.env [])
    [SampleTrader.up; SampleView.ack_task; TFairPrice {| fpr_product := "P"; fpr_data := SampleView.fair |};
     SampleView.grid_task; TOrderUpdate "P"] SampleView.w0).2 in
  market_view "P" (hs w') = Some {| v_grid := demo_grid; v_l1 := L1_default; v_fair := fair_of SampleView.fair |} /\
  held "P" (hs w') = Some 0.
Proof.
  assert (reached demo_read SampleLink.write_response SampleLink.info false SampleLink.node) as Hr
    by (unfold SampleLink.node; demo_reached).
  destruct (trader_knows_the_market SampleLink.write_event SampleLink.write_request
    demo_read SampleLink.write_response SampleLink.read_response SampleLink.classify
    SampleLink.none SampleLink.none SampleLink.none SampleLink.none SampleLink.read_info false
    (SampleTrader.env []) SampleView.cfg
    SampleLink.node 0 (default SessionIo_new (nd_sessions SampleLink.node !! 0%nat))
    SampleClient.up SampleLink.history [SampleLink.request] ["sub"%string]
    ["o"; "k" +:+ String newline "gr"; "id" +:+ String newline ""]%string
    [SampleView.ack_task; SampleView.grid_task] SampleView.others
    [SampleTrader.up; SampleView.ack_task; TFairPrice {| fpr_product := "P"; fpr_data := SampleView.fair |};
     SampleView.grid_task; TOrderUpdate "P"] "P" SampleView.w0
    {| v_grid := ProductInfoData_default; v_l1 := L1_default; v_fair := FairPriceState_default |} 0
    SampleLink.laws Hr) as [H1 H2]; try (vm_compute; reflexivity).
  - vm_compute. by split_and!.
  - by repeat constructor.
  - by repeat constructor.
  - by repeat constructor.
  - apply (merges_r _ _ [SampleTrader.up; TFairPrice _] [_; _; _; _]), (merges_l _ [_] _ [_; _; _]),
      (merges_r _ _ [_] [_; _]), (merges_l _ [] _ [_]), (merges_r _ _ [] []), merges_nil.
  - split; [exact H1|]. apply H2. by repeat constructor.
Defined.
