(* ===== verification/Loggers.v ===== *)
(** * Loggers: the process log and the csv writers

    [loggers/logger.hpp] and [loggers/csv_logger.hpp], the program's own layer over quill:
    which sink each logger is given, how it is configured, and what a row that cannot be
    written does.  quill itself -- sinks by path, loggers by name, rotation -- is the
    parameter; what it documents of sinks, rows and rotation is [QuillFiles]. *)
From S2P Require Import Prelude.

#[local] Open Scope string_scope.
#[local] Open Scope list_scope.

(** [quill::RotatingFileSinkConfig], as far as it is set; [None] is quill's default. *)
Record SinkConfig := {
  open_mode : string; rotation_max_file_size : Z; max_backup_files : option Z }.
Record PatternFormatterOptions := { format_pattern : string; timestamp_pattern : string; gmt : bool }.

(** What the program asks of quill, over its registry [Q]. *)
Class Quill (Q Sink Log Writer Row : Type) := {
  create_or_get_sink : string -> SinkConfig -> Q -> Sink * Q;
  quill_create_or_get_logger : string -> option Sink -> PatternFormatterOptions -> Q -> Log * Q;
  csv_writer : string -> Sink -> Q -> Writer * Q;
  append_row : Writer -> Row -> Q -> option Q }.     (* [None] is an exception *)

(** quill's files: the sink registered for a path, the rows appended to it so far, the bytes
    it has to its name, and what the path and its numbered backups hold of those rows, oldest
    first.  A sink is registered once for a path; an append that does not throw adds its row
    to its writer's sink; rotation drops the oldest rows only, and none before the size it is
    set to is reached. *)
Class QuillFiles (Q Sink Log Writer Row : Type) `{!Quill Q Sink Log Writer Row} := {
  sink_path : Sink -> string; writer_path : Writer -> string;
  opened : Q -> string -> option SinkConfig; taken : Q -> string -> list Row;
  bytes : Q -> string -> Z; on_disk : Q -> string -> list Row;
  qf_sink path cfg q p : let '(s, q') := create_or_get_sink path cfg q in
    sink_path s = path /\ taken q' p = taken q p /\
    opened q' p = if decide (p = path) then Some (default cfg (opened q path)) else opened q p;
  qf_writer name s q p : let '(w, q') := csv_writer name s q in
    writer_path w = sink_path s /\ taken q' p = taken q p /\ opened q' p = opened q p;
  qf_append w r q q' p : append_row w r q = Some q' -> opened q' p = opened q p /\
    taken q' p = taken q p ++ (if decide (p = writer_path w) then [r] else []);
  qf_suffix q p : on_disk q p `suffix_of` taken q p;
  qf_whole q p cfg : opened q p = Some cfg -> bytes q p <= rotation_max_file_size cfg ->
    on_disk q p = taken q p }.

Section loggers.
Context {Q Sink Log Writer Row : Type} `{!Quill Q Sink Log Writer Row}.

(** *** CsvLogger *)
Definition csv_sink_config : SinkConfig :=
  {| open_mode := "a"; rotation_max_file_size := 100 * 1024 * 1024; max_backup_files := Some 16 |}.
Record CsvLogger := { rotating_file_sink : Sink; csv_logger_writer : Writer }.
Definition CsvLogger_new (logger_name log_path : string) (q : Q) : CsvLogger * Q :=
  let '(sink, q) := create_or_get_sink log_path csv_sink_config q in
  let '(w, q) := csv_writer logger_name sink q in
  ({| rotating_file_sink := sink; csv_logger_writer := w |}, q).
(** [write_log]: an exception is swallowed, and the row with it. *)
Definition csv_write_log (row : Row) (l : CsvLogger) (q : Q) : Q := default q (append_row (csv_logger_writer l) row q).

(** *** LoggerObj *)
Definition log_sink_config : SinkConfig :=
  {| open_mode := "a"; rotation_max_file_size := 100 * 1024 * 1024; max_backup_files := None |}.
Definition log_pattern : PatternFormatterOptions := {|
  format_pattern := "%(time) [%(thread_id)] %(short_source_location:<28) LOG_%(log_level:<9) %(logger:<12) %(message)";
  timestamp_pattern := "%H:%M:%S.%Qns"; gmt := true |}.
Record LoggerObj := { lo_name : string; lo_sink : option Sink }.   (* [None]: moved from *)
Definition LoggerObj_new (logger_name log_path : string) (q : Q) : LoggerObj * Q :=
  let '(sink, q) := create_or_get_sink log_path log_sink_config q in
  ({| lo_name := logger_name; lo_sink := Some sink |}, q).
Definition create_or_get_logger (l : LoggerObj) (q : Q) : Log * LoggerObj * Q :=
  let '(g, q) := quill_create_or_get_logger (lo_name l) (lo_sink l) log_pattern q in
  (g, {| lo_name := lo_name l; lo_sink := None |}, q).

(** ** Properties *)

(** The rows of a trail that are written, in the order they were given. *)
Fixpoint write_logs (rows : list Row) (l : CsvLogger) (q : Q) : Q :=
  match rows with [] => q | r :: rows => write_logs rows l (csv_write_log r l q) end.

(** A row that cannot be written is lost, and nothing else: the trail is what quill would
    hold of the rows it took. *)
Lemma lost_row_is_skipped rows1 r rows2 l q :
  append_row (csv_logger_writer l) r (write_logs rows1 l q) = None ->
  write_logs (rows1 ++ r :: rows2) l q = write_logs (rows1 ++ rows2) l q.
Proof.
  revert q. induction rows1 as [|r1 rows1 IH]; intros q H; simpl in *; [|by apply IH].
  unfold csv_write_log at 1. by rewrite H.
Qed.

(** A logger object hands its sink on once; a second call would hand on a null one. *)
Lemma sink_is_handed_on_once l q :
  let '(_, l1, q1) := create_or_get_logger l q in
  forall q', (create_or_get_logger l1 q').1.1 = (quill_create_or_get_logger (lo_name l) None log_pattern q').1.
Proof.
  unfold create_or_get_logger. destruct (quill_create_or_get_logger (lo_name l) (lo_sink l) log_pattern q).
  intros q'. simpl. by destruct (quill_create_or_get_logger _ None _ q').
Qed.
End loggers.
