(* ===== verification/Records.v ===== *)
(** * Records: the csv trails

    The csv side of the listener and of the trader: [get_orderbook_logger],
    [get_trade_logger], [log_orderbook_data] and [log_trade_data] of
    [market_listener/market_listener.cpp], and [get_order_record_logger] and
    [get_order_decision_logger] of [trader/order_handler/order_handler.cpp], over
    [CsvLogger] ([Loggers]).  A file is opened at the first row of its product and kept for
    the life of the process; a row whose append throws is lost there and nowhere else.  What
    quill then keeps on disk is its own: [QuillFiles].  The rows are [MarketListener]'s and
    [OrderState]'s. *)
From Stdlib Require Import Ascii.
From S2P Require Import Prelude Double Text Messages Strategy OrderState ListenerEvents TcpServer MarketListener Config Calendar Loggers.

#[local] Open Scope string_scope.
#[local] Open Scope list_scope.
#[local] Open Scope Z_scope.

(** ** Paths *)

(** [fmt::format("{}/{}/{}/{}.log", ...)]. *)
Definition csv_path (save_path exchange product : string) (date : Z) : string :=
  save_path +:+ String "/" (exchange +:+ String "/" (product +:+ String "/" (to_string date +:+ ".log"))).

(** A product whose name is one path component. *)
Definition component (p : string) : Prop :=
  forall a, In a (String.list_ascii_of_string p) -> a <> "/"%char.

Lemma component_app p q : component p -> component q -> component (p +:+ q).
Proof. intros Hp Hq a. rewrite list_ascii_app, in_app_iff. intros [H|H]; auto. Qed.
Lemma component_digits fuel n acc : component acc -> component (digits fuel n acc).
Proof.
  revert n acc. induction fuel as [|fuel IH]; intros n acc Hacc; [done|]. simpl.
  assert (component (String (digit_char (n mod 10)) acc)) as H.
  { intros a [<-|Ha]; [|by apply Hacc].
    pose proof (Z.mod_pos_bound n 10 ltac:(lia)) as Hr. set (r := n mod 10) in *. clearbody r.
    assert (r = 0 \/ r = 1 \/ r = 2 \/ r = 3 \/ r = 4 \/ r = 5 \/ r = 6 \/ r = 7 \/ r = 8 \/ r = 9) as Hd by lia.
    repeat destruct Hd as [->|Hd]; try done; by subst r. }
  case_match; [done|by apply IH].
Qed.
Lemma component_file d : component (to_string d +:+ ".log").
Proof.
  apply component_app; [|by intros a H; repeat destruct H as [<-|H]].
  unfold to_string, dec. assert (component "") as H0 by by intros a []. destruct (d <? 0).
  - intros a [<-|Ha]; [done|]. exact (component_digits _ _ _ H0 a Ha).
  - by apply component_digits.
Qed.

(** A path ends in its last component, and starts before it. *)
Lemma last_component s c s' c' : component c -> component c' ->
  s +:+ String "/" c = s' +:+ String "/" c' -> s = s' /\ c = c'.
Proof.
  intros Hc Hc'. revert s'. induction s as [|a s IH]; intros [|a' s']; simpl.
  - by intros [= ->].
  - intros [= <- ->]. destruct (Hc "/"%char); [|done]. rewrite list_ascii_app, in_app_iff. right. by left.
  - intros [= -> <-]. destruct (Hc' "/"%char); [|done]. rewrite list_ascii_app, in_app_iff. right. by left.
  - intros [= -> H]. by destruct (IH _ H) as [-> ->].
Qed.
Lemma string_app_inj_r s s' t : s +:+ t = s' +:+ t -> s = s'.
Proof.
  intros H. apply (f_equal String.list_ascii_of_string) in H. rewrite !list_ascii_app in H.
  apply app_inv_tail in H. rewrite <- (String.string_of_list_ascii_of_string s), H.
  apply String.string_of_list_ascii_of_string.
Qed.
Lemma csv_path_inj s s' ex p p' d d' : component p -> component p' ->
  csv_path s ex p d = csv_path s' ex p' d' -> s = s' /\ p = p'.
Proof.
  intros Hp Hp'. unfold csv_path. intros H.
  assert (forall s p d, s +:+ String "/" (ex +:+ String "/" (p +:+ String "/" (to_string d +:+ ".log"))) =
    ((s +:+ String "/" ex) +:+ String "/" p) +:+ String "/" (to_string d +:+ ".log")) as E
    by (intros; by rewrite !string_app_assoc).
  rewrite !E in H. apply last_component in H as [H _]; [|apply component_file..].
  apply last_component in H as [H ->]; [|done..].
  split; [|done]. by apply string_app_inj_r in H.
Qed.

(** ** Rows and loggers *)
Inductive CsvRow :=
  | OrderbookCsv (r : OrderbookRow) | TradeCsv (r : TradeRow)
  | OrderRecordCsv (r : OrderRecordRow) | OrderDecisionCsv (r : OrderDecisionRow).

Section trail.
Context {Q Sink Log Writer : Type} `{!Quill Q Sink Log Writer CsvRow}.
Abbreviation Logger := (CsvLogger (Sink := Sink) (Writer := Writer)).

(** The loggers of one kind, by product, each with (ghost) the path it was opened on. *)
Abbreviation LoggerMap := (gmap string (string * Logger)).
(** quill's state, and (ghost) the rows a write was tried of: the file, the row, and whether
    [append_row] came back. *)
Record CsvIo := { registry : Q; tried : list (string * CsvRow * bool) }.

(** The four [get_*_logger] functions, past their own switch; [kind] is the word in the
    logger's name. *)
Definition get_logger (kind save_path exchange : string) (timezone now_sec : Z) (product : string)
    (t : LoggerMap * CsvIo) : (string * Logger) * (LoggerMap * CsvIo) :=
  match t.1 !! product with
  | Some l => (l, t)
  | None =>
      let path := csv_path save_path exchange product (get_curr_date now_sec timezone) in
      let name := exchange +:+ String "_" (product +:+ String "_" (kind +:+ "_logger")) in
      let '(l, q) := CsvLogger_new name path (registry t.2) in
      ((path, l), (<[product := (path, l)]> t.1, {| registry := q; tried := tried t.2 |}))
  end.
Definition write_log (l : string * Logger) (row : CsvRow) (io : CsvIo) : CsvIo := {|
  registry := csv_write_log row l.2 (registry io);
  tried := tried io ++ [(l.1, row, bool_decide (is_Some (append_row (csv_logger_writer l.2) row (registry io))))] |}.
(** Get the product's logger and write the rows. *)
Definition append_rows (kind save_path exchange : string) (timezone now_sec : Z) (product : string)
    (rows : list CsvRow) (t : LoggerMap * CsvIo) : LoggerMap * CsvIo :=
  let '(l, t) := get_logger kind save_path exchange timezone now_sec product t in
  (t.1, foldl (fun io row => write_log l row io) t.2 rows).

(** ** The listener's rows *)
Record ListenerTrails := {
  orderbook_loggers : LoggerMap; trade_loggers : LoggerMap; trails_io : CsvIo }.
Definition ListenerTrails_new (q : Q) : ListenerTrails := {|
  orderbook_loggers := ∅; trade_loggers := ∅; trails_io := {| registry := q; tried := [] |} |}.

Definition trail_orderbook_data (c : ListenerLaunch) (now_sec now_ns : Z) (product : string)
    (d : OrderbookData) (t : ListenerTrails) : ListenerTrails :=
  if lc_no_orderbook_log (ll_config c) then t
  else
    let '(m, io) := append_rows "orderbook" (ll_orderbook_save_path c) (lc_exchange (ll_config c))
      (ll_timezone_minute_offset c) now_sec product (OrderbookCsv <$> book_rows now_ns d)
      (orderbook_loggers t, trails_io t) in
    {| orderbook_loggers := m; trade_loggers := trade_loggers t; trails_io := io |}.
Definition trail_trade_data (c : ListenerLaunch) (now_sec now_ns : Z) (product : string)
    (d : TradeData) (t : ListenerTrails) : ListenerTrails :=
  if lc_no_public_trade_log (ll_config c) then t
  else
    let '(m, io) := append_rows "trade" (ll_trade_save_path c) (lc_exchange (ll_config c))
      (ll_timezone_minute_offset c) now_sec product [TradeCsv (trade_row now_ns d)]
      (trade_loggers t, trails_io t) in
    {| orderbook_loggers := orderbook_loggers t; trade_loggers := m; trails_io := io |}.

(** What [listen] logs of one event, with the clock readings it makes. *)
Record Reading := { now_sec : Z; now_ns : Z }.
Definition log_listener_event (c : ListenerLaunch) (r : Reading) (e : ListenerEvent)
    (t : ListenerTrails) : ListenerTrails :=
  match e with
  | OrderbookMsg p d => trail_orderbook_data c (now_sec r) (now_ns r) p d t
  | TradeMsg p d => trail_trade_data c (now_sec r) (now_ns r) p d t
  | _ => t
  end.
Definition log_listener_events (c : ListenerLaunch) (es : list (Reading * ListenerEvent))
    (q : Q) : ListenerTrails :=
  foldl (fun t x => log_listener_event c x.1 x.2 t) (ListenerTrails_new q) es.

(** ** The trader's rows: an empty path turns a trail off *)
Definition log_order_row (c : TraderConfig) (now_sec : Z) (row : OrderRecordRow)
    (t : LoggerMap * CsvIo) : LoggerMap * CsvIo :=
  if decide (tc_order_record_save_path c = "") then t
  else append_rows "order_record" (tc_order_record_save_path c) (tc_exchange c)
         (tc_timezone_minute_offset c) now_sec (orr_symbol row) [OrderRecordCsv row] t.
Definition log_decision_row (c : TraderConfig) (now_sec : Z) (product : string)
    (row : OrderDecisionRow) (t : LoggerMap * CsvIo) : LoggerMap * CsvIo :=
  if decide (tc_order_decision_save_path c = "") then t
  else append_rows "order_decision" (tc_order_decision_save_path c) (tc_exchange c)
         (tc_timezone_minute_offset c) now_sec product [OrderDecisionCsv row] t.
End trail.
#[global] Arguments CsvIo : clear implicits.
#[global] Arguments ListenerTrails : clear implicits.

(** ** What a trail should be *)

(** What is logged: when, for which product, which rows. *)
Record Logged := { lg_sec : Z; lg_product : string; lg_rows : list CsvRow }.
Definition orderbook_logged (es : list (Reading * ListenerEvent)) : list Logged :=
  omap (fun x => match x.2 with
    | OrderbookMsg p d => Some {| lg_sec := now_sec x.1; lg_product := p;
                                  lg_rows := OrderbookCsv <$> book_rows (now_ns x.1) d |}
    | _ => None end) es.
Definition trade_logged (es : list (Reading * ListenerEvent)) : list Logged :=
  omap (fun x => match x.2 with
    | TradeMsg p d => Some {| lg_sec := now_sec x.1; lg_product := p;
                              lg_rows := [TradeCsv (trade_row (now_ns x.1) d)] |}
    | _ => None end) es.
Definition rows_of (p : string) (ls : list Logged) : list CsvRow :=
  concat (lg_rows <$> filter (fun l => lg_product l = p) ls).
(** The file a product's rows belong in: named by the day of its first. *)
Definition file_of (save_path exchange : string) (timezone : Z) (p : string) (ls : list Logged) : option string :=
  (fun l => csv_path save_path exchange p (get_curr_date (lg_sec l) timezone)) <$>
    head (filter (fun l => lg_product l = p) ls).

(** The rows tried of a file, and whether each append came back. *)
Definition tried_on {Q} (f : string) (io : CsvIo Q) : list (CsvRow * bool) :=
  omap (fun x : string * CsvRow * bool => if decide (x.1.1 = f) then Some (x.1.2, x.2) else None) (tried io).
Definition came_back (l : list (CsvRow * bool)) : list CsvRow :=
  omap (fun x : CsvRow * bool => if x.2 then Some x.1 else None) l.

Lemma rows_of_snoc ls l p :
  rows_of p (ls ++ [l]) = rows_of p ls ++ (if decide (lg_product l = p) then lg_rows l else []).
Proof.
  unfold rows_of. rewrite filter_app, fmap_app, concat_app. f_equal.
  case_decide; [rewrite filter_cons_True by done|rewrite filter_cons_False by done];
    rewrite filter_nil; simpl; by rewrite ?app_nil_r.
Qed.
Lemma file_of_snoc s ex tz ls l p :
  file_of s ex tz p (ls ++ [l]) =
  if decide (lg_product l = p)
  then Some (default (csv_path s ex p (get_curr_date (lg_sec l) tz)) (file_of s ex tz p ls))
  else file_of s ex tz p ls.
Proof.
  unfold file_of. rewrite filter_app. case_decide.
  - rewrite (filter_cons_True _ l), filter_nil by done. by destruct (filter _ ls).
  - by rewrite (filter_cons_False _ l), filter_nil, app_nil_r by done.
Qed.
Lemma file_of_path s ex tz ls p f : file_of s ex tz p ls = Some f -> exists d, f = csv_path s ex p d.
Proof. unfold file_of. destruct (head _); simpl; [|done]. intros [= <-]. by eexists. Qed.
Lemma rows_of_unopened s ex tz ls p : file_of s ex tz p ls = None -> rows_of p ls = [].
Proof. unfold file_of, rows_of. by destruct (filter _ ls). Qed.

(** ** What is written is what should be *)
Section sound.
Context {Q Sink Log Writer : Type} `{!Quill Q Sink Log Writer CsvRow} `{!QuillFiles Q Sink Log Writer CsvRow}.
Abbreviation LoggerMap := (gmap string (string * CsvLogger (Sink := Sink) (Writer := Writer))).
Context (q0 : Q).

(** quill has taken the rows whose append came back, and opened nothing but csv files. *)
Record io_sound (io : CsvIo Q) : Prop := {
  is_taken f : taken (registry io) f = taken q0 f ++ came_back (tried_on f io);
  is_opened f : opened (registry io) f = opened q0 f \/ opened (registry io) f = Some csv_sink_config }.
Definition logger_sound (io : CsvIo Q) (l : string * CsvLogger (Sink := Sink) (Writer := Writer)) : Prop :=
  writer_path (csv_logger_writer l.2) = l.1 /\ opened (registry io) l.1 <> None.
Definition map_sound (io : CsvIo Q) (m : LoggerMap) : Prop := map_Forall (fun _ l => logger_sound io l) m.

(** From [io] to [io'] these rows were tried of these files, and no file was closed. *)
Record io_adds (io io' : CsvIo Q) (rows : string -> list CsvRow) : Prop := {
  ia_sound : io_sound io -> io_sound io';
  ia_opened f : opened (registry io) f <> None -> opened (registry io') f <> None;
  ia_tried f : (tried_on f io').*1 = (tried_on f io).*1 ++ rows f }.

Lemma io_adds_trans io1 io2 io3 r1 r2 r3 : (forall f, r3 f = r1 f ++ r2 f) ->
  io_adds io1 io2 r1 -> io_adds io2 io3 r2 -> io_adds io1 io3 r3.
Proof.
  intros Hr [S1 O1 T1] [S2 O2 T2]. split; [auto|auto|]. intros f. by rewrite T2, T1, Hr, app_assoc.
Qed.
Lemma io_adds_map io io' rows m : io_adds io io' rows -> map_sound io m -> map_sound io' m.
Proof. intros H Hm p l Hl. destruct (Hm p l Hl) as [? ?]. split; [done|]. by apply (ia_opened _ _ _ H). Qed.

Lemma tried_on_snoc f (q : Q) x l (q' : Q) :
  tried_on f {| registry := q; tried := l ++ [x] |} =
  tried_on f {| registry := q'; tried := l |} ++ (if decide (x.1.1 = f) then [(x.1.2, x.2)] else []).
Proof. unfold tried_on. simpl. rewrite omap_app. simpl. by case_decide. Qed.

Lemma write_log_adds l row io :
  writer_path (csv_logger_writer l.2) = l.1 ->
  io_adds io (write_log l row io) (fun f => if decide (l.1 = f) then [row] else []).
Proof.
  intros Hl. unfold write_log, csv_write_log. destruct io as [q tr].
  split; cbn [registry tried].
  - intros [Ht Ho]. split; intros f; cbn [registry tried]; rewrite ?(tried_on_snoc f _ _ tr q).
    + unfold came_back. rewrite omap_app. specialize (Ht f). cbn [registry] in Ht.
      destruct (append_row _ row q) as [q'|] eqn:E; cbn [default from_option id].
      * destruct (qf_append _ _ _ _ f E) as [_ ->]. rewrite Ht, <- app_assoc, Hl. f_equal. f_equal.
        simpl. repeat case_decide; by subst.
      * rewrite Ht. simpl. case_decide; simpl; by rewrite ?app_nil_r.
    + specialize (Ho f). cbn [registry] in Ho. destruct (append_row _ row q) as [q'|] eqn:E; [|done]. simpl.
      by destruct (qf_append _ _ _ _ f E) as [-> _].
  - intros f Hf. destruct (append_row _ row q) as [q'|] eqn:E; [|done]. simpl.
    by destruct (qf_append _ _ _ _ f E) as [-> _].
  - intros f. rewrite (tried_on_snoc f _ _ tr q), fmap_app. simpl. by case_decide.
Qed.

Lemma write_logs_adds l rows io :
  writer_path (csv_logger_writer l.2) = l.1 ->
  io_adds io (foldl (fun io row => write_log l row io) io rows) (fun f => if decide (l.1 = f) then rows else []).
Proof.
  intros Hl. revert io. induction rows as [|r rows IH]; intros io.
  - split; [done|done|]. intros f. simpl. case_decide; by rewrite app_nil_r.
  - simpl. eapply io_adds_trans; [|by apply write_log_adds|apply IH]. intros f. simpl. by case_decide.
Qed.

Lemma get_logger_spec kind s ex tz now p m io :
  io_sound io -> map_sound io m ->
  let '(l, (m', io')) := get_logger kind s ex tz now p (m, io) in
  l.1 = default (csv_path s ex p (get_curr_date now tz)) (fst <$> m !! p) /\
  writer_path (csv_logger_writer l.2) = l.1 /\ m' = <[p := l]> m /\ map_sound io' m' /\
  io_adds io io' (fun _ => []).
Proof.
  intros Hio Hm. unfold get_logger. cbn [fst snd]. destruct (m !! p) as [l|] eqn:E.
  { simpl. split_and!; [done|by eapply Hm|by rewrite insert_id|done|].
    split; [done|done|]. intros f. by rewrite app_nil_r. }
  unfold CsvLogger_new. set (path := csv_path _ _ _ _).
  pose proof (qf_sink path csv_sink_config (registry io)) as Hs.
  destruct (create_or_get_sink path csv_sink_config (registry io)) as [sink q1].
  match goal with |- context [csv_writer ?n sink q1] =>
    pose proof (qf_writer n sink q1) as Hw; destruct (csv_writer n sink q1) as [w q2] end.
  simpl. destruct (Hs path) as (Hpath&_), (Hw path) as (Hwp&_).
  assert (forall f, taken q2 f = taken (registry io) f) as Htk.
  { intros f. destruct (Hs f) as (_&<-&_), (Hw f) as (_&->&_). done. }
  assert (forall f, opened q2 f = if decide (f = path)
    then Some (default csv_sink_config (opened (registry io) path)) else opened (registry io) f) as Hop.
  { intros f. destruct (Hs f) as (_&_&<-), (Hw f) as (_&_&->). done. }
  assert (io_adds io {| registry := q2; tried := tried io |} (fun _ => [])) as Hadd.
  { split; simpl.
    - intros [Ht Ho]. split; intros f; simpl; [by rewrite Htk, Ht|]. rewrite Hop. case_decide; [subst f|done].
      destruct (Ho path) as [Ho'|Ho']; rewrite Ho'; simpl; [|by right].
      destruct (opened q0 path) eqn:Eo; simpl; [by left|by right].
    - intros f Hf. rewrite Hop. by case_decide.
    - intros f. by rewrite app_nil_r. }
  split_and!; [done|by rewrite Hwp, Hpath|done| |done].
  apply map_Forall_insert_2; [|by apply (io_adds_map _ _ _ _ Hadd)].
  split; simpl; [by rewrite Hwp, Hpath|]. by rewrite Hop, decide_True.
Qed.

(** *** One kind of trail *)
Record trail_ok (s ex : string) (tz : Z) (ls : list Logged) (m : LoggerMap) (io : CsvIo Q) : Prop := {
  tk_map : map_sound io m;
  tk_files p : fst <$> m !! p = file_of s ex tz p ls;
  tk_rows p d : component p -> (tried_on (csv_path s ex p d) io).*1 =
    if decide (file_of s ex tz p ls = Some (csv_path s ex p d)) then rows_of p ls else [] }.

Lemma append_rows_ok kind s ex tz ls m io l s2 ls2 m2 :
  io_sound io -> trail_ok s ex tz ls m io -> component (lg_product l) ->
  s <> s2 -> Forall (fun l => component (lg_product l)) ls -> trail_ok s2 ex tz ls2 m2 io ->
  let '(m', io') := append_rows kind s ex tz (lg_sec l) (lg_product l) (lg_rows l) (m, io) in
  io_sound io' /\ trail_ok s ex tz (ls ++ [l]) m' io' /\ trail_ok s2 ex tz ls2 m2 io'.
Proof.
  intros Hio [Hm Hf Hr] Hl Hs Hls [Hm2 Hf2 Hr2]. unfold append_rows.
  pose proof (get_logger_spec kind s ex tz (lg_sec l) (lg_product l) m io Hio Hm) as Hg.
  destruct (get_logger _ _ _ _ _ _ _) as [lg [m' io1]]. destruct Hg as (Hp&Hw&->&Hm1&Ha). cbn [fst snd].
  pose proof (write_logs_adds lg (lg_rows l) io1 Hw) as Hc.
  pose proof (io_adds_trans _ _ _ (fun _ => []) _ _ (fun f => eq_refl) Ha Hc) as Hb.
  set (io' := foldl _ io1 _) in *. rewrite Hf in Hp.
  assert (exists d, lg.1 = csv_path s ex (lg_product l) d) as [d0 Hd0].
  { rewrite Hp. destruct (file_of s ex tz (lg_product l) ls) as [f|] eqn:E; simpl; [by eapply file_of_path|by eexists]. }
  split_and!; [by apply (ia_sound _ _ _ Hb)|split|split].
  - by apply (io_adds_map _ _ _ _ Hc).
  - intros p. rewrite file_of_snoc. destruct (decide (lg_product l = p)) as [<-|Hne].
    + rewrite lookup_insert_eq. simpl. by rewrite Hp.
    + by rewrite lookup_insert_ne.
  - intros p d Hpc. rewrite (ia_tried _ _ _ Hb), Hr, file_of_snoc, rows_of_snoc by done. simpl.
    destruct (decide (lg_product l = p)) as [<-|Hne].
    + rewrite Hp. destruct (file_of s ex tz (lg_product l) ls) as [f|] eqn:E; simpl.
      * repeat case_decide; try congruence; by rewrite ?app_nil_r.
      * rewrite (rows_of_unopened _ _ _ _ _ E). repeat case_decide; try congruence; done.
    + rewrite (decide_False (P := lg.1 = _)), !app_nil_r; [done|]. rewrite Hd0.
      intros H. by apply csv_path_inj in H as [_ H].
  - by apply (io_adds_map _ _ _ _ Hb).
  - done.
  - intros p d Hpc. rewrite (ia_tried _ _ _ Hb), Hr2 by done.
    rewrite (decide_False (P := lg.1 = _)), app_nil_r; [done|]. rewrite Hd0.
    intros H. by apply csv_path_inj in H as [H _].
Qed.

(** *** The listener's two *)
Context (c : ListenerLaunch).
Abbreviation bdir := (ll_orderbook_save_path c).
Abbreviation tdir := (ll_trade_save_path c).
Abbreviation ex := (lc_exchange (ll_config c)).
Abbreviation tz := (ll_timezone_minute_offset c).

Lemma listener_trails es :
  lc_no_orderbook_log (ll_config c) = false -> lc_no_public_trade_log (ll_config c) = false ->
  bdir <> tdir ->
  Forall (fun x => match event_product x.2 with Some q => component q | None => True end) es ->
  let t := log_listener_events c es q0 in
  io_sound (trails_io t) /\
  trail_ok bdir ex tz (orderbook_logged es) (orderbook_loggers t) (trails_io t) /\
  trail_ok tdir ex tz (trade_logged es) (trade_loggers t) (trails_io t).
Proof.
  intros Hb Ht Hdirs. cbv zeta. induction es as [|[r e] es IH] using rev_ind.
  { intros _. split_and!.
    - split; intros f; [simpl; by rewrite app_nil_r|by left].
    - split; [by apply map_Forall_empty|done|]. intros p d _. by case_decide.
    - split; [by apply map_Forall_empty|done|]. intros p d _. by case_decide. }
  rewrite Forall_app, Forall_singleton. intros [Hes He]. destruct (IH Hes) as (Hio&Hob&Htr).
  assert (Forall (fun l => component (lg_product l)) (orderbook_logged es) /\
          Forall (fun l => component (lg_product l)) (trade_logged es)) as [Ho Hr].
  { split; apply Forall_forall; intros l (x&Hx&Hl)%list_elem_of_omap;
      rewrite Forall_forall in Hes; specialize (Hes x Hx); destruct x as [r' []]; try done;
      by injection Hl as <-. }
  unfold log_listener_events. rewrite foldl_app. fold (log_listener_events c es q0).
  set (t := log_listener_events c es q0) in *. cbn [foldl].
  unfold orderbook_logged, trade_logged. rewrite !omap_app.
  fold (orderbook_logged es). fold (trade_logged es).
  destruct e as [?|p d|p d|p d|p d|p d]; cbn [log_listener_event fst snd omap list_omap];
    rewrite ?app_nil_r; try done; simpl in He.
  - unfold trail_orderbook_data. rewrite Hb.
    pose proof (append_rows_ok "orderbook" bdir ex tz (orderbook_logged es) (orderbook_loggers t) (trails_io t)
      {| lg_sec := now_sec r; lg_product := p; lg_rows := OrderbookCsv <$> book_rows (now_ns r) d |}
      tdir (trade_logged es) (trade_loggers t) Hio Hob He Hdirs Ho Htr) as H.
    cbn [lg_sec lg_product lg_rows] in H. by destruct (append_rows _ _ _ _ _ _ _ _).
  - unfold trail_trade_data. rewrite Ht.
    pose proof (append_rows_ok "trade" tdir ex tz (trade_logged es) (trade_loggers t) (trails_io t)
      {| lg_sec := now_sec r; lg_product := p; lg_rows := [TradeCsv (trade_row (now_ns r) d)] |}
      bdir (orderbook_logged es) (orderbook_loggers t) Hio Htr He (not_eq_sym Hdirs) Hr Hob) as H.
    cbn [lg_sec lg_product lg_rows] in H. destruct (append_rows _ _ _ _ _ _ _ _).
    destruct H as (?&?&?). by split_and!.
Qed.

(** What a file of the listener's holds when [rows] are its product's. *)
Record holds_rows (io : CsvIo Q) (f : string) (rows : list CsvRow) : Prop := {
  hr_tried : (tried_on f io).*1 = rows;
  hr_taken : taken (registry io) f = came_back (tried_on f io);
  hr_disk : on_disk (registry io) f `suffix_of` taken (registry io) f;
  hr_whole : bytes (registry io) f <= 100 * 1024 * 1024 ->
    on_disk (registry io) f = taken (registry io) f }.

Lemma trail_holds s ls m io p f :
  io_sound io -> trail_ok s ex tz ls m io -> component p ->
  (forall d, opened q0 (csv_path s ex p d) = None /\ taken q0 (csv_path s ex p d) = []) ->
  fst <$> m !! p = Some f -> holds_rows io f (rows_of p ls).
Proof.
  intros [Ht Ho] [Hm Hf Hr] Hp Hnew E. pose proof E as E'. rewrite Hf in E'.
  destruct (file_of_path _ _ _ _ _ _ E') as [d ->]. destruct (Hnew d) as [Hn Htk]. split.
  - by rewrite Hr, E', decide_True.
  - by rewrite Ht, Htk.
  - apply qf_suffix.
  - intros Hb. apply (qf_whole _ _ csv_sink_config); [|done].
    destruct (m !! p) as [l|] eqn:El; [|done]. injection E as E. destruct (Hm p l El) as [_ Hl].
    rewrite E in Hl. destruct (Ho (csv_path s ex p d)) as [Ho'|]; [|done]. by rewrite Ho', Hn in Hl.
Qed.

End sound.

(** ** Witness: a quill that refuses a row and has room for two *)
Module SampleTrail.
Record State := { st_sinks : gmap string SinkConfig; st_rows : gmap string (list CsvRow) }.
Definition rows_at (q : State) (f : string) : list CsvRow := default [] (st_rows q !! f).
Definition size_at (q : State) (f : string) : Z := 50 * 1024 * 1024 * Z.of_nat (length (rows_at q f)).
(** It throws on a size of 3. *)
Definition refused (r : CsvRow) : bool :=
  match r with OrderbookCsv r => bool_decide (obr_qty r = of_Z 3) | _ => false end.
#[global] Instance quill : Quill State string unit string CsvRow := {|
  create_or_get_sink path cfg q := (path, {| st_sinks :=
    <[path := default cfg (st_sinks q !! path)]> (st_sinks q); st_rows := st_rows q |});
  quill_create_or_get_logger _ _ _ q := (tt, q);
  csv_writer _ s q := (s, q);
  append_row w r q := if refused r then None else
    Some {| st_sinks := st_sinks q; st_rows := <[w := rows_at q w ++ [r]]> (st_rows q) |} |}.
#[global] Instance files : QuillFiles State string unit string CsvRow.
Proof.
  refine {| sink_path := id; writer_path := id; opened q f := st_sinks q !! f; taken := rows_at;
    bytes := size_at;
    on_disk q f := match st_sinks q !! f with
      | Some cfg => if size_at q f <=? rotation_max_file_size cfg then rows_at q f
                    else drop (length (rows_at q f) - 2) (rows_at q f)
      | None => rows_at q f end |}.
  - intros path cfg q f. simpl. split_and!; [done|done|]. case_decide; [subst; by rewrite lookup_insert_eq|].
    by rewrite lookup_insert_ne.
  - done.
  - intros w r q q' f. simpl. destruct (refused r); [done|]. intros [= <-]. split; [done|].
    unfold rows_at at 1. simpl. unfold id. case_decide; [subst; by rewrite lookup_insert_eq|].
    by rewrite lookup_insert_ne, app_nil_r.
  - intros q f. destruct (st_sinks q !! f) as [cfg|]; [|done]. destruct (_ <=? _); [done|].
    exists (take (length (rows_at q f) - 2) (rows_at q f)). by rewrite take_drop.
  - intros q f cfg -> Hb. by rewrite (proj2 (Z.leb_le _ _) Hb).
Defined.
Definition fresh : State := {| st_sinks := ∅; st_rows := ∅ |}.
Definition at_ (s : Z) : Reading := {| now_sec := s; now_ns := s * 1000000000 |}.
Definition book (qty : Z) : OrderbookData := {|
  bid_book := [{| lvl_price := Some fone; lvl_qty := Some (of_Z qty) |}]; ask_book := [];
  ob_server_tstamp_ms := None |}.
(** The last book of BTCUSDT comes in the next day, and the one before it cannot be written. *)
Definition events : list (Reading * ListenerEvent) := [
  (at_ 1709164800, OrderbookMsg "BTCUSDT" (book 1)); (at_ 1709164900, OrderbookMsg "ETHUSDT" (book 2));
  (at_ 1709165000, OrderbookMsg "BTCUSDT" (book 3)); (at_ 1709251300, OrderbookMsg "BTCUSDT" (book 4))].
Definition file : string := "logs/orderbook_record/binance/BTCUSDT/20240229.log".
Definition trails := log_listener_events ListenerLaunch_default events fresh.
End SampleTrail.

