(* ===== verification/KisLayouts.v ===== *)
(** * KisLayouts: the KIS realtime records, field by field

    [market_listener/exchange/kis/ws_response_types/]: for each record struct its fields in
    declaration order -- which is the order on the wire, [vector_to_struct_impl] fills the
    struct by position -- and which of them [normalize] reads. *)
From S2P Require Import Prelude.

#[local] Open Scope string_scope.

(** An order book record: its fields, and the (price, size) fields of each side. *)
Record OrderbookLayout := {
  ol_fields : list string; ol_bids : list (string * string); ol_asks : list (string * string) }.
(** A trade record: its fields, and those of the price, the size and the buy size. *)
Record TradeLayout := {
  tl_fields : list string; tl_price : string; tl_qty : string; tl_buy_qty : string }.

(** ** orderbook_response_types.hpp *)
Definition IndexFuturesOrderbookResponse : OrderbookLayout := {|
  ol_fields := [
    "FUTS_SHRN_ISCD"; "BSOP_HOUR"; "FUTS_ASKP1"; "FUTS_ASKP2"; "FUTS_ASKP3"; "FUTS_ASKP4";
    "FUTS_ASKP5"; "FUTS_BIDP1"; "FUTS_BIDP2"; "FUTS_BIDP3"; "FUTS_BIDP4"; "FUTS_BIDP5";
    "ASKP_CSNU1"; "ASKP_CSNU2"; "ASKP_CSNU3"; "ASKP_CSNU4"; "ASKP_CSNU5"; "BIDP_CSNU1";
    "BIDP_CSNU2"; "BIDP_CSNU3"; "BIDP_CSNU4"; "BIDP_CSNU5"; "ASKP_RSQN1"; "ASKP_RSQN2";
    "ASKP_RSQN3"; "ASKP_RSQN4"; "ASKP_RSQN5"; "BIDP_RSQN1"; "BIDP_RSQN2"; "BIDP_RSQN3";
    "BIDP_RSQN4"; "BIDP_RSQN5"; "TOTAL_ASKP_CSNU"; "TOTAL_BIDP_CSNU"; "TOTAL_ASKP_RSQN";
    "TOTAL_BIDP_RSQN"; "TOTAL_ASKP_RSQN_ICDC"; "TOTAL_BIDP_RSQN_ICDC"];
  ol_bids := [
    ("FUTS_BIDP1", "BIDP_RSQN1"); ("FUTS_BIDP2", "BIDP_RSQN2"); ("FUTS_BIDP3", "BIDP_RSQN3");
    ("FUTS_BIDP4", "BIDP_RSQN4"); ("FUTS_BIDP5", "BIDP_RSQN5")];
  ol_asks := [
    ("FUTS_ASKP1", "ASKP_RSQN1"); ("FUTS_ASKP2", "ASKP_RSQN2"); ("FUTS_ASKP3", "ASKP_RSQN3");
    ("FUTS_ASKP4", "ASKP_RSQN4"); ("FUTS_ASKP5", "ASKP_RSQN5")] |}.

Definition IndexOptionOrderbookResponse : OrderbookLayout := {|
  ol_fields := [
    "OPTN_SHRN_ISCD"; "BSOP_HOUR"; "OPTN_ASKP1"; "OPTN_ASKP2"; "OPTN_ASKP3"; "OPTN_ASKP4";
    "OPTN_ASKP5"; "OPTN_BIDP1"; "OPTN_BIDP2"; "OPTN_BIDP3"; "OPTN_BIDP4"; "OPTN_BIDP5";
    "ASKP_CSNU1"; "ASKP_CSNU2"; "ASKP_CSNU3"; "ASKP_CSNU4"; "ASKP_CSNU5"; "BIDP_CSNU1";
    "BIDP_CSNU2"; "BIDP_CSNU3"; "BIDP_CSNU4"; "BIDP_CSNU5"; "ASKP_RSQN1"; "ASKP_RSQN2";
    "ASKP_RSQN3"; "ASKP_RSQN4"; "ASKP_RSQN5"; "BIDP_RSQN1"; "BIDP_RSQN2"; "BIDP_RSQN3";
    "BIDP_RSQN4"; "BIDP_RSQN5"; "TOTAL_ASKP_CSNU"; "TOTAL_BIDP_CSNU"; "TOTAL_ASKP_RSQN";
    "TOTAL_BIDP_RSQN"; "TOTAL_ASKP_RSQN_ICDC"; "TOTAL_BIDP_RSQN_ICDC"];
  ol_bids := [
    ("OPTN_BIDP1", "BIDP_RSQN1"); ("OPTN_BIDP2", "BIDP_RSQN2"); ("OPTN_BIDP3", "BIDP_RSQN3");
    ("OPTN_BIDP4", "BIDP_RSQN4"); ("OPTN_BIDP5", "BIDP_RSQN5")];
  ol_asks := [
    ("OPTN_ASKP1", "ASKP_RSQN1"); ("OPTN_ASKP2", "ASKP_RSQN2"); ("OPTN_ASKP3", "ASKP_RSQN3");
    ("OPTN_ASKP4", "ASKP_RSQN4"); ("OPTN_ASKP5", "ASKP_RSQN5")] |}.

Definition StockFuturesOrderbookResponse : OrderbookLayout := {|
  ol_fields := [
    "FUTS_SHRN_ISCD"; "BSOP_HOUR"; "ASKP1"; "ASKP2"; "ASKP3"; "ASKP4"; "ASKP5"; "ASKP6"; "ASKP7";
    "ASKP8"; "ASKP9"; "ASKP10"; "BIDP1"; "BIDP2"; "BIDP3"; "BIDP4"; "BIDP5"; "BIDP6"; "BIDP7";
    "BIDP8"; "BIDP9"; "BIDP10"; "ASKP_CSNU1"; "ASKP_CSNU2"; "ASKP_CSNU3"; "ASKP_CSNU4";
    "ASKP_CSNU5"; "ASKP_CSNU6"; "ASKP_CSNU7"; "ASKP_CSNU8"; "ASKP_CSNU9"; "ASKP_CSNU10";
    "BIDP_CSNU1"; "BIDP_CSNU2"; "BIDP_CSNU3"; "BIDP_CSNU4"; "BIDP_CSNU5"; "BIDP_CSNU6";
    "BIDP_CSNU7"; "BIDP_CSNU8"; "BIDP_CSNU9"; "BIDP_CSNU10"; "ASKP_RSQN1"; "ASKP_RSQN2";
    "ASKP_RSQN3"; "ASKP_RSQN4"; "ASKP_RSQN5"; "ASKP_RSQN6"; "ASKP_RSQN7"; "ASKP_RSQN8";
    "ASKP_RSQN9"; "ASKP_RSQN10"; "BIDP_RSQN1"; "BIDP_RSQN2"; "BIDP_RSQN3"; "BIDP_RSQN4";
    "BIDP_RSQN5"; "BIDP_RSQN6"; "BIDP_RSQN7"; "BIDP_RSQN8"; "BIDP_RSQN9"; "BIDP_RSQN10";
    "TOTAL_ASKP_CSNU"; "TOTAL_BIDP_CSNU"; "TOTAL_ASKP_RSQN"; "TOTAL_BIDP_RSQN";
    "TOTAL_ASKP_RSQN_ICDC"; "TOTAL_BIDP_RSQN_ICDC"];
  ol_bids := [
    ("BIDP1", "BIDP_RSQN1"); ("BIDP2", "BIDP_RSQN2"); ("BIDP3", "BIDP_RSQN3");
    ("BIDP4", "BIDP_RSQN4"); ("BIDP5", "BIDP_RSQN5"); ("BIDP6", "BIDP_RSQN6");
    ("BIDP7", "BIDP_RSQN7"); ("BIDP8", "BIDP_RSQN8"); ("BIDP9", "BIDP_RSQN9");
    ("BIDP10", "BIDP_RSQN10")];
  ol_asks := [
    ("ASKP1", "ASKP_RSQN1"); ("ASKP2", "ASKP_RSQN2"); ("ASKP3", "ASKP_RSQN3");
    ("ASKP4", "ASKP_RSQN4"); ("ASKP5", "ASKP_RSQN5"); ("ASKP6", "ASKP_RSQN6");
    ("ASKP7", "ASKP_RSQN7"); ("ASKP8", "ASKP_RSQN8"); ("ASKP9", "ASKP_RSQN9");
    ("ASKP10", "ASKP_RSQN10")] |}.

Definition StockOptionOrderbookResponse : OrderbookLayout := {|
  ol_fields := [
    "OPTN_SHRN_ISCD"; "BSOP_HOUR"; "OPTN_ASKP1"; "OPTN_ASKP2"; "OPTN_ASKP3"; "OPTN_ASKP4";
    "OPTN_ASKP5"; "OPTN_BIDP1"; "OPTN_BIDP2"; "OPTN_BIDP3"; "OPTN_BIDP4"; "OPTN_BIDP5";
    "ASKP_CSNU1"; "ASKP_CSNU2"; "ASKP_CSNU3"; "ASKP_CSNU4"; "ASKP_CSNU5"; "BIDP_CSNU1";
    "BIDP_CSNU2"; "BIDP_CSNU3"; "BIDP_CSNU4"; "BIDP_CSNU5"; "ASKP_RSQN1"; "ASKP_RSQN2";
    "ASKP_RSQN3"; "ASKP_RSQN4"; "ASKP_RSQN5"; "BIDP_RSQN1"; "BIDP_RSQN2"; "BIDP_RSQN3";
    "BIDP_RSQN4"; "BIDP_RSQN5"; "TOTAL_ASKP_CSNU"; "TOTAL_BIDP_CSNU"; "TOTAL_ASKP_RSQN";
    "TOTAL_BIDP_RSQN"; "TOTAL_ASKP_RSQN_ICDC"; "TOTAL_BIDP_RSQN_ICDC"; "OPTN_ASKP6";
    "OPTN_ASKP7"; "OPTN_ASKP8"; "OPTN_ASKP9"; "OPTN_ASKP10"; "OPTN_BIDP6"; "OPTN_BIDP7";
    "OPTN_BIDP8"; "OPTN_BIDP9"; "OPTN_BIDP10"; "ASKP_CSNU6"; "ASKP_CSNU7"; "ASKP_CSNU8";
    "ASKP_CSNU9"; "ASKP_CSNU10"; "BIDP_CSNU6"; "BIDP_CSNU7"; "BIDP_CSNU8"; "BIDP_CSNU9";
    "BIDP_CSNU10"; "ASKP_RSQN6"; "ASKP_RSQN7"; "ASKP_RSQN8"; "ASKP_RSQN9"; "ASKP_RSQN10";
    "BIDP_RSQN6"; "BIDP_RSQN7"; "BIDP_RSQN8"; "BIDP_RSQN9"; "BIDP_RSQN10"];
  ol_bids := [
    ("OPTN_BIDP1", "BIDP_RSQN1"); ("OPTN_BIDP2", "BIDP_RSQN2"); ("OPTN_BIDP3", "BIDP_RSQN3");
    ("OPTN_BIDP4", "BIDP_RSQN4"); ("OPTN_BIDP5", "BIDP_RSQN5"); ("OPTN_BIDP6", "BIDP_RSQN6");
    ("OPTN_BIDP7", "BIDP_RSQN7"); ("OPTN_BIDP8", "BIDP_RSQN8"); ("OPTN_BIDP9", "BIDP_RSQN9");
    ("OPTN_BIDP10", "BIDP_RSQN10")];
  ol_asks := [
    ("OPTN_ASKP1", "ASKP_RSQN1"); ("OPTN_ASKP2", "ASKP_RSQN2"); ("OPTN_ASKP3", "ASKP_RSQN3");
    ("OPTN_ASKP4", "ASKP_RSQN4"); ("OPTN_ASKP5", "ASKP_RSQN5"); ("OPTN_ASKP6", "ASKP_RSQN6");
    ("OPTN_ASKP7", "ASKP_RSQN7"); ("OPTN_ASKP8", "ASKP_RSQN8"); ("OPTN_ASKP9", "ASKP_RSQN9");
    ("OPTN_ASKP10", "ASKP_RSQN10")] |}.

Definition CommodityFuturesOrderbookResponse : OrderbookLayout := {|
  ol_fields := [
    "FUTS_SHRN_ISCD"; "BSOP_HOUR"; "FUTS_ASKP1"; "FUTS_ASKP2"; "FUTS_ASKP3"; "FUTS_ASKP4";
    "FUTS_ASKP5"; "FUTS_BIDP1"; "FUTS_BIDP2"; "FUTS_BIDP3"; "FUTS_BIDP4"; "FUTS_BIDP5";
    "ASKP_CSNU1"; "ASKP_CSNU2"; "ASKP_CSNU3"; "ASKP_CSNU4"; "ASKP_CSNU5"; "BIDP_CSNU1";
    "BIDP_CSNU2"; "BIDP_CSNU3"; "BIDP_CSNU4"; "BIDP_CSNU5"; "ASKP_RSQN1"; "ASKP_RSQN2";
    "ASKP_RSQN3"; "ASKP_RSQN4"; "ASKP_RSQN5"; "BIDP_RSQN1"; "BIDP_RSQN2"; "BIDP_RSQN3";
    "BIDP_RSQN4"; "BIDP_RSQN5"; "TOTAL_ASKP_CSNU"; "TOTAL_BIDP_CSNU"; "TOTAL_ASKP_RSQN";
    "TOTAL_BIDP_RSQN"; "TOTAL_ASKP_RSQN_ICDC"; "TOTAL_BIDP_RSQN_ICDC"];
  ol_bids := [
    ("FUTS_BIDP1", "BIDP_RSQN1"); ("FUTS_BIDP2", "BIDP_RSQN2"); ("FUTS_BIDP3", "BIDP_RSQN3");
    ("FUTS_BIDP4", "BIDP_RSQN4"); ("FUTS_BIDP5", "BIDP_RSQN5")];
  ol_asks := [
    ("FUTS_ASKP1", "ASKP_RSQN1"); ("FUTS_ASKP2", "ASKP_RSQN2"); ("FUTS_ASKP3", "ASKP_RSQN3");
    ("FUTS_ASKP4", "ASKP_RSQN4"); ("FUTS_ASKP5", "ASKP_RSQN5")] |}.

Definition NightFuturesOrderbookResponse : OrderbookLayout := {|
  ol_fields := [
    "FUTS_SHRN_ISCD"; "BSOP_HOUR"; "FUTS_ASKP1"; "FUTS_ASKP2"; "FUTS_ASKP3"; "FUTS_ASKP4";
    "FUTS_ASKP5"; "FUTS_BIDP1"; "FUTS_BIDP2"; "FUTS_BIDP3"; "FUTS_BIDP4"; "FUTS_BIDP5";
    "ASKP_CSNU1"; "ASKP_CSNU2"; "ASKP_CSNU3"; "ASKP_CSNU4"; "ASKP_CSNU5"; "BIDP_CSNU1";
    "BIDP_CSNU2"; "BIDP_CSNU3"; "BIDP_CSNU4"; "BIDP_CSNU5"; "ASKP_RSQN1"; "ASKP_RSQN2";
    "ASKP_RSQN3"; "ASKP_RSQN4"; "ASKP_RSQN5"; "BIDP_RSQN1"; "BIDP_RSQN2"; "BIDP_RSQN3";
    "BIDP_RSQN4"; "BIDP_RSQN5"; "TOTAL_ASKP_CSNU"; "TOTAL_BIDP_CSNU"; "TOTAL_ASKP_RSQN";
    "TOTAL_BIDP_RSQN"; "TOTAL_ASKP_RSQN_ICDC"; "TOTAL_BIDP_RSQN_ICDC"];
  ol_bids := [
    ("FUTS_BIDP1", "BIDP_RSQN1"); ("FUTS_BIDP2", "BIDP_RSQN2"); ("FUTS_BIDP3", "BIDP_RSQN3");
    ("FUTS_BIDP4", "BIDP_RSQN4"); ("FUTS_BIDP5", "BIDP_RSQN5")];
  ol_asks := [
    ("FUTS_ASKP1", "ASKP_RSQN1"); ("FUTS_ASKP2", "ASKP_RSQN2"); ("FUTS_ASKP3", "ASKP_RSQN3");
    ("FUTS_ASKP4", "ASKP_RSQN4"); ("FUTS_ASKP5", "ASKP_RSQN5")] |}.

Definition NightOptionOrderbookResponse : OrderbookLayout := {|
  ol_fields := [
    "OPTN_SHRN_ISCD"; "BSOP_HOUR"; "OPTN_ASKP1"; "OPTN_ASKP2"; "OPTN_ASKP3"; "OPTN_ASKP4";
    "OPTN_ASKP5"; "OPTN_BIDP1"; "OPTN_BIDP2"; "OPTN_BIDP3"; "OPTN_BIDP4"; "OPTN_BIDP5";
    "ASKP_CSNU1"; "ASKP_CSNU2"; "ASKP_CSNU3"; "ASKP_CSNU4"; "ASKP_CSNU5"; "BIDP_CSNU1";
    "BIDP_CSNU2"; "BIDP_CSNU3"; "BIDP_CSNU4"; "BIDP_CSNU5"; "ASKP_RSQN1"; "ASKP_RSQN2";
    "ASKP_RSQN3"; "ASKP_RSQN4"; "ASKP_RSQN5"; "BIDP_RSQN1"; "BIDP_RSQN2"; "BIDP_RSQN3";
    "BIDP_RSQN4"; "BIDP_RSQN5"; "TOTAL_ASKP_CSNU"; "TOTAL_BIDP_CSNU"; "TOTAL_ASKP_RSQN";
    "TOTAL_BIDP_RSQN"; "TOTAL_ASKP_RSQN_ICDC"; "TOTAL_BIDP_RSQN_ICDC"];
  ol_bids := [
    ("OPTN_BIDP1", "BIDP_RSQN1"); ("OPTN_BIDP2", "BIDP_RSQN2"); ("OPTN_BIDP3", "BIDP_RSQN3");
    ("OPTN_BIDP4", "BIDP_RSQN4"); ("OPTN_BIDP5", "BIDP_RSQN5")];
  ol_asks := [
    ("OPTN_ASKP1", "ASKP_RSQN1"); ("OPTN_ASKP2", "ASKP_RSQN2"); ("OPTN_ASKP3", "ASKP_RSQN3");
    ("OPTN_ASKP4", "ASKP_RSQN4"); ("OPTN_ASKP5", "ASKP_RSQN5")] |}.

(** ** trade_response_types.hpp *)
Definition IndexFuturesTradeResponse : TradeLayout := {|
  tl_fields := [
    "FUTS_SHRN_ISCD"; "BSOP_HOUR"; "FUTS_PRDY_VRSS"; "PRDY_VRSS_SIGN"; "FUTS_PRDY_CTRT";
    "FUTS_PRPR"; "FUTS_OPRC"; "FUTS_HGPR"; "FUTS_LWPR"; "LAST_CNQN"; "ACML_VOL"; "ACML_TR_PBMN";
    "HTS_THPR"; "MRKT_BASIS"; "DPRT"; "NMSC_FCTN_STPL_PRC"; "FMSC_FCTN_STPL_PRC"; "SPEAD_PRC";
    "HTS_OTST_STPL_QTY"; "OTST_STPL_QTY_ICDC"; "OPRC_HOUR"; "OPRC_VRSS_PRPR_SIGN";
    "OPRC_VRSS_NMIX_PRPR"; "HGPR_HOUR"; "HGPR_VRSS_PRPR_SIGN"; "HGPR_VRSS_NMIX_PRPR";
    "LWPR_HOUR"; "LWPR_VRSS_PRPR_SIGN"; "LWPR_VRSS_NMIX_PRPR"; "SHNU_RATE"; "CTTR"; "ESDG";
    "OTST_STPL_RGBF_QTY_ICDC"; "THPR_BASIS"; "FUTS_ASKP1"; "FUTS_BIDP1"; "ASKP_RSQN1";
    "BIDP_RSQN1"; "SELN_CNTG_CSNU"; "SHNU_CNTG_CSNU"; "NTBY_CNTG_CSNU"; "SELN_CNTG_SMTN";
    "SHNU_CNTG_SMTN"; "TOTAL_ASKP_RSQN"; "TOTAL_BIDP_RSQN"; "PRDY_VOL_VRSS_ACML_VOL_RATE";
    "DSCS_BLTR_ACML_QTY"; "DYNM_MXPR"; "DYNM_LLAM"; "DYNM_PRC_LIMT_YN"];
  tl_price := "FUTS_PRPR"; tl_qty := "LAST_CNQN"; tl_buy_qty := "SHNU_CNTG_SMTN" |}.

Definition IndexOptionTradeResponse : TradeLayout := {|
  tl_fields := [
    "OPTN_SHRN_ISCD"; "BSOP_HOUR"; "OPTN_PRPR"; "PRDY_VRSS_SIGN"; "OPTN_PRDY_VRSS"; "PRDY_CTRT";
    "OPTN_OPRC"; "OPTN_HGPR"; "OPTN_LWPR"; "LAST_CNQN"; "ACML_VOL"; "ACML_TR_PBMN"; "HTS_THPR";
    "HTS_OTST_STPL_QTY"; "OTST_STPL_QTY_ICDC"; "OPRC_HOUR"; "OPRC_VRSS_PRPR_SIGN";
    "OPRC_VRSS_NMIX_PRPR"; "HGPR_HOUR"; "HGPR_VRSS_PRPR_SIGN"; "HGPR_VRSS_NMIX_PRPR";
    "LWPR_HOUR"; "LWPR_VRSS_PRPR_SIGN"; "LWPR_VRSS_NMIX_PRPR"; "SHNU_RATE"; "PRMM_VAL";
    "INVL_VAL"; "TMVL_VAL"; "DELTA"; "GAMA"; "VEGA"; "THETA"; "RHO"; "HTS_INTS_VLTL"; "ESDG";
    "OTST_STPL_RGBF_QTY_ICDC"; "THPR_BASIS"; "UNAS_HIST_VLTL"; "CTTR"; "DPRT"; "MRKT_BASIS";
    "OPTN_ASKP1"; "OPTN_BIDP1"; "ASKP_RSQN1"; "BIDP_RSQN1"; "SELN_CNTG_CSNU"; "SHNU_CNTG_CSNU";
    "NTBY_CNTG_CSNU"; "SELN_CNTG_SMTN"; "SHNU_CNTG_SMTN"; "TOTAL_ASKP_RSQN"; "TOTAL_BIDP_RSQN";
    "PRDY_VOL_VRSS_ACML_VOL_RATE"; "AVRG_VLTL"; "DSCS_LRQN_VOL"; "DYNM_MXPR"; "DYNM_LLAM";
    "DYNM_PRC_LIMT_YN"];
  tl_price := "OPTN_PRPR"; tl_qty := "LAST_CNQN"; tl_buy_qty := "SHNU_CNTG_SMTN" |}.

Definition StockFuturesTradeResponse : TradeLayout := {|
  tl_fields := [
    "FUTS_SHRN_ISCD"; "BSOP_HOUR"; "STCK_PRPR"; "PRDY_VRSS_SIGN"; "PRDY_VRSS"; "FUTS_PRDY_CTRT";
    "STCK_OPRC"; "STCK_HGPR"; "STCK_LWPR"; "LAST_CNQN"; "ACML_VOL"; "ACML_TR_PBMN"; "HTS_THPR";
    "MRKT_BASIS"; "DPRT"; "NMSC_FCTN_STPL_PRC"; "FMSC_FCTN_STPL_PRC"; "SPEAD_PRC";
    "HTS_OTST_STPL_QTY"; "OTST_STPL_QTY_ICDC"; "OPRC_HOUR"; "OPRC_VRSS_PRPR_SIGN";
    "OPRC_VRSS_PRPR"; "HGPR_HOUR"; "HGPR_VRSS_PRPR_SIGN"; "HGPR_VRSS_PRPR"; "LWPR_HOUR";
    "LWPR_VRSS_PRPR_SIGN"; "LWPR_VRSS_PRPR"; "SHNU_RATE"; "CTTR"; "ESDG";
    "OTST_STPL_RGBF_QTY_ICDC"; "THPR_BASIS"; "ASKP1"; "BIDP1"; "ASKP_RSQN1"; "BIDP_RSQN1";
    "SELN_CNTG_CSNU"; "SHNU_CNTG_CSNU"; "NTBY_CNTG_CSNU"; "SELN_CNTG_SMTN"; "SHNU_CNTG_SMTN";
    "TOTAL_ASKP_RSQN"; "TOTAL_BIDP_RSQN"; "PRDY_VOL_VRSS_ACML_VOL_RATE"; "DYNM_MXPR";
    "DYNM_LLAM"; "DYNM_PRC_LIMT_YN"];
  tl_price := "STCK_PRPR"; tl_qty := "LAST_CNQN"; tl_buy_qty := "SHNU_CNTG_SMTN" |}.

Definition StockOptionTradeResponse : TradeLayout := {|
  tl_fields := [
    "OPTN_SHRN_ISCD"; "BSOP_HOUR"; "OPTN_PRPR"; "PRDY_VRSS_SIGN"; "OPTN_PRDY_VRSS"; "PRDY_CTRT";
    "OPTN_OPRC"; "OPTN_HGPR"; "OPTN_LWPR"; "LAST_CNQN"; "ACML_VOL"; "ACML_TR_PBMN"; "HTS_THPR";
    "HTS_OTST_STPL_QTY"; "OTST_STPL_QTY_ICDC"; "OPRC_HOUR"; "OPRC_VRSS_PRPR_SIGN";
    "OPRC_VRSS_NMIX_PRPR"; "HGPR_HOUR"; "HGPR_VRSS_PRPR_SIGN"; "HGPR_VRSS_NMIX_PRPR";
    "LWPR_HOUR"; "LWPR_VRSS_PRPR_SIGN"; "LWPR_VRSS_NMIX_PRPR"; "SHNU_RATE"; "PRMM_VAL";
    "INVL_VAL"; "TMVL_VAL"; "DELTA"; "GAMA"; "VEGA"; "THETA"; "RHO"; "HTS_INTS_VLTL"; "ESDG";
    "OTST_STPL_RGBF_QTY_ICDC"; "THPR_BASIS"; "UNAS_HIST_VLTL"; "CTTR"; "DPRT"; "MRKT_BASIS";
    "OPTN_ASKP1"; "OPTN_BIDP1"; "ASKP_RSQN1"; "BIDP_RSQN1"; "SELN_CNTG_CSNU"; "SHNU_CNTG_CSNU";
    "NTBY_CNTG_CSNU"; "SELN_CNTG_SMTN"; "SHNU_CNTG_SMTN"; "TOTAL_ASKP_RSQN"; "TOTAL_BIDP_RSQN";
    "PRDY_VOL_VRSS_ACML_VOL_RATE"];
  tl_price := "OPTN_PRPR"; tl_qty := "LAST_CNQN"; tl_buy_qty := "SHNU_CNTG_SMTN" |}.

Definition CommodityFuturesTradeResponse : TradeLayout := {|
  tl_fields := [
    "FUTS_SHRN_ISCD"; "BSOP_HOUR"; "FUTS_PRDY_VRSS"; "PRDY_VRSS_SIGN"; "FUTS_PRDY_CTRT";
    "FUTS_PRPR"; "FUTS_OPRC"; "FUTS_HGPR"; "FUTS_LWPR"; "LAST_CNQN"; "ACML_VOL"; "ACML_TR_PBMN";
    "HTS_THPR"; "MRKT_BASIS"; "DPRT"; "NMSC_FCTN_STPL_PRC"; "FMSC_FCTN_STPL_PRC"; "SPEAD_PRC";
    "HTS_OTST_STPL_QTY"; "OTST_STPL_QTY_ICDC"; "OPRC_HOUR"; "OPRC_VRSS_PRPR_SIGN";
    "OPRC_VRSS_NMIX_PRPR"; "HGPR_HOUR"; "HGPR_VRSS_PRPR_SIGN"; "HGPR_VRSS_NMIX_PRPR";
    "LWPR_HOUR"; "LWPR_VRSS_PRPR_SIGN"; "LWPR_VRSS_NMIX_PRPR"; "SHNU_RATE"; "CTTR"; "ESDG";
    "OTST_STPL_RGBF_QTY_ICDC"; "THPR_BASIS"; "FUTS_ASKP1"; "FUTS_BIDP1"; "ASKP_RSQN1";
    "BIDP_RSQN1"; "SELN_CNTG_CSNU"; "SHNU_CNTG_CSNU"; "NTBY_CNTG_CSNU"; "SELN_CNTG_SMTN";
    "SHNU_CNTG_SMTN"; "TOTAL_ASKP_RSQN"; "TOTAL_BIDP_RSQN"; "PRDY_VOL_VRSS_ACML_VOL_RATE";
    "DSCS_BLTR_ACML_QTY"; "DYNM_MXPR"; "DYNM_LLAM"; "DYNM_PRC_LIMT_YN"];
  tl_price := "FUTS_PRPR"; tl_qty := "LAST_CNQN"; tl_buy_qty := "SHNU_CNTG_SMTN" |}.

Definition NightFuturesTradeResponse : TradeLayout := {|
  tl_fields := [
    "FUTS_SHRN_ISCD"; "BSOP_HOUR"; "FUTS_PRDY_VRSS"; "PRDY_VRSS_SIGN"; "FUTS_PRDY_CTRT";
    "FUTS_PRPR"; "FUTS_OPRC"; "FUTS_HGPR"; "FUTS_LWPR"; "LAST_CNQN"; "ACML_VOL"; "ACML_TR_PBMN";
    "HTS_THPR"; "MRKT_BASIS"; "DPRT"; "NMSC_FCTN_STPL_PRC"; "FMSC_FCTN_STPL_PRC"; "SPEAD_PRC";
    "HTS_OTST_STPL_QTY"; "OTST_STPL_QTY_ICDC"; "OPRC_HOUR"; "OPRC_VRSS_PRPR_SIGN";
    "OPRC_VRSS_NMIX_PRPR"; "HGPR_HOUR"; "HGPR_VRSS_PRPR_SIGN"; "HGPR_VRSS_NMIX_PRPR";
    "LWPR_HOUR"; "LWPR_VRSS_PRPR_SIGN"; "LWPR_VRSS_NMIX_PRPR"; "SHNU_RATE"; "CTTR"; "ESDG";
    "OTST_STPL_RGBF_QTY_ICDC"; "THPR_BASIS"; "FUTS_ASKP1"; "FUTS_BIDP1"; "ASKP_RSQN1";
    "BIDP_RSQN1"; "SELN_CNTG_CSNU"; "SHNU_CNTG_CSNU"; "NTBY_CNTG_CSNU"; "SELN_CNTG_SMTN";
    "SHNU_CNTG_SMTN"; "TOTAL_ASKP_RSQN"; "TOTAL_BIDP_RSQN"; "PRDY_VOL_VRSS_ACML_VOL_RATE";
    "DYNM_MXPR"; "DYNM_LLAM"; "DYNM_PRC_LIMT_YN"];
  tl_price := "FUTS_PRPR"; tl_qty := "LAST_CNQN"; tl_buy_qty := "SHNU_CNTG_SMTN" |}.

Definition NightOptionTradeResponse : TradeLayout := {|
  tl_fields := [
    "OPTN_SHRN_ISCD"; "BSOP_HOUR"; "OPTN_PRPR"; "PRDY_VRSS_SIGN"; "OPTN_PRDY_VRSS"; "PRDY_CTRT";
    "OPTN_OPRC"; "OPTN_HGPR"; "OPTN_LWPR"; "LAST_CNQN"; "ACML_VOL"; "ACML_TR_PBMN"; "HTS_THPR";
    "HTS_OTST_STPL_QTY"; "OTST_STPL_QTY_ICDC"; "OPRC_HOUR"; "OPRC_VRSS_PRPR_SIGN";
    "OPRC_VRSS_NMIX_PRPR"; "HGPR_HOUR"; "HGPR_VRSS_PRPR_SIGN"; "HGPR_VRSS_NMIX_PRPR";
    "LWPR_HOUR"; "LWPR_VRSS_PRPR_SIGN"; "LWPR_VRSS_NMIX_PRPR"; "SHNU_RATE"; "PRMM_VAL";
    "INVL_VAL"; "TMVL_VAL"; "DELTA"; "GAMA"; "VEGA"; "THETA"; "RHO"; "HTS_INTS_VLTL"; "ESDG";
    "OTST_STPL_RGBF_QTY_ICDC"; "THPR_BASIS"; "UNAS_HIST_VLTL"; "CTTR"; "DPRT"; "MRKT_BASIS";
    "OPTN_ASKP1"; "OPTN_BIDP1"; "ASKP_RSQN1"; "BIDP_RSQN1"; "SELN_CNTG_CSNU"; "SHNU_CNTG_CSNU";
    "NTBY_CNTG_CSNU"; "SELN_CNTG_SMTN"; "SHNU_CNTG_SMTN"; "TOTAL_ASKP_RSQN"; "TOTAL_BIDP_RSQN";
    "PRDY_VOL_VRSS_ACML_VOL_RATE"; "DYNM_MXPR"; "DYNM_PRC_LIMT_YN"; "DYNM_LLAM"];
  tl_price := "OPTN_PRPR"; tl_qty := "LAST_CNQN"; tl_buy_qty := "SHNU_CNTG_SMTN" |}.

(** ** execution_response_types.hpp *)
Definition DayExecutionResponse : list string := [
    "CUST_ID"; "ACNT_NO"; "ODER_NO"; "OODER_NO"; "SELN_BYOV_CLS"; "RCTF_CLS"; "ODER_KIND2";
    "STCK_SHRN_ISCD"; "CNTG_QTY"; "CNTG_UNPR"; "STCK_CNTG_HOUR"; "RFUS_YN"; "CNTG_YN"; "ACPT_YN";
    "BRNC_NO"; "ODER_QTY"; "ACNT_NAME"; "CNTG_ISNM"; "ODER_COND"; "ORD_GRP"; "ORD_GRPSEQ";
    "ORDER_PRC"].

Definition NightExecutionResponse : list string := [
    "CUST_ID"; "ACNT_NO"; "ODER_NO"; "OODER_NO"; "SELN_BYOV_CLS"; "RCTF_CLS"; "ODER_KIND2";
    "STCK_SHRN_ISCD"; "CNTG_QTY"; "CNTG_UNPR"; "STCK_CNTG_HOUR"; "RFUS_YN"; "CNTG_YN"; "ACPT_YN";
    "BRNC_NO"; "ODER_QTY"; "ACNT_NAME"; "CNTG_ISNM"; "ODER_COND"].

