(* ===== verification/KisProduct.v ===== *)
(** * KisProduct: KIS products, subscriptions and record parsing

    [market_listener/exchange/kis/product_manager_base.hpp], [product_manager.cpp] and
    [product_types.hpp], over the record layouts of [KisLayouts].  An exception out of
    [std::stod] is [None]. *)
From Stdlib Require Import Ascii.
From S2P Require Import Prelude Double Text Messages ListenerEvents KisLayouts.

#[local] Open Scope string_scope.
#[local] Open Scope list_scope.
#[local] Open Scope Z_scope.

(** ** Product database *)
Inductive ProductType :=
  | IndexFutures | IndexOption | StockFutures | StockOption | CommodityFutures
  | NightFutures | NightOption | PError.
#[export] Instance product_type_eq_dec : EqDecision ProductType.
Proof. solve_decision. Defined.

(** The pieces [std::getline(in, piece, c)] yields from a text. *)
Fixpoint getlines (fuel : nat) (c : ascii) (s : string) : list string :=
  match fuel, s with
  | O, _ | _, EmptyString => []
  | S fuel, _ => match split_at c s with
                 | Some (l, r) => l :: getlines fuel c r
                 | None => [s]
                 end
  end.
Definition pieces (c : ascii) (s : string) : list string := getlines (String.length s) c s.

(** [read_products_file]: one column of a CSV file; [None] is a file that does not open. *)
Definition read_products_file (contents : option string) (col : string) : gset string :=
  match contents with
  | None => ∅
  | Some text =>
      match pieces "010" text with
      | [] => ∅
      | header :: rows =>
          match list_find (fun cell => cell = col) (pieces "," header) with
          | None => ∅
          | Some (i, _) => list_to_set (omap (fun row => pieces "," row !! i) rows)
          end
      end
  end.

Record ProductManager := {
  idx_fo_products : gset string; stock_fo_products : gset string;
  com_fo_products : gset string; night_option_products : gset string;
  is_night : bool; hts_id : string }.

(** The constructor: the four files of the product database. *)
Definition code_column : string := "단축코드".
Definition ProductManager_new (file : string -> option string) (hts : string) (night : bool)
    : ProductManager := {|
  idx_fo_products := read_products_file (file "fo_idx_code_mts.csv") code_column;
  stock_fo_products := read_products_file (file "fo_stk_code_mts.csv") code_column;
  com_fo_products := read_products_file (file "fo_com_code.csv") code_column;
  night_option_products := read_products_file (file "fo_eurex_code.csv") code_column;
  is_night := night; hts_id := hts |}.

Definition get_product_type (m : ProductManager) (product : string) : ProductType :=
  let short := (String.length product <=? 6)%nat in
  if is_night m then
    if bool_decide (product ∈ idx_fo_products m) then NightFutures
    else if bool_decide (product ∈ stock_fo_products m) then NightFutures
    else if bool_decide (product ∈ com_fo_products m) then NightFutures
    else if bool_decide (product ∈ night_option_products m) then NightOption
    else PError
  else
    if bool_decide (product ∈ idx_fo_products m) then (if short then IndexFutures else IndexOption)
    else if bool_decide (product ∈ stock_fo_products m) then (if short then StockFutures else StockOption)
    else if bool_decide (product ∈ com_fo_products m) then CommodityFutures
    else PError.

(** ** Subscriptions *)
Inductive TrIdType := OrderbookTrId | TradeTrId | ExecutionTrId | TrError.
Definition tr_id_types : list (string * TrIdType) := [
  ("H0IFASP0", OrderbookTrId); ("H0IOASP0", OrderbookTrId); ("H0ZFASP0", OrderbookTrId);
  ("H0ZOASP0", OrderbookTrId); ("H0CFASP0", OrderbookTrId); ("H0MFASP0", OrderbookTrId);
  ("H0EUASP0", OrderbookTrId);
  ("H0IFCNT0", TradeTrId); ("H0IOCNT0", TradeTrId); ("H0ZFCNT0", TradeTrId);
  ("H0ZOCNT0", TradeTrId); ("H0CFCNT0", TradeTrId); ("H0MFCNT0", TradeTrId);
  ("H0EUCNT0", TradeTrId);
  ("H0IFCNI0", ExecutionTrId); ("H0MFCNI0", ExecutionTrId)].
Definition get_tr_id_type (tr_id : string) : TrIdType :=
  default TrError ((list_to_map tr_id_types : gmap string TrIdType) !! tr_id).

Record SubscriptionInput := { tr_id : string; tr_key : string }.
Definition no_input : SubscriptionInput := {| tr_id := ""; tr_key := "" |}.
Definition get_orderbook_subscription_input (m : ProductManager) (product : string) : SubscriptionInput :=
  let sub id := {| tr_id := id; tr_key := product |} in
  match get_product_type m product with
  | IndexFutures => sub "H0IFASP0" | IndexOption => sub "H0IOASP0"
  | StockFutures => sub "H0ZFASP0" | StockOption => sub "H0ZOASP0"
  | CommodityFutures => sub "H0CFASP0"
  | NightFutures => sub "H0MFASP0" | NightOption => sub "H0EUASP0"
  | PError => no_input
  end.
Definition get_trade_subscription_input (m : ProductManager) (product : string) : SubscriptionInput :=
  let sub id := {| tr_id := id; tr_key := product |} in
  match get_product_type m product with
  | IndexFutures => sub "H0IFCNT0" | IndexOption => sub "H0IOCNT0"
  | StockFutures => sub "H0ZFCNT0" | StockOption => sub "H0ZOCNT0"
  | CommodityFutures => sub "H0CFCNT0"
  | NightFutures => sub "H0MFCNT0" | NightOption => sub "H0EUCNT0"
  | PError => no_input
  end.
Definition get_execution_subscription_input (m : ProductManager) (product : string) : SubscriptionInput :=
  match get_product_type m product with
  | IndexFutures | IndexOption | StockFutures | StockOption | CommodityFutures =>
      {| tr_id := "H0IFCNI0"; tr_key := product |}
  | NightFutures | NightOption => {| tr_id := "H0MFCNI0"; tr_key := hts_id m |}
  | PError => no_input
  end.

(** ** Records *)

(** A filled record struct: its fields with their texts. *)
Definition struct : Type := list (string * string).
(** [vector_to_struct_impl]: an empty struct when the data is too short. *)
Definition vector_to_struct (fields : list string) (data : list string) (offset : nat) : struct :=
  if (length data <? offset + length fields)%nat then (fun f => (f, "")) <$> fields
  else zip fields (take (length fields) (drop offset data)).
Fixpoint field (s : struct) (name : string) : string :=
  match s with
  | [] => ""
  | (n, v) :: s => if decide (n = name) then v else field s name
  end.

Definition stod_field (s : struct) (name : string) : option double := stod (field s name).
Definition book_level (s : struct) (f : string * string) : option OrderbookLevel :=
  p ← stod_field s f.1; q ← stod_field s f.2;
  Some {| lvl_price := Some p; lvl_qty := Some q |}.
Definition normalize_orderbook (l : OrderbookLayout) (s : struct) : option OrderbookData :=
  bids ← mapM (book_level s) (ol_bids l);
  asks ← mapM (book_level s) (ol_asks l);
  Some {| bid_book := bids; ask_book := asks; ob_server_tstamp_ms := None |}.
Definition normalize_trade (l : TradeLayout) (s : struct) : option TradeData :=
  p ← stod_field s (tl_price l); q ← stod_field s (tl_qty l); b ← stod_field s (tl_buy_qty l);
  Some {| trade_price := Some p; cum_trade_qty := Some q; cum_buy_trade_qty := Some b;
          td_server_tstamp_ms := None |}.

(** [X.empty() ? NAN : std::stod(X)]. *)
Definition stod_or_nan (s : struct) (name : string) : option double :=
  if decide (field s name = "") then Some fnan else stod_field s name.

Definition normalize_day (s : struct) : option ExecutionData :=
  let is_executed := bool_decide (field s "CNTG_YN" = "2") in
  op ← stod_or_nan s "ORDER_PRC"; oq ← stod_or_nan s "ODER_QTY";
  xp ← stod_or_nan s "CNTG_UNPR"; xq ← stod_or_nan s "CNTG_QTY";
  Some {|
    account_no := field s "ACNT_NO"; ex_order_no := field s "ODER_NO";
    original_order_no := field s "OODER_NO"; client_order_id := "";
    short_product := field s "STCK_SHRN_ISCD"; full_product := field s "CNTG_ISNM";
    is_accept_data := negb is_executed;
    is_place := bool_decide (field s "RCTF_CLS" = "0");
    is_cancel := bool_decide (field s "RCTF_CLS" = "2");
    ex_is_bid := bool_decide (field s "SELN_BYOV_CLS" = "02");
    is_accepted := if is_executed then false else bool_decide (field s "ACPT_YN" = "1");
    is_rejected := if is_executed then false else bool_decide (field s "RFUS_YN" <> "");
    is_executed := is_executed; update_position_on_fill := true;
    order_price := Some op; order_qty := Some oq; execute_price := Some xp; execute_qty := Some xq |}.
Definition normalize_night (s : struct) : option ExecutionData :=
  let is_executed := bool_decide (field s "CNTG_YN" = "2") in
  oq ← stod_or_nan s "ODER_QTY"; xp ← stod_or_nan s "CNTG_UNPR"; xq ← stod_or_nan s "CNTG_QTY";
  Some {|
    account_no := field s "ACNT_NO"; ex_order_no := field s "ODER_NO";
    original_order_no := field s "OODER_NO"; client_order_id := "";
    short_product := field s "STCK_SHRN_ISCD"; full_product := field s "CNTG_ISNM";
    is_accept_data := negb is_executed; is_place := false; is_cancel := false;
    ex_is_bid := bool_decide (field s "SELN_BYOV_CLS" = "02");
    is_accepted := if is_executed then false else bool_decide (field s "ACPT_YN" = "1");
    is_rejected := if is_executed then false else bool_decide (field s "RFUS_YN" <> "");
    is_executed := is_executed; update_position_on_fill := true;
    order_price := None; order_qty := Some oq; execute_price := Some xp; execute_qty := Some xq |}.

Definition orderbook_layout (t : ProductType) : option OrderbookLayout :=
  match t with
  | IndexFutures => Some IndexFuturesOrderbookResponse
  | IndexOption => Some IndexOptionOrderbookResponse
  | StockFutures => Some StockFuturesOrderbookResponse
  | StockOption => Some StockOptionOrderbookResponse
  | CommodityFutures => Some CommodityFuturesOrderbookResponse
  | NightFutures => Some NightFuturesOrderbookResponse
  | NightOption => Some NightOptionOrderbookResponse
  | PError => None
  end.
Definition trade_layout (t : ProductType) : option TradeLayout :=
  match t with
  | IndexFutures => Some IndexFuturesTradeResponse
  | IndexOption => Some IndexOptionTradeResponse
  | StockFutures => Some StockFuturesTradeResponse
  | StockOption => Some StockOptionTradeResponse
  | CommodityFutures => Some CommodityFuturesTradeResponse
  | NightFutures => Some NightFuturesTradeResponse
  | NightOption => Some NightOptionTradeResponse
  | PError => None
  end.

(** [parse_*_data]: how far to move on, and the message; [None] is an exception. *)
Definition parse_orderbook_data (m : ProductManager) (product : string) (offset : nat)
    (data : list string) : option (nat * ListenerEvent) :=
  match orderbook_layout (get_product_type m product) with
  | None => Some (0%nat, OrderbookMsg product OrderbookData_empty)
  | Some l =>
      d ← normalize_orderbook l (vector_to_struct (ol_fields l) data offset);
      Some (length (ol_fields l), OrderbookMsg product d)
  end.
Definition parse_trade_data (m : ProductManager) (product : string) (offset : nat)
    (data : list string) : option (nat * ListenerEvent) :=
  match trade_layout (get_product_type m product) with
  | None => Some (0%nat, TradeMsg product TradeData_default)
  | Some l =>
      d ← normalize_trade l (vector_to_struct (tl_fields l) data offset);
      Some (length (tl_fields l), TradeMsg product d)
  end.

(** The first text at or after [offset] that is a known product. *)
Fixpoint find_product (m : ProductManager) (data : list string) : option (string * ProductType) :=
  match data with
  | [] => None
  | s :: data =>
      if decide (s = "" \/ get_product_type m s = PError) then find_product m data
      else Some (s, get_product_type m s)
  end.
Definition parse_execution_data (m : ProductManager) (offset : nat) (data : list string)
    : option (nat * ListenerEvent) :=
  match find_product m (drop offset data) with
  | None => Some (0%nat, ExecutionMsg "" ExecutionData_default)
  | Some (product, t) =>
      let '(fields, normalize) :=
        match t with
        | NightFutures | NightOption => (NightExecutionResponse, normalize_night)
        | _ => (DayExecutionResponse, normalize_day)
        end in
      d ← normalize (vector_to_struct fields data offset);
      Some (length fields, ExecutionMsg product d)
  end.
