(* ===== verification/KisListener.v ===== *)
(** * KisListener: the KIS market adapter

    [market_listener/exchange/kis/kis_listener.cpp] and the message half of
    [connection_handlers/websocket/kis/kis_ws_client.cpp], over the products and records of
    [KisProduct] and the redial supervisor of [Reconnect].  AES decryption and JSON are
    parameters.  The worker runs its handlers outside any [try]: an exception out of one
    ends the process, and is the state [Crashed]. *)
From Stdlib Require Import Ascii.
From S2P Require Import Prelude Double Text Messages.
From S2P Require Import Json ListenerEvents Reconnect KisLayouts KisProduct.

#[local] Open Scope string_scope.
#[local] Open Scope list_scope.
#[local] Open Scope Z_scope.

(** ** The websocket client's messages *)

(** [split_msg]: every piece, the last one even when empty. *)
Fixpoint split_msg (fuel : nat) (sep : ascii) (s : string) : list string :=
  match fuel with
  | O => [s]
  | S fuel => match split_at sep s with
              | Some (l, r) => l :: split_msg fuel sep r
              | None => [s]
              end
  end.
Definition split (sep : ascii) (s : string) : list string := split_msg (String.length s) sep s.

Record WsMarketDataResponse := {
  wm_tr_id_type : TrIdType; data_num : Z; market_data : list string }.

(** The decryption key and iv, as last received. *)
Record WsKeys := { ws_iv : string; ws_key : string }.

(** Substring search, [find(needle) != npos]. *)
Fixpoint contains (needle s : string) : bool :=
  String.prefix needle s ||
  match s with EmptyString => false | String _ s => contains needle s end.

Section client.
Context {J : Type} `{!JsonValue J}.
Variable parse : string -> option J.
Variable aes_cbc_decrypt : WsKeys -> string -> string.

(** [json["key"]]: a missing member and a null value are null ([Some None]); any other
    value that is not an object throws. *)
Definition sub (o : option J) (key : string) : option (option J) :=
  match o with
  | None => Some None
  | Some j => if j_is_null j then Some None
              else if j_is_object j then Some (j_member j key) else None
  end.
Definition text_of (o : option J) : option string := j ← o; j_string j.

(** The keys after a subscription reply; what was assigned before a throw stays. *)
Definition read_keys (msg : string) (k : WsKeys) : WsKeys :=
  match (j ← parse msg; body ← sub (Some j) "body"; m ← sub body "msg1"; Some (body, m)) with
  | Some (body, m) =>
      if decide (text_of m = Some "SUBSCRIBE SUCCESS") then
        match (out ← sub body "output"; iv ← sub out "iv"; iv' ← text_of iv; Some (out, iv')) with
        | None => k
        | Some (out, iv') =>
            match (kv ← sub out "key"; text_of kv) with
            | None => {| ws_iv := iv'; ws_key := ws_key k |}
            | Some k' => {| ws_iv := iv'; ws_key := k' |}
            end
        end
      else k
  | None => k
  end.

(** [on_stream_message]: the response queued, if any, and the keys. *)
Definition on_stream_message (msg : string) (k : WsKeys) : option WsMarketDataResponse * WsKeys :=
  match msg with
  | EmptyString => (None, k)
  | String a _ =>
      if Ascii.eqb a "0" || Ascii.eqb a "1" then
        match split "|" msg with
        | _ :: id :: num :: payload :: _ =>
            let t := get_tr_id_type id in
            let data := match t with
                        | ExecutionTrId => split "^" (aes_cbc_decrypt k payload)
                        | _ => split "^" payload
                        end in
            (n ← stoull num; Some {| wm_tr_id_type := t; data_num := n; market_data := data |}, k)
        | _ => (None, k)
        end
      else if contains "header" msg then (None, read_keys msg k) else (None, k)
  end.
End client.

(** ** The adapter *)
Inductive WorkerState := Running | Crashed.

Record KisListener := {
  kl_config : ListenerConfig;
  product_manager : ProductManager;
  subscription_messages : list string;
  kl_socket : Sup;
  kl_sent : list string;                (* on the socket *)
  kl_events : list ListenerEvent;
  kl_worker : WorkerState }.

Definition write_ws_request_msg (token : option string) (input : SubscriptionInput) : string :=
  match token with
  | None => ""
  | Some key =>
      let quote s := String "034" s +:+ String "034" "" in
      let pair k v := quote k +:+ ":" +:+ quote v in
      "{" +:+ quote "header" +:+ ":{" +:+ pair "approval_key" key +:+ "," +:+ pair "custtype" "P"
      +:+ "," +:+ pair "tr_type" "1" +:+ "," +:+ pair "content-type" "utf-8" +:+ "},"
      +:+ quote "body" +:+ ":{" +:+ quote "input" +:+ ":{" +:+ pair "tr_id" (tr_id input)
      +:+ "," +:+ pair "tr_key" (tr_key input) +:+ "}}}"
  end.

(** The constructor; [None] is the throw on a market other than derivatives. *)
Definition KisListener_new (config : ListenerConfig) (file : string -> option string)
    (hts : string) (token : option string) : option KisListener :=
  if decide (lc_market_type config = "derivatives") then
    let m := ProductManager_new file hts (lc_is_night config) in
    Some {|
      kl_config := config; product_manager := m;
      subscription_messages := lc_products config ≫= (fun p =>
        [write_ws_request_msg token (get_orderbook_subscription_input m p);
         write_ws_request_msg token (get_trade_subscription_input m p);
         write_ws_request_msg token (get_execution_subscription_input m p)]);
      kl_socket := Sup_new; kl_sent := []; kl_events := []; kl_worker := Running |}
  else None.

Definition KL : Type -> Type := st KisListener.
Definition kl_push (es : list ListenerEvent) : KL unit := modify (fun w => {|
  kl_config := kl_config w; product_manager := product_manager w;
  subscription_messages := subscription_messages w; kl_socket := kl_socket w;
  kl_sent := kl_sent w; kl_events := kl_events w ++ es; kl_worker := kl_worker w |}).
Definition kl_on_socket (f : Sup -> Sup) : KL unit := modify (fun w => {|
  kl_config := kl_config w; product_manager := product_manager w;
  subscription_messages := subscription_messages w; kl_socket := f (kl_socket w);
  kl_sent := kl_sent w; kl_events := kl_events w; kl_worker := kl_worker w |}).
Definition kl_send (msgs : list string) : KL unit := modify (fun w => {|
  kl_config := kl_config w; product_manager := product_manager w;
  subscription_messages := subscription_messages w; kl_socket := kl_socket w;
  kl_sent := kl_sent w ++ msgs; kl_events := kl_events w; kl_worker := kl_worker w |}).
Definition kl_crash : KL unit := modify (fun w => {|
  kl_config := kl_config w; product_manager := product_manager w;
  subscription_messages := subscription_messages w; kl_socket := kl_socket w;
  kl_sent := kl_sent w; kl_events := kl_events w; kl_worker := Crashed |}).

(** One record at [offset]: how far to move on and what to push; [None] is an exception. *)
Definition parse_record (m : ProductManager) (t : TrIdType) (offset : nat) (data : list string)
    : option (nat * list ListenerEvent) :=
  let product := nth offset data "" in
  match t with
  | OrderbookTrId => '(n, e) ← parse_orderbook_data m product offset data; Some (n, [e])
  | TradeTrId => '(n, e) ← parse_trade_data m product offset data; Some (n, [e])
  | ExecutionTrId => '(n, e) ← parse_execution_data m offset data; Some (n, [e])
  | TrError => Some (0%nat, [])
  end.

(** The record loop of [on_market_data]: the events of the records handled, and whether it
    came to its end (an exception cuts it short). *)
Fixpoint parse_records (m : ProductManager) (t : TrIdType) (n offset : nat) (data : list string)
    : list ListenerEvent * bool :=
  match n with
  | O => ([], true)
  | S n =>
      if (length data <=? offset)%nat then ([], true)
      else
        match parse_record m t offset data with
        | None => ([], false)
        | Some (k, es) => let '(es', ok) := parse_records m t n (offset + k) data in (es ++ es', ok)
        end
  end.
Definition on_market_data (r : WsMarketDataResponse) : KL unit :=
  w ← gets id;
  let '(es, ok) := parse_records (product_manager w) (wm_tr_id_type r) (Z.to_nat (data_num r)) 0
                     (market_data r) in
  kl_push es ;; if (ok : bool) then skip else kl_crash.

(** [on_ws_client_open]: one [send] per subscription message.  [send] throws unless the
    connection is open, and an empty slot is a null pointer; neither is caught: [false]. *)
Definition on_ws_client_open : KL bool :=
  w ← gets id;
  if bool_decide (subscription_messages w = []) then mret true
  else if bool_decide (ws_phase <$> sup_client (kl_socket w) = Some Open) then
    kl_send (subscription_messages w) ;; mret true
  else mret false.
Definition on_kis_status (connecting opened : bool) : KL unit :=
  w ← gets id;
  ok ← (if negb (sup_opened (kl_socket w)) && opened then on_ws_client_open else mret true);
  if (ok : bool) then
    kl_on_socket (kis_on_ws_status connecting opened) ;;
    kl_push [StatusEvent "kis" connecting opened]
  else kl_crash.

(** [WsResponse] and the worker's dispatch; a crashed worker handles nothing more. *)
Inductive WsResponse := KStatus (connecting opened : bool) | KData (r : WsMarketDataResponse).
Definition kis_worker (r : WsResponse) : KL unit :=
  w ← gets id;
  match kl_worker w, r with
  | Crashed, _ => skip
  | Running, KStatus c o => on_kis_status c o
  | Running, KData d => on_market_data d
  end.

(** The socket's own events, and the worker's turn on the oldest status. *)
Definition kl_socket_event (f : WsClient -> WsClient * list (bool * bool)) : KL unit :=
  kl_on_socket (fun s => match sup_client s with Some c => client_event f c s | None => s end).
Definition kis_handle_status : KL unit :=
  w ← gets id;
  match sup_queue (kl_socket w) with
  | [] => skip
  | (c, o) :: _ => kl_on_socket pop ;; kis_worker (KStatus c o)
  end.

(** The adapter publishes neither product info nor account snapshots. *)
#[export] Instance KisAdapter : ExchangeListener KisListener := {|
  publish_product_info w := (w, [], false);
  publish_user_state w := (w, [], false) |}.

(** ** Records on the wire *)

(** An execution record does not start with its product: it is the first text of the
    record that names one. *)
Definition names_product (m : ProductManager) (rec : list string) (p : string) : Prop :=
  exists pre post, rec = pre ++ p :: post /\ p <> "" /\ get_product_type m p <> PError /\
    Forall (fun s => s = "" \/ get_product_type m s = PError) pre.
(** How the record of a product's execution is laid out and read. *)
Definition execution_form (t : ProductType) : list string * (struct -> option ExecutionData) :=
  match t with
  | NightFutures | NightOption => (NightExecutionResponse, normalize_night)
  | _ => (DayExecutionResponse, normalize_day)
  end.

(** [rec] is a whole record of kind [t] and stands for the event [e]. *)
Definition record_of (m : ProductManager) (t : TrIdType) (rec : list string) (e : ListenerEvent) : Prop :=
  match t with
  | OrderbookTrId => exists p rest l d,
      rec = p :: rest /\ orderbook_layout (get_product_type m p) = Some l /\
      length rec = length (ol_fields l) /\
      normalize_orderbook l (zip (ol_fields l) rec) = Some d /\ e = OrderbookMsg p d
  | TradeTrId => exists p rest l d,
      rec = p :: rest /\ trade_layout (get_product_type m p) = Some l /\
      length rec = length (tl_fields l) /\
      normalize_trade l (zip (tl_fields l) rec) = Some d /\ e = TradeMsg p d
  | ExecutionTrId => exists p d, names_product m rec p /\
      let '(fields, normalize) := execution_form (get_product_type m p) in
      length rec = length fields /\ normalize (zip fields rec) = Some d /\ e = ExecutionMsg p d
  | TrError => False
  end.

Lemma find_product_named m rec rest p :
  names_product m rec p -> find_product m (rec ++ rest) = Some (p, get_product_type m p).
Proof.
  intros (pre&post&->&Hne&Ht&Hpre). rewrite <- app_assoc. induction Hpre as [|s pre Hs _ IH]; simpl.
  - by rewrite decide_False by tauto.
  - by rewrite decide_True.
Qed.

Lemma vector_to_struct_at fields pre rec rest :
  length rec = length fields ->
  vector_to_struct fields (pre ++ rec ++ rest) (length pre) = zip fields rec.
Proof.
  intros H. unfold vector_to_struct. rewrite !length_app, drop_app_length.
  destruct (_ <? _)%nat eqn:E; [apply Nat.ltb_lt in E; lia|].
  by rewrite <- H, take_app_length.
Qed.

Lemma parse_record_at m t pre rec rest e :
  record_of m t rec e ->
  parse_record m t (length pre) (pre ++ rec ++ rest) = Some (length rec, [e]) /\ (0 < length rec)%nat.
Proof.
  unfold record_of, parse_record, parse_orderbook_data, parse_trade_data.
  destruct t; [| | |done].
  3: { intros (p&d&Hp&He). unfold parse_execution_data.
    rewrite drop_app_length, (find_product_named _ _ _ _ Hp).
    change (match get_product_type m p with
      | NightFutures | NightOption => (NightExecutionResponse, normalize_night)
      | _ => (DayExecutionResponse, normalize_day) end) with (execution_form (get_product_type m p)).
    destruct (execution_form _) as [fields normalize]. destruct He as (Hn&Hd&->).
    rewrite vector_to_struct_at, Hd by done. simpl. rewrite Hn. split; [done|].
    rewrite <- Hn. destruct Hp as (pre'&post&->&_). rewrite length_app. simpl. lia. }
  all: intros (p&tl&l&d&->&Hl&Hn&Hd&->);
    rewrite app_nth2, Nat.sub_diag by lia; simpl nth;
    rewrite Hl, vector_to_struct_at by done; rewrite Hd; simpl in *; rewrite <- Hn; (split; [done|lia]).
Qed.

Lemma frame_records m t recs es n pre :
  Forall2 (record_of m t) recs es -> (length recs <= n)%nat ->
  parse_records m t n (length pre) (pre ++ concat recs) = (es, true).
Proof.
  intros Hf. revert pre n. induction Hf as [|rec e recs es He _ IH]; intros pre n Hn.
  - destruct n as [|n]; simpl; [done|]. by rewrite app_nil_r, Nat.leb_refl.
  - destruct n as [|n]; [simpl in Hn; lia|]. cbn [parse_records concat].
    destruct (parse_record_at m t pre rec (concat recs) e He) as [-> Hpos].
    rewrite !length_app. destruct (_ <=? _)%nat eqn:E; [apply Nat.leb_le in E; lia|].
    rewrite <- length_app, app_assoc, IH by (simpl in Hn; lia). done.
Qed.

(** C27: A frame of whole records is read record by record.  For order books, trades and
    executions alike: whatever mixture of known products the frame holds, each record, as
    long as its own product's layout and with numbers where the layout has them, is cut at
    that length and pushed as one event -- its own normalization -- in order; the count in
    the frame may overstate but then nothing is lost or invented, and the worker goes on.
    A record cut short or unreadable is outside this: it ends the process
    ([short_record_ends_the_process]). *)
Theorem frame_is_read_in_full t recs es n w :
  kl_worker w = Running ->
  Forall2 (record_of (product_manager w) t) recs es -> Z.of_nat (length recs) <= n ->
  let w' := (kis_worker (KData {| wm_tr_id_type := t; data_num := n; market_data := concat recs |}) w).2 in
  kl_events w' = kl_events w ++ es /\ kl_worker w' = Running.
Proof.
  intros Hw Hf Hn. cbv zeta.
  pose proof (frame_records (product_manager w) t recs es (Z.to_nat n) [] Hf ltac:(lia)) as H.
  unfold kis_worker, gets, mbind, st_bind. cbn [fst snd id]. rewrite Hw.
  unfold on_market_data, gets, mbind, st_bind. cbn -[parse_records Z.to_nat concat].
  change (parse_records (product_manager w) t (Z.to_nat n) 0 (concat recs) = (es, true)) in H.
  rewrite H. done.
Qed.

(** ** Records cut short *)
Lemma field_empty fields name : field ((fun f => (f, "")) <$> fields) name = "".
Proof. induction fields as [|f l IH]; simpl; [done|]. by destruct (decide _). Qed.

Lemma stod_empty : stod "" = None.
Proof. by vm_compute. Qed.

Lemma short_orderbook_throws t l fields :
  orderbook_layout t = Some l -> normalize_orderbook l ((fun f => (f, "")) <$> fields) = None.
Proof.
  intros Hl. unfold normalize_orderbook.
  assert (exists f fs, ol_bids l = f :: fs) as (f&fs&->) by (destruct t; simplify_eq/=; eauto).
  simpl. unfold book_level, stod_field. by rewrite (field_empty fields f.1), stod_empty.
Qed.
Lemma short_trade_throws t l fields :
  trade_layout t = Some l -> normalize_trade l ((fun f => (f, "")) <$> fields) = None.
Proof. intros Hl. unfold normalize_trade, stod_field. by rewrite (field_empty fields (tl_price l)), stod_empty. Qed.

(** The first record of the frame is of a known product and is cut short. *)
Definition first_record_short (m : ProductManager) (t : TrIdType) (data : list string) : Prop :=
  exists p rest, data = p :: rest /\
    match t with
    | OrderbookTrId => exists l, orderbook_layout (get_product_type m p) = Some l /\
                                 (length data < length (ol_fields l))%nat
    | TradeTrId => exists l, trade_layout (get_product_type m p) = Some l /\
                             (length data < length (tl_fields l))%nat
    | _ => False
    end.

(** A short record ends the process.  The code that notices it logs a warning and goes
    on with an empty record, whose empty prices do not convert; nothing between the
    conversion and the worker thread's top catches the exception, so one truncated frame
    of a known product takes the listener down. *)
Theorem short_record_ends_the_process m t data n w :
  kl_worker w = Running -> product_manager w = m -> 0 < n -> first_record_short m t data ->
  kl_worker (kis_worker (KData {| wm_tr_id_type := t; data_num := n; market_data := data |}) w).2
    = Crashed.
Proof.
  intros Hw <- Hn (p&rest&->&Ht).
  assert (parse_records (product_manager w) t (Z.to_nat n) 0 (p :: rest) = ([], false)) as Hp.
  { destruct (Z.to_nat n) as [|k] eqn:Ek; [lia|]. simpl. unfold parse_record. simpl nth.
    destruct t; [| |done|done]; destruct Ht as (l&Hl&Hlt);
      unfold parse_orderbook_data, parse_trade_data; rewrite Hl; unfold vector_to_struct;
      (destruct (_ <? _)%nat eqn:E; [|apply Nat.ltb_ge in E; lia]).
    - by rewrite (short_orderbook_throws _ _ _ Hl).
    - by rewrite (short_trade_throws _ _ _ Hl). }
  change ((match kl_worker w with Crashed => skip
    | Running => on_market_data {| wm_tr_id_type := t; data_num := n; market_data := p :: rest |}
    end w).2.(kl_worker) = Crashed).
  rewrite Hw. unfold on_market_data, gets, mbind, st_bind. cbn -[parse_records Z.to_nat].
  by rewrite Hp.
Qed.

(** ** The opened session *)

(** When the worker gets to the news of an open connection that is still open, every
    subscription is sent on it, once and in order. *)
Lemma open_session_subscribes w c :
  kl_worker w = Running -> sup_client (kl_socket w) = Some c -> ws_phase c = Open ->
  sup_opened (kl_socket w) = false ->
  let w' := (kis_worker (KStatus false true) w).2 in
  kl_sent w' = kl_sent w ++ subscription_messages w /\ kl_worker w' = Running /\
  sup_opened (kl_socket w') = true /\ kl_events w' = kl_events w ++ [StatusEvent "kis" false true].
Proof.
  intros Hw Hc Hp Ho. cbv zeta. unfold kis_worker, on_kis_status, on_ws_client_open, mbind, st_bind.
  cbn [gets fst snd id]. rewrite Hw. cbn [gets fst snd id]. rewrite Ho. cbn [negb andb fst snd gets id].
  rewrite Hc. cbn [fmap option_fmap option_map]. rewrite Hp.
  case_bool_decide as E; cbn; [by rewrite E, app_nil_r|]. done.
Qed.

(** A connection that opens and closes before the worker has seen it open ends the process:
    the subscriptions are sent on it all the same, [send] throws, and nothing catches it.
    The close itself is in the queue, one place behind. *)
Theorem stale_open_ends_the_process w :
  kl_worker w = Running -> kl_socket w = Sup_new -> subscription_messages w <> [] ->
  let w' := ((kl_on_socket (create_client true) ;; kl_socket_event on_open ;; kl_socket_event on_down ;;
    kis_handle_status ;; kis_handle_status) w).2 in
  kl_worker w' = Crashed /\ sup_queue (kl_socket w') = [(false, false)].
Proof.
  intros Hw Hs Hm. cbv zeta. unfold kis_handle_status, kl_socket_event, kl_on_socket, kis_worker, on_kis_status,
    on_ws_client_open, mbind, st_bind. cbn [gets fst snd id modify]. rewrite Hs. cbn.
  rewrite !Hw. cbn. rewrite !bool_decide_eq_false_2 by done. done.
Qed.

(** ** Subscriptions come back classified *)

(** The subscription table and the classification table agree: a frame that arrives
    under the transaction id a known product was subscribed with is read as what was
    subscribed, for each of the three kinds. *)
Theorem subscriptions_classified m p :
  get_product_type m p <> PError ->
  get_tr_id_type (tr_id (get_orderbook_subscription_input m p)) = OrderbookTrId /\
  get_tr_id_type (tr_id (get_trade_subscription_input m p)) = TradeTrId /\
  get_tr_id_type (tr_id (get_execution_subscription_input m p)) = ExecutionTrId /\
  is_Some (orderbook_layout (get_product_type m p)) /\ is_Some (trade_layout (get_product_type m p)).
Proof.
  unfold get_orderbook_subscription_input, get_trade_subscription_input,
    get_execution_subscription_input.
  destruct (get_product_type m p); intros H; try done; by split_and!; try (by eexists).
Qed.

(** ** A concrete manager *)
Module SampleKis.
Definition manager : ProductManager := {|
  idx_fo_products := {["101V6"]}; stock_fo_products := ∅; com_fo_products := ∅;
  night_option_products := ∅; is_night := false; hts_id := "me" |}.
Definition listener : KisListener := {|
  kl_config := {|
    lc_exchange := "kis"; lc_region := ""; lc_market_type := "derivatives"; lc_is_night := false;
    lc_product_specs := []; lc_orderbook_levels := 20; lc_product_info_refresh_sec := 0;
    lc_domain_type := "real"; lc_no_orderbook_log := false; lc_no_public_trade_log := false |};
  product_manager := manager; subscription_messages := []; kl_socket := Sup_new; kl_sent := [];
  kl_events := []; kl_worker := Running |}.
(** A trade record: every field "1" but the product. *)
Definition record : list string := "101V6" :: replicate 49 "1".
Definition event : ListenerEvent := TradeMsg "101V6" {|
  trade_price := Some fone; cum_trade_qty := Some fone; cum_buy_trade_qty := Some fone;
  td_server_tstamp_ms := None |}.
(** An execution report: the product is its eighth field. *)
Definition execution : list string := replicate 7 "1" ++ "101V6" :: replicate 14 "1".
End SampleKis.

(** Two trades, and an execution report of the same product. *)
Lemma frame_is_read_in_full_witness :
  kl_events (kis_worker (KData {| wm_tr_id_type := TradeTrId; data_num := 5;
    market_data := concat [SampleKis.record; SampleKis.record] |}) SampleKis.listener).2 =
    [SampleKis.event; SampleKis.event] /\
  exists d, kl_events (kis_worker (KData {| wm_tr_id_type := ExecutionTrId; data_num := 1;
    market_data := concat [SampleKis.execution] |}) SampleKis.listener).2 = [ExecutionMsg "101V6" d].
Proof.
  split.
  - apply (frame_is_read_in_full TradeTrId [SampleKis.record; SampleKis.record]
      [SampleKis.event; SampleKis.event] 5 SampleKis.listener); [done| |simpl; lia].
    assert (record_of SampleKis.manager TradeTrId SampleKis.record SampleKis.event) as H.
    { exists "101V6", (replicate 49 "1"), IndexFuturesTradeResponse. eexists.
      split_and!; by vm_compute. }
    by repeat constructor.
  - eexists. eapply (frame_is_read_in_full ExecutionTrId [SampleKis.execution] [_] 1 SampleKis.listener);
      [done| |simpl; lia]. constructor; [|constructor].
    exists "101V6". eexists. split.
    + exists (replicate 7 "1"), (replicate 14 "1"). split_and!; [done|done|by vm_compute|].
      repeat constructor; right; by vm_compute.
    + vm_compute. split_and!; reflexivity.
Defined.

Lemma short_record_ends_the_process_witness :
  kl_worker (kis_worker (KData {| wm_tr_id_type := TradeTrId; data_num := 1;
    market_data := ["101V6"; "090000"] |}) SampleKis.listener).2 = Crashed.
Proof.
  apply (short_record_ends_the_process SampleKis.manager TradeTrId); [done|done|lia|].
  exists "101V6", ["090000"]. split; [done|]. exists IndexFuturesTradeResponse.
  split; [by vm_compute|simpl; lia].
Defined.

Lemma stale_open_ends_the_process_witness :
  let w := {| kl_config := kl_config SampleKis.listener; product_manager := SampleKis.manager;
    subscription_messages := ["sub"]; kl_socket := Sup_new; kl_sent := []; kl_events := [];
    kl_worker := Running |} in
  kl_worker ((kl_on_socket (create_client true) ;; kl_socket_event on_open ;; kl_socket_event on_down ;;
    kis_handle_status ;; kis_handle_status) w).2 = Crashed.
Proof. intros w. by apply (stale_open_ends_the_process w). Defined.

Lemma subscriptions_classified_witness :
  get_product_type SampleKis.manager "101V6" <> PError /\
  get_tr_id_type (tr_id (get_orderbook_subscription_input SampleKis.manager "101V6")) = OrderbookTrId.
Proof.
  assert (get_product_type SampleKis.manager "101V6" <> PError) as H by (by vm_compute).
  split; [exact H|]. by destruct (subscriptions_classified SampleKis.manager "101V6" H).
Defined.
