(* ===== verification/TaskRunner.v ===== *)
(** * TaskRunner: one worker, in order

    [utils/task_runner.cpp]: the bounded queue and single worker behind the KIS REST
    gateway.  A task is a value of any type; [post], and the two halves of the worker's
    loop (take a task, finish it), are the steps.  [drain] waits for the counter to reach
    zero, which the last theorem shows it does. *)
From S2P Require Import Prelude.

#[local] Open Scope list_scope.
#[local] Open Scope Z_scope.

Section runner.
Context {T : Type}.

Record SerialTaskRunner := {
  max_queued : Z;
  outstanding : Z;             (* queued or running *)
  queue : list T;              (* oldest first *)
  running : option T;
  finished : list T }.         (* in the order they were finished *)

(** [max_queued > 0 ? max_queued : 1]. *)
Definition SerialTaskRunner_new (max : Z) : SerialTaskRunner := {|
  max_queued := if 0 <? max then max else 1; outstanding := 0; queue := []; running := None;
  finished := [] |}.

Definition post (t : T) (r : SerialTaskRunner) : bool * SerialTaskRunner :=
  if max_queued r <=? outstanding r then (false, r)
  else (true, {| max_queued := max_queued r; outstanding := outstanding r + 1;
                 queue := queue r ++ [t]; running := running r; finished := finished r |}).

(** The worker takes the next task when idle; [None] when there is nothing to take. *)
Definition take_task (r : SerialTaskRunner) : option SerialTaskRunner :=
  match running r, queue r with
  | None, t :: q => Some {| max_queued := max_queued r; outstanding := outstanding r; queue := q;
                            running := Some t; finished := finished r |}
  | _, _ => None
  end.
(** ... and finishes it, whether it returned or threw. *)
Definition finish_task (r : SerialTaskRunner) : option SerialTaskRunner :=
  match running r with
  | Some t => Some {| max_queued := max_queued r; outstanding := outstanding r - 1;
                      queue := queue r; running := None; finished := finished r ++ [t] |}
  | None => None
  end.
Definition worker_step (r : SerialTaskRunner) : option SerialTaskRunner :=
  match finish_task r with Some r' => Some r' | None => take_task r end.

Definition pending (r : SerialTaskRunner) : Z := outstanding r.

(** Everything accepted, in the order the worker runs it. *)
Definition in_order (r : SerialTaskRunner) : list T :=
  finished r ++ option_list (running r) ++ queue r.

Record runner_ok (r : SerialTaskRunner) : Prop := {
  ro_count : outstanding r = Z.of_nat (length (option_list (running r)) + length (queue r));
  ro_bound : 0 < max_queued r /\ outstanding r <= max_queued r }.

(** Posts (with their answers) and worker steps, interleaved. *)
Inductive runner_trace : SerialTaskRunner -> list (T * bool) -> SerialTaskRunner -> Prop :=
  | rt_nil r : runner_trace r [] r
  | rt_post r t ok r1 ts r' : post t r = (ok, r1) -> runner_trace r1 ts r' ->
      runner_trace r ((t, ok) :: ts) r'
  | rt_work r r1 ts r' : worker_step r = Some r1 -> runner_trace r1 ts r' -> runner_trace r ts r'.

Definition accepted_tasks (ts : list (T * bool)) : list T := (filter (fun p => p.2 = true) ts).*1.

Lemma runner_new_ok max : runner_ok (SerialTaskRunner_new max).
Proof.
  split; simpl; [done|]. destruct (0 <? max) eqn:E; zify_bools; lia.
Qed.

Lemma post_spec t r :
  runner_ok r ->
  runner_ok (post t r).2 /\
  in_order (post t r).2 = in_order r ++ (if (post t r).1 then [t] else []) /\
  ((post t r).1 = false <-> outstanding r = max_queued r).
Proof.
  intros [Hc [Hb Hm]]. unfold post, in_order. destruct (_ <=? _) eqn:E; zify_bools; simpl.
  - split_and!; [by split|by rewrite app_nil_r|]. split; [lia|done].
  - split_and!; [|by rewrite <- !app_assoc|split; [done|lia]].
    split; simpl; [rewrite length_app; simpl; lia|lia].
Qed.

Lemma worker_step_spec r r' :
  worker_step r = Some r' -> runner_ok r ->
  runner_ok r' /\ in_order r' = in_order r /\
  2 * outstanding r' + Z.of_nat (length (queue r')) < 2 * outstanding r + Z.of_nat (length (queue r)).
Proof.
  unfold worker_step, finish_task, take_task, in_order. intros Hs [Hc [Hb Hm]].
  destruct (running r) as [t|]; [|destruct (queue r) as [|t q] eqn:Eq]; simplify_eq; simpl in *.
  - split_and!; [|by rewrite <- app_assoc|lia]. split; simpl; lia.
  - split_and!; [|done|lia]. split; simpl; lia.
Qed.

(** With nothing outstanding, everything accepted has been run. *)
Lemma runner_idle r : runner_ok r -> outstanding r = 0 -> finished r = in_order r.
Proof.
  intros [Hc _] H. unfold in_order. destruct (running r); [simpl in Hc; lia|].
  destruct (queue r); [by rewrite app_nil_r|simpl in Hc; lia].
Qed.

(** The runner is a bounded FIFO: at any moment, under any interleaving of posts with
    the worker, what it has run, is running and has queued is exactly what it accepted,
    in order, each once; the backlog never exceeds the cap. *)
Theorem runner_is_fifo max ts r :
  runner_trace (SerialTaskRunner_new max) ts r ->
  in_order r = accepted_tasks ts /\ 0 <= pending r <= max_queued r /\
  (pending r = 0 -> finished r = accepted_tasks ts).
Proof.
  assert (forall r0 ts r, runner_trace r0 ts r -> runner_ok r0 ->
    runner_ok r /\ in_order r = in_order r0 ++ accepted_tasks ts) as H.
  { clear. induction 1 as [r|r t ok r1 ts r' Hp _ IH|r r1 ts r' Hw _ IH]; intros Hok.
    - by rewrite app_nil_r.
    - destruct (post_spec t r Hok) as (H1&H2&_). rewrite Hp in H1, H2. simpl in *.
      destruct (IH H1) as [? ->]. split; [done|]. rewrite H2, <- app_assoc. f_equal.
      unfold accepted_tasks. rewrite filter_cons. simpl. by destruct ok.
    - destruct (worker_step_spec r r1 Hw Hok) as (H1&H2&_). destruct (IH H1) as [? ->].
      by rewrite H2. }
  intros Ht. destruct (H _ _ _ Ht (runner_new_ok max)) as [Hok Ho]. simpl in Ho.
  unfold pending. pose proof Hok as [Hc [Hb Hm]]. split_and!; [done|lia|done|].
  intros Hz. rewrite <- Ho. by apply runner_idle.
Qed.

(** The worker left alone, for [n] steps. *)
Fixpoint work (n : nat) (r : SerialTaskRunner) : SerialTaskRunner :=
  match n with
  | O => r
  | S n => match worker_step r with Some r' => work n r' | None => r end
  end.

(** [drain] ends: with no new posts the worker reaches an empty backlog, in a number of
    steps the cap bounds, and everything accepted has then been run. *)
Theorem drain_ends r :
  runner_ok r ->
  let r' := work (3 * Z.to_nat (max_queued r)) r in
  pending r' = 0 /\ finished r' = in_order r.
Proof.
  intros Hok. cbv zeta.
  assert (forall n r, runner_ok r ->
    2 * outstanding r + Z.of_nat (length (queue r)) <= Z.of_nat n ->
    pending (work n r) = 0 /\ finished (work n r) = in_order r) as H.
  { clear. assert (forall r, runner_ok r -> outstanding r = 0 -> finished r = in_order r) as Hend.
    { intros r H1 H2. by apply runner_idle. }
    induction n as [|n IH]; intros r Hok Hn; cbn [work].
    - assert (outstanding r = 0) as H0 by (destruct Hok as [Hc _]; lia). split; [done|by apply Hend].
    - destruct (worker_step r) as [r'|] eqn:Hw.
      + destruct (worker_step_spec r r' Hw Hok) as (H1&H2&H3). rewrite <- H2. apply IH; [done|lia].
      + assert (outstanding r = 0) as H0.
        { destruct Hok as [Hc _]. revert Hw. unfold worker_step, finish_task, take_task.
          destruct (running r); [done|]. destruct (queue r); [|done]. simpl in Hc. lia. }
        split; [done|by apply Hend]. }
  apply H; [done|]. destruct Hok as [Hc [Hb Hm]]. lia.
Qed.
End runner.
Arguments SerialTaskRunner : clear implicits.

Lemma runner_is_fifo_witness :
  let r0 := SerialTaskRunner_new 1 in
  let r1 := (post 7 r0).2 in
  let r2 := default r1 (worker_step r1) in
  let r3 := default r2 (worker_step r2) in
  in_order r3 = accepted_tasks [(7, true); (8, false)] /\ finished r3 = [7].
Proof.
  cbv zeta. split; [|by vm_compute].
  apply (runner_is_fifo 1).
  eapply rt_post; [by vm_compute|]. eapply rt_post; [by vm_compute|].
  eapply rt_work; [by vm_compute|]. eapply rt_work; [by vm_compute|]. apply rt_nil.
Defined.

Lemma drain_ends_witness :
  let r := (post 8 (post 7 (SerialTaskRunner_new 2)).2).2 in
  pending (work (3 * Z.to_nat (max_queued r)) r) = 0 /\
  finished (work (3 * Z.to_nat (max_queued r)) r) = [7; 8].
Proof.
  cbv zeta. destruct (drain_ends (post 8 (post 7 (SerialTaskRunner_new 2)).2).2) as [H1 H2].
  - split; vm_compute; [done|split; [done|by intros [=]]].
  - split; [exact H1|]. rewrite H2. by vm_compute.
Defined.
