(* ===== verification/Teardown.v ===== *)
(** * Teardown: destructors against the threads that are still running

    Every object of the program that owns a thread has to end it before it destroys what
    the thread uses.  A destructor is read as the list of what it stops, waits for and
    destroys, in the order of the source (its body first, then its members, last declared
    first); the threads take their steps in between.  Whether anything can be used after it
    is destroyed is then a check of that order, which is proved exact.

    [~OrderHandler], [~BaseOrderGateway], [~KoreanStockOrderGateway], [~SerialTaskRunner],
    [~WsOrderGateway], [~BinanceListener], [~KisListener], [~MarketListener], [~Pricer],
    [~TcpServer], the two feed clients and [~BaseWebsocketClient]. *)
From S2P Require Import Prelude.

#[local] Open Scope string_scope.
#[local] Open Scope list_scope.

(** ** Destructors and threads *)

(** Ask a thread to end, wait until it has, use a resource, destroy one. *)
Inductive Instr := Halt (t : string) | Join (t : string) | Touch (r : string) | Destroy (r : string).

(** The threads and what the handlers of each use. *)
Abbreviation Uses := (list (string * list string)).
Definition may_use (uses : Uses) (t r : string) : bool :=
  existsb (fun u => bool_decide (u.1 = t) && bool_decide (r ∈ u.2)) uses.
Definition users (uses : Uses) (r : string) : list string :=
  (filter (fun u => r ∈ u.2) uses).*1.

Record Td := {
  prog : list Instr;             (* what the destructor has still to do *)
  halted : gset string;          (* threads asked to end *)
  busy : gset string;            (* threads inside a handler *)
  ended : gset string;
  gone : gset string;            (* resources destroyed *)
  misused : gset (string * string) }.   (* (user, resource it used after its end) *)
Definition Td_new (p : list Instr) : Td := {|
  prog := p; halted := ∅; busy := ∅; ended := ∅; gone := ∅; misused := ∅ |}.

Section teardown.
Context (uses : Uses).

(** One instruction, or one move of a thread: it enters a handler, uses something there,
    leaves it; between handlers it ends, once asked to. *)
Inductive td_step : Td -> Td -> Prop :=
  | td_halt t p s : prog s = Halt t :: p -> td_step s {| prog := p; halted := {[t]} ∪ halted s;
      busy := busy s; ended := ended s; gone := gone s; misused := misused s |}
  | td_join t p s : prog s = Join t :: p -> t ∈ ended s -> td_step s {| prog := p;
      halted := halted s; busy := busy s; ended := ended s; gone := gone s; misused := misused s |}
  | td_touch r p s : prog s = Touch r :: p -> td_step s {| prog := p; halted := halted s;
      busy := busy s; ended := ended s; gone := gone s;
      misused := if decide (r ∈ gone s) then {[("destructor", r)]} ∪ misused s else misused s |}
  | td_destroy r p s : prog s = Destroy r :: p -> td_step s {| prog := p; halted := halted s;
      busy := busy s; ended := ended s; gone := {[r]} ∪ gone s; misused := misused s |}
  | td_begin t s : t ∉ ended s -> td_step s {| prog := prog s; halted := halted s;
      busy := {[t]} ∪ busy s; ended := ended s; gone := gone s; misused := misused s |}
  | td_use t r s : t ∈ busy s -> may_use uses t r = true -> td_step s {| prog := prog s;
      halted := halted s; busy := busy s; ended := ended s; gone := gone s;
      misused := if decide (r ∈ gone s) then {[(t, r)]} ∪ misused s else misused s |}
  | td_leave t s : t ∈ busy s -> td_step s {| prog := prog s; halted := halted s;
      busy := busy s ∖ {[t]}; ended := ended s; gone := gone s; misused := misused s |}
  | td_end t s : t ∉ busy s -> t ∈ halted s -> td_step s {| prog := prog s; halted := halted s;
      busy := busy s; ended := {[t]} ∪ ended s; gone := gone s; misused := misused s |}.

(** ** The check *)

(** Every thread is asked to end before it is waited for: the destructor can finish. *)
Fixpoint haltable (asked : list string) (p : list Instr) : bool :=
  match p with
  | [] => true
  | Halt t :: p => haltable (t :: asked) p
  | Join t :: p => bool_decide (t ∈ asked) && haltable asked p
  | Touch _ :: p | Destroy _ :: p => haltable asked p
  end.
(** [r] is destroyed only after every thread that uses it was waited for, and the
    destructor does not use it after that; [dead] says whether it is destroyed yet. *)
Fixpoint joined_first (r : string) (dead : bool) (joined : list string) (p : list Instr) : bool :=
  match p with
  | [] => true
  | Halt _ :: p => joined_first r dead joined p
  | Join t :: p => joined_first r dead (t :: joined) p
  | Touch r' :: p => negb (dead && bool_decide (r' = r)) && joined_first r dead joined p
  | Destroy r' :: p =>
      (negb (bool_decide (r' = r)) || forallb (fun t => bool_decide (t ∈ joined)) (users uses r)) &&
      joined_first r (dead || bool_decide (r' = r)) joined p
  end.

(** ** Soundness *)
Lemma may_use_users t r : may_use uses t r = true <-> t ∈ users uses r.
Proof.
  unfold may_use, users. rewrite existsb_exists. setoid_rewrite list_elem_of_fmap.
  setoid_rewrite list_elem_of_filter. setoid_rewrite <- list_elem_of_In. split.
  - intros ([t' rs]&Hin&[H1%bool_decide_eq_true H2%bool_decide_eq_true]%andb_true_iff).
    exists (t', rs). simpl in *. by subst.
  - intros ([t' rs]&->&H2&Hin). exists (t', rs). split; [done|]. simpl in *.
    by rewrite !bool_decide_eq_true_2.
Qed.

(** What the destructor has waited for has ended; what it has destroyed has no user left. *)
Record sound (r : string) (s : Td) : Prop := {
  so_joined : exists dead joined, joined_first r dead joined (prog s) = true /\
    (forall t, t ∈ joined -> t ∈ ended s) /\ (r ∈ gone s -> dead = true);
  so_gone : r ∈ gone s -> forall t, t ∈ users uses r -> t ∈ ended s;
  so_idle : ended s ## busy s;
  so_clean : forall t, (t, r) ∉ misused s }.

Lemma sound_step r s s' : td_step s s' -> sound r s -> sound r s'.
Proof.
  intros Hs [(D&J&HJ&He&HD) Hg Hi Hc].
  destruct Hs as [t p s Hp|t p s Hp Ht|r' p s Hp|r' p s Hp|t s Ht|t r' s Ht Hu|t s Ht|t s Hb Hh];
    [rewrite Hp in HJ; cbn [joined_first] in HJ..| | | |]; split; simpl; try done.
  - by exists D, J.
  - exists D, (t :: J). split_and!; [done| |done].
    intros t' [->|?]%elem_of_cons; [done|by apply He].
  - apply andb_true_iff in HJ as [_ HJ]. by exists D, J.
  - intros t. destruct (decide (r' ∈ gone s)) as [Hr|Hr]; [|apply Hc].
    intros [[= -> <-]%elem_of_singleton|?]%elem_of_union; [|by eapply Hc].
    apply andb_true_iff in HJ as [HJ _]. by rewrite (HD Hr), bool_decide_eq_true_2 in HJ.
  - apply andb_true_iff in HJ as [_ HJ]. eexists _, J. split_and!; [done..|].
    intros [->%elem_of_singleton|Hr]%elem_of_union; [|by rewrite HD].
    by rewrite bool_decide_eq_true_2, orb_true_r.
  - intros [->%elem_of_singleton|Hr]%elem_of_union t Ht; [|by apply Hg].
    rewrite bool_decide_eq_true_2 in HJ by done. cbn [negb orb] in HJ.
    apply andb_true_iff in HJ as [HJ _]. apply He.
    rewrite forallb_forall in HJ. specialize (HJ t ltac:(by apply list_elem_of_In)).
    by apply bool_decide_eq_true in HJ.
  - by exists D, J.
  - set_solver.
  - by exists D, J.
  - intros t'. case_decide as Hr; [|apply Hc].
    intros [[= <- <-]%elem_of_singleton|?]%elem_of_union; [|by eapply Hc].
    apply may_use_users in Hu. specialize (Hg Hr _ Hu). set_solver.
  - by exists D, J.
  - set_solver.
  - exists D, J. split_and!; [done| |done]. intros t' Ht'. apply He in Ht'. set_solver.
  - intros Hr t' Ht'. specialize (Hg Hr t' Ht'). set_solver.
  - set_solver.
Qed.
End teardown.

(** ** Completeness and progress *)
Section exactness.
Context (uses : Uses).
Abbreviation steps := (rtc (td_step uses)).

Lemma sound_reachable r p s :
  joined_first uses r false [] p = true -> steps (Td_new p) s -> sound uses r s.
Proof.
  intros Hp Hs. assert (sound uses r (Td_new p)) as H0.
  { split; simpl; try set_solver. exists false, [].
    split_and!; [done|by intros t ?%elem_of_nil|set_solver]. }
  induction Hs as [|s1 s2 s3 Hs _ IH]; [done|]. apply IH. by eapply sound_step.
Qed.

(** Where the check fails: a user that nothing before has waited for, or a use by the
    destructor itself. *)
Lemma check_fails r D J p :
  joined_first uses r D J p = false ->
  (exists p1 p2 t, p = p1 ++ Destroy r :: p2 /\ t ∈ users uses r /\ (t ∉ J) /\ (Join t ∉ p1)) \/
  (exists p1 p2, p = p1 ++ Touch r :: p2 /\ (D = true \/ Destroy r ∈ p1)).
Proof.
  revert D J. induction p as [|[t|t|r'|r'] p IH]; intros D J; cbn [joined_first]; [done|..].
  - intros [(p1&p2&u&->&Hu&HJ&Hp)|(p1&p2&->&Hp)]%IH; [left|right].
    + exists (Halt t :: p1), p2, u. split_and!; [done..|set_solver].
    + exists (Halt t :: p1), p2. split; [done|set_solver].
  - intros [(p1&p2&u&->&Hu&HJ&Hp)|(p1&p2&->&Hp)]%IH; [left|right].
    + exists (Join t :: p1), p2, u. split_and!; set_solver.
    + exists (Join t :: p1), p2. split; [done|set_solver].
  - intros [H|H]%andb_false_iff.
    + apply negb_false_iff, andb_true_iff in H as [-> ->%bool_decide_eq_true]. right.
      exists [], p. auto.
    + apply IH in H as [(p1&p2&u&->&Hu&HJ&Hp)|(p1&p2&->&Hp)]; [left|right].
      * exists (Touch r' :: p1), p2, u. split_and!; [done..|set_solver].
      * exists (Touch r' :: p1), p2. split; [done|set_solver].
  - intros [H|H]%andb_false_iff.
    + apply orb_false_iff in H as [Hr H]. apply negb_false_iff, bool_decide_eq_true in Hr as ->.
      apply not_true_iff_false in H. rewrite forallb_forall in H. left.
      destruct (decide (Forall (fun t => t ∈ J) (users uses r))) as [HF|HF].
      * destruct H. intros t Ht%list_elem_of_In. rewrite Forall_forall in HF.
        by apply bool_decide_eq_true, HF.
      * apply not_Forall_Exists in HF; [|apply _]. apply Exists_exists in HF as (t&Ht&HJ).
        exists [], p, t. split_and!; [done..|]. apply not_elem_of_nil.
    + apply IH in H as [(p1&p2&u&->&Hu&HJ&Hp)|(p1&p2&->&Hp)]; [left|right].
      * exists (Destroy r' :: p1), p2, u. split_and!; [done..|set_solver].
      * exists (Destroy r' :: p1), p2. split; [done|].
        destruct Hp as [Hp|Hp]; [|right; set_solver].
        apply orb_true_iff in Hp as [?| ->%bool_decide_eq_true]; [by left|right; set_solver].
Qed.

(** The destructor can go on: whatever it will wait for has been or will be asked to end. *)
Definition may_finish (s : Td) : Prop :=
  exists asked, haltable asked (prog s) = true /\ forall t, t ∈ asked -> t ∈ halted s.

Lemma may_finish_step s s' : td_step uses s s' -> may_finish s -> may_finish s'.
Proof.
  intros Hs (A&HA&Hh).
  destruct Hs as [t p s Hp|t p s Hp Ht|r' p s Hp|r' p s Hp|t s Ht|t r' s Ht Hu|t s Ht|t s Hb Hhalt];
    [rewrite Hp in HA; cbn [haltable] in HA..| | | |]; try (by exists A).
  - exists (t :: A). split; [done|]. simpl. intros t' [->|?%Hh]%elem_of_cons; set_solver.
  - apply andb_true_iff in HA as [_ HA]. by exists A.
Qed.

(** An idle thread that was asked to end can be waited for. *)
Lemma join_one t p s :
  prog s = Join t :: p -> t ∈ halted s -> t ∉ busy s ->
  exists s', steps s s' /\ prog s' = p /\ halted s' = halted s /\ busy s' = busy s /\ gone s' = gone s.
Proof.
  intros Hp Hh Hb. eexists. split.
  - eapply rtc_l; [by apply (td_end _ t)|]. apply rtc_once. eapply td_join; [done|]. simpl. set_solver.
  - done.
Qed.

(** The destructor runs past [p1] while the threads [B] stay inside their handlers. *)
Lemma run_past B r p1 p2 s :
  prog s = p1 ++ p2 -> may_finish s -> busy s = B -> (forall t, t ∈ B -> Join t ∉ p1) ->
  exists s', steps s s' /\ prog s' = p2 /\ busy s' = B /\
    (r ∈ gone s \/ Destroy r ∈ p1 -> r ∈ gone s').
Proof.
  revert s. induction p1 as [|i p1 IH]; intros s Hp Hf Hb Hn.
  { exists s. split_and!; [done..|]. intros [?|?%elem_of_nil]; done. }
  assert (exists s1, steps s s1 /\ prog s1 = p1 ++ p2 /\ busy s1 = B /\
    (r ∈ gone s \/ i = Destroy r -> r ∈ gone s1)) as (s1&Hs1&Hp1&Hb1&Hg1).
  { destruct i as [u|u|r'|r'].
    - eexists. split; [by apply rtc_once, td_halt|]. split_and!; [done..|]. by intros [?|?].
    - destruct Hf as (A&HA&Hh). rewrite Hp in HA. cbn [app haltable] in HA.
      apply andb_true_iff in HA as [HA%bool_decide_eq_true _].
      destruct (join_one u (p1 ++ p2) s Hp (Hh _ HA)) as (s'&?&?&_&Hb'&Hg'); [set_solver|].
      exists s'. rewrite Hb', Hg'. split_and!; [done..|]. by intros [?|?].
    - eexists. split; [by apply rtc_once, td_touch|]. split_and!; [done..|]. by intros [?|?].
    - eexists. split; [by apply rtc_once, td_destroy|]. split_and!; [done..|].
      simpl. intros [?|[= ->]]; set_solver. }
  destruct (IH s1 Hp1) as (s2&Hs2&?&?&Hg2); [|done|set_solver|].
  - clear -Hs1 Hf. induction Hs1; [done|]. eauto using may_finish_step.
  - exists s2. split_and!; [by etrans|done..|]. intros [?|[Hi|?]%elem_of_cons]; apply Hg2;
      [left; by apply Hg1; left|left; by apply Hg1; right|by right].
Qed.

Lemma finishes s : may_finish s -> exists s', steps s s' /\ prog s' = [].
Proof.
  remember (prog s) as p eqn:Hp. revert s Hp. induction p as [|i p IH]; intros s Hp Hf; [by exists s|].
  assert (exists s1, steps s s1 /\ prog s1 = p) as (s1&Hs1&Hp1).
  { destruct i as [u|u|r|r].
    - eexists. split; [by apply rtc_once, td_halt|done].
    - destruct Hf as (A&HA&Hh). rewrite <- Hp in HA. cbn [haltable] in HA.
      apply andb_true_iff in HA as [HA%bool_decide_eq_true _].
      destruct (decide (u ∈ busy s)) as [Hb|Hb].
      + edestruct (join_one u p) as (s'&Hs'&?&_).
        4: { exists s'. split; [eapply rtc_l; [by apply (td_leave _ u)|exact Hs']|done]. }
        * done.
        * by apply Hh.
        * simpl. set_solver.
      + destruct (join_one u p s) as (s'&?&?&_); [done|by apply Hh|done|]. by exists s'.
    - eexists. split; [by apply rtc_once, td_touch|done].
    - eexists. split; [by apply rtc_once, td_destroy|done]. }
  destruct (IH s1) as (s2&?&?); [done| |].
  - clear -Hs1 Hf. induction Hs1; [done|]. eauto using may_finish_step.
  - exists s2. split; [by etrans|done].
Qed.

(** The check is exact, for every destructor, set of threads and resource: in some
    interleaving [r] is used after it is destroyed if and only if the destructor destroys
    [r] before it has waited for every thread that uses it, or uses it later itself.  And a destructor that
    asks before it waits is never stuck: from every reachable state it can finish. *)
Lemma teardown_check_exact r p :
  haltable [] p = true ->
  ((exists s t, steps (Td_new p) s /\ (t, r) ∈ misused s) <-> joined_first uses r false [] p = false) /\
  (forall s, steps (Td_new p) s -> exists s', steps s s' /\ prog s' = []).
Proof.
  intros Hh. assert (may_finish (Td_new p)) as H0.
  { exists []. split; [done|]. by intros t ?%elem_of_nil. }
  assert (forall s, steps (Td_new p) s -> may_finish s) as Hf.
  { intros s Hs. induction Hs; eauto using may_finish_step. }
  split; [split|intros s Hs; by apply finishes, Hf].
  - intros (s&t&Hs&Ht). apply not_true_iff_false. intros Hj.
    by apply (so_clean _ _ _ (sound_reachable r p s Hj Hs) t).
  - intros [(p1&p2&t&->&Hu&_&Hn)|(p1&p2&->&Hd)]%check_fails.
    + pose proof (td_begin uses t (Td_new (p1 ++ Destroy r :: p2)) ltac:(set_solver)) as Hb.
      pose proof (may_finish_step _ _ Hb H0) as H1.
      match type of Hb with td_step _ _ ?x => set (s0 := x) in * end.
      destruct (run_past {[t]} r p1 (Destroy r :: p2) s0 eq_refl H1)
        as (s1&Hs1&Hp1&Hb1&_); [simpl; set_solver|set_solver|].
      eexists _, t. split.
      * eapply rtc_l; [exact Hb|]. etrans; [exact Hs1|].
        eapply rtc_l; [by eapply td_destroy|]. apply rtc_once, (td_use _ t r); [simpl; set_solver|].
        by apply may_use_users.
      * simpl. case_decide; set_solver.
    + destruct (run_past ∅ r p1 (Touch r :: p2) (Td_new (p1 ++ Touch r :: p2)) eq_refl H0)
        as (s1&Hs1&Hp1&_&Hg); [done|set_solver|].
      eexists _, "destructor". split.
      * etrans; [exact Hs1|]. by apply rtc_once, td_touch.
      * simpl. case_decide as Hr; [set_solver|]. destruct Hr, Hd as [?|?]; [done|auto].
Qed.
End exactness.

(** ** The destructors *)

(** Destroying a timer, or a server with an acceptor, uses the context it was made on. *)
Definition destroy_timer (r context : string) : list Instr := [Touch context; Destroy r].

(** The thread or member [m] of the object [o]. *)
Definition part (o m : string) : string := o +:+ "." +:+ m.

(** [TcpClientBase::stop]: the work posted to the client's own thread ends it. *)
Definition tcp_client_stop (c : string) : list Instr := [Halt (part c "io_thread_"); Join (part c "io_thread_")].
(** [~MarketFeedClient], [~FairPriceClient], then [~TcpClientBase], whose [stop] finds
    [running_] cleared.  The overrides of the hooks go with the derived part. *)
Definition feed_client_dtor (c : string) (stopped : bool) : list Instr :=
  (if stopped then [] else tcp_client_stop c) ++ [Destroy (part c "hooks"); Destroy (part c "base")].
Definition feed_client_uses (c : string) (sink : list string) : Uses :=
  [(part c "io_thread_", part c "hooks" :: part c "base" :: sink)].

(** [BinanceWebsocketClient] and [KisWebsocketClient] have no destructor of their own: the
    overrides and callbacks go first, then [~BaseWebsocketClient] stops and joins. *)
Definition ws_client_dtor (c : string) : list Instr :=
  [Destroy (part c "hooks"); Halt (part c "client_thread_"); Join (part c "client_thread_");
   Destroy (part c "base")].
Definition ws_client_uses (c : string) (sink : list string) : Uses :=
  [(part c "client_thread_", part c "hooks" :: part c "base" :: sink)].

(** [SerialTaskRunner::drain], seen from the tasks: nothing posts any more (the posting
    thread is the one that destroys), and the last one is waited for. *)
Definition runner_drain (r : string) : list Instr := [Halt (part r "tasks"); Join (part r "tasks")].
(** [~SerialTaskRunner]. *)
Definition runner_dtor (r : string) : list Instr :=
  runner_drain r ++ [Halt (part r "worker_"); Join (part r "worker_"); Destroy (part r "queue_")].
Definition runner_uses (r : string) (tasks_use : list string) : Uses :=
  [(part r "worker_", [part r "queue_"]); (part r "tasks", tasks_use)].

(** [~KoreanStockOrderGateway], [~BaseOrderGateway], then the base's members: the tasks parse
    through an override and deliver through the sink. *)
Definition kis_gateway_dtor : list Instr :=
  runner_drain "runner_" ++ [Destroy "gateway.hooks"] ++ runner_drain "runner_" ++
  [Destroy "gateway.headers"] ++ runner_dtor "runner_" ++ [Destroy "gateway.base"].
Definition kis_gateway_uses (sink : list string) : Uses :=
  runner_uses "runner_" ("gateway.hooks" :: "gateway.base" :: sink).

(** [~WsOrderGateway]: its body, then its members. *)
Definition ws_gateway_dtor : list Instr :=
  [Halt "gateway.io_thread_"; Join "gateway.io_thread_"] ++ ws_client_dtor "client_" ++
  destroy_timer "reconnect_timer_" "gateway.io_context_" ++
  [Destroy "gateway.io_context_"; Destroy "client_mutex_"; Destroy "gateway.base"].
Definition ws_gateway_uses (sink : list string) : Uses :=
  ("gateway.io_thread_", ["reconnect_timer_"; "gateway.io_context_"; "client_mutex_"; part "client_" "base";
                          "gateway.base"]) ::
  ws_client_uses "client_" ("gateway.io_context_" :: "gateway.base" :: sink).

(** [~OrderHandler]: the gateway first, by hand, then the links; then the members. *)
Definition order_handler_body : list Instr :=
  tcp_client_stop "listener_client_" ++ tcp_client_stop "pricer_client_" ++
  [Halt "io_thread_"; Join "io_thread_"].
Definition order_handler_members (gateway : list Instr) : list Instr :=
  feed_client_dtor "pricer_client_" true ++ feed_client_dtor "listener_client_" true ++
  destroy_timer "order_update_timer_" "io_context_" ++ [Destroy "io_context_"; Destroy "trader_queue_";
   Destroy "order_loggers_"; Destroy "product_states_"] ++ gateway ++
  [Destroy "shutting_down_"; Destroy "trade_products_"].
Definition order_handler_dtor (gateway : list Instr) : list Instr :=
  gateway ++ order_handler_body ++ order_handler_members [].
Definition order_handler_uses (gateway : list string -> Uses) : Uses :=
  gateway ["trader_queue_"] ++
  feed_client_uses "listener_client_" ["trader_queue_"] ++
  feed_client_uses "pricer_client_" ["trader_queue_"] ++
  [("io_thread_", ["order_update_timer_"; "io_context_"; "trader_queue_"; "shutting_down_";
                   "trade_products_"])].

(** [BinanceListener::stop] and the members after it; the key is closed in between. *)
Definition binance_listener_stop : list Instr :=
  [Halt "worker_thread_"; Halt "adapter.io_thread_"; Join "adapter.io_thread_"; Join "worker_thread_"] ++
  ws_client_dtor "market_client_" ++ ws_client_dtor "trade_client_" ++ ws_client_dtor "user_client_".
Definition binance_listener_members : list Instr :=
  destroy_timer "keepalive_timer_" "adapter.io_context_" ++
  destroy_timer "reconnect_timers_" "adapter.io_context_" ++ [Destroy "adapter.io_context_";
   Destroy "ws_event_queue_"; Destroy "order_books_"; Destroy "rest_client_"].
Definition binance_listener_uses (sink : list string) : Uses :=
  ("worker_thread_", ["ws_event_queue_"; "order_books_"; "rest_client_"; "adapter.io_context_"] ++ sink) ::
  ("adapter.io_thread_", ["keepalive_timer_"; "reconnect_timers_"; "adapter.io_context_"; "rest_client_";
     "ws_event_queue_"; part "market_client_" "base"; part "trade_client_" "base"; part "user_client_" "base"]) ::
  ws_client_uses "market_client_" ["ws_event_queue_"] ++
  ws_client_uses "trade_client_" ["ws_event_queue_"] ++ ws_client_uses "user_client_" ["ws_event_queue_"].

(** [KisListener::stop] and the members after it. *)
Definition kis_listener_stop : list Instr :=
  [Halt "worker_thread_"; Halt "adapter.io_thread_"; Join "adapter.io_thread_"; Join "worker_thread_"] ++
  ws_client_dtor "ws_client_".
Definition kis_listener_members : list Instr :=
  [Destroy "adapter.io_context_"] ++ destroy_timer "reconnect_timer_" "adapter.io_context_" ++
  [Destroy "ws_event_queue_"; Destroy "product_manager_"].
Definition kis_listener_uses (sink : list string) : Uses :=
  ("worker_thread_", ["ws_event_queue_"; "product_manager_"; "reconnect_timer_"; "adapter.io_context_";
     part "ws_client_" "base"] ++ sink) ::
  ("adapter.io_thread_", ["reconnect_timer_"; "adapter.io_context_"; part "ws_client_" "base"]) ::
  ws_client_uses "ws_client_" ["ws_event_queue_"; "product_manager_"].

(** [TcpServer::stop]: the worker ends at its next look at [running_]. *)
Definition tcp_server_stop : list Instr := [Halt "task_thread_"; Join "task_thread_"; Destroy "sessions_"].

(** [~MarketListener]: the product-info thread calls the adapter, so it goes first. *)
Definition market_listener_dtor (adapter_stop adapter_members : list Instr) : list Instr :=
  [Halt "product_info_thread_"; Join "product_info_thread_"] ++ adapter_stop ++ tcp_server_stop ++
  [Halt "tcp_context_thread_"; Join "tcp_context_thread_"] ++ adapter_members ++
  [Destroy "adapter_"; Destroy "user_state_mutex_"] ++
  destroy_timer "product_info_timer_" "product_info_io_context_" ++
  [Destroy "product_info_io_context_"] ++ destroy_timer "tcp_server_" "tcp_io_context_" ++
  [Destroy "tcp_io_context_"; Destroy "event_queue_"].
Definition market_listener_uses (adapter : list string -> Uses) : Uses :=
  adapter ["event_queue_"] ++
  [("product_info_thread_", ["adapter_"; "rest_client_"; "event_queue_"; "product_info_timer_";
                             "product_info_io_context_"]);
   ("task_thread_", ["tcp_server_"; "sessions_"; "user_state_mutex_"; "product_info_io_context_"]);
   ("tcp_context_thread_", ["tcp_server_"; "tcp_io_context_"])].

(** [~Pricer]. *)
Definition pricer_dtor : list Instr :=
  tcp_client_stop "listener_client_" ++ tcp_server_stop ++
  [Halt "server_io_thread_"; Halt "timer_io_thread_"; Join "server_io_thread_"; Join "timer_io_thread_"] ++
  destroy_timer "publish_timer_" "timer_io_context_" ++ [Destroy "timer_io_context_"] ++
  destroy_timer "tcp_server_" "server_io_context_" ++ [Destroy "server_io_context_"] ++ feed_client_dtor "listener_client_" true ++
  [Destroy "task_queue_"; Destroy "product_states_"; Destroy "config_"].
Definition pricer_uses : Uses :=
  feed_client_uses "listener_client_" ["task_queue_"] ++
  [("task_thread_", ["tcp_server_"; "sessions_"]);
   ("server_io_thread_", ["tcp_server_"; "server_io_context_"]);
   ("timer_io_thread_", ["publish_timer_"; "timer_io_context_"; "task_queue_"; "config_"])].

(** ** What the check says of them *)

(** What the threads use, and what the destructor uses itself. *)
Definition resources (uses : Uses) (p : list Instr) : list string :=
  remove_dups (concat uses.*2 ++ omap (fun i => match i with Touch r => Some r | _ => None end) p).
(** The ones a destructor does not protect. *)
Definition exposed (uses : Uses) (p : list Instr) : list string :=
  filter (fun r => joined_first uses r false [] p = false) (resources uses p).
(** Some interleaving uses [r] after its end. *)
Definition use_after_end (uses : Uses) (p : list Instr) (r : string) : Prop :=
  exists s t, rtc (td_step uses) (Td_new p) s /\ (t, r) ∈ misused s.

Lemma exposed_exact uses p r :
  haltable [] p = true -> use_after_end uses p r <-> r ∈ exposed uses p.
Proof.
  intros Hp. destruct (teardown_check_exact uses r p Hp) as [-> _].
  unfold exposed. rewrite list_elem_of_filter. split; [|tauto]. intros Hj. split; [done|].
  unfold resources. apply elem_of_remove_dups, elem_of_app.
  apply check_fails in Hj as [(_&_&t&_&Ht&_)|(p1&p2&->&_)]; [left|right].
  - unfold users in Ht. apply list_elem_of_fmap in Ht as ([t' rs]&_&[Hr Hin]%list_elem_of_filter).
    apply list_elem_of_In, in_concat. exists rs.
    split; [|by apply list_elem_of_In]. apply list_elem_of_In, list_elem_of_fmap. by exists (t', rs).
  - apply list_elem_of_omap. exists (Touch r). split; [set_solver|done].
Qed.

(** A destructor that begins with what a thread uses exposes it. *)
Lemma destroyed_first uses t r rs p :
  (t, rs) ∈ uses -> r ∈ rs -> haltable [] p = true -> use_after_end uses (Destroy r :: p) r.
Proof.
  intros Ht Hr Hp. apply teardown_check_exact; [done|]. cbn [joined_first].
  rewrite bool_decide_eq_true_2 by done. simpl. apply andb_false_iff. left.
  apply not_true_iff_false. rewrite forallb_forall. intros H.
  assert (t ∈ users uses r) as Hu.
  { apply list_elem_of_fmap. exists (t, rs). split; [done|]. by apply list_elem_of_filter. }
  by specialize (H t ltac:(by apply list_elem_of_In)).
Qed.

(** The exposed resources of a destructor, by evaluation. *)
Ltac exposes := intros ?; rewrite exposed_exact by (vm_compute; reflexivity);
  match goal with |- context [exposed ?u ?p] =>
    let l := eval vm_compute in (exposed u p) in change (exposed u p) with l end; set_solver.

(** C9: The programs come down in an order that is safe, but for two classes.  Whatever its
    threads are doing when the trader is destroyed (with either gateway), the pricer, or
    the listener (with either adapter), nothing is used after it is destroyed, except that
    a message, a status or a ping of a websocket client can reach the overrides of that
    client after they are gone, and that the KIS adapter destroys its redial timer after the
    context the timer belongs to. *)
Theorem destructors_spare_the_rest :
  (forall r, use_after_end (order_handler_uses kis_gateway_uses) (order_handler_dtor kis_gateway_dtor) r
    <-> False) /\
  (forall r, use_after_end pricer_uses pricer_dtor r <-> False) /\
  (forall r, use_after_end (order_handler_uses ws_gateway_uses) (order_handler_dtor ws_gateway_dtor) r
    <-> r = part "client_" "hooks") /\
  (forall r, use_after_end (market_listener_uses binance_listener_uses)
      (market_listener_dtor binance_listener_stop binance_listener_members) r
    <-> r ∈ [part "market_client_" "hooks"; part "trade_client_" "hooks"; part "user_client_" "hooks"]) /\
  (forall r, use_after_end (market_listener_uses kis_listener_uses)
      (market_listener_dtor kis_listener_stop kis_listener_members) r
    <-> r ∈ [part "ws_client_" "hooks"; "adapter.io_context_"]).
Proof. split_and!; exposes. Qed.

(** The KIS adapter's timer outlives its context, with no help from any thread. *)
Theorem kis_timer_outlives_its_context sink :
  use_after_end (kis_listener_uses sink) (kis_listener_stop ++ kis_listener_members) "adapter.io_context_".
Proof. apply teardown_check_exact; vm_compute; reflexivity. Qed.

(** The websocket client's destructor raises its flag too late: its overrides and callbacks
    are destroyed while its thread still dispatches to them, whatever its owner does.  (The
    feed clients stop in the destructor of the class that has the overrides, and the KIS
    gateway drains there, for just this reason.) *)
Theorem websocket_hooks_outlive_their_class c sink :
  use_after_end (ws_client_uses c sink) (ws_client_dtor c) (part c "hooks").
Proof.
  eapply (destroyed_first _ (part c "client_thread_")); [by left|set_solver|].
  simpl. rewrite bool_decide_eq_true_2; [done|set_solver].
Qed.

(** Handing the gateway's destruction to the members would let a late reply enqueue into a
    destroyed queue, under either gateway: the explicit reset is needed. *)
Lemma gateway_reset_is_needed :
  use_after_end (order_handler_uses kis_gateway_uses)
    (order_handler_body ++ order_handler_members kis_gateway_dtor) "trader_queue_" /\
  use_after_end (order_handler_uses ws_gateway_uses)
    (order_handler_body ++ order_handler_members ws_gateway_dtor) "trader_queue_".
Proof. split; apply exposed_exact; vm_compute; try reflexivity; set_solver. Qed.

(** A feed client whose class did not stop itself would be as exposed: raising the flag in
    the base is not enough. *)
Lemma forgotten_stop_is_fatal c sink :
  use_after_end (feed_client_uses c sink) (Destroy (part c "hooks") :: tcp_client_stop c ++
    [Destroy (part c "base")]) (part c "hooks").
Proof.
  eapply (destroyed_first _ (part c "io_thread_")); [by left|set_solver|].
  simpl. rewrite bool_decide_eq_true_2; [done|set_solver].
Qed.

(** Every destructor comes to its end. *)
Lemma destructors_finish s :
  rtc (td_step (order_handler_uses ws_gateway_uses)) (Td_new (order_handler_dtor ws_gateway_dtor)) s ->
  exists s', rtc (td_step (order_handler_uses ws_gateway_uses)) s s' /\ prog s' = [].
Proof. apply (teardown_check_exact _ "trader_queue_"). vm_compute. reflexivity. Qed.
