(* ===== verification/Startup.v ===== *)
(** * Startup: constructors against the threads they start

    The other end of [Teardown].  A constructor that starts threads has to have made what
    they use, and one that can still throw must not leave a thread that nobody will join.
    A constructor is read as the list of what it makes, starts and wires, in the order of
    the source (members as declared, then the body); the started threads take their steps
    in between. *)
From S2P Require Import Prelude Teardown.

#[local] Open Scope string_scope.
#[local] Open Scope list_scope.

(** Make a member; start a thread, whose handlers use [rs]; from now on let a running thread
    use [rs] too (a callback is set); use a member; a sub-object is complete, and its
    destructor joins these threads; throw, or not. *)
Inductive Init :=
  | Make (r : string) | Start (t : string) (rs : list string) | Wire (t : string) (rs : list string)
  | Use (r : string) | Complete (ts : list string) | MayThrow.

Record In := {
  todo : list Init; made : gset string;
  live : list (string * string);            (* (thread, what it may use) *)
  loose : list string;                      (* running, with nobody to join them yet *)
  early : gset (string * string);           (* (user, what it used before it was made) *)
  stranded : option (list string) }.        (* left running by a throw *)
Definition In_new (p : list Init) : In :=
  {| todo := p; made := ∅; live := []; loose := []; early := ∅; stranded := None |}.

Definition see (u r : string) (s : In) : gset (string * string) :=
  if decide (r ∈ made s) then early s else {[(u, r)]} ∪ early s.

Inductive in_step : In -> In -> Prop :=
  | in_make r p s : todo s = Make r :: p -> in_step s {| todo := p; made := {[r]} ∪ made s; live := live s;
      loose := loose s; early := early s; stranded := stranded s |}
  | in_start t rs p s : todo s = Start t rs :: p -> in_step s {| todo := p; made := made s;
      live := live s ++ ((t,.) <$> rs); loose := t :: loose s; early := early s; stranded := stranded s |}
  | in_wire t rs p s : todo s = Wire t rs :: p -> in_step s {| todo := p; made := made s;
      live := live s ++ ((t,.) <$> rs); loose := loose s; early := early s; stranded := stranded s |}
  | in_use r p s : todo s = Use r :: p -> in_step s {| todo := p; made := made s; live := live s;
      loose := loose s; early := see "constructor" r s; stranded := stranded s |}
  | in_complete ts p s : todo s = Complete ts :: p -> in_step s {| todo := p; made := made s;
      live := live s; loose := filter (.∉ ts) (loose s); early := early s; stranded := stranded s |}
  | in_pass p s : todo s = MayThrow :: p -> in_step s {| todo := p; made := made s; live := live s;
      loose := loose s; early := early s; stranded := stranded s |}
  | in_throw p s : todo s = MayThrow :: p -> in_step s {| todo := []; made := made s; live := live s;
      loose := loose s; early := early s; stranded := Some (loose s) |}
  | in_thread t r s : (t, r) ∈ live s -> in_step s {| todo := todo s; made := made s; live := live s;
      loose := loose s; early := see t r s; stranded := stranded s |}.

(** ** The checks *)

(** [r] is made before anything that may use it runs; [done] says whether it is made yet. *)
Fixpoint made_first (r : string) (done : bool) (p : list Init) : bool :=
  match p with
  | [] => true
  | Make r' :: p => made_first r (done || bool_decide (r' = r)) p
  | Start _ rs :: p | Wire _ rs :: p => (done || negb (bool_decide (r ∈ rs))) && made_first r done p
  | Use r' :: p => (done || negb (bool_decide (r' = r))) && made_first r done p
  | Complete _ :: p | MayThrow :: p => made_first r done p
  end.
(** The threads some throw can leave running. *)
Fixpoint left_running (loose : list string) (p : list Init) : list string :=
  match p with
  | [] => []
  | Start t _ :: p => left_running (t :: loose) p
  | Complete ts :: p => left_running (filter (.∉ ts) loose) p
  | MayThrow :: p => loose ++ left_running loose p
  | Make _ :: p | Wire _ _ :: p | Use _ :: p => left_running loose p
  end.

(** ** Exactness *)
Record prepared (r : string) (s : In) : Prop := {
  pr_todo : exists d, made_first r d (todo s) = true /\ (d = true -> r ∈ made s);
  pr_live t : (t, r) ∈ live s -> r ∈ made s;
  pr_clean t : (t, r) ∉ early s }.

Lemma see_clean u r r' t s :
  (t, r) ∉ early s -> (r' = r -> r ∈ made s) -> (t, r) ∉ see u r' s.
Proof. intros Hc Hm. unfold see. case_decide as Hd; [done|]. set_solver. Qed.

Lemma live_more t r (l : list (string * string)) u rs :
  (t, r) ∈ l ++ ((u,.) <$> rs) -> (t, r) ∈ l \/ r ∈ rs.
Proof. rewrite elem_of_app, list_elem_of_fmap. intros [?|(r'&[= _ ->]&?)]; auto. Qed.

Lemma prepared_step r s s' : in_step s s' -> prepared r s -> prepared r s'.
Proof.
  intros Hs [(d&Hd&Hm) Hl Hc].
  destruct Hs as [r' p s Hp|t rs p s Hp|t rs p s Hp|r' p s Hp|ts p s Hp|p s Hp|p s Hp|t r' s Ht];
    [rewrite Hp in Hd; cbn [made_first] in Hd..|]; split; simpl; try done;
    try (by exists d); try (apply andb_true_iff in Hd as [Hd1 Hd]; by exists d).
  - eexists. split; [done|]. intros [?| ->%bool_decide_eq_true]%orb_true_iff; set_solver.
  - intros t Ht. apply Hl in Ht. set_solver.
  - apply andb_true_iff in Hd as [Hd1 _]. intros u [?|Hr]%live_more; [eauto|].
    rewrite bool_decide_eq_true_2, orb_false_r in Hd1 by done. auto.
  - apply andb_true_iff in Hd as [Hd1 _]. intros u [?|Hr]%live_more; [eauto|].
    rewrite bool_decide_eq_true_2, orb_false_r in Hd1 by done. auto.
  - apply andb_true_iff in Hd as [Hd1 _]. intros t. apply see_clean; [done|]. intros ->.
    rewrite bool_decide_eq_true_2, orb_false_r in Hd1 by done. auto.
  - intros u. apply see_clean; [done|]. intros ->. eauto.
Qed.

Lemma prepared_reachable r p s :
  made_first r false p = true -> rtc in_step (In_new p) s -> prepared r s.
Proof.
  intros Hp Hs. assert (prepared r (In_new p)) as H0.
  { split; simpl; [by exists false|by intros t ?%elem_of_nil|set_solver]. }
  induction Hs as [|s1 s2 s3 Hs _ IH]; [done|]. apply IH. by eapply prepared_step.
Qed.

(** The constructor gets past [p1], without a throw. *)
Definition threads_of (i : Init) (loose : list string) : list string :=
  match i with Start t _ => t :: loose | Complete ts => filter (.∉ ts) loose | _ => loose end.
Definition loose_after (p : list Init) (l : list string) : list string := foldl (flip threads_of) l p.

Lemma pass_one i p s :
  todo s = i :: p -> exists s', in_step s s' /\ todo s' = p /\ loose s' = threads_of i (loose s) /\
    (forall r, r ∈ made s' -> r ∈ made s \/ i = Make r) /\
    (forall t r rs, i = Start t rs \/ i = Wire t rs -> r ∈ rs -> (t, r) ∈ live s').
Proof.
  intros Hp. destruct i as [r|t rs|t rs|r|ts|].
  - eexists. split; [by eapply in_make|]. split_and!; [done..|set_solver|naive_solver].
  - eexists. split; [by eapply in_start|]. split_and!; [done..|set_solver|].
    intros u r rs' [[= -> ->]|?] Hr; [|done]. simpl. set_solver.
  - eexists. split; [by eapply in_wire|]. split_and!; [done..|set_solver|].
    intros u r rs' [?|[= -> ->]] Hr; [done|]. simpl. set_solver.
  - eexists. split; [by eapply in_use|]. split_and!; [done..|set_solver|naive_solver].
  - eexists. split; [by eapply in_complete|]. split_and!; [done..|set_solver|naive_solver].
  - eexists. split; [by eapply in_pass|]. split_and!; [done..|set_solver|naive_solver].
Qed.
Lemma pass p1 p2 s :
  todo s = p1 ++ p2 -> exists s', rtc in_step s s' /\ todo s' = p2 /\ loose s' = loose_after p1 (loose s) /\
    (forall r, r ∈ made s' -> r ∈ made s \/ Make r ∈ p1).
Proof.
  revert s. induction p1 as [|i p1 IH]; intros s Hp; [exists s; by split_and!; [..|auto]|].
  destruct (pass_one i (p1 ++ p2) s Hp) as (s1&H1&Ht&Hlo&Hm&_).
  destruct (IH s1 Ht) as (s2&H2&Ht2&Hl2&Hm2). exists s2. split_and!; [by eapply rtc_l|done| |].
  - by rewrite Hl2, Hlo.
  - intros r [Hr|Hr]%Hm2; [apply Hm in Hr as [?| ->]; [by left|right; set_solver]|right; set_solver].
Qed.

(** Where the check fails. *)
Lemma not_made r d p :
  made_first r d p = false -> d = false /\ exists p1 i p2, p = p1 ++ i :: p2 /\ (Make r ∉ p1) /\
    (i = Use r \/ exists t rs, (i = Start t rs \/ i = Wire t rs) /\ r ∈ rs).
Proof.
  revert d. assert (forall d i p1' p,
    (d = false /\ exists p1 i p2, p = p1 ++ i :: p2 /\ (Make r ∉ p1) /\
      (i = Use r \/ exists t rs, (i = Start t rs \/ i = Wire t rs) /\ r ∈ rs)) ->
    i <> Make r -> p1' = i :: p -> d = false /\ exists p1 i p2, p1' = p1 ++ i :: p2 /\ (Make r ∉ p1) /\
      (i = Use r \/ exists t rs, (i = Start t rs \/ i = Wire t rs) /\ r ∈ rs)) as Hlater.
  { intros d i p1' p' (Hd&p1&j&p2&->&Hn&Hj) Hi ->. split; [done|].
    exists (i :: p1), j, p2. split_and!; [done|set_solver|done]. }
  induction p as [|i p IH]; intros d; [done|]. destruct i as [r'|t rs|t rs|r'|ts|]; cbn [made_first].
  - intros [Hd H]%IH. apply orb_false_iff in Hd as [-> Hr%bool_decide_eq_false].
    apply (Hlater false (Make r') _ p); [done|congruence|done].
  - intros [[-> Hr]%orb_false_iff|H]%andb_false_iff; [|apply (Hlater d (Start t rs) _ p); [by apply IH|done|done]].
    apply negb_false_iff, bool_decide_eq_true in Hr. split; [done|]. exists [], (Start t rs), p.
    split_and!; [done|apply not_elem_of_nil|right; by eauto].
  - intros [[-> Hr]%orb_false_iff|H]%andb_false_iff; [|apply (Hlater d (Wire t rs) _ p); [by apply IH|done|done]].
    apply negb_false_iff, bool_decide_eq_true in Hr. split; [done|]. exists [], (Wire t rs), p.
    split_and!; [done|apply not_elem_of_nil|right; by eauto].
  - intros [[-> Hr]%orb_false_iff|H]%andb_false_iff.
    + apply negb_false_iff, bool_decide_eq_true in Hr as ->. split; [done|]. exists [], (Use r), p.
      split_and!; [done|apply not_elem_of_nil|by left].
    + apply (Hlater d (Use r') _ p); [by apply IH|done|done].
  - intros H. apply (Hlater d (Complete ts) _ p); [by apply IH|done|done].
  - intros H. apply (Hlater d (MayThrow) _ p); [by apply IH|done|done].
Qed.

(** The throws and what is loose at each. *)
Lemma left_running_at t p l :
  t ∈ left_running l p <-> exists p1 p2, p = p1 ++ MayThrow :: p2 /\ t ∈ loose_after p1 l.
Proof.
  revert l. induction p as [|i p IH]; intros l.
  { split; [by intros ?%elem_of_nil|]. by intros ([|]&?&?&_). }
  assert (t ∈ left_running l (i :: p) <->
    (i = MayThrow /\ t ∈ l) \/ t ∈ left_running (threads_of i l) p) as ->.
  { destruct i; simpl; rewrite ?elem_of_app; naive_solver. }
  rewrite IH. split.
  - intros [[-> ?]|(p1&p2&->&?)]; [by exists [], p|by exists (i :: p1), p2].
  - intros ([|j p1]&p2&[= -> ->]&Ht); [by left|right; by exists p1, p2].
Qed.

Definition bounded (p : list Init) (s : In) : Prop :=
  (forall t, t ∈ left_running (loose s) (todo s) -> t ∈ left_running [] p) /\
  (forall l t, stranded s = Some l -> t ∈ l -> t ∈ left_running [] p).
Lemma bounded_step p s s' : in_step s s' -> bounded p s -> bounded p s'.
Proof.
  intros Hs [H1 H2].
  destruct Hs as [r' q s Hp|t rs q s Hp|t rs q s Hp|r' q s Hp|ts q s Hp|q s Hp|q s Hp|t r' s Ht];
    try rewrite Hp in H1; cbn [left_running] in H1; (split; [|try exact H2]); cbn [left_running loose todo stranded];
    try done.
  - intros t Ht. apply H1, elem_of_app. by right.
  - by intros t ?%elem_of_nil.
  - intros l t [= <-] Ht. apply H1, elem_of_app. by left.
Qed.

(** The checks are exact, for every constructor: some interleaving uses [r] before it is made
    if and only if the first check fails, and some throw leaves [t] running if and only if
    the second lists it. *)
Lemma startup_checks_exact p :
  (forall r, (exists s t, rtc in_step (In_new p) s /\ (t, r) ∈ early s) <-> made_first r false p = false) /\
  (forall t, (exists s l, rtc in_step (In_new p) s /\ stranded s = Some l /\ t ∈ l) <->
    t ∈ left_running [] p).
Proof.
  split; [intros r|intros t]; split.
  - intros (s&t&Hs&Ht). apply not_true_iff_false. intros Hm.
    by apply (pr_clean _ _ (prepared_reachable r p s Hm Hs) t).
  - intros [_ (p1&i&p2&->&Hn&Hi)]%not_made.
    destruct (pass p1 (i :: p2) (In_new (p1 ++ i :: p2)) eq_refl) as (s1&Hs1&Ht1&_&Hm1).
    assert (r ∉ made s1) as Hr by (intros [?|?]%Hm1; set_solver).
    destruct Hi as [->|(t&rs&Hi&Hrs)].
    + eexists _, "constructor". split; [eapply rtc_r; [exact Hs1|by eapply in_use]|].
      simpl. unfold see. rewrite decide_False by done. set_solver.
    + destruct (pass_one i p2 s1 Ht1) as (s2&Hs2&_&_&Hm2&Hl2).
      assert (r ∉ made s2) as Hr2 by (intros [?| ->]%Hm2; [done|by destruct Hi]).
      eexists _, t. split.
      * eapply rtc_r; [eapply rtc_r; [exact Hs1|exact Hs2]|]. by eapply (in_thread t r), Hl2.
      * simpl. unfold see. rewrite decide_False by done. set_solver.
  - intros (s&l&Hs&Hl&Ht). assert (bounded p (In_new p)) as H0 by done.
    assert (bounded p s) as [_ H] by (clear -Hs H0; induction Hs; eauto using bounded_step). by eapply H.
  - intros (p1&p2&->&Ht)%left_running_at.
    destruct (pass p1 (MayThrow :: p2) (In_new (p1 ++ MayThrow :: p2)) eq_refl) as (s1&Hs1&Ht1&Hl1&_).
    eexists _, (loose s1). split_and!; [eapply rtc_r; [exact Hs1|by eapply in_throw]|done|by rewrite Hl1].
Qed.

(** ** The constructors *)

(** [TcpClientBase], then the class with the hooks; [start] is called on the whole object,
    whose destructor joins. *)
Definition feed_client_new (c : string) : list Init := [Make (part c "base"); Make (part c "hooks")].
Definition feed_client_start (c : string) (sink : list string) : list Init :=
  [Use (part c "base"); Start (part c "io_thread_") (part c "hooks" :: part c "base" :: sink);
   Complete [part c "io_thread_"]].

(** [BinanceWebsocketClient], [KisWebsocketClient]: the base, the callbacks, the first status
    on the caller's thread, then the client's own. *)
Definition ws_client_new (c : string) (sink : list string) : list Init :=
  [Make (part c "base"); Make (part c "hooks"); Use (part c "hooks")] ++ (Use <$> sink) ++
  [Start (part c "client_thread_") (part c "hooks" :: part c "base" :: sink);
   Complete [part c "client_thread_"]].

(** [SerialTaskRunner]: the worker starts in the body, after the queue. *)
Definition runner_new (r : string) : list Init :=
  [Make (part r "queue_"); Start (part r "worker_") [part r "queue_"]; Complete [part r "worker_"]].

(** [BaseOrderGateway], then [KoreanStockOrderGateway], whose body fills the headers through
    its own overrides; requests can be posted once it is built. *)
Definition kis_gateway_new : list Init :=
  runner_new "runner_" ++ [Make "gateway.base"; Make "gateway.hooks"; Use "gateway.hooks"; Make "gateway.headers";
    Wire (part "runner_" "worker_") ["gateway.hooks"; "gateway.base"; "gateway.headers"]].
(** [WsOrderGateway] under [BinanceOrderGateway], which throws before it for want of keys or
    an endpoint; the slot is filled under the lock. *)
Definition ws_gateway_new : list Init :=
  [MayThrow; Make "gateway.base"; Make "client_"; Make "client_mutex_"; Make "gateway.io_context_";
   Make "reconnect_timer_";
   Start "gateway.io_thread_" ["gateway.io_context_"; "reconnect_timer_"; "client_"; "client_mutex_"; "gateway.base"]] ++
  ws_client_new "client_" ["gateway.io_context_"; "gateway.base"] ++
  [Use "client_mutex_"; Wire "gateway.io_thread_" [part "client_" "base"]; Complete ["gateway.io_thread_"]].

(** [OrderHandler::OrderHandler]: the gateway in the member list, well before the queue it
    will answer into; in the body the unit check, then the sink, the links, the timer and
    [start_feed_clients]. *)
Definition order_handler_ctor (gateway : list Init) (replies_on : string) : list Init :=
  [Make "trade_products_"; Make "shutting_down_"] ++ gateway ++
  [Make "product_states_"; Make "order_loggers_"; Make "trader_queue_"; Make "io_context_"; MayThrow;
   Use "product_states_"; Wire replies_on ["trader_queue_"]] ++
  feed_client_new "listener_client_" ++ feed_client_new "pricer_client_" ++
  [Use "io_context_"; Make "order_update_timer_"] ++
  feed_client_start "listener_client_" ["trader_queue_"] ++ feed_client_start "pricer_client_" ["trader_queue_"] ++
  [Start "io_thread_" ["order_update_timer_"; "io_context_"; "trader_queue_"; "shutting_down_"; "trade_products_"];
   Complete ["io_thread_"]].

(** [TcpServer]: binding may throw; [start] runs the worker, which its destructor joins. *)
Definition tcp_server_new (context : string) : list Init := [Use context; MayThrow; Make "tcp_server_"; Make "sessions_"].
Definition tcp_server_start (hook : list string) : list Init :=
  [Start "task_thread_" (["tcp_server_"; "sessions_"] ++ hook); Complete ["task_thread_"]; Use "tcp_server_"].

(** The adapters: constructor, and [start].  Binance's clients are built by a task posted to
    its io thread; their place here is the earliest it can run. *)
Definition binance_listener_new : list Init :=
  [Make "order_books_"; Make "ws_event_queue_"; Make "adapter.io_context_"; Make "reconnect_timers_";
   Make "keepalive_timer_"; Make "rest_client_"].
Definition binance_listener_start (sink : list string) : list Init :=
  [Start "adapter.io_thread_" ["keepalive_timer_"; "reconnect_timers_"; "adapter.io_context_"; "rest_client_";
     "ws_event_queue_"];
   Start "worker_thread_" (["ws_event_queue_"; "order_books_"; "rest_client_"; "adapter.io_context_"] ++ sink);
   Complete ["adapter.io_thread_"; "worker_thread_"]] ++
  ws_client_new "market_client_" ["ws_event_queue_"] ++ ws_client_new "trade_client_" ["ws_event_queue_"] ++
  ws_client_new "user_client_" ["ws_event_queue_"] ++
  [Wire "adapter.io_thread_" [part "market_client_" "base"; part "trade_client_" "base"; part "user_client_" "base"]].
Definition kis_listener_new : list Init :=
  [Make "ws_event_queue_"; Make "reconnect_timer_"; Make "adapter.io_context_"; MayThrow; Make "product_manager_"].
Definition kis_listener_start (sink : list string) : list Init :=
  ws_client_new "ws_client_" ["ws_event_queue_"; "product_manager_"] ++
  [Start "adapter.io_thread_" ["reconnect_timer_"; "adapter.io_context_"; part "ws_client_" "base"];
   Start "worker_thread_" (["ws_event_queue_"; "product_manager_"; "reconnect_timer_"; "adapter.io_context_";
     part "ws_client_" "base"] ++ sink);
   Complete ["adapter.io_thread_"; "worker_thread_"]].
(** [create_exchange_listener] for an exchange it does not know. *)
Definition no_adapter : list Init := [MayThrow].

(** [MarketListener::MarketListener]: the server runs before the adapter is built. *)
Definition market_listener_ctor (adapter_new adapter_start : list Init) : list Init :=
  [Make "event_queue_"; Make "tcp_io_context_"] ++ tcp_server_new "tcp_io_context_" ++
  [Make "product_info_io_context_"; Make "product_info_timer_"; Make "user_state_mutex_"] ++
  tcp_server_start ["user_state_mutex_"; "product_info_io_context_"] ++
  [Start "tcp_context_thread_" ["tcp_server_"; "tcp_io_context_"]] ++
  adapter_new ++ [Make "adapter_"; Use "adapter_"] ++ adapter_start ++
  [Start "product_info_thread_" ["adapter_"; "event_queue_"; "product_info_timer_"; "product_info_io_context_"];
   Complete ["tcp_context_thread_"; "product_info_thread_"]].

(** [Pricer::Pricer]: an unknown factor throws before anything runs. *)
Definition pricer_ctor : list Init :=
  [Make "config_"; Make "task_queue_"; Make "server_io_context_"; Make "timer_io_context_"; MayThrow;
   Make "product_states_"] ++ feed_client_new "listener_client_" ++ tcp_server_new "server_io_context_" ++
  tcp_server_start [] ++ [Start "server_io_thread_" ["tcp_server_"; "server_io_context_"];
   Use "timer_io_context_"; Make "publish_timer_";
   Start "timer_io_thread_" ["publish_timer_"; "timer_io_context_"; "task_queue_"; "config_"]] ++
  feed_client_start "listener_client_" ["task_queue_"] ++ [Complete ["server_io_thread_"; "timer_io_thread_"]].

(** ** What the checks say of them *)

(** Whatever a thread or the constructor uses. *)
Definition used (p : list Init) : list string :=
  p ≫= (fun i => match i with Start _ rs | Wire _ rs => rs | Use r => [r] | _ => [] end).
Definition used_early (p : list Init) (r : string) : Prop :=
  exists s t, rtc in_step (In_new p) s /\ (t, r) ∈ early s.
Definition stranded_by (p : list Init) (t : string) : Prop :=
  exists s l, rtc in_step (In_new p) s /\ stranded s = Some l /\ t ∈ l.

Lemma unused_made_first r d p : r ∉ used p -> made_first r d p = true.
Proof.
  revert d. induction p as [|i p IH]; intros d Hr; [done|].
  apply not_elem_of_app in Hr as [H1 H2]. fold (used p) in H2.
  destruct i as [r'|t rs|t rs|r'|ts|]; cbn [made_first]; auto;
    (rewrite bool_decide_eq_false_2 by set_solver); cbn [negb]; by rewrite orb_true_r, IH.
Qed.
Lemma ready_exact p :
  forallb (fun r => made_first r false p) (used p) = true -> forall r, ~ used_early p r.
Proof.
  intros H r He. apply startup_checks_exact in He.
  destruct (decide (r ∈ used p)) as [Hr|Hr]; [|by rewrite unused_made_first in He].
  rewrite forallb_forall in H. by rewrite (H r) in He by (by apply list_elem_of_In).
Qed.
Lemma stranded_exact p t : stranded_by p t <-> t ∈ left_running [] p.
Proof. apply (startup_checks_exact p). Qed.

(** C10: The programs come up in an order that is safe, but for one throw.  Whatever its
    threads do while the trader is constructed (with either gateway), the pricer, or the
    listener (with either adapter), nothing is used before it is made: in particular a
    reply's queue, which is made after the gateway that will answer into it.  And a
    constructor that throws has joined every thread it started, except that the listener's
    meets a KIS market it does not support with its server's thread running. *)
Theorem constructors_are_ready :
  (forall r, ~ used_early (order_handler_ctor kis_gateway_new (part "runner_" "worker_")) r) /\
  (forall r, ~ used_early (order_handler_ctor ws_gateway_new (part "client_" "client_thread_")) r) /\
  (forall r, ~ used_early pricer_ctor r) /\
  (forall r, ~ used_early (market_listener_ctor binance_listener_new (binance_listener_start ["event_queue_"])) r) /\
  (forall r, ~ used_early (market_listener_ctor kis_listener_new (kis_listener_start ["event_queue_"])) r) /\
  (forall t, ~ stranded_by (order_handler_ctor kis_gateway_new (part "runner_" "worker_")) t) /\
  (forall t, ~ stranded_by (order_handler_ctor ws_gateway_new (part "client_" "client_thread_")) t) /\
  (forall t, ~ stranded_by pricer_ctor t) /\
  (forall t, ~ stranded_by (market_listener_ctor binance_listener_new (binance_listener_start ["event_queue_"])) t) /\
  (forall t, stranded_by (market_listener_ctor kis_listener_new (kis_listener_start ["event_queue_"])) t <->
    t = "tcp_context_thread_").
Proof.
  split_and!; try (apply ready_exact; vm_compute; reflexivity);
    intros t; rewrite stranded_exact; vm_compute; set_solver.
Qed.

(** An adapter that cannot be built finds the server's thread running: unwinding destroys a
    thread that can still be joined, which ends the process in place of the error. *)
Theorem adapter_throw_strands_a_thread start :
  stranded_by (market_listener_ctor no_adapter start) "tcp_context_thread_" /\
  stranded_by (market_listener_ctor kis_listener_new start) "tcp_context_thread_".
Proof. split; apply stranded_exact; vm_compute; set_solver. Qed.

(** What the split into construction and [start], and the sink set in the body, are for: a
    feed client that started itself would expose its hooks, and a gateway handed its sink on
    construction the queue. *)
Lemma self_starting_client_is_exposed c sink :
  used_early (Make (part c "base") :: feed_client_start c sink ++ [Make (part c "hooks")]) (part c "hooks").
Proof.
  apply startup_checks_exact. cbn [made_first feed_client_start app].
  rewrite (bool_decide_eq_true_2 (part c "hooks" ∈ _)) by set_solver.
  assert (part c "base" <> part c "hooks") as Hne by (unfold part; intros E; simplify_eq/=).
  rewrite !bool_decide_eq_false_2 by done. done.
Qed.
Lemma early_sink_is_exposed :
  used_early (order_handler_ctor (kis_gateway_new ++ [Wire (part "runner_" "worker_") ["trader_queue_"]])
    (part "runner_" "worker_")) "trader_queue_".
Proof. apply startup_checks_exact. by vm_compute. Qed.
