(* ===== verification/KisGateway.v ===== *)
(** * KisGateway: orders over REST, one at a time

    [trader/order_gateway/kis/]: [BaseOrderGateway] (the request path over the serial task
    runner), [KoreanStockOrderGateway] (URLs, headers, parameter bodies, response parsing)
    and [create_kis_order_gateway]; the second instance of the order gateway interface.
    glaze's writing of the parameter structs and reading of the response body, and the HTTP
    exchange itself, are parameters. *)
From Stdlib Require Import Ascii.
From S2P Require Import Prelude Double Text Exact Messages HttpClient BinanceRest Gateway TaskRunner.

#[local] Open Scope string_scope.
#[local] Open Scope list_scope.
#[local] Open Scope Z_scope.

(** ** double_to_string *)

(** [find(c)] and [find_last_not_of(c)]; [None] is [npos]. *)
Fixpoint find_char (c : ascii) (s : string) : option nat :=
  match s with
  | EmptyString => None
  | String a s => if Ascii.eqb a c then Some O else S <$> find_char c s
  end.
Fixpoint find_last_not (c : ascii) (s : string) : option nat :=
  match s with
  | EmptyString => None
  | String a s =>
      match find_last_not c s with
      | Some i => Some (S i)
      | None => if Ascii.eqb a c then None else Some O
      end
  end.

Definition double_to_string (value : double) : string :=
  match value with
  | S754_nan | S754_infinity _ => fixed 6 value
  | _ =>
      let result := fixed 15 value in
      match find_char "." result with
      | None => result
      | Some decimal_pos =>
          match find_last_not "0" result with
          | Some last_non_zero =>
              if Nat.eqb last_non_zero decimal_pos then String.substring 0 decimal_pos result
              else String.substring 0 (last_non_zero + 1) result
          | None => result
          end
      end
  end.

(** ** korean_stock_order_dtypes.hpp *)
Record BalanceParams := {
  bp_CANO : string; bp_ACNT_PRDT_CD : string; bp_AFHR_FLPR_YN : string; bp_OFL_YN : string;
  bp_INQR_DVSN : string; bp_UNPR_DVSN : string; bp_FUND_STTL_ICLD_YN : string;
  bp_FNCG_AMT_AUTO_RDPT_YN : string; bp_PRCS_DVSN : string; bp_CTX_AREA_FK100 : string;
  bp_CTX_AREA_NK100 : string }.
Record OrderPlaceParams := {
  pp_CANO : string; pp_ACNT_PRDT_CD : string; pp_PDNO : string; pp_ORD_DVSN : string;
  pp_ORD_QTY : string; pp_ORD_UNPR : string }.
(** [OrderAmendParams] and [OrderCancelParams] have the same fields. *)
Record OrderChangeParams := {
  cp_CANO : string; cp_ACNT_PRDT_CD : string; cp_KRX_FWDG_ORD_ORGNO : string;
  cp_ORGN_ODNO : string; cp_ORD_DVSN : string; cp_RVSE_CNCL_DVSN_CD : string;
  cp_ORD_QTY : string; cp_ORD_UNPR : string; cp_QTY_ALL_ORD_YN : string }.
Record OrderResponseBody := {
  rt_cd : string; msg_cd : string; msg1 : string; output_ODNO : list string }.

(** What [write_json] leaves in its buffer, whether or not it also reports an error, and
    [read_json] of a response body. *)
Record KisJson := {
  write_balance : BalanceParams -> option string;
  write_place : OrderPlaceParams -> string;
  write_change : OrderChangeParams -> string;
  read_order_response : string -> option OrderResponseBody }.

(** ** The gateway *)
Record AccountInfo := { ai_front : string; ai_rear : string; ai_hts_id : string }.
(** One queued request: what the posted closure captures. *)
Record KisTask := {
  kt_url : string; kt_params : string; kt_headers : gmap string string; kt_cid : Z }.

Record KisOrderGateway := {
  kg_account : AccountInfo;
  kg_balance_url : string; kg_order_place_url : string; kg_order_change_url : string;
  kg_balance_header : gmap string string;
  kg_bid_order_place_header : gmap string string; kg_ask_order_place_header : gmap string string;
  kg_order_change_header : gmap string string;
  kg_balance_params_list : list string;
  kg_runner : SerialTaskRunner KisTask;
  kg_replies : list OrderResponse }.    (* delivered by the worker, oldest first *)

Definition with_runner (r : SerialTaskRunner KisTask) (reps : list OrderResponse)
    (g : KisOrderGateway) : KisOrderGateway :=
  {| kg_account := kg_account g; kg_balance_url := kg_balance_url g;
     kg_order_place_url := kg_order_place_url g; kg_order_change_url := kg_order_change_url g;
     kg_balance_header := kg_balance_header g;
     kg_bid_order_place_header := kg_bid_order_place_header g;
     kg_ask_order_place_header := kg_ask_order_place_header g;
     kg_order_change_header := kg_order_change_header g;
     kg_balance_params_list := kg_balance_params_list g; kg_runner := r; kg_replies := reps |}.

(** [write_common_rest_header]: empty unless both the keys and the token were read. *)
Definition common_rest_header (auth_keys : option Signer) (token : option string)
    : gmap string string :=
  match auth_keys, token with
  | Some k, Some t => {[
      "content-type" := "application/json"; "authorization" := "Bearer " +:+ t;
      "appkey" := api_key k; "appsecret" := secret_key k ]}
  | _, _ => ∅
  end.
Definition write_rest_header (common : gmap string string) (tr_id : string) : gmap string string :=
  <["tr_id" := tr_id]> common.

Section kis.
Variable json : KisJson.

Definition balance_params (a : AccountInfo) : BalanceParams := {|
  bp_CANO := ai_front a; bp_ACNT_PRDT_CD := ai_rear a; bp_AFHR_FLPR_YN := "N"; bp_OFL_YN := "";
  bp_INQR_DVSN := "02"; bp_UNPR_DVSN := "01"; bp_FUND_STTL_ICLD_YN := "N";
  bp_FNCG_AMT_AUTO_RDPT_YN := "N"; bp_PRCS_DVSN := "00"; bp_CTX_AREA_FK100 := "";
  bp_CTX_AREA_NK100 := "" |}.

(** The constructor: [initalize] with the Korean stock market's URLs and transaction ids. *)
Definition KoreanStockOrderGateway_new (http_domain : string) (account : AccountInfo)
    (auth_keys : option Signer) (token : option string) : KisOrderGateway :=
  let common := common_rest_header auth_keys token in {|
  kg_account := account;
  kg_balance_url := http_domain +:+ "/uapi/domestic-stock/v1/trading/inquire-balance";
  kg_order_place_url := http_domain +:+ "/uapi/domestic-stock/v1/trading/order-cash";
  kg_order_change_url := http_domain +:+ "/uapi/domestic-stock/v1/trading/order-rvsecncl";
  kg_balance_header := write_rest_header common "TTTS3012R";
  kg_bid_order_place_header := write_rest_header common "TTTC8434R";
  kg_ask_order_place_header := write_rest_header common "TTTC8434R";
  kg_order_change_header := write_rest_header common "TTTC0803U";
  kg_balance_params_list := option_list (write_balance json (balance_params account));
  kg_runner := SerialTaskRunner_new 64; kg_replies := [] |}.

(** [create_kis_order_gateway]; [None] is the throw. *)
Definition create_kis_order_gateway (market_type domain_type : string)
    (get_domain : string -> option string) (account : AccountInfo) (auth_keys : option Signer)
    (token : option string) : option KisOrderGateway :=
  let rest_domain_type := if decide (domain_type = "test") then "rest_test" else "rest_real" in
  let http_domain := default "" (get_domain rest_domain_type) in
  if decide (market_type = "stock")
  then Some (KoreanStockOrderGateway_new http_domain account auth_keys token) else None.

Definition ord_dvsn (is_limit : bool) : string := if is_limit then "00" else "01".
Definition yn (b : bool) : string := if b then "Y" else "N".
Definition write_order_place_params (g : KisOrderGateway) (i : OrderPlaceInfo) : string :=
  write_place json {|
    pp_CANO := ai_front (kg_account g); pp_ACNT_PRDT_CD := ai_rear (kg_account g);
    pp_PDNO := opi_product i; pp_ORD_DVSN := ord_dvsn (opi_is_limit i);
    pp_ORD_QTY := double_to_string (opi_qty i); pp_ORD_UNPR := double_to_string (opi_price i) |}.
Definition write_order_amend_params (g : KisOrderGateway) (i : OrderAmendInfo) : string :=
  write_change json {|
    cp_CANO := ai_front (kg_account g); cp_ACNT_PRDT_CD := ai_rear (kg_account g);
    cp_KRX_FWDG_ORD_ORGNO := ""; cp_ORGN_ODNO := oai_order_no i;
    cp_ORD_DVSN := ord_dvsn (oai_is_limit i); cp_RVSE_CNCL_DVSN_CD := "01";
    cp_ORD_QTY := double_to_string (oai_qty i); cp_ORD_UNPR := double_to_string (oai_price i);
    cp_QTY_ALL_ORD_YN := yn (oai_amend_all i) |}.
Definition write_order_cancel_params (g : KisOrderGateway) (i : OrderCancelInfo) : string :=
  write_change json {|
    cp_CANO := ai_front (kg_account g); cp_ACNT_PRDT_CD := ai_rear (kg_account g);
    cp_KRX_FWDG_ORD_ORGNO := ""; cp_ORGN_ODNO := oci_order_no i;
    cp_ORD_DVSN := ord_dvsn (oci_is_limit i); cp_RVSE_CNCL_DVSN_CD := "02";
    cp_ORD_QTY := double_to_string (oci_qty i); cp_ORD_UNPR := "0";
    cp_QTY_ALL_ORD_YN := yn (oci_cancel_all i) |}.

(** [place_order], [amend_order], [cancel_order]: the closure each posts. *)
Definition kis_task (g : KisOrderGateway) (r : Request) : KisTask :=
  match r with
  | Place i => {|
      kt_url := kg_order_place_url g; kt_params := write_order_place_params g i;
      kt_headers := if opi_is_bid i then kg_bid_order_place_header g else kg_ask_order_place_header g;
      kt_cid := opi_cid i |}
  | Amend i => {|
      kt_url := kg_order_change_url g; kt_params := write_order_amend_params g i;
      kt_headers := kg_order_change_header g; kt_cid := oai_cid i |}
  | Cancel i => {|
      kt_url := kg_order_change_url g; kt_params := write_order_cancel_params g i;
      kt_headers := kg_order_change_header g; kt_cid := oci_cid i |}
  end.

Definition dispatch_failure (cid : Z) : OrderResponse := {|
  or_success := false; or_code := ""; or_msg := "KIS REST order could not be queued";
  or_order_no := ""; or_cid := cid; or_server_tstamp_ms := None; or_order_gone := false |}.

(** [send_order_request], on the caller's thread. *)
Definition send_order_request (t : KisTask) (g : KisOrderGateway)
    : bool * list OrderResponse * KisOrderGateway :=
  let '(queued, runner) := TaskRunner.post t (kg_runner g) in
  if queued then (true, [], with_runner runner (kg_replies g) g)
  else (false, [dispatch_failure (kt_cid t)], g).
Definition kis_request (r : Request) (g : KisOrderGateway)
    : bool * list OrderResponse * KisOrderGateway := send_order_request (kis_task g r) g.

Definition parse_order_response (body : string) (r : OrderResponse) : OrderResponse :=
  match read_order_response json body with
  | None => r
  | Some b => {|
      or_success := bool_decide (rt_cd b = "0"); or_code := msg_cd b; or_msg := msg1 b;
      or_order_no := match output_ODNO b with odno :: _ => odno | [] => or_order_no r end;
      or_cid := or_cid r; or_server_tstamp_ms := or_server_tstamp_ms r;
      or_order_gone := or_order_gone r |}
  end.

(** The closure's body on the worker: the POST, and the reply it delivers. *)
Definition order_post (t : KisTask) : HttpRequest := {|
  hr_method := POST; hr_url := kt_url t; hr_body := Some (kt_params t);
  hr_headers := post_headers (kt_headers t) |}.
Definition run_task (net : HttpRequest -> RestResponse) (t : KisTask) : OrderResponse :=
  let response := net (order_post t) in
  let fresh msg := {| or_success := false; or_code := ""; or_msg := msg; or_order_no := "";
    or_cid := kt_cid t; or_server_tstamp_ms := None; or_order_gone := false |} in
  if rr_ok response then parse_order_response (rr_body response) (fresh "")
  else fresh (rr_body response).

(** One step of the worker: take the next request, or finish the one in hand. *)
Definition kis_worker_step (net : HttpRequest -> RestResponse) (g : KisOrderGateway)
    : option KisOrderGateway :=
  runner ← TaskRunner.worker_step (kg_runner g);
  let replies := match running (kg_runner g) with
    | Some t => kg_replies g ++ [run_task net t] | None => kg_replies g end in
  Some (with_runner runner replies g).

Definition get_balances (net : HttpRequest -> RestResponse) (g : KisOrderGateway) : list string :=
  (fun params =>
     let response := net {| hr_method := POST; hr_url := kg_balance_url g; hr_body := Some params;
       hr_headers := post_headers (kg_balance_header g) |} in
     if rr_ok response then rr_body response else "") <$> kg_balance_params_list g.

#[export] Instance KisGateway : OrderGateway unit KisOrderGateway := {|
  gw_wire g := kt_cid <$> in_order (kg_runner g);
  gw_request _ := kis_request;
  gw_product_grid _ _ _ g := g |}.
End kis.

(** ** The text of a whole number *)
Lemma find_char_app c s t :
  find_char c s = None -> find_char c (s +:+ String c t) = Some (String.length s).
Proof.
  induction s as [|a s IH]; simpl; intros H.
  - by rewrite Ascii.eqb_refl.
  - destruct (Ascii.eqb a c); [done|]. rewrite IH; [done|]. by destruct (find_char c s).
Qed.

Lemma find_last_not_app c s d t :
  d <> c -> find_last_not c t = None ->
  find_last_not c (s +:+ String d t) = Some (String.length s).
Proof.
  intros Hd Ht. induction s as [|a s IH].
  - simpl. rewrite Ht. by destruct (Ascii.eqb_spec d c).
  - change (String a s +:+ String d t) with (String a (s +:+ String d t)).
    cbn [find_last_not]. by rewrite IH.
Qed.

Lemma substring_app s t : String.substring 0 (String.length s) (s +:+ t) = s.
Proof. induction s as [|a s IH]; simpl; [by destruct t|by rewrite IH]. Qed.

Lemma padded_zeros k acc :
  find_last_not "0" acc = None -> find_last_not "0" (padded k 0 acc) = None.
Proof.
  revert acc. induction k as [|k IH]; intros acc Ha; cbn [padded]; [done|].
  apply IH. simpl. by rewrite Ha.
Qed.

Lemma digits_no_point fuel n acc :
  find_char "." acc = None -> 0 <= n -> find_char "." (digits fuel n acc) = None.
Proof.
  revert n acc. induction fuel as [|fuel IH]; intros n acc Ha Hn; cbn [digits]; [done|].
  assert (find_char "." (String (digit_char (n mod 10)) acc) = None) as H.
  { cbn [find_char]. destruct (Ascii.eqb_spec (digit_char (n mod 10)) ".") as [E|_]; [|by rewrite Ha].
    pose proof (digit_char_spec (n mod 10)) as Hd. rewrite E in Hd. by specialize (Hd (Z.mod_pos_bound n 10 eq_refl)). }
  destruct (n <? 10); [done|]. apply IH; [done|by apply Z.div_pos].
Qed.

Lemma double_to_string_integral n :
  0 <= n < 2 ^ 53 -> double_to_string (of_Z n) = to_string n.
Proof.
  intros Hn. assert (double_to_string (of_Z n) =
    let result := fixed 15 (of_Z n) in
    match find_char "." result with
    | None => result
    | Some decimal_pos =>
        match find_last_not "0" result with
        | Some last_non_zero =>
            if Nat.eqb last_non_zero decimal_pos then String.substring 0 decimal_pos result
            else String.substring 0 (last_non_zero + 1) result
        | None => result
        end
    end) as ->.
  { destruct (decide (n = 0)) as [->|]; [done|].
    destruct (of_Z_exact n) as (m&k&->&_); [lia|done]. }
  cbv zeta. rewrite fixed_of_Z, decimal_text_integral by lia. change (15 <=? 0) with false. cbn iota.
  rewrite find_char_app by (apply digits_no_point; [done|lia]).
  rewrite find_last_not_app by (try done; by apply padded_zeros).
  rewrite Nat.eqb_refl, substring_app. unfold to_string. by destruct (Z.ltb_spec n 0); [lia|].
Qed.

(** ** The KIS gateway keeps the contract *)
Section laws.
Context (json : KisJson).
#[local] Instance kis_gateway : OrderGateway unit KisOrderGateway := KisGateway json.

Lemma kis_task_cid g r : kt_cid (kis_task json g r) = request_cid r.
Proof. by destruct r. Qed.

Lemma kis_request_cases r g :
  (exists q, kis_request json r g = (true, [], with_runner q (kg_replies g) g) /\
     TaskRunner.post (kis_task json g r) (kg_runner g) = (true, q) /\
     in_order q = in_order (kg_runner g) ++ [kis_task json g r]) \/
  kis_request json r g = (false, [dispatch_failure (request_cid r)], g).
Proof.
  unfold kis_request, send_order_request. rewrite kis_task_cid.
  destruct (TaskRunner.post _ _) as [[|] q] eqn:E; [left|by right]. exists q. split_and!; [done..|].
  revert E. unfold TaskRunner.post. destruct (_ <=? _); [done|]. intros [= <-].
  unfold in_order. simpl. by rewrite <- !app_assoc.
Qed.

#[export] Instance kis_gateway_laws : OrderGatewayLaws unit KisOrderGateway.
Proof.
  split; [| |done].
  - intros [] r g _. simpl. destruct (kis_request_cases r g) as [(q&->&_&Hq)| ->]; simpl; [|done].
    intros _. split; [done|]. rewrite Hq, fmap_app. simpl. by rewrite kis_task_cid.
  - intros [] r g. simpl. destruct (kis_request_cases r g) as [(q&->&_)| ->]; simpl; [done|].
    intros _. split; [done|]. by exists (dispatch_failure (request_cid r)).
Qed.

(** Requests from the trader and steps of the worker, interleaved; the venue answers each
    POST as it likes. *)
Inductive kis_trace : KisOrderGateway -> list (Request * bool) -> list OrderResponse ->
    KisOrderGateway -> Prop :=
  | kis_nil g : kis_trace g [] [] g
  | kis_call r g ok now g1 rs reps g' :
      0 <= request_cid r < 2 ^ 64 -> kis_request json r g = (ok, now, g1) ->
      kis_trace g1 rs reps g' -> kis_trace g ((r, ok) :: rs) (now ++ reps) g'
  | kis_work net g g1 rs reps g' :
      kis_worker_step json net g = Some g1 -> kis_trace g1 rs reps g' -> kis_trace g rs reps g'.

Record kis_ok (g : KisOrderGateway) : Prop := {
  ko_runner : runner_ok (kg_runner g);
  ko_replies : or_cid <$> kg_replies g = kt_cid <$> finished (kg_runner g) }.

Lemma run_task_cid net t : or_cid (run_task json net t) = kt_cid t.
Proof.
  unfold run_task. destruct (rr_ok _); [|done]. unfold parse_order_response.
  by destruct (read_order_response _ _).
Qed.

Lemma kis_worker_ok net g g' :
  kis_worker_step json net g = Some g' -> kis_ok g ->
  kis_ok g' /\ in_order (kg_runner g') = in_order (kg_runner g).
Proof.
  unfold kis_worker_step. destruct (TaskRunner.worker_step _) as [q|] eqn:Hw; simpl; [|done].
  intros [= <-] [Hr Hc]. destruct (worker_step_spec _ _ Hw Hr) as (Hq&Ho&_). split; [|done].
  split; simpl; [done|]. revert Hw. unfold TaskRunner.worker_step, finish_task, take_task.
  destruct (running (kg_runner g)) as [t|].
  - intros [= <-]. simpl. rewrite !fmap_app, Hc. simpl. by rewrite run_task_cid.
  - destruct (queue (kg_runner g)); intros [=]; by subst.
Qed.

Lemma kis_call_ok r g ok now g' :
  kis_request json r g = (ok, now, g') -> kis_ok g -> kis_ok g'.
Proof.
  intros Hr [Hq Hc]. destruct (kis_request_cases r g) as [(q&E&Hp&_)|E]; rewrite E in Hr; simplify_eq.
  - pose proof (post_spec (kis_task json g r) (kg_runner g) Hq) as (H&_). rewrite Hp in H.
    split; [done|]. simpl. rewrite Hc. revert Hp. unfold TaskRunner.post.
    destruct (_ <=? _); intros [=]; by subst.
  - by split.
Qed.

Lemma kis_trace_ok g rs reps g' :
  kis_trace g rs reps g' -> kis_ok g -> kis_ok g' /\ gw_trace (E:=unit) g rs reps g'.
Proof.
  induction 1 as [g|r g ok now g1 rs reps g' Hcid Hr _ IH|net g g1 rs reps g' Hw _ IH]; intros Hok.
  - split; [done|constructor].
  - destruct (IH (kis_call_ok _ _ _ _ _ Hr Hok)) as [H1 H2]. split; [done|].
    by apply (trace_request tt r g ok now g1).
  - destruct (kis_worker_ok _ _ _ Hw Hok) as [H Ho]. destruct (IH H) as [H1 H2]. split; [done|].
    apply (trace_silent g g1); [|done]. simpl. by rewrite Ho.
Qed.

Lemma kis_new_ok d a k t : kis_ok (KoreanStockOrderGateway_new json d a k t).
Proof. split; [apply runner_new_ok|done]. Qed.

(** C32: The KIS gateway sends in order and answers everything once.  Over any interleaving
    of the trader's requests with the worker, whatever the venue answers: the requests
    posted, in hand or waiting are exactly those accepted, in the order they were made;
    the worker has delivered one reply, with the request's own id, for each one it has
    posted; each refused request was answered with a failure on the spot; and once the
    backlog is empty every accepted request has been answered. *)
Theorem kis_orders_answered_once domain account keys token rs reps g :
  kis_trace (KoreanStockOrderGateway_new json domain account keys token) rs reps g ->
  kt_cid <$> in_order (kg_runner g) = accepted rs /\
  or_cid <$> kg_replies g = kt_cid <$> finished (kg_runner g) /\
  or_cid <$> reps = refused rs /\ Forall (fun r => or_success r = false) reps /\
  (pending (kg_runner g) = 0 -> or_cid <$> kg_replies g = accepted rs).
Proof.
  intros H. destruct (kis_trace_ok _ _ _ _ H (kis_new_ok _ _ _ _)) as [[Hr Hc] Ht].
  apply trace_spec in Ht as (H1&H2&H3). simpl in H1. split_and!; [done..|].
  intros Hz. rewrite Hc, <- H1. f_equal. by apply runner_idle.
Qed.

(** What a KIS order says for a whole number of shares at a whole price: the plain
    digits of both, whatever the size, as long as they are below [2 ^ 53]. *)
Theorem kis_order_text g i n k :
  opi_qty i = of_Z n -> opi_price i = of_Z k -> 0 <= n < 2 ^ 53 -> 0 <= k < 2 ^ 53 ->
  kt_params (kis_task json g (Place i)) = write_place json {|
    pp_CANO := ai_front (kg_account g); pp_ACNT_PRDT_CD := ai_rear (kg_account g);
    pp_PDNO := opi_product i; pp_ORD_DVSN := ord_dvsn (opi_is_limit i);
    pp_ORD_QTY := to_string n; pp_ORD_UNPR := to_string k |}.
Proof.
  intros Hq Hp Hn Hk. simpl. unfold write_order_place_params.
  by rewrite Hq, Hp, !double_to_string_integral.
Qed.

Definition flip (i : OrderPlaceInfo) : OrderPlaceInfo := {|
  opi_is_limit := opi_is_limit i; opi_is_bid := negb (opi_is_bid i); opi_price := opi_price i;
  opi_qty := opi_qty i; opi_product := opi_product i; opi_cid := opi_cid i;
  opi_reduce_only := opi_reduce_only i |}.
Definition as_built (g : KisOrderGateway) : Prop := exists domain account keys token,
  g = KoreanStockOrderGateway_new json domain account keys token.

(** The side of a KIS order is lost: a gateway posts the very same request for a buy
    and for the sell that is like it in everything else -- the parameters carry no side,
    and both sides' headers name the same transaction. *)
Theorem kis_side_is_lost g i :
  as_built g -> order_post (kis_task json g (Place (flip i))) = order_post (kis_task json g (Place i)).
Proof. intros (d&a&k&t&->). simpl. by destruct (opi_is_bid i). Qed.
End laws.

(** ** Witnesses *)
Module SampleKis.
Definition json : KisJson := {|
  write_balance _ := Some "{}";
  write_place p := "{ORD_QTY:" +:+ pp_ORD_QTY p +:+ "}";
  write_change p := "{ORGN_ODNO:" +:+ cp_ORGN_ODNO p +:+ "}";
  read_order_response _ := Some {|
    rt_cd := "0"; msg_cd := "APBK0013"; msg1 := "ok"; output_ODNO := ["0000117057"] |} |}.
Definition account : AccountInfo := {| ai_front := "1"; ai_rear := "01"; ai_hts_id := "h" |}.
Definition gw : KisOrderGateway :=
  KoreanStockOrderGateway_new json "https://kis" account
    (Some {| api_key := "k"; secret_key := "s" |}) (Some "t").
Definition net (_ : HttpRequest) : RestResponse := {|
  rr_success := true; rr_error_msg := ""; rr_status_code := 200; rr_body := "{}"; rr_headers := ∅ |}.
Definition buy : OrderPlaceInfo := {|
  opi_is_limit := true; opi_is_bid := true; opi_price := of_Z 71900; opi_qty := of_Z 10;
  opi_product := "005930"; opi_cid := 1; opi_reduce_only := false |}.
Definition posted : KisOrderGateway := (kis_request json (Place buy) gw).2.
Definition taken : KisOrderGateway := default posted (kis_worker_step json net posted).
Definition answered : KisOrderGateway := default taken (kis_worker_step json net taken).
End SampleKis.

Lemma kis_orders_answered_once_witness :
  or_cid <$> kg_replies SampleKis.answered = [1] /\
  or_order_no <$> kg_replies SampleKis.answered = ["0000117057"].
Proof.
  split; [|by vm_compute].
  destruct (kis_orders_answered_once SampleKis.json "https://kis" SampleKis.account
    (Some {| api_key := "k"; secret_key := "s" |}) (Some "t") [(Place SampleKis.buy, true)] []
    SampleKis.answered) as (_&_&_&_&H).
  - apply (kis_call _ (Place SampleKis.buy) _ true [] SampleKis.posted); [by vm_compute..|].
    apply (kis_work _ SampleKis.net _ SampleKis.taken); [by vm_compute|].
    apply (kis_work _ SampleKis.net _ SampleKis.answered); [by vm_compute|]. constructor.
  - by apply H; vm_compute.
Defined.

Lemma kis_order_text_witness :
  kt_params (kis_task SampleKis.json SampleKis.gw (Place SampleKis.buy)) = "{ORD_QTY:10}".
Proof.
  rewrite (kis_order_text SampleKis.json SampleKis.gw SampleKis.buy 10 71900);
    [by vm_compute|done..| |]; by vm_compute.
Defined.

Lemma kis_side_is_lost_witness :
  order_post (kis_task SampleKis.json SampleKis.gw (Place (flip SampleKis.buy))) =
  order_post (kis_task SampleKis.json SampleKis.gw (Place SampleKis.buy)).
Proof. apply kis_side_is_lost. by repeat eexists. Defined.
